(* ===== verification/_CoqProject ===== *)
-Q . S2P
Prelude.v
PyStr.v
Json.v
Sha256.v
Errors.v
Merkle.v
Consistency.v
Restatements.v
Signing.v
Ledger.v
Identity.v
Contracts.v
Time.v
Disposition.v
Events.v
Gates.v
Records.v
Backend.v
FileBackend.v
DbBackend.v
Query.v
Finalize.v
Reads.v
Projection.v
Migration.v
Writer.v
Reports.v
Handlers.v
Service.v
Auth.v
Directory.v
Credentials.v
Flows.v
Session.v
Sessions.v
Access.v
Reading.v
Schema.v
Migrating.v
Materializing.v
Client.v
Cli.v
Stamping.v
Release.v
Estate.v
Vectors.v
Argparse.v
Arguments.v
