(* ===== verification/Prelude.v ===== *)
(** * traust-ledger: a verification development

    traust-ledger keeps security dispositions as append-only event logs.  A
    _layer_ is one JSON document: metadata, a log of events about findings, a
    queue of statements that need review.  Clients submit events through a REST
    service, a Python client or a command line; every write goes through gates
    (who may say what), a writer (event ids, identity rule, deduplication), a
    Merkle stamp over the log and, where configured, a signature over the stamp
    and the digests in the metadata; storage is a directory of files or a
    database that refuses to rewrite history.  Reads derive the current
    disposition of each finding from the log.

    This library models that program function by function (paths below are under
    [src/src/traust_ledger/]) and proves what makes it correct.

    ** How the code is modelled

    Python functions are Rocq functions with the source's names; code that may
    raise returns [res A], with the exceptions of [Errors.v].  Documents are
    [json] values with dicts as finite maps, compared with Python's [==]
    ([py_eqb]).  Shared state is passed: a function that mutates a layer returns
    the layer.  A transaction of a backend is one transition of its store; what
    a loop commits before it raises is part of its result.  Texts are sequences
    of code points up to U+00FF; floating-point numbers, log output and the
    wording of messages are left out.  Code outside the repository is a
    parameter: SHA-256 ([HashFn], with the FIPS function as an instance for
    witnesses), the contract models and the layer schema ([Contracts] and its
    documented laws), the cosign process and the sigstore library
    ([SigningTools]), PyJWT, key files and the directory's command ([AuthTools] and
    [AuthLaws]), the home directory and the HTTP client ([HostTools], [Provider]),
    the registry of product repositories ([StorageRegistry]), the clock.  Each has
    a concrete instance, in which the witnesses evaluate.  No theorem assumes that the hash is injective: statements about
    tamper evidence conclude "or these byte strings collide".

    ** The files

    - [Prelude]: results, loops that may raise, tactics, lemmas on lists.
    - [PyStr], [Json], [Time], [Sha256]: the parts of Python's library the code
      uses - [str], UTF-8, [json.dumps] and [loads] (with the proof that loading
      a dump gives the document back), [datetime.fromisoformat], SHA-256.
    - [Errors]: [errors.py], [_internal/errors.py],
      [_internal/backends/errors.py] and the status codes of [service/app.py].
    - [Merkle], [Consistency]: [_internal/integrity/merkle.py] - roots,
      inclusion and consistency proofs, and their verifiers.
    - [Restatements]: [_internal/restatements.py].
    - [Signing]: [_internal/integrity/signing.py], both signing backends.
    - [Ledger]: [_internal/integrity/ledger.py] - stamping, signing, verifying.
    - [Identity]: [_internal/identity.py] and the fingerprint handler.
    - [Contracts]: the interface to the contracts package, with an instance.
    - [Disposition]: [_internal/disposition.py].
    - [Events]: [_internal/events/], [event_fields.py], [submissions.py].
    - [Gates]: [_internal/gates.py], [kinds.py].
    - [Records]: [_internal/backends/records.py], layers as rows.
    - [Backend]: keys, paths and the storage protocol: the class [Backend] of
      operations and the class [BackendLaws] of what they promise.
    - [FileBackend], [DbBackend]: the two backends, each an instance of both
      classes; the triggers of [_internal/migrations/schema.py] are the checks
      of an insertion.
    - [Query]: [_internal/query.py], [query_layers] of both backends and the
      listing route.
    - [Finalize]: [config.py], [_internal/layer_finalize.py], the sign, stamp and
      verify handlers.
    - [Reads]: [api/findings.py] and the layer, findings and events handlers.
    - [Projection]: [_internal/projection.py] and the loop of [cli/materialize.py].
    - [Migration]: [_internal/historical_migration.py].
    - [Writer]: [_internal/writer.py].
    - [Reports]: [_internal/reports.py].
    - [Handlers], [Service]: the write handlers and the routes over them, and the
      properties of whole requests.
    - [Auth]: [auth/claims.py], [verifier.py], [local.py] - tokens to actors; its
      monad [io] is the disk as a state, with exceptions that keep what was
      written.
    - [Directory]: [auth/directory.py], with the shell splitting it relies on.
    - [Credentials]: [auth/config.py], [discovery.py], [cli/identity/config.py],
      [cli/identity/actor.py] - where a token comes from and what verifies it.
    - [Flows]: [auth/flows/] - the exchanges with a provider.
    - [Session], [Sessions]: [cli/identity/commands.py], [cli/auth.py] - the login
      commands as operations on the disk, and what they keep.
    - [Access]: [service/identity/], [service/app.py] - the resolver of a request's
      actor and the whole answer to a request that writes; [Reading]: the routes
      that read, and every request.
    - [Schema]: [_internal/migrations/schema.py], [permissions.py] and
      [create_backend] - opening and creating a database, its guards, its roles;
      [Migrating]: [cli/commands/migrate.py] over it and [Migration];
      [Materializing]: the command of [cli/materialize.py] over it and [Projection].
    - [Client]: [client.py].
    - [Cli]: [cli/main.py], [cli/__init__.py], [cli/commands/] - the commands over
      the handlers, with exit codes; [Stamping]: [cli/commands/fingerprint.py].
    - [Release]: [release.py] and [ci/gates.py] at the repository's root, over a git
      repository that is a parameter ([Git], [GitLaws]); [Estate]:
      [ci/check_estate_data.py], with the regular expressions it uses; [Vectors]:
      [scripts/gen_identity_recipe_vectors.py] over the recipe of [Identity].
    - [Argparse]: what the programs use of Python's [argparse]; [Arguments]: every
      parser of the command line and of the scripts, the command a line stands for
      and [main] of [cli/main.py].

    The parts meet at interfaces: the writer, the handlers, the client and the
    commands are proved over any instance of [BackendLaws]; everything that
    verifies a token over any instance of [AuthLaws].  A request, a client's call
    and a command reach the store through the same handlers, and [entry_step] of
    [Cli] is their union.

    ** What is proved

    - Tamper evidence ([Merkle], [Consistency], [Ledger], [Reports]): a root
      binds the content of every event, proofs verify exactly for real members
      and prefixes - the bit walk of the consistency verifier is proved equal to
      the recursive definition - stamps verify after they are made, an edited log
      is detected, signatures cover the digests their format says.
    - Authority ([Gates], [Disposition], [Access], [Client], [Cli]): the gates pass
      exactly the callers they should; a false positive over an execution proof
      takes two people; what a request, a call or a command stores carries the
      actor whose token was verified, and nothing is answered without one; an
      accepted event is read back at once ([Reading]).
    - Identity ([Auth], [Directory], [Credentials], [Flows], [Sessions]): a token
      never chooses who verifies it; the directory fails closed; a local login is
      the actor of the commands after it; a machine identity is never turned into
      a person; a session command touches one server's credentials; waiting for a
      user's consent ends with the provider's first final answer.
    - History ([Records], [DbBackend], [Writer], [Cli]): the writer refines an
      append-only log, on any backend that keeps the laws; no request, call or
      command shortens or rewrites a log, not even one that fails half way, and
      metadata under a signature changes only as a restatement explains; reachable
      databases are sound.  Opening a database never migrates it, its guards keep
      the history whoever writes, its roles hold no more than they need ([Schema]).
    - Reads ([Reads], [Query], [Projection]): findings are exactly what the
      evidence says, pages partition what they page through and end, both
      backends list the same layers, the materialized table is exact and the
      command that makes it shows no password ([Materializing]).
    - Import ([Migration], [Migrating]): only selected, verified layers get in,
      nothing that was there changes, and exit code 0 means that everything asked
      for is in.
    - Data ([Json], [Records], [Identity], [Events], [Query]): round trips,
      independence of order, identifiers bound to content, typed filters.
    - Releases ([Release]): without force no tag moves or goes, a new one is the
      version's and above the latest; the bump is the largest any commit asks for.
      The guard of [Estate] reads exactly the lines a commit adds; the fixture of
      [Vectors] pins the fingerprints the ledger computes and is not redefined
      under its version.
    - Command lines ([Argparse], [Arguments]): parsing ends with a code or with
      arguments, and these stand for a command whose handler finds everything it
      reads, of the right type and among the choices.

    ** Fuel and bounds

    The Merkle recursions split a list at the largest power of two below its
    length; they run on fuel equal to the length, and lemmas show that any fuel
    at least as large gives the same result.  The bit loops of the consistency
    verifier use the bit length.  Cursor walks take one page more than there are
    layers, which is proved enough.  JSON parsing uses the length of the text.
    Redaction uses the length of the text, the loop of [Argparse] one more than the
    number of arguments; [redact_fuel] and [codes_consume] show that this is enough.
    Integers are Python's, hence [Z].

    The loop of the device-code flow has fuel for the requests it may make:
    [device_login_ends] says that any fuel beyond the first final answer gives the
    flow's result, and [poll_loop_waits] that it gives up for no other reason.

    ** What is not modelled

    Locks and temporary files (a backend operation is one step), the DDL of the
    tables (the contracts package's, a parameter [LedgerSql]), HTTP routing and
    request parsing (a request is its header, its parameters and its parsed body),
    the process start-up, logging and settings of [service/], printed text and the
    texts of the help, the browser and the HTTP transport under the flows, and the
    validation of request and response models by pydantic, a library.  [ledger sign]
    writes a file that is a document of its own; it is modelled, but as no step of
    the store's history, since it checks nothing the store promises. *)

From stdpp Require Export base tactics list gmap strings fin_maps sorting.
From Stdlib Require Export ZArith Lia Ascii.
From Corelib Require Export ssreflect.
From stdpp Require Import options.

#[global] Set Default Proof Using "Type".

Declare Scope ledger_scope.
Delimit Scope ledger_scope with ledger.

(** ** Results: Python code that may raise *)

(** [Ok a] is a normal return, [Err e] a raised exception. *)
Inductive result (E A : Type) : Type :=
| Ok (a : A)
| Err (e : E).
Arguments Ok {E A} _.
Arguments Err {E A} _.

#[global] Instance result_ret E : MRet (result E) := fun A a => Ok a.
#[global] Instance result_bind E : MBind (result E) :=
  fun A B f r => match r with Ok a => f a | Err e => Err e end.
#[global] Instance result_fmap E : FMap (result E) :=
  fun A B f r => match r with Ok a => Ok (f a) | Err e => Err e end.

#[global] Instance result_eq_dec {E A} `{EqDecision E, EqDecision A} :
  EqDecision (result E A).
Proof. solve_decision. Defined.

Definition is_ok {E A} (r : result E A) : bool :=
  match r with Ok _ => true | Err _ => false end.

(** [raise_if b e] is the statement [if b: raise e]. *)
Definition raise_if {E} (b : bool) (e : E) : result E unit :=
  if b then Err e else Ok tt.

(** [of_option o e] unwraps [o], raising [e] on [None]. *)
Definition of_option {E A} (o : option A) (e : E) : result E A :=
  match o with Some a => Ok a | None => Err e end.

(** A [for] loop whose body may raise, accumulating from the left. *)
Fixpoint foldM {E A B} (f : B -> A -> result E B) (l : list A) (b : B) : result E B :=
  match l with
  | [] => Ok b
  | x :: l => b' ← f b x; foldM f l b'
  end.

(** A list comprehension whose element expression may raise. *)
Fixpoint mapR {E A B} (f : A -> result E B) (l : list A) : result E (list B) :=
  match l with
  | [] => Ok []
  | x :: l => y ← f x; ys ← mapR f l; Ok (y :: ys)
  end.

(** A comprehension [[x for x in l if f(x)]] whose condition may raise. *)
Fixpoint filterR {E A} (f : A -> result E bool) (l : list A) : result E (list A) :=
  match l with
  | [] => Ok []
  | x :: l => b ← f x; xs ← filterR f l; Ok (if b then x :: xs else xs)
  end.

(** ** Tactics *)

(** Invert every successful bind, [raise_if] and [of_option] in hypotheses. *)
Ltac inv_ok1 :=
  match goal with
  | H : Ok _ = Ok _ |- _ => injection H as H; subst
  | H : Ok _ = Err _ |- _ => discriminate H
  | H : Err _ = Ok _ |- _ => discriminate H
  | H : Err _ = Err _ |- _ => injection H as H; subst
  | H : Some _ = Some _ |- _ => injection H as H; subst
  | H : Some _ = None |- _ => discriminate H
  | H : None = Some _ |- _ => discriminate H
  | H : (_, _) = (_, _) |- _ => injection H as; subst
  | H : mbind _ ?r = Ok _ |- _ =>
      let E := fresh "E" in destruct r eqn:E; simpl in H; [|discriminate H]
  | H : raise_if ?b _ = Ok _ |- _ =>
      let E := fresh "E" in destruct b eqn:E; [discriminate H|clear H]
  | H : of_option ?o _ = Ok _ |- _ =>
      let E := fresh "E" in destruct o eqn:E; simpl in H; [|discriminate H]
  end.
Ltac inv_ok := repeat (inv_ok1; simpl in *).

(** Case on every [match]/[if] scrutinee of the goal and close what is trivial. *)
Ltac break_match :=
  match goal with
  | |- context [match ?x with _ => _ end] => destruct x eqn:?
  end.
Ltac break_match_hyp :=
  match goal with
  | H : context [match ?x with _ => _ end] |- _ => destruct x eqn:?
  end.

(** One step through a successful chain of binds: the head computation of [H]
    succeeded; its equation is named by the pattern. *)
Tactic Notation "inv_bind" hyp(H) :=
  match type of H with
  | mbind _ ?r = Ok _ =>
      let E := fresh "E" in destruct r eqn:E; cbn [mbind result_bind] in H; [|discriminate H]
  end.
Tactic Notation "inv_bind" hyp(H) "as" simple_intropattern(p) ident(E) :=
  match type of H with
  | mbind _ ?r = Ok _ =>
      destruct r as p eqn:E; cbn [mbind result_bind] in H; [|discriminate H]
  end.

Create HintDb ledger.

(** ** Generic lemmas *)

Lemma bind_ok {E A B} (f : A -> result E B) (r : result E A) b :
  (a ← r; f a) = Ok b <-> exists a, r = Ok a /\ f a = Ok b.
Proof.
  split.
  - destruct r; simpl; [eauto|discriminate].
  - intros (a & -> & Hf). exact Hf.
Qed.

Lemma raise_if_ok {E} (b : bool) (e : E) u : raise_if b e = Ok u <-> b = false.
Proof. destruct b, u; naive_solver. Qed.

Lemma raise_if_err {E} (b : bool) (e e' : E) :
  raise_if b e = Err e' <-> b = true /\ e = e'.
Proof. destruct b; naive_solver. Qed.

Lemma mapR_ok_length {E A B} (f : A -> result E B) l ys :
  mapR f l = Ok ys -> length ys = length l.
Proof.
  revert ys; induction l as [|x l IH]; intros ys H; simpl in *; inv_ok; [done|].
  simpl. f_equal. by apply IH.
Qed.

Lemma mapR_ok_Forall2 {E A B} (f : A -> result E B) l ys :
  mapR f l = Ok ys <-> Forall2 (fun x y => f x = Ok y) l ys.
Proof.
  split.
  - revert ys; induction l as [|x l IH]; intros ys H; simpl in *; inv_ok; auto.
  - induction 1 as [|x y l ys Hx _ IH]; simpl; [done|].
    by rewrite Hx /= IH.
Qed.

Lemma foldM_app {E A B} (f : B -> A -> result E B) l1 l2 b :
  foldM f (l1 ++ l2) b = (b' ← foldM f l1 b; foldM f l2 b').
Proof.
  revert b. induction l1 as [|x l1 IH]; intros b; simpl; [done|].
  destruct (f b x); simpl; [apply IH|done].
Qed.

(** Mapping a permuted list permutes the results. *)
Lemma mapR_perm {E A B} (f : A -> result E B) l l' ys :
  mapR f l = Ok ys -> l ≡ₚ l' -> exists ys', mapR f l' = Ok ys' /\ ys ≡ₚ ys'.
Proof.
  intros Hm Hp. revert ys Hm.
  induction Hp as [|x l l' Hp IH|x y l|l1 l2 l3 Hp1 IH1 Hp2 IH2]; intros ys Hm; simpl in *.
  - exists []. by inv_ok.
  - inv_ok. destruct (IH _ eq_refl) as (ys' & -> & Hys). eexists. split; [done|]. by f_equiv.
  - inv_ok. eexists. split; [done|]. apply Permutation_swap.
  - destruct (IH1 _ Hm) as (ys1 & H1 & Hy1), (IH2 _ H1) as (ys2 & H2 & Hy2).
    exists ys2. split; [done|]. etrans; eassumption.
Qed.

(** A left fold whose every step preserves a relation to its start. *)
Lemma foldM_ind {E A B} (f : B -> A -> result E B) (P : B -> Prop) l b b' :
  (forall b x b', In x l -> P b -> f b x = Ok b' -> P b') ->
  P b -> foldM f l b = Ok b' -> P b'.
Proof.
  revert b; induction l as [|x l IH]; intros b Hf Hb H; simpl in *; inv_ok; [done|].
  eapply IH; [|eapply Hf|]; eauto.
Qed.

Lemma filterR_app {E A} (f : A -> result E bool) l1 l2 :
  filterR f (l1 ++ l2) = (x ← filterR f l1; y ← filterR f l2; Ok (x ++ y)).
Proof.
  induction l1 as [|a l1 IH]; simpl; [by destruct (filterR f l2)|].
  destruct (f a) as [b|]; simpl; [|done]. rewrite IH.
  destruct (filterR f l1); simpl; [|done]. destruct (filterR f l2); simpl; [|done].
  by destruct b.
Qed.

Lemma filterR_sublist {E A} (f : A -> result E bool) l l' :
  filterR f l = Ok l' -> sublist l' l.
Proof.
  revert l'. induction l as [|a l IH]; intros l' H; simpl in *; inv_ok; [constructor|].
  destruct a0; [apply sublist_skip|apply sublist_cons]; by apply IH.
Qed.

(** Loops whose every turn succeeds are their pure counterparts. *)
Lemma mapR_pure {E A B} (f : A -> result E B) (g : A -> B) l :
  (forall x, x ∈ l -> f x = Ok (g x)) -> mapR f l = Ok (map g l).
Proof.
  induction l as [|x l IH]; intros Hf; simpl; [done|].
  rewrite Hf; [by left|]. simpl. rewrite IH; [|done]. intros y Hy. apply Hf. by right.
Qed.
Lemma filterR_pure {E A} (f : A -> result E bool) (g : A -> bool) l :
  (forall x, x ∈ l -> f x = Ok (g x)) -> filterR f l = Ok (List.filter g l).
Proof.
  induction l as [|x l IH]; intros Hf; simpl; [done|].
  rewrite Hf; [by left|]. simpl. rewrite IH; [|done]. intros y Hy. apply Hf. by right.
Qed.
Lemma filter_omap {A B} (p : A -> bool) (f : A -> option B) (l : list A) :
  omap f (List.filter p l) = omap (fun x => if p x then f x else None) l.
Proof. induction l as [|x l IH]; csimpl; [done|]. destruct (p x); csimpl; by rewrite IH. Qed.
Lemma omap_map {X Y Z} (through : X -> Y) (pick : Y -> option Z) xs :
  omap pick (map through xs) = omap (fun x => pick (through x)) xs.
Proof. elim: xs => [//|x xs IH]. csimpl. by rewrite IH. Qed.
Lemma omap_ext_in {X Y} (pick pick' : X -> option Y) (xs : list X) :
  (forall x, x ∈ xs -> pick x = pick' x) -> omap pick xs = omap pick' xs.
Proof.
  elim: xs => [//|x xs IH] Heq. csimpl. rewrite Heq; [by left|].
  rewrite IH; [|done]. intros y Hy. apply Heq. by right.
Qed.

(** ** Lists *)

Lemma filter_all {A} (keep : A -> bool) l :
  (forall x, In x l -> keep x = true) -> List.filter keep l = l.
Proof.
  induction l as [|x l IH]; intros H; simpl; [done|].
  rewrite (H x (or_introl eq_refl)). f_equal. apply IH. intros; apply H; by right.
Qed.

Lemma forallb_perm {A} (f : A -> bool) l l' : l ≡ₚ l' -> forallb f l = forallb f l'.
Proof.
  induction 1 as [|x l l' _ IH|x y l|l1 l2 l3 _ IH1 _ IH2]; simpl; [done|by rewrite IH| |congruence].
  by destruct (f x), (f y).
Qed.

Lemma NoDup_map_inj {A B} (g : A -> B) l x y :
  NoDup (map g l) -> x ∈ l -> y ∈ l -> g x = g y -> x = y.
Proof.
  induction l as [|a l IH]; simpl; intros Hnd Hx Hy Hg; [by apply not_elem_of_nil in Hx|].
  apply NoDup_cons in Hnd as [Ha Hnd].
  assert (forall z, z ∈ l -> g z <> g a) as Hne.
  { intros z Hz Heq. apply Ha. rewrite -Heq. by apply (list_elem_of_fmap_2 g). }
  apply elem_of_cons in Hx as [->|Hx], Hy as [->|Hy]; [done| | |by apply IH].
  - by destruct (Hne y).
  - by destruct (Hne x).
Qed.

Lemma filter_filter_and {A} (f g : A -> bool) l :
  List.filter g (List.filter f l) = List.filter (fun x => f x && g x) l.
Proof. induction l as [|x l IH]; simpl; [done|]. destruct (f x); simpl; by rewrite IH. Qed.

(** The last element that passes a test, and what comes after it. *)
Lemma last_filter_split {A} (f : A -> bool) l x : last (List.filter f l) = Some x ->
  exists pre post, l = pre ++ x :: post /\ f x = true /\ forall y, y ∈ post -> f y = false.
Proof.
  induction l as [|a l IH] using rev_ind; [done|]. rewrite List.filter_app. simpl.
  destruct (f a) eqn:Ha; simpl.
  - rewrite last_snoc. intros [= ->]. exists l, []. split; [done|]. split; [done|].
    by intros y ?%not_elem_of_nil.
  - rewrite app_nil_r. intros (pre & post & -> & Hx & Hpost)%IH. exists pre, (post ++ [a]).
    split; [by rewrite -app_assoc|]. split; [done|].
    intros y [Hy| ->%list_elem_of_singleton]%elem_of_app; [by apply Hpost|done].
Qed.

Lemma fold_min_spec l a :
  let m := fold_left Z.min l a in
  (m <= a)%Z /\ (forall y, y ∈ l -> (m <= y)%Z) /\ (m = a \/ m ∈ l).
Proof.
  revert a. induction l as [|x l IH]; intros a; cbn [fold_left].
  - split; [lia|]. split; [by intros y ?%not_elem_of_nil|by left].
  - destruct (IH (Z.min a x)) as (Hle & Hall & Hin). split; [lia|]. split.
    + intros y [->|Hy]%elem_of_cons; [lia|by apply Hall].
    + destruct Hin as [->|Hin]; [|right; by right].
      destruct (Z.min_spec a x) as [[_ ->]|[_ ->]]; [by left|right; by left].
Qed.

Lemma map_inj_eq {A B} (f : A -> B) l1 l2 :
  (forall a b, f a = f b -> a = b) -> map f l1 = map f l2 -> l1 = l2.
Proof.
  intros Hf. revert l2. induction l1 as [|a l1 IH]; intros [|b l2] Heq; try done.
  injection Heq as Ha Hl. f_equal; [by apply Hf|by apply IH].
Qed.

(** ** A stable sort on an integer key *)
Section SortOn.
Context {A : Type} (key : A -> Z).
Fixpoint insert_on (x : A) (l : list A) : list A :=
  match l with
  | [] => [x]
  | y :: l' => if (key x <? key y)%Z then x :: l else y :: insert_on x l'
  end.
Definition sort_on (l : list A) : list A := fold_left (fun acc x => insert_on x acc) l [].

Lemma insert_on_last x l : (forall y, y ∈ l -> (key y <= key x)%Z) -> insert_on x l = l ++ [x].
Proof.
  induction l as [|y l IH]; intros Hl; simpl; [done|].
  destruct (Z.ltb_spec (key x) (key y)) as [Hlt|_].
  - pose proof (Hl y (list_elem_of_here _ _)). lia.
  - f_equal. apply IH. intros z Hz. apply Hl. by right.
Qed.
(** A list numbered from [0] is in order. *)
Lemma sort_on_numbered l : map key l = map Z.of_nat (seq 0 (length l)) -> sort_on l = l.
Proof.
  unfold sort_on. induction l as [|x l IH] using rev_ind; [done|].
  rewrite fold_left_app length_app map_app seq_app map_app /=.
  intros [Hl [= Hx]]%app_inj_1; [|by rewrite !length_map length_seq].
  rewrite IH //. apply insert_on_last. intros y Hy.
  apply (list_elem_of_fmap_2 key) in Hy. change (key <$> l) with (map key l) in Hy. rewrite Hl in Hy.
  apply list_elem_of_fmap in Hy as (n & -> & Hn%elem_of_seq). lia.
Qed.
End SortOn.
