(* ===== verification/PyStr.v ===== *)
(** * Python [str] and [bytes]

    The text and byte operations of the Python standard library that the
    ledger uses.  A [str] is a Rocq [string] whose characters are read as the
    code points U+0000..U+00FF; the operations below are exact on that range
    ([strip], [lower] and UTF-8 never leave it).  [bytes] is a list of bytes. *)

From S2P Require Import Prelude.
From Stdlib Require Import Strings.Byte.
From stdpp Require Import options.

Notation bytes := (list Byte.byte).
Notation chars := String.list_ascii_of_string.
Notation of_chars := String.string_of_list_ascii.

(** ** Code points *)

Definition code (c : ascii) : Z := Z.of_N (N_of_ascii c).

Definition in_range (lo hi : Z) (c : ascii) : bool :=
  (lo <=? code c)%Z && (code c <=? hi)%Z.

Definition is_digit (c : ascii) : bool := in_range 48 57 c.
Definition is_lower_az (c : ascii) : bool := in_range 97 122 c.
Definition is_upper_az (c : ascii) : bool := in_range 65 90 c.

(** [str.isspace] on the Latin-1 range: \t..\r, FS..US, space, NEL, NBSP. *)
Definition is_space (c : ascii) : bool :=
  in_range 9 13 c || in_range 28 32 c || (code c =? 133)%Z || (code c =? 160)%Z.

Definition shift_char (d : Z) (c : ascii) : ascii := ascii_of_N (Z.to_N (code c + d)).

(** ** Stripping, folding, affixes *)

Fixpoint lstrip_by (f : ascii -> bool) (l : list ascii) : list ascii :=
  match l with
  | c :: l' => if f c then lstrip_by f l' else l
  | [] => []
  end.
Definition rstrip_by (f : ascii -> bool) (l : list ascii) : list ascii :=
  rev (lstrip_by f (rev l)).

(** [s.strip()], [s.lstrip(set)], [s.rstrip(set)]. *)
Definition strip (s : string) : string :=
  of_chars (rstrip_by is_space (lstrip_by is_space (chars s))).

(** [s.lower()] on the Latin-1 range (A-Z and the accented capitals but the
    multiplication sign). *)
Definition lower_char (c : ascii) : ascii :=
  if is_upper_az c || (in_range 192 222 c && negb (code c =? 215)%Z)
  then shift_char 32 c else c.
Definition lower (s : string) : string := of_chars (map lower_char (chars s)).

Definition startswith (s p : string) : bool := String.prefix p s.
Definition endswith (s p : string) : bool :=
  String.prefix (of_chars (rev (chars p))) (of_chars (rev (chars s))).

(** [s[:n]] and [len(s)]. *)
Definition str_take (n : nat) (s : string) : string := of_chars (take n (chars s)).
Definition str_len (s : string) : Z := Z.of_nat (String.length s).

(** [bool(s)]. *)
Definition str_truthy (s : string) : bool := negb (String.eqb s "").

(** [bool(v)] and [v or w] for an optional string. *)
Definition opt_truthy (o : option string) : bool :=
  match o with Some s => str_truthy s | None => false end.
Definition opt_or (o p : option string) : option string := if opt_truthy o then o else p.
Definition str_or (o : option string) (d : string) : string := default d (opt_or o None).

(** [s.split(sep)] for a one-character separator, and [sep.join(parts)]. *)
Fixpoint split_chars (sep : ascii) (cur l : list ascii) : list (list ascii) :=
  match l with
  | [] => [rev cur]
  | c :: l' => if Ascii.eqb c sep then rev cur :: split_chars sep [] l'
              else split_chars sep (c :: cur) l'
  end.
Definition split (sep : ascii) (s : string) : list string :=
  map of_chars (split_chars sep [] (chars s)).
Definition join (sep : string) (parts : list string) : string := String.concat sep parts.

(** [s.partition(sep)]: the parts around the first separator, if there is one. *)
Fixpoint partition_chars (sep : ascii) (cur l : list ascii)
  : option (list ascii * list ascii) :=
  match l with
  | [] => None
  | c :: l' => if Ascii.eqb c sep then Some (rev cur, l')
              else partition_chars sep (c :: cur) l'
  end.
Definition partition (sep : ascii) (s : string) : option (string * string) :=
  match partition_chars sep [] (chars s) with
  | Some (a, b) => Some (of_chars a, of_chars b)
  | None => None
  end.

(** ** UTF-8 and hexadecimal *)

Definition byte_of_Z (z : Z) : Byte.byte :=
  match Byte.of_N (Z.to_N z) with Some b => b | None => x00 end.
Definition Z_of_byte (b : Byte.byte) : Z := Z.of_N (Byte.to_N b).

Definition utf8_char (c : ascii) : bytes :=
  if (code c <? 128)%Z then [byte_of_Z (code c)]
  else [byte_of_Z (192 + code c / 64)%Z; byte_of_Z (128 + code c mod 64)%Z].

(** [s.encode("utf-8")]. *)
Definition utf8_chars (l : list ascii) : bytes := flat_map utf8_char l.
Definition utf8 (s : string) : bytes := utf8_chars (chars s).

(** [b.decode("utf-8")]; [None] stands for [UnicodeDecodeError], and for text
    beyond U+00FF. *)
Fixpoint utf8_decode (b : bytes) : option (list ascii) :=
  match b with
  | [] => Some []
  | x :: b' =>
      if (Z_of_byte x <? 128)%Z then
        cons (ascii_of_N (Byte.to_N x)) <$> utf8_decode b'
      else if (194 <=? Z_of_byte x)%Z && (Z_of_byte x <=? 195)%Z then
        match b' with
        | y :: b'' =>
            if (128 <=? Z_of_byte y)%Z && (Z_of_byte y <? 192)%Z then
              cons (ascii_of_N (Z.to_N ((Z_of_byte x - 192) * 64 + (Z_of_byte y - 128))))
                <$> utf8_decode b''
            else None
        | [] => None
        end
      else None
  end.

Definition hex_digit (z : Z) : ascii :=
  if (z <? 10)%Z then ascii_of_N (Z.to_N (48 + z)) else ascii_of_N (Z.to_N (87 + z)).
Definition hex_byte (b : Byte.byte) : list ascii :=
  [hex_digit (Z_of_byte b / 16); hex_digit (Z_of_byte b mod 16)].

(** [b.hex()]. *)
Definition hex (b : bytes) : string := of_chars (flat_map hex_byte b).

Definition unhex_digit (c : ascii) : option Z :=
  if is_digit c then Some (code c - 48)%Z
  else if in_range 97 102 c then Some (code c - 87)%Z
  else if in_range 65 70 c then Some (code c - 55)%Z
  else None.

(** [bytes.fromhex(s)]; ASCII white space is allowed between bytes. *)
Definition is_ascii_space (c : ascii) : bool := in_range 9 13 c || (code c =? 32)%Z.
Fixpoint fromhex_chars (l : list ascii) : option bytes :=
  match l with
  | [] => Some []
  | a :: l' =>
      if is_ascii_space a then fromhex_chars l'
      else match l' with
           | b :: l'' =>
               x ← unhex_digit a; y ← unhex_digit b; r ← fromhex_chars l'';
               Some (byte_of_Z (x * 16 + y)%Z :: r)
           | [] => None
           end
  end.
Definition fromhex (s : string) : option bytes := fromhex_chars (chars s).

(** ** Lemmas *)

Lemma chars_of_chars l : chars (of_chars l) = l.
Proof. apply String.list_ascii_of_string_of_list_ascii. Qed.
Lemma of_chars_chars s : of_chars (chars s) = s.
Proof. apply String.string_of_list_ascii_of_string. Qed.
Hint Rewrite chars_of_chars of_chars_chars : ledger.

#[global] Instance chars_inj : Inj (=) (=) (fun s : string => chars s).
Proof. intros s s' H. rewrite -(of_chars_chars s) -(of_chars_chars s'). congruence. Qed.
#[global] Instance of_chars_inj : Inj (=) (=) (fun l : list ascii => of_chars l).
Proof. intros s s' H. rewrite -(chars_of_chars s) -(chars_of_chars s'). congruence. Qed.

Lemma of_chars_app l1 l2 : of_chars (l1 ++ l2) = of_chars l1 +:+ of_chars l2.
Proof.
  induction l1 as [|c l1 IH]; [done|].
  change (String c (of_chars (l1 ++ l2)) = String c (of_chars l1 +:+ of_chars l2)).
  by f_equal.
Qed.
Lemma chars_app s1 s2 : chars (s1 +:+ s2) = chars s1 ++ chars s2.
Proof.
  induction s1 as [|c s1 IH]; [done|].
  change (c :: chars (s1 +:+ s2) = c :: chars s1 ++ chars s2). by f_equal.
Qed.

Lemma code_bound c : (0 <= code c < 256)%Z.
Proof.
  unfold code. pose proof (N_ascii_bounded c). lia.
Qed.
Lemma ascii_of_code c : ascii_of_N (Z.to_N (code c)) = c.
Proof. unfold code. by rewrite N2Z.id ascii_N_embedding. Qed.
Lemma code_of_Z z : (0 <= z < 256)%Z -> code (ascii_of_N (Z.to_N z)) = z.
Proof. intros. unfold code. rewrite N_ascii_embedding; lia. Qed.

Lemma Z_of_byte_bound b : (0 <= Z_of_byte b < 256)%Z.
Proof. unfold Z_of_byte. pose proof (Byte.to_N_bounded b). lia. Qed.
Lemma Z_of_byte_of_Z z : (0 <= z < 256)%Z -> Z_of_byte (byte_of_Z z) = z.
Proof.
  intros Hz. unfold Z_of_byte, byte_of_Z.
  destruct (Byte.of_N (Z.to_N z)) eqn:E.
  - apply Byte.to_of_N in E. lia.
  - apply Byte.of_N_None_iff in E. lia.
Qed.
Lemma byte_of_Z_of_byte b : byte_of_Z (Z_of_byte b) = b.
Proof. unfold Z_of_byte, byte_of_Z. by rewrite N2Z.id Byte.of_to_N. Qed.
#[global] Instance Z_of_byte_inj : Inj (=) (=) Z_of_byte.
Proof. intros a b H. rewrite -(byte_of_Z_of_byte a) -(byte_of_Z_of_byte b). congruence. Qed.

#[global] Instance byte_eq_dec : EqDecision Byte.byte := Byte.byte_eq_dec.

(** Decoding inverts encoding. *)
Lemma utf8_decode_char c l :
  utf8_decode (utf8_char c ++ l) = cons c <$> utf8_decode l.
Proof.
  pose proof (code_bound c) as Hc. unfold utf8_char.
  destruct (Z.ltb_spec (code c) 128) as [Hlt|Hge]; simpl.
  - rewrite Z_of_byte_of_Z; [lia|]. destruct (Z.ltb_spec (code c) 128); [|lia].
    assert (ascii_of_N (Byte.to_N (byte_of_Z (code c))) = c) as ->; [|done].
    rewrite -{2}(ascii_of_code c). f_equal.
    pose proof (Z_of_byte_of_Z (code c)) as HZ. unfold Z_of_byte in HZ. lia.
  - assert (2 <= code c / 64 <= 3)%Z as Hq.
    { split; [apply Z.div_le_lower_bound|apply Z.lt_succ_r, Z.div_lt_upper_bound]; lia. }
    assert (0 <= code c mod 64 < 64)%Z as Hm by (apply Z.mod_pos_bound; lia).
    rewrite !Z_of_byte_of_Z; try lia.
    destruct (Z.ltb_spec (192 + code c / 64) 128); [lia|].
    destruct (Z.leb_spec 194 (192 + code c / 64)); [|lia].
    destruct (Z.leb_spec (192 + code c / 64) 195); [|lia].
    destruct (Z.leb_spec 128 (128 + code c mod 64)); [|lia].
    destruct (Z.ltb_spec (128 + code c mod 64) 192); [|lia]. simpl.
    replace ((192 + code c / 64 - 192) * 64 + (128 + code c mod 64 - 128))%Z with (code c).
    + by rewrite ascii_of_code.
    + pose proof (Z.div_mod (code c) 64). lia.
Qed.

Lemma utf8_decode_encode l : utf8_decode (utf8_chars l) = Some l.
Proof.
  induction l as [|c l IH]; [done|].
  change (utf8_chars (c :: l)) with (utf8_char c ++ utf8_chars l).
  by rewrite utf8_decode_char IH.
Qed.

#[global] Instance utf8_chars_inj : Inj (=) (=) utf8_chars.
Proof.
  intros l l' H. apply (f_equal utf8_decode) in H. rewrite !utf8_decode_encode in H.
  congruence.
Qed.
#[global] Instance utf8_inj : Inj (=) (=) utf8.
Proof. intros s s' H%(inj utf8_chars). by apply (inj (fun s : string => chars s)). Qed.

(** Reading back the hexadecimal form. *)
Lemma unhex_hex_digit z : (0 <= z < 16)%Z -> unhex_digit (hex_digit z) = Some z.
Proof.
  intros Hz. unfold hex_digit.
  destruct (Z.ltb_spec z 10); unfold unhex_digit, is_digit, in_range; rewrite code_of_Z;
    try lia; repeat match goal with |- context [(?a <=? ?b)%Z] => destruct (Z.leb_spec a b) end;
    simpl; first [lia | f_equal; lia].
Qed.

Lemma hex_digit_not_space z : (0 <= z < 16)%Z -> is_ascii_space (hex_digit z) = false.
Proof.
  intros Hz. unfold hex_digit.
  destruct (Z.ltb_spec z 10); unfold is_ascii_space, in_range; rewrite code_of_Z; lia.
Qed.

Lemma fromhex_hex b : fromhex (hex b) = Some b.
Proof.
  unfold fromhex, hex. rewrite chars_of_chars.
  induction b as [|x b IH]; [done|]. simpl.
  pose proof (Z_of_byte_bound x).
  assert (0 <= Z_of_byte x / 16 < 16)%Z
    by (split; [apply Z.div_pos|apply Z.div_lt_upper_bound]; lia).
  assert (0 <= Z_of_byte x mod 16 < 16)%Z by (apply Z.mod_pos_bound; lia).
  rewrite hex_digit_not_space // !unhex_hex_digit //= IH /=.
  rewrite -{3}(byte_of_Z_of_byte x). do 3 f_equal.
  pose proof (Z.div_mod (Z_of_byte x) 16). lia.
Qed.

#[global] Instance hex_inj : Inj (=) (=) hex.
Proof.
  intros b b' H. apply (f_equal fromhex) in H. rewrite !fromhex_hex in H. congruence.
Qed.

Lemma str_truthy_spec s : str_truthy s = true <-> s <> "".
Proof.
  unfold str_truthy. rewrite negb_true_iff.
  destruct (String.eqb_spec s ""); split; congruence.
Qed.
