(* ===== verification/Json.v ===== *)
(** * JSON documents

    The ledger's layers, events and metadata are plain Python values read from
    JSON: [None], [bool], [int], [str], [list] and [dict].  A [dict] is a
    finite map from [str]; its insertion order never reaches a result of the
    modelled code (every serialization that is hashed or stored sorts its
    keys).  Floating-point numbers are outside the model.

    This file models Python's [==] and truth values on such documents, and the
    standard library's [json.dumps] (compact, sorted keys) and [json.loads],
    with the theorem that loading a dump gives the document back. *)

From S2P Require Import Prelude PyStr.
From stdpp Require Import countable options.

Unset Elimination Schemes.
Inductive json : Type :=
| JNull
| JBool (b : bool)
| JInt (z : Z)
| JStr (s : string)
| JArr (l : list json)
| JObj (m : gmap string json).
Set Elimination Schemes.

Notation dict := (gmap string json).

(** ** Size and induction *)

Fixpoint jsize (j : json) : nat :=
  match j with
  | JArr l => S (sum_list_with jsize l)
  | JObj m => S (map_fold (fun _ v n => jsize v + n) 0 m)
  | _ => 1
  end.

Lemma jsize_arr l v : In v l -> jsize v < jsize (JArr l).
Proof.
  intros H. simpl. apply le_n_S. induction l as [|x l IH]; [done|].
  destruct H as [->|H]; simpl; [lia|]. specialize (IH H). lia.
Qed.

Lemma jsize_obj (m : dict) k v : m !! k = Some v -> jsize v < jsize (JObj m).
Proof.
  intros H. simpl. apply le_n_S. rewrite -(insert_delete_id m k v H).
  rewrite map_fold_insert_L; [|apply lookup_delete_eq|].
  - intros. lia.
  - lia.
Qed.

Lemma json_ind (P : json -> Prop) :
  P JNull -> (forall b, P (JBool b)) -> (forall z, P (JInt z)) -> (forall s, P (JStr s)) ->
  (forall l, Forall P l -> P (JArr l)) ->
  (forall m : dict, map_Forall (fun _ v => P v) m -> P (JObj m)) ->
  forall j, P j.
Proof.
  intros H1 H2 H3 H4 H5 H6 j.
  assert (forall n j, jsize j < n -> P j) as H; [|by apply (H (S (jsize j))); lia].
  clear j. intros n. induction n as [|n IHn]; intros j Hj; [lia|].
  destruct j as [| | | |l|m]; auto.
  - apply H5, Forall_forall. intros x Hx. apply IHn.
    apply jsize_arr in Hx. lia.
  - apply H6. intros k v Hk. apply IHn. pose proof (jsize_obj m k v Hk). lia.
Qed.

(** ** Decidable equality, through a first-order encoding *)

Fixpoint json_to_tree (j : json) : gen_tree (bool + Z + string) :=
  match j with
  | JNull => GenNode 0 []
  | JBool b => GenLeaf (inl (inl b))
  | JInt z => GenLeaf (inl (inr z))
  | JStr s => GenLeaf (inr s)
  | JArr l => GenNode 1 (json_to_tree <$> l)
  | JObj m => GenNode 2 (map_fold (fun k v r => GenLeaf (inr k) :: json_to_tree v :: r) [] m)
  end.

Fixpoint json_of_tree (t : gen_tree (bool + Z + string)) : json :=
  match t with
  | GenLeaf (inl (inl b)) => JBool b
  | GenLeaf (inl (inr z)) => JInt z
  | GenLeaf (inr s) => JStr s
  | GenNode 1 l => JArr (json_of_tree <$> l)
  | GenNode 2 l =>
      JObj ((fix go (l : list (gen_tree (bool + Z + string))) : dict :=
        match l with
        | GenLeaf (inr k) :: t :: l' => <[k := json_of_tree t]> (go l')
        | _ => ∅
        end) l)
  | GenNode _ _ => JNull
  end.

Lemma json_of_to_tree j : json_of_tree (json_to_tree j) = j.
Proof.
  induction j as [| | | |l IH|m IH] using json_ind; simpl; try done.
  - f_equal. induction IH as [|x l Hx _ IHl]; [done|]. csimpl. by rewrite Hx IHl.
  - f_equal. induction m as [|k v m Hk Hfst IHm] using map_first_key_ind.
    { done. }
    rewrite map_fold_insert_first_key //.
    apply map_Forall_insert in IH as [Hv IH]; [|done]. simpl.
    rewrite Hv. f_equal. by apply IHm.
Qed.

#[global] Instance json_eq_dec : EqDecision json.
Proof.
  refine (fun a b => cast_if (decide (json_to_tree a = json_to_tree b))).
  - rewrite -(json_of_to_tree a) -(json_of_to_tree b). congruence.
  - congruence.
Defined.

#[global] Instance JObj_inj : Inj (=) (=) JObj.
Proof. intros a b Heq. by injection Heq. Qed.
#[global] Instance JStr_inj : Inj (=) (=) JStr.
Proof. intros a b Heq. by injection Heq. Qed.

(** ** Truth values, [isinstance], [==] *)

(** [bool(v)]. *)
Definition truthy (j : json) : bool :=
  match j with
  | JNull => false
  | JBool b => b
  | JInt z => negb (z =? 0)%Z
  | JStr s => str_truthy s
  | JArr l => match l with [] => false | _ => true end
  | JObj m => bool_decide (m <> ∅)
  end.

(** [d.get(k)] with [None] for a missing key, and its truth value. *)
Definition get (k : string) (d : dict) : json := default JNull (d !! k).
Definition get_truthy (k : string) (d : dict) : bool := truthy (get k d).

(** [isinstance(v, dict)], [isinstance(v, list)], [isinstance(v, str)]. *)
Definition as_dict (j : json) : option dict := match j with JObj m => Some m | _ => None end.
Definition as_list (j : json) : option (list json) := match j with JArr l => Some l | _ => None end.
Definition as_str (j : json) : option string := match j with JStr s => Some s | _ => None end.
Definition is_dict (j : json) : bool := match j with JObj _ => true | _ => false end.
Definition is_null (j : json) : bool := match j with JNull => true | _ => false end.

(** Python's [==] identifies [True] with [1] and [False] with [0], at any
    depth; otherwise it is structural and ignores the order of keys. *)
Fixpoint jnorm (j : json) : json :=
  match j with
  | JBool b => JInt (if b then 1 else 0)%Z
  | JArr l => JArr (jnorm <$> l)
  | JObj m => JObj (jnorm <$> m)
  | _ => j
  end.
Definition py_eqb (a b : json) : bool := bool_decide (jnorm a = jnorm b).
Definition py_neqb (a b : json) : bool := negb (py_eqb a b).

(** [v in [...]] *)
Definition py_in (v : json) (l : list json) : bool := existsb (py_eqb v) l.

Lemma get_insert_eq k v (d : dict) : get k (<[k := v]> d) = v.
Proof. unfold get. by rewrite lookup_insert_eq. Qed.
Lemma get_insert_ne k k' v (d : dict) : k' <> k -> get k (<[k' := v]> d) = get k d.
Proof. intros Hk. unfold get. by rewrite lookup_insert_ne. Qed.
Lemma get_delete_ne k k' (d : dict) : k' <> k -> get k (delete k' d) = get k d.
Proof. intros Hk. unfold get. by rewrite lookup_delete_ne. Qed.
Lemma get_delete_eq k (d : dict) : get k (delete k d) = JNull.
Proof. unfold get. by rewrite lookup_delete_eq. Qed.

Lemma py_eqb_refl j : py_eqb j j = true.
Proof. by apply bool_decide_eq_true. Qed.
Lemma py_eqb_sym a b : py_eqb a b = py_eqb b a.
Proof. unfold py_eqb. apply bool_decide_ext. naive_solver. Qed.
Lemma py_eqb_trans a b c : py_eqb a b = true -> py_eqb b c = true -> py_eqb a c = true.
Proof. unfold py_eqb. rewrite !bool_decide_eq_true. congruence. Qed.
Lemma py_eqb_str s t : py_eqb (JStr s) (JStr t) = String.eqb s t.
Proof.
  unfold py_eqb. simpl. destruct (String.eqb_spec s t) as [->|Hne].
  - by apply bool_decide_eq_true.
  - apply bool_decide_eq_false. congruence.
Qed.
Lemma py_eqb_str_r v s : py_eqb v (JStr s) = bool_decide (v = JStr s).
Proof. unfold py_eqb. apply bool_decide_ext. destruct v; simpl; split; congruence. Qed.
Lemma py_eqb_str_l s j : py_eqb (JStr s) j = true -> j = JStr s.
Proof. unfold py_eqb. rewrite bool_decide_eq_true. destruct j; simpl; congruence. Qed.
Lemma py_eqb_null j : py_eqb JNull j = is_null j.
Proof. destruct j; try done; by apply bool_decide_eq_false. Qed.
Lemma py_eqb_obj (a b : dict) k :
  py_eqb (JObj a) (JObj b) = true -> py_eqb (get k a) (get k b) = true.
Proof.
  unfold py_eqb. rewrite !bool_decide_eq_true. simpl. intros H.
  injection H as H. apply (f_equal (lookup k)) in H. rewrite !lookup_fmap in H.
  unfold get. destruct (a !! k), (b !! k); simpl in *; congruence.
Qed.
#[export] Hint Resolve py_eqb_refl : ledger.

(** ** Items of a dict in key order ([sorted(d.items())]) *)

Definition key_le {A} (a b : string * A) : Prop := String.le a.1 b.1.
#[global] Instance key_le_dec {A} : RelDecision (@key_le A).
Proof. intros a b. unfold key_le. apply _. Defined.
#[global] Instance key_le_trans {A} : Transitive (@key_le A).
Proof. intros a b c. unfold key_le. apply (transitivity (R := String.le)). Qed.
#[global] Instance key_le_total {A} : Total (@key_le A).
Proof. intros a b. unfold key_le. apply (total String.le). Qed.

Definition items {A} (m : gmap string A) : list (string * A) :=
  merge_sort key_le (map_to_list m).

Lemma items_perm {A} (m : gmap string A) : items m ≡ₚ map_to_list m.
Proof. apply merge_sort_Permutation. Qed.
Lemma items_sorted {A} (m : gmap string A) : StronglySorted key_le (items m).
Proof. apply (StronglySorted_merge_sort key_le). Qed.
Lemma items_nodup {A} (m : gmap string A) : NoDup (items m).*1.
Proof. rewrite items_perm. apply NoDup_fst_map_to_list. Qed.
Lemma items_lookup {A} (m : gmap string A) k v : (k, v) ∈ items m <-> m !! k = Some v.
Proof. rewrite items_perm. apply elem_of_map_to_list. Qed.
Lemma items_to_map {A} (m : gmap string A) : list_to_map (items m) = m.
Proof.
  rewrite -{2}(list_to_map_to_list m).
  apply list_to_map_proper; [apply items_nodup|apply items_perm].
Qed.

Lemma items_fmap {A B} (f : A -> B) (m : gmap string A) :
  items (f <$> m) = prod_map id f <$> items m.
Proof.
  apply (StronglySorted_unique_strong key_le).
  - intros [k v] [k' v'] H1 H2 L1 L2. unfold key_le in *; simpl in *.
    assert (k = k') as -> by (by apply (anti_symm String.le)).
    apply items_lookup in H1. f_equal.
    apply list_elem_of_fmap in H2 as ([k2 w] & Heq & H2). injection Heq as -> ->.
    apply items_lookup in H2. simpl in *. rewrite lookup_fmap H2 in H1. by injection H1.
  - apply items_sorted.
  - apply (StronglySorted_fmap (prod_map id f) key_le key_le); [done|]. apply items_sorted.
  - rewrite !items_perm. rewrite map_to_list_fmap. done.
Qed.

(** ** [json.dumps] *)

Definition digit_char (z : Z) : ascii := ascii_of_N (Z.to_N (48 + z)).

(** [int.__repr__] of a non-negative integer; [Z.log2 n] bounds its digits. *)
Fixpoint dec_digits (fuel : nat) (n : Z) : list ascii :=
  match fuel with
  | O => [digit_char (n mod 10)]
  | S fuel' =>
      if (n <? 10)%Z then [digit_char n]
      else dec_digits fuel' (n / 10) ++ [digit_char (n mod 10)]
  end.
Definition dec (n : Z) : list ascii := dec_digits (Z.to_nat (Z.log2 n)) n.
Definition int_chars (z : Z) : list ascii :=
  if (z <? 0)%Z then "-"%char :: dec (- z) else dec z.

(** [str(z)]. *)
Definition int_str (z : Z) : string := of_chars (int_chars z).

Definition esc (c : ascii) : list ascii := ["\"%char; c].
Definition esc_u (c : ascii) : list ascii :=
  esc "u" ++ ["0"%char; "0"%char; hex_digit (code c / 16); hex_digit (code c mod 16)].

(** One character of a JSON string literal.  With [ensure_ascii] everything
    outside the printable ASCII range is escaped, otherwise only the control
    characters, the quote and the backslash. *)
Definition dump_char (ensure_ascii : bool) (c : ascii) : list ascii :=
  if (code c =? 34)%Z then esc c
  else if (code c =? 92)%Z then esc c
  else if (code c =? 8)%Z then esc "b"
  else if (code c =? 12)%Z then esc "f"
  else if (code c =? 10)%Z then esc "n"
  else if (code c =? 13)%Z then esc "r"
  else if (code c =? 9)%Z then esc "t"
  else if (code c <? 32)%Z || (ensure_ascii && (126 <? code c)%Z) then esc_u c
  else [c].

Definition quote : ascii := ascii_of_nat 34.

Definition dump_string (ea : bool) (s : string) : list ascii :=
  quote :: flat_map (dump_char ea) (chars s) ++ [quote].

Fixpoint commas (parts : list (list ascii)) : list ascii :=
  match parts with
  | [] => []
  | [p] => p
  | p :: parts' => p ++ ","%char :: commas parts'
  end.

Definition dump_member (ea : bool) (kv : string * list ascii) : list ascii :=
  dump_string ea kv.1 ++ ":"%char :: kv.2.

(** [json.dumps(v, sort_keys=True, separators=(",", ":"), ensure_ascii=ea)]. *)
Fixpoint dump_chars (ea : bool) (j : json) : list ascii :=
  match j with
  | JNull => chars "null"
  | JBool b => chars (if b then "true" else "false")
  | JInt z => int_chars z
  | JStr s => dump_string ea s
  | JArr l => "["%char :: commas (dump_chars ea <$> l) ++ ["]"%char]
  | JObj m => "{"%char :: commas (dump_member ea <$> items (dump_chars ea <$> m)) ++ ["}"%char]
  end.
Definition dumps (ea : bool) (j : json) : string := of_chars (dump_chars ea j).

(** ** [json.loads] *)

Fixpoint skip_ws (l : list ascii) : list ascii :=
  match l with
  | c :: l' =>
      if (code c =? 32)%Z || (code c =? 9)%Z || (code c =? 10)%Z || (code c =? 13)%Z
      then skip_ws l' else l
  | [] => []
  end.

Fixpoint span_digits (l : list ascii) : list ascii * list ascii :=
  match l with
  | c :: l' => if is_digit c then let '(ds, r) := span_digits l' in (c :: ds, r) else ([], l)
  | [] => ([], [])
  end.

Definition digits_value (ds : list ascii) : Z :=
  fold_left (fun acc c => acc * 10 + (code c - 48))%Z ds 0%Z.

(** A following [.], [e] or [E] makes the literal a float, which is not modelled. *)
Definition number_ends (l : list ascii) : bool :=
  match l with
  | c :: _ => negb (is_digit c || (code c =? 46)%Z || (code c =? 101)%Z || (code c =? 69)%Z)
  | [] => true
  end.

Definition parse_nat (l : list ascii) : option (Z * list ascii) :=
  let '(ds, r) := span_digits l in
  match ds with
  | [] => None
  | d :: ds' =>
      if (code d =? 48)%Z && match ds' with [] => false | _ => true end then None
      else if number_ends r then Some (digits_value ds, r) else None
  end.

(** The body of a string literal, after its opening quote. *)
Fixpoint parse_str (l : list ascii) : option (list ascii * list ascii) :=
  match l with
  | [] => None
  | c :: l1 =>
      if (code c =? 34)%Z then Some ([], l1)
      else if (code c <? 32)%Z then None
      else if (code c =? 92)%Z then
        match l1 with
        | [] => None
        | e :: l2 =>
            let simple (x : Z) :=
              '(s, r) ← parse_str l2; Some (ascii_of_N (Z.to_N x) :: s, r) in
            if (code e =? 34)%Z || (code e =? 92)%Z || (code e =? 47)%Z then simple (code e)
            else if (code e =? 98)%Z then simple 8%Z
            else if (code e =? 102)%Z then simple 12%Z
            else if (code e =? 110)%Z then simple 10%Z
            else if (code e =? 114)%Z then simple 13%Z
            else if (code e =? 116)%Z then simple 9%Z
            else if (code e =? 117)%Z then
              match l2 with
              | a :: b :: x :: y :: l3 =>
                  a' ← unhex_digit a; b' ← unhex_digit b;
                  x' ← unhex_digit x; y' ← unhex_digit y;
                  if (a' =? 0)%Z && (b' =? 0)%Z then
                    '(s, r) ← parse_str l3;
                    Some (ascii_of_N (Z.to_N (x' * 16 + y')) :: s, r)
                  else None
              | _ => None
              end
            else None
        end
      else '(s, r) ← parse_str l1; Some (c :: s, r)
  end.

Fixpoint strip_prefix (p l : list ascii) : option (list ascii) :=
  match p, l with
  | [], _ => Some l
  | a :: p', b :: l' => if Ascii.eqb a b then strip_prefix p' l' else None
  | _, _ => None
  end.

Definition starts_with_code (n : Z) (l : list ascii) : option (list ascii) :=
  match l with c :: l' => if (code c =? n)%Z then Some l' else None | [] => None end.

(** Recursive descent; the fuel is the length of the text, since every call
    consumes a character before the next.  Object members are collected most
    recent first, so that a repeated key keeps its last value. *)
Fixpoint parse_value (fuel : nat) (l : list ascii) : option (json * list ascii) :=
  match fuel with
  | O => None
  | S fuel' =>
      let l := skip_ws l in
      match starts_with_code 34 l with
      | Some r => '(s, r) ← parse_str r; Some (JStr (of_chars s), r)
      | None =>
      match starts_with_code 91 l with
      | Some r =>
          match starts_with_code 93 (skip_ws r) with
          | Some r' => Some (JArr [], r')
          | None => parse_elems fuel' r []
          end
      | None =>
      match starts_with_code 123 l with
      | Some r =>
          match starts_with_code 125 (skip_ws r) with
          | Some r' => Some (JObj ∅, r')
          | None => parse_members fuel' r []
          end
      | None =>
      match strip_prefix (chars "null") l with
      | Some r => Some (JNull, r)
      | None =>
      match strip_prefix (chars "true") l with
      | Some r => Some (JBool true, r)
      | None =>
      match strip_prefix (chars "false") l with
      | Some r => Some (JBool false, r)
      | None =>
      match starts_with_code 45 l with
      | Some r => '(z, r) ← parse_nat r; Some (JInt (- z), r)
      | None => '(z, r) ← parse_nat l; Some (JInt z, r)
      end end end end end end end
  end
with parse_elems (fuel : nat) (l : list ascii) (acc : list json) : option (json * list ascii) :=
  match fuel with
  | O => None
  | S fuel' =>
      '(v, r) ← parse_value fuel' l;
      match starts_with_code 44 (skip_ws r) with
      | Some r' => parse_elems fuel' r' (acc ++ [v])
      | None =>
          r' ← starts_with_code 93 (skip_ws r); Some (JArr (acc ++ [v]), r')
      end
  end
with parse_members (fuel : nat) (l : list ascii) (acc : list (string * json))
  : option (json * list ascii) :=
  match fuel with
  | O => None
  | S fuel' =>
      r ← starts_with_code 34 (skip_ws l);
      '(k, r) ← parse_str r;
      r ← starts_with_code 58 (skip_ws r);
      '(v, r) ← parse_value fuel' r;
      let acc' := (of_chars k, v) :: acc in
      match starts_with_code 44 (skip_ws r) with
      | Some r' => parse_members fuel' r' acc'
      | None =>
          r' ← starts_with_code 125 (skip_ws r); Some (JObj (list_to_map acc'), r')
      end
  end.

Definition loads_chars (l : list ascii) : option json :=
  '(v, r) ← parse_value (S (length l)) l;
  match skip_ws r with [] => Some v | _ => None end.
Definition loads (s : string) : option json := loads_chars (chars s).

(** ** Loading a dump gives the document back *)

Lemma parse_str_dump_char ea c l :
  parse_str (dump_char ea c ++ l) = '(s, r) ← parse_str l; Some (c :: s, r).
Proof. destruct ea, c as [[] [] [] [] [] [] [] []]; reflexivity. Qed.

Lemma parse_str_dump ea cs rest :
  parse_str (flat_map (dump_char ea) cs ++ quote :: rest) = Some (cs, rest).
Proof.
  induction cs as [|c cs IH]; [done|]. cbn [flat_map].
  by rewrite -app_assoc parse_str_dump_char IH.
Qed.

Lemma digit_char_digit z : (0 <= z < 10)%Z -> is_digit (digit_char z) = true.
Proof.
  intros Hz. unfold is_digit, in_range, digit_char. rewrite code_of_Z; [lia|].
  apply andb_true_intro. split; apply Z.leb_le; lia.
Qed.
Lemma digit_char_code z : (0 <= z < 10)%Z -> code (digit_char z) = (48 + z)%Z.
Proof. intros Hz. unfold digit_char. apply code_of_Z. lia. Qed.

Lemma digits_value_snoc ds c :
  digits_value (ds ++ [c]) = (digits_value ds * 10 + (code c - 48))%Z.
Proof. unfold digits_value. by rewrite fold_left_app. Qed.

(** The decimal digits of [n]: all digits, no leading zero, value [n]. *)
Lemma dec_digits_spec fuel n :
  (0 <= n < 2 * 2 ^ Z.of_nat fuel)%Z ->
  exists d ds, dec_digits fuel n = d :: ds /\ Forall (fun c => is_digit c = true) (d :: ds)
    /\ digits_value (d :: ds) = n /\ ((0 < n)%Z -> code d <> 48%Z) /\ (n = 0%Z -> ds = []).
Proof.
  revert n. induction fuel as [|fuel IH]; intros n Hn.
  - simpl in *. assert (n mod 10 = n)%Z as -> by (apply Z.mod_small; lia).
    eexists _, []. split; [done|]. split; [constructor; [apply digit_char_digit; lia|done]|].
    unfold digits_value; simpl. rewrite digit_char_code; [lia|]. split; [lia|]. split; [lia|done].
  - rewrite Nat2Z.inj_succ Z.pow_succ_r in Hn; [lia|]. cbn [dec_digits].
    destruct (Z.ltb_spec n 10).
    + eexists _, []. split; [done|].
      split; [constructor; [apply digit_char_digit; lia|done]|].
      unfold digits_value; simpl. rewrite digit_char_code; [lia|].
      split; [lia|]. split; [lia|done].
    + assert (0 < n / 10)%Z by (apply Z.div_str_pos; lia).
      pose proof (Z.mod_pos_bound n 10). pose proof (Z.div_mod n 10).
      destruct (IH (n / 10)%Z) as (d & ds & -> & Hall & Hval & Hlead & _); [lia|].
      exists d, (ds ++ [digit_char (n mod 10)]). split; [done|].
      split; [change (d :: ds ++ [digit_char (n mod 10)])
                with ((d :: ds) ++ [digit_char (n mod 10)]);
              apply Forall_app; split; [done|]; constructor; [apply digit_char_digit; lia|done]|].
      split; [|split; [intros; apply Hlead; lia|lia]].
      change (digits_value ((d :: ds) ++ [digit_char (n mod 10)]) = n).
      rewrite digits_value_snoc Hval digit_char_code; lia.
Qed.

Lemma dec_spec n : (0 <= n)%Z ->
  exists d ds, dec n = d :: ds /\ Forall (fun c => is_digit c = true) (d :: ds)
    /\ digits_value (d :: ds) = n /\ ((0 < n)%Z -> code d <> 48%Z) /\ (n = 0%Z -> ds = []).
Proof.
  intros Hn. apply dec_digits_spec. split; [done|].
  rewrite Z2Nat.id; [apply Z.log2_nonneg|].
  destruct (Z.eq_dec n 0%Z) as [->|]; [done|].
  rewrite -Z.pow_succ_r; [apply Z.log2_nonneg|]. apply Z.log2_spec. lia.
Qed.

Lemma span_digits_app ds rest :
  Forall (fun c => is_digit c = true) ds -> number_ends rest = true ->
  span_digits (ds ++ rest) = (ds, rest).
Proof.
  intros Hds Hr. induction Hds as [|c ds Hc _ IH].
  - destruct rest as [|c rest]; [done|]. revert Hr. unfold number_ends.
    cbn [app span_digits]. by destruct (is_digit c).
  - cbn [app span_digits]. by rewrite Hc IH.
Qed.

Lemma parse_nat_dec n rest :
  (0 <= n)%Z -> number_ends rest = true -> parse_nat (dec n ++ rest) = Some (n, rest).
Proof.
  intros Hn Hr. destruct (dec_spec n Hn) as (d & ds & -> & Hall & Hval & Hlead & Hz).
  unfold parse_nat. rewrite (span_digits_app (d :: ds)) //.
  destruct ds as [|d' ds].
  - by rewrite andb_false_r Hr Hval.
  - destruct (Z.eqb_spec (code d) 48) as [Heq|]; simpl.
    + exfalso. apply Hlead in Heq; [done|]. destruct (Z.eq_dec n 0%Z) as [->|]; [|lia].
      by specialize (Hz eq_refl).
    + by rewrite Hr Hval.
Qed.

Lemma parse_value_digit f c l :
  is_digit c = true ->
  parse_value (S f) (c :: l) = '(z, r) ← parse_nat (c :: l); Some (JInt z, r).
Proof. destruct c as [[] [] [] [] [] [] [] []]; intros H; try discriminate H; reflexivity. Qed.

Lemma parse_value_int f z rest :
  number_ends rest = true -> parse_value (S f) (int_chars z ++ rest) = Some (JInt z, rest).
Proof.
  intros Hr. unfold int_chars. destruct (Z.ltb_spec z 0).
  - change (parse_value (S f) (("-"%char :: dec (- z)) ++ rest))
      with ('(n, r) ← parse_nat (dec (- z) ++ rest); Some (JInt (- n), r)).
    rewrite parse_nat_dec //; [lia|]. simpl. by rewrite Z.opp_involutive.
  - pose proof (parse_nat_dec z rest) as Hp.
    destruct (dec_spec z) as (d & ds & Hd & Hall & _); [done|].
    rewrite Hd in Hp |- *. inversion Hall; subst. simpl app in *.
    rewrite parse_value_digit // Hp //.
Qed.

(** What the induction establishes of one document: whatever follows its text,
    the parser reads the text back and stops right after it. *)
Definition reads_back (ea : bool) (j : json) : Prop :=
  forall fuel rest, length (dump_chars ea j) < fuel -> number_ends rest = true ->
    parse_value fuel (dump_chars ea j ++ rest) = Some (j, rest).

Lemma commas_cons2 p q parts : commas (p :: q :: parts) = p ++ ","%char :: commas (q :: parts).
Proof. done. Qed.

(** The punctuation of a compact dump, as the parser meets it. *)
Lemma comma_next l : starts_with_code 44 (skip_ws (","%char :: l)) = Some l.
Proof. done. Qed.
Lemma colon_next l : starts_with_code 58 (skip_ws (":"%char :: l)) = Some l.
Proof. done. Qed.
Lemma quote_next l : starts_with_code 34 (skip_ws (quote :: l)) = Some l.
Proof. done. Qed.

Lemma parse_elems_dump ea j l : reads_back ea j -> Forall (reads_back ea) l ->
  forall fuel rest acc, S (length (commas (dump_chars ea j :: (dump_chars ea <$> l)))) < fuel ->
    parse_elems fuel (commas (dump_chars ea j :: (dump_chars ea <$> l)) ++ "]"%char :: rest) acc
    = Some (JArr (acc ++ j :: l), rest).
Proof.
  intros Hj Hl. revert j Hj. induction Hl as [|j' l Hj' Hl IH]; intros j Hj fuel rest acc Hf;
    (destruct fuel as [|fuel]; [lia|]); cbn [parse_elems].
  - cbn [fmap list_fmap commas] in *. rewrite Hj; [lia|done|done].
  - rewrite fmap_cons commas_cons2 in Hf |- *. rewrite length_app length_cons in Hf.
    rewrite -app_assoc Hj //; [lia|]. cbn [mbind option_bind].
    rewrite -app_comm_cons comma_next IH //; [lia|]. by rewrite -app_assoc.
Qed.

Lemma parse_members_dump ea kv l :
  reads_back ea kv.2 -> Forall (fun kv => reads_back ea kv.2) l ->
  let text kv := dump_member ea (kv.1, dump_chars ea kv.2) in
  forall fuel rest acc, S (length (commas (text kv :: (text <$> l)))) < fuel ->
    parse_members fuel (commas (text kv :: (text <$> l)) ++ "}"%char :: rest) acc
    = Some (JObj (list_to_map (rev (kv :: l) ++ acc)), rest).
Proof.
  intros Hj Hl text. revert kv Hj.
  assert (forall k j r, text (k, j) ++ r
    = quote :: flat_map (dump_char ea) (chars k) ++ quote :: ":"%char :: dump_chars ea j ++ r)
    as Htext.
  { intros. unfold text, dump_member, dump_string. cbn [fst snd].
    by rewrite -!app_assoc /= -!app_assoc. }
  assert (forall k j, length (dump_chars ea j) < length (text (k, j))) as Hlen.
  { intros k j. rewrite -(app_nil_r (text (k, j))) Htext. simpl. rewrite !length_app /= length_app. lia. }
  induction Hl as [|kv' l Hj' Hl IH]; intros [k j] Hj fuel rest acc Hf; simpl in Hj;
    (destruct fuel as [|fuel]; [lia|]); specialize (Hlen k j).
  - cbn [fmap list_fmap commas] in *.
    rewrite Htext. cbn [parse_members]. rewrite quote_next. cbn [mbind option_bind].
    rewrite parse_str_dump. cbn [mbind option_bind]. rewrite colon_next. cbn [mbind option_bind].
    rewrite Hj //; [lia|]. cbn [mbind option_bind]. by rewrite of_chars_chars.
  - rewrite fmap_cons commas_cons2 in Hf |- *. rewrite length_app length_cons in Hf.
    rewrite -app_assoc Htext. cbn [parse_members]. rewrite quote_next. cbn [mbind option_bind].
    rewrite parse_str_dump. cbn [mbind option_bind]. rewrite colon_next. cbn [mbind option_bind].
    rewrite Hj //; [lia|]. cbn [mbind option_bind]. rewrite -app_comm_cons comma_next.
    rewrite of_chars_chars IH //; [lia|]. cbn [rev]. by rewrite -!app_assoc.
Qed.

Lemma list_to_map_rev_items (m : dict) : list_to_map (rev (items m) ++ []) = m.
Proof.
  rewrite app_nil_r -{2}(items_to_map m). symmetry.
  apply list_to_map_proper; [apply items_nodup|apply Permutation_rev].
Qed.


(** No value starts with white space or a closing bracket. *)
Lemma dump_first ea j l : starts_with_code 93 (skip_ws (dump_chars ea j ++ l)) = None.
Proof.
  destruct j as [|[]|z|s|l'|m]; try reflexivity.
  cbn [dump_chars]. unfold int_chars. destruct (Z.ltb_spec z 0); [reflexivity|].
  destruct (dec_spec z) as (d & ds & -> & Hall & _); [done|].
  inversion Hall as [|? ? Hd _]; subst. revert Hd.
  destruct d as [[] [] [] [] [] [] [] []]; intros Hd; try discriminate Hd; reflexivity.
Qed.

Lemma commas_app p parts l :
  commas (p :: parts) ++ l
  = p ++ match parts with [] => l | _ => ","%char :: commas parts ++ l end.
Proof. destruct parts; [done|]. by rewrite commas_cons2 -app_assoc. Qed.

Lemma dump_reads_back ea j : reads_back ea j.
Proof.
  induction j as [| | | |l IH|m IH] using json_ind; intros fuel rest Hf Hr;
    (destruct fuel as [|fuel]; [lia|]).
  - done.
  - by destruct b.
  - by apply parse_value_int.
  - cbn [dump_chars]. unfold dump_string. rewrite -app_comm_cons -app_assoc.
    cbn [parse_value]. by rewrite quote_next parse_str_dump /= of_chars_chars.
  - destruct IH as [|j l Hj Hl]; [done|].
    cbn [dump_chars] in Hf |- *. rewrite fmap_cons in Hf |- *.
    rewrite -app_comm_cons -app_assoc. rewrite length_cons length_app in Hf.
    change (parse_value (S fuel) ("["%char :: ?x)) with
      (match starts_with_code 93 (skip_ws x) with
       | Some r' => Some (JArr [], r') | None => parse_elems fuel x [] end).
    rewrite commas_app dump_first -commas_app.
    rewrite parse_elems_dump //. cbn [length] in Hf. lia.
  - pose proof (list_to_map_rev_items m) as Hm. revert Hm Hf. cbn [dump_chars].
    rewrite items_fmap -list_fmap_compose.
    assert (Forall (fun kv => reads_back ea kv.2) (items m)) as Hall.
    { apply Forall_forall. intros [k v] Hkv. apply list_elem_of_In, items_lookup in Hkv.
      by apply (IH k v). }
    destruct Hall as [|kv l Hj Hl]; intros Hm Hf.
    { simpl in *. by rewrite -Hm. }
    rewrite fmap_cons in Hf |- *.
    rewrite -app_comm_cons -app_assoc. rewrite length_cons length_app in Hf.
    change (parse_value (S fuel) ("{"%char :: ?x)) with
      (match starts_with_code 125 (skip_ws x) with
       | Some r' => Some (JObj ∅, r') | None => parse_members fuel x [] end).
    pose proof (parse_members_dump ea kv l Hj Hl fuel rest []) as Hp.
    rewrite Hm in Hp. rewrite commas_app. 
    change (starts_with_code 125 (skip_ws ((dump_member ea ∘ prod_map id (dump_chars ea)) kv ++ ?x)))
      with (@None (list ascii)). rewrite -commas_app. apply Hp. cbn [length] in Hf. unfold compose, prod_map, id in Hf. lia.
Qed.

(** [json.loads(json.dumps(v)) == v], for either setting of [ensure_ascii]. *)
Lemma loads_dumps ea j : loads (dumps ea j) = Some j.
Proof.
  unfold loads, dumps, loads_chars. rewrite chars_of_chars.
  rewrite -{2}(app_nil_r (dump_chars ea j)) dump_reads_back; [lia|done|done].
Qed.

#[global] Instance dumps_inj ea : Inj (=) (=) (dumps ea).
Proof.
  intros j j' H. apply (f_equal loads) in H. rewrite !loads_dumps in H. congruence.
Qed.
