(* ===== verification/Sha256.v ===== *)
(** * SHA-256

    [hashlib.sha256].  [HashFn] is what the rest of the development relies on:
    a function from byte strings to 32-byte digests.  The instance
    [sha256_hash] is the FIPS 180-4 function itself, executable, so that
    witnesses run on real digests.

    No hash function is injective, so the theorems about tamper evidence never
    assume it.  They name the byte strings a computation hashes and conclude
    "... or two of these very strings collide" ([has_collision]). *)

From S2P Require Import Prelude PyStr.
From stdpp Require Import options.

Class HashFn := {
  sha256 : bytes -> bytes;
  sha256_length : forall b, length (sha256 b) = 32%nat
}.

Section Digests.
Context `{HashFn}.

(** [hashlib.sha256(data).hexdigest()]. *)
Definition hexdigest (b : bytes) : string := hex (sha256 b).

Definition has_collision (inputs : list bytes) : Prop :=
  exists x y, x ∈ inputs /\ y ∈ inputs /\ x <> y /\ sha256 x = sha256 y.

Lemma has_collision_mono s t : s ⊆ t -> has_collision s -> has_collision t.
Proof.
  intros Hst (x & y & Hx & Hy & Hne). exists x, y. split; [by apply Hst|].
  split; [by apply Hst|done].
Qed.

(** Two hashed strings are equal, or they are the collision. *)
Lemma sha256_eq_or (inputs : list bytes) x y :
  x ∈ inputs -> y ∈ inputs -> sha256 x = sha256 y -> x = y \/ has_collision inputs.
Proof.
  intros Hx Hy He. destruct (decide (x = y)) as [->|Hne]; [by left|].
  right. by exists x, y.
Qed.

Lemma hexdigest_eq_or (inputs : list bytes) x y :
  x ∈ inputs -> y ∈ inputs -> hexdigest x = hexdigest y -> x = y \/ has_collision inputs.
Proof. intros Hx Hy He%(inj hex). by apply sha256_eq_or. Qed.
End Digests.

(** ** FIPS 180-4 *)

Module Fips.
Open Scope Z_scope.

Definition w32 (z : Z) : Z := Z.land z 4294967295.
Definition add32 (a b : Z) : Z := w32 (a + b).
Definition rotr (n x : Z) : Z := Z.lor (Z.shiftr x n) (w32 (Z.shiftl x (32 - n))).
Definition not32 (x : Z) : Z := Z.lxor x 4294967295.
Definition ch (x y z : Z) : Z := Z.lxor (Z.land x y) (Z.land (not32 x) z).
Definition maj (x y z : Z) : Z := Z.lxor (Z.lxor (Z.land x y) (Z.land x z)) (Z.land y z).
Definition big0 (x : Z) : Z := Z.lxor (Z.lxor (rotr 2 x) (rotr 13 x)) (rotr 22 x).
Definition big1 (x : Z) : Z := Z.lxor (Z.lxor (rotr 6 x) (rotr 11 x)) (rotr 25 x).
Definition small0 (x : Z) : Z := Z.lxor (Z.lxor (rotr 7 x) (rotr 18 x)) (Z.shiftr x 3).
Definition small1 (x : Z) : Z := Z.lxor (Z.lxor (rotr 17 x) (rotr 19 x)) (Z.shiftr x 10).

(** The constants: the first 32 bits of the fractional parts of the square and
    cube roots of the first primes, found bit by bit. *)
Fixpoint root_bits (power n : Z) (bit : nat) (acc : Z) : Z :=
  match bit with
  | O => acc
  | S bit' => let acc' := acc + 2 ^ Z.of_nat bit' in
              root_bits power n bit' (if acc' ^ power <=? n then acc' else acc)
  end.
Definition root_fraction (power p : Z) : Z := w32 (root_bits power (p * 2 ^ (32 * power)) 40 0).
Definition is_prime (n : Z) : bool :=
  forallb (fun d => negb (n mod Z.of_nat d =? 0)) (seq 2 (Z.to_nat n - 2)).
Definition primes : list Z := List.filter is_prime (map Z.of_nat (seq 2 310)).
Definition K : list Z := Eval vm_compute in map (root_fraction 3) primes.

(** The eight chaining words. *)
Record hstate := HS { ha : Z; hb : Z; hc : Z; hd : Z; he : Z; hf : Z; hg : Z; hh : Z }.
Definition H0 : hstate := Eval vm_compute in
  match map (root_fraction 2) primes with
  | a :: b :: c :: d :: e :: f :: g :: h :: _ => HS a b c d e f g h
  | _ => HS 0 0 0 0 0 0 0 0
  end.

(** The message schedule, most recent word first. *)
Fixpoint schedule (n : nat) (ws : list Z) : list Z :=
  match n with
  | O => ws
  | S n' =>
      let w i := nth i ws 0 in
      schedule n' (w32 (small1 (w 1%nat) + w 6%nat + small0 (w 14%nat) + w 15%nat) :: ws)
  end.

Definition round (s : hstate) (kw : Z * Z) : hstate :=
  let t1 := hh s + big1 (he s) + ch (he s) (hf s) (hg s) + kw.1 + kw.2 in
  let t2 := big0 (ha s) + maj (ha s) (hb s) (hc s) in
  HS (w32 (t1 + t2)) (ha s) (hb s) (hc s) (add32 (hd s) t1) (he s) (hf s) (hg s).

Definition compress (s : hstate) (block : list Z) : hstate :=
  let ws := rev (schedule 48 (rev block)) in
  let t := fold_left round (combine K ws) s in
  HS (add32 (ha s) (ha t)) (add32 (hb s) (hb t)) (add32 (hc s) (hc t)) (add32 (hd s) (hd t))
     (add32 (he s) (he t)) (add32 (hf s) (hf t)) (add32 (hg s) (hg t)) (add32 (hh s) (hh t)).

Fixpoint words (b : list Z) : list Z :=
  match b with
  | w :: x :: y :: z :: b' => (w * 16777216 + x * 65536 + y * 256 + z) :: words b'
  | _ => []
  end.

Definition be_bytes (n : nat) (z : Z) : list Z :=
  rev (map (fun i => Z.land (Z.shiftr z (8 * Z.of_nat i)) 255) (seq 0 n)).

Definition pad (b : list Z) : list Z :=
  let len := Z.of_nat (length b) in
  b ++ [128] ++ repeat 0 (Z.to_nat ((55 - len) mod 64)) ++ be_bytes 8 (8 * len).

Fixpoint blocks (fuel : nat) (s : hstate) (ws : list Z) : hstate :=
  match fuel, ws with
  | S fuel', _ :: _ => blocks fuel' (compress s (take 16 ws)) (drop 16 ws)
  | _, _ => s
  end.

Definition digest_words (b : list Z) : hstate :=
  let ws := words (pad b) in blocks (length ws) H0 ws.

Definition hash (b : bytes) : bytes :=
  let s := digest_words (map Z_of_byte b) in
  map byte_of_Z (flat_map (be_bytes 4)
    [ha s; hb s; hc s; hd s; he s; hf s; hg s; hh s]).

Lemma hash_length b : length (hash b) = 32%nat.
Proof. reflexivity. Qed.
End Fips.

#[global] Instance sha256_hash : HashFn :=
  {| sha256 := Fips.hash; sha256_length := Fips.hash_length |}.

(** The FIPS test vectors for the empty string and "abc". *)
Example sha256_empty :
  hexdigest [] = "e3b0c44298fc1c149afbf4c8996fb92427ae41e4649b934ca495991b7852b855".
Proof. vm_compute. reflexivity. Qed.
Example sha256_abc :
  hexdigest (utf8 "abc") = "ba7816bf8f01cfea414140de5dae2223b00361a396177a9cb410ff61f20015ad".
Proof. vm_compute. reflexivity. Qed.
Example sha256_two_blocks :
  hexdigest (utf8 "abcdbcdecdefdefgefghfghighijhijkijkljklmklmnlmnomnopnopq")
  = "248d6a61d20638b8e5c026930c3e6039a33ce45964ff2167f6ecedd419db06c1".
Proof. vm_compute. reflexivity. Qed.
