(* ===== verification/Errors.v ===== *)
(** * Exceptions

    [errors.py], [_internal/errors.py] and [_internal/backends/errors.py]: the
    exceptions the ledger raises, their categories and the HTTP status the REST
    application answers with ([service/app.py]).  Message texts are not
    modelled; the arguments that carry behaviour are. *)

From S2P Require Import Prelude PyStr Json.
From stdpp Require Import options.

(** The [ServiceError] subclasses of [errors.py]. *)
Inductive service_error :=
| ValidationError
| MissingAuthError
| InvalidAuthError
| InvalidKindError
| IdentityRequiredError
| IdentityUnverifiedError
| TwoPersonViolatedError
| MachineDispositionError
| RationaleTooShortError
| TimestampFutureError
| InvalidEpochError
| LayerNotFoundError
| ProductRepoLayerNotFoundError
| SigningRequiredError
| SigningFailedError
| MissingLayerIdError
| MissingSeverityError
| MissingDecisionOrVerdictError
| DecisionVerdictConflictError
| UnknownDecisionError (decision : string)
| MissingFindingRefError
| MissingRecordedAtEventError
| InvalidLayerIdError
| CorruptStoredEventError (event_id : string)
| EventIdMismatchError (supplied canonical : string)
| NotAnAdminError
| RestatementAuthorityError
| NothingToRestateError
| RetiredValueRestatedError (keys : list string)
| InsufficientApproversError (required found : Z)
| StaleRestatementError
| UnexplainedMetadataChangeError (field : string)
| NotFoundError
| DirectoryRefusedError
| DirectoryUnavailableError.

(** The [LayerStorageError] family of the storage backends. *)
Inductive storage_error :=
| LayerStorageError
| InvalidLayerDocumentError
| CorruptStoredLayerError
| LayerNotInitializedError
| LayerConflictError.

Inductive exn :=
| ValueError
| IndexError
| KeyError
| TypeError
| AttributeError
| RuntimeError
| AssertionError
| IntegrityError
| Service (e : service_error)
| Storage (e : storage_error)
| InternalEventIdMismatchError (supplied canonical : string)
| InternalIdentityUnverifiedError
| DegenerateIdentity
| LedgerError
| OSError
| AuthResolutionError
| TokenVerificationError
| HTTPError
| OverflowError.

#[global] Instance service_error_eq_dec : EqDecision service_error.
Proof. solve_decision. Defined.
#[global] Instance storage_error_eq_dec : EqDecision storage_error.
Proof. solve_decision. Defined.
#[global] Instance exn_eq_dec : EqDecision exn.
Proof. solve_decision. Defined.

(** The base class of each service error. *)
Inductive category := CatService | CatAuth | CatForbidden | CatNotFound | CatInternal.

Definition category_of (e : service_error) : category :=
  match e with
  | MissingAuthError | InvalidAuthError | DirectoryRefusedError | DirectoryUnavailableError => CatAuth
  | NotAnAdminError | InsufficientApproversError _ _ => CatForbidden
  | LayerNotFoundError | ProductRepoLayerNotFoundError | NotFoundError => CatNotFound
  | SigningFailedError | CorruptStoredEventError _ => CatInternal
  | _ => CatService
  end.

(** The status the application's exception handlers answer with; an exception
    no handler catches is a server error. *)
Definition status_code (e : exn) : Z :=
  match e with
  | Storage _ => 422
  | Service s =>
      match category_of s with
      | CatAuth => 401
      | CatForbidden => 403
      | CatNotFound => 404
      | CatInternal => 500
      | CatService => 422
      end
  | _ => 500
  end%Z.

(** [except ValueError]: the storage errors and the two internal write-path
    errors are subclasses of [ValueError]; the service errors are not. *)
Definition is_value_error (e : exn) : bool :=
  match e with
  | ValueError | Storage _ | InternalEventIdMismatchError _ _ | InternalIdentityUnverifiedError
  | DegenerateIdentity => true
  | _ => false
  end.

Notation res := (result exn).

(** ** Built-ins that may raise *)

(** [(d.get(outer) or {}).get(inner)]: a truthy value that is no object has no
    [get]. *)
Definition get_in (outer inner : string) (d : dict) : res json :=
  match get outer d with
  | JObj m => Ok (get inner m)
  | v => if truthy v then Err AttributeError else Ok JNull
  end.

(** [d.get(key) or {}], used as an object. *)
Definition get_obj (key : string) (d : dict) : res dict :=
  match get key d with
  | JObj m => Ok m
  | v => if truthy v then Err AttributeError else Ok ∅
  end.

(** [int(s)] of a decimal text: surrounding white space, a sign, single
    underscores between digits, at most 4300 digits. *)
Fixpoint int_digits (l : list ascii) (after_digit : bool) (acc : Z) : option Z :=
  match l with
  | [] => if after_digit then Some acc else None
  | c :: l' =>
      if is_digit c then int_digits l' true (acc * 10 + (code c - 48))%Z
      else if (code c =? 95)%Z && after_digit then int_digits l' false acc
      else None
  end.
Definition int_of_str (s : string) : option Z :=
  let body l := if (4300 <? Z.of_nat (length (List.filter is_digit l)))%Z then None
                else int_digits l false 0%Z in
  match chars (strip s) with
  | c :: l =>
      if (code c =? 43)%Z then body l
      else if (code c =? 45)%Z then Z.opp <$> body l
      else body (c :: l)
  | [] => None
  end.

(** [int(v)]. *)
Definition py_int (v : json) : res Z :=
  match v with
  | JInt z => Ok z
  | JBool b => Ok (if b then 1 else 0)%Z
  | JStr s => of_option (int_of_str s) ValueError
  | _ => Err TypeError
  end.

(** [len(v)]. *)
Definition py_len (v : json) : res Z :=
  match v with
  | JStr s => Ok (str_len s)
  | JArr l => Ok (Z.of_nat (length l))
  | JObj m => Ok (Z.of_nat (size m))
  | _ => Err TypeError
  end.

(** [d.get(key) or []].  A truthy value that is not a list is outside every
    schema; the code fails on it, with an exception that depends on the value. *)
Definition get_list (key : string) (d : dict) : res (list json) :=
  match get key d with
  | JArr l => Ok l
  | v => if truthy v then Err TypeError else Ok []
  end.
Definition events_of (layer : dict) : res (list json) := get_list "events" layer.

(** [str(v)]; the text of a list or an object is not modelled. *)
Definition py_str (v : json) : res string :=
  match v with
  | JNull => Ok "None"
  | JBool b => Ok (if b then "True" else "False")
  | JInt z => Ok (int_str z)
  | JStr s => Ok s
  | _ => Err TypeError
  end.

(** [for i in v], where only objects count: only a list has objects in it. *)
Definition iterate_objects (v : json) : res (list json) :=
  match v with JArr l => Ok l | JObj _ | JStr _ => Ok [] | _ => Err TypeError end.
