(* ===== verification/Merkle.v ===== *)
(** * Merkle trees

    [_internal/integrity/merkle.py]: the RFC 9162 Merkle Tree Hash, inclusion
    proofs, and the leaves a layer's events become.  Consistency proofs are in
    [Consistency.v]. *)

From S2P Require Import Prelude PyStr Json Sha256 Errors.
From Stdlib Require Import Strings.Byte.
From stdpp Require Import options.

Section Tree.
Context `{HashFn}.

(** ** Definitions *)

(** [1 << ((n - 1).bit_length() - 1)]. *)
Definition bit_length (z : Z) : Z := if (z =? 0)%Z then 0%Z else (Z.log2 (Z.abs z) + 1)%Z.
Definition largest_power_of_two_less_than (n : Z) : Z := Z.shiftl 1 (bit_length (n - 1) - 1).

Definition leaf_hash (data : bytes) : bytes := sha256 (x00 :: data).
Definition node_hash (left right : bytes) : bytes := sha256 (x01 :: left ++ right).

(** The split point of a list of at least two leaves. *)
Definition split_at {A} (l : list A) : nat :=
  Z.to_nat (largest_power_of_two_less_than (Z.of_nat (length l))).

(** [_mth_from_leaf_hashes]; the recursion splits the list, so its length is
    fuel enough ([mth_split]). *)
Fixpoint mth_go (fuel : nat) (l : list bytes) : bytes :=
  match l, fuel with
  | [], _ => sha256 []
  | [h], _ => h
  | _, O => sha256 []
  | _, S fuel' =>
      node_hash (mth_go fuel' (take (split_at l) l)) (mth_go fuel' (drop (split_at l) l))
  end.
Definition mth_from_leaf_hashes (l : list bytes) : bytes := mth_go (length l) l.

Definition compute_root (entries : list bytes) : bytes :=
  mth_from_leaf_hashes (leaf_hash <$> entries).

(** The nested [path] of [inclusion_proof]. *)
Fixpoint path_go (fuel : nat) (subtree : list bytes) (m : nat) : list bytes :=
  match fuel with
  | O => []
  | S fuel' =>
      if (length subtree =? 1)%nat then []
      else
        let k := split_at subtree in
        if (m <? k)%nat
        then path_go fuel' (take k subtree) m ++ [mth_from_leaf_hashes (drop k subtree)]
        else path_go fuel' (drop k subtree) (m - k) ++ [mth_from_leaf_hashes (take k subtree)]
  end.
Definition path (subtree : list bytes) (m : nat) : list bytes :=
  path_go (length subtree) subtree m.

Definition inclusion_proof (entries : list bytes) (index : Z) : res (list bytes) :=
  if (0 <=? index)%Z && (index <? Z.of_nat (length entries))%Z
  then Ok (path (leaf_hash <$> entries) (Z.to_nat index))
  else Err IndexError.

(** The [while size > 1] loop: the directions from the root to leaf [m].
    Every turn shrinks [size], so [size] is fuel enough ([trace_step]). *)
Fixpoint trace_go (fuel : nat) (m size : Z) : list bool :=
  match fuel with
  | O => []
  | S fuel' =>
      if (1 <? size)%Z then
        let k := largest_power_of_two_less_than size in
        if (m <? k)%Z then true :: trace_go fuel' m k
        else false :: trace_go fuel' (m - k)%Z (size - k)%Z
      else []
  end.
Definition trace (m size : Z) : list bool := trace_go (Z.to_nat size) m size.

Definition climb (computed : bytes) (step : bool * bytes) : bytes :=
  if step.1 then node_hash computed step.2 else node_hash step.2 computed.

Definition verify_inclusion (root entry : bytes) (index tree_size : Z) (proof : list bytes) : bool :=
  if negb ((0 <=? index)%Z && (index <? tree_size)%Z) then false
  else if (tree_size =? 1)%Z then
    match proof with [] => bool_decide (leaf_hash entry = root) | _ => false end
  else
    let is_left := trace index tree_size in
    if negb (length is_left =? length proof)%nat then false
    else bool_decide (fold_left climb (combine (rev is_left) proof) (leaf_hash entry) = root).

(** ** A layer's events as entries *)

Definition LEAF_FORMAT_CURRENT : Z := 2.

(** SHA-256 of the canonical JSON of the pre-epoch events, all of them at once. *)
Definition compute_pre_epoch_checkpoint (events : list json) : string :=
  hexdigest (utf8 (dumps true (JArr events))).

(** An event without its [merkle_*] fields. *)
Definition scrub (event : dict) : dict :=
  filter (fun kv => startswith kv.1 "merkle_" = false) event.

Definition canonical_event_bytes (event : dict) : bytes :=
  utf8 (dumps false (JObj (scrub event))).

(** The Merkle entry of one event; a non-object has no fields to read. *)
Definition event_entry (leaf_format : Z) (event : json) : res bytes :=
  match event with
  | JObj e =>
      if (leaf_format =? 1)%Z then
        match e !! "event_id" with
        | Some (JStr s) => Ok (utf8 s)
        | Some _ => Err AttributeError
        | None => Err KeyError
        end
      else Ok (canonical_event_bytes e)
  | _ => Err (if (leaf_format =? 1)%Z then TypeError else AttributeError)
  end.

Definition compute_merkle_root (events : list json) (leaf_format : Z) : res (string * Z) :=
  if (leaf_format =? 1)%Z || (leaf_format =? 2)%Z then
    entries ← mapR (event_entry leaf_format) events;
    Ok (hex (compute_root entries), Z.of_nat (length entries))
  else Err ValueError.

(** ** The byte strings that are hashed *)

Fixpoint root_inputs_go (fuel : nat) (l : list bytes) : list bytes :=
  match l, fuel with
  | [], _ => [[]]
  | [e], _ => [x00 :: e]
  | _, O => []
  | _, S fuel' =>
      (x01 :: compute_root (take (split_at l) l) ++ compute_root (drop (split_at l) l))
      :: root_inputs_go fuel' (take (split_at l) l) ++ root_inputs_go fuel' (drop (split_at l) l)
  end.
(** Everything hashed by [compute_root l]. *)
Definition root_inputs (l : list bytes) : list bytes := root_inputs_go (length l) l.

Definition climb_input (computed : bytes) (step : bool * bytes) : bytes :=
  x01 :: if step.1 then computed ++ step.2 else step.2 ++ computed.
Fixpoint climb_inputs (computed : bytes) (steps : list (bool * bytes)) : list bytes :=
  match steps with
  | [] => []
  | s :: steps' => climb_input computed s :: climb_inputs (climb computed s) steps'
  end.
(** Everything hashed by [verify_inclusion]. *)
Definition inclusion_inputs (entry : bytes) (index tree_size : Z) (proof : list bytes) : list bytes :=
  (x00 :: entry) :: climb_inputs (leaf_hash entry) (combine (rev (trace index tree_size)) proof).

(** ** The split point *)

Lemma largest_power_bounds n : (2 <= n)%Z ->
  (0 < largest_power_of_two_less_than n < n)%Z
  /\ (n <= 2 * largest_power_of_two_less_than n)%Z
  /\ largest_power_of_two_less_than n = (2 ^ Z.log2 (n - 1))%Z.
Proof.
  intros Hn. unfold largest_power_of_two_less_than, bit_length.
  destruct (Z.eqb_spec (n - 1) 0) as [|_]; [lia|].
  rewrite Z.abs_eq; [lia|]. rewrite Z.add_simpl_r Z.shiftl_1_l. pose proof (Z.log2_spec (n - 1)) as Hs.
  rewrite Z.pow_succ_r in Hs; [apply Z.log2_nonneg|].
  split; [|split; [|done]]; lia.
Qed.

Lemma split_at_bounds {A} (l : list A) : 2 <= length l ->
  0 < split_at l < length l /\ length l <= 2 * split_at l.
Proof. intros Hl. unfold split_at. pose proof (largest_power_bounds (Z.of_nat (length l))). lia. Qed.

Lemma split_at_ext {A B} (l : list A) (l' : list B) :
  length l = length l' -> split_at l = split_at l'.
Proof. unfold split_at. by intros ->. Qed.

(** Induction along the splits of a list of leaves. *)
Lemma split_ind {A} (P : list A -> Prop) :
  P [] -> (forall x, P [x]) ->
  (forall l, 2 <= length l -> P (take (split_at l) l) -> P (drop (split_at l) l) -> P l) ->
  forall l, P l.
Proof.
  intros H0 H1 H2 l.
  assert (forall n l, length l < n -> P l) as Hn; [|by apply (Hn (S (length l))); lia].
  clear l. intros n. induction n as [|n IH]; intros l Hl; [lia|].
  destruct l as [|x [|y l]]; [done|done|].
  pose proof (split_at_bounds (x :: y :: l)) as Hk.
  set (l' := x :: y :: l) in *. assert (2 <= length l') by (unfold l'; simpl; lia).
  apply H2; [done| |]; apply IH; rewrite ?length_take ?length_drop; lia.
Qed.

(** ** Unfolding lemmas: the fuel is enough *)

Lemma mth_go_S f l : 2 <= length l ->
  mth_go (S f) l
  = node_hash (mth_go f (take (split_at l) l)) (mth_go f (drop (split_at l) l)).
Proof. destruct l as [|x [|y l]]; simpl; [lia|lia|done]. Qed.

Lemma mth_go_fuel l f1 f2 : length l <= f1 -> length l <= f2 -> mth_go f1 l = mth_go f2 l.
Proof.
  revert f1 f2. induction l as [|x|l Hl IH1 IH2] using split_ind; intros f1 f2 H1 H2.
  - by destruct f1, f2.
  - by destruct f1, f2.
  - pose proof (split_at_bounds l Hl) as Hk.
    destruct f1 as [|f1], f2 as [|f2]; try lia.
    rewrite !mth_go_S //.
    f_equal; [apply IH1|apply IH2]; rewrite ?length_take ?length_drop; lia.
Qed.

Lemma mth_split l : 2 <= length l ->
  mth_from_leaf_hashes l
  = node_hash (mth_from_leaf_hashes (take (split_at l) l))
              (mth_from_leaf_hashes (drop (split_at l) l)).
Proof.
  intros Hl. pose proof (split_at_bounds l Hl) as Hk. unfold mth_from_leaf_hashes.
  rewrite (mth_go_fuel l (length l) (S (length l))) ?mth_go_S; try lia.
  f_equal; apply mth_go_fuel; rewrite ?length_take ?length_drop; lia.
Qed.

Lemma compute_root_split l : 2 <= length l ->
  compute_root l
  = node_hash (compute_root (take (split_at l) l)) (compute_root (drop (split_at l) l)).
Proof.
  intros Hl. unfold compute_root. rewrite mth_split ?length_fmap //.
  rewrite (split_at_ext (leaf_hash <$> l) l) ?length_fmap //.
  by rewrite fmap_take fmap_drop.
Qed.

(** ** The root binds the entries *)

(** The string whose digest is the root. *)
Definition top_input (l : list bytes) : bytes :=
  match l with
  | [] => []
  | [e] => x00 :: e
  | _ => x01 :: compute_root (take (split_at l) l) ++ compute_root (drop (split_at l) l)
  end.

Lemma compute_root_top l : compute_root l = sha256 (top_input l).
Proof.
  destruct l as [|x [|y l]]; [done|done|].
  by rewrite compute_root_split; [simpl; lia|].
Qed.

Lemma compute_root_length l : length (compute_root l) = 32.
Proof. rewrite compute_root_top. apply sha256_length. Qed.

Lemma root_inputs_go_S f l : 2 <= length l ->
  root_inputs_go (S f) l
  = top_input l :: root_inputs_go f (take (split_at l) l)
                ++ root_inputs_go f (drop (split_at l) l).
Proof. destruct l as [|x [|y l]]; simpl; [lia|lia|done]. Qed.

Lemma root_inputs_go_fuel l f1 f2 :
  length l <= f1 -> length l <= f2 -> root_inputs_go f1 l = root_inputs_go f2 l.
Proof.
  revert f1 f2. induction l as [|x|l Hl IH1 IH2] using split_ind; intros f1 f2 H1 H2.
  - by destruct f1, f2.
  - by destruct f1, f2.
  - pose proof (split_at_bounds l Hl) as Hk.
    destruct f1 as [|f1], f2 as [|f2]; try lia.
    rewrite !root_inputs_go_S //.
    do 2 f_equal; [apply IH1|apply IH2]; rewrite ?length_take ?length_drop; lia.
Qed.

Lemma root_inputs_split l : 2 <= length l ->
  root_inputs l
  = top_input l :: root_inputs (take (split_at l) l) ++ root_inputs (drop (split_at l) l).
Proof.
  intros Hl. pose proof (split_at_bounds l Hl) as Hk. unfold root_inputs.
  rewrite (root_inputs_go_fuel l (length l) (S (length l))) ?root_inputs_go_S; try lia.
  do 2 f_equal; apply root_inputs_go_fuel; rewrite ?length_take ?length_drop; lia.
Qed.

Lemma top_input_in l : top_input l ∈ root_inputs l.
Proof.
  destruct l as [|x [|y l]]; [by left|by left|].
  rewrite root_inputs_split; [simpl; lia|]. by left.
Qed.

Lemma root_inputs_take l : 2 <= length l ->
  root_inputs (take (split_at l) l) ⊆ root_inputs l.
Proof. intros Hl. rewrite (root_inputs_split l Hl). set_solver. Qed.
Lemma root_inputs_drop l : 2 <= length l ->
  root_inputs (drop (split_at l) l) ⊆ root_inputs l.
Proof. intros Hl. rewrite (root_inputs_split l Hl). set_solver. Qed.

Lemma top_input_node l : 2 <= length l ->
  top_input l
  = x01 :: compute_root (take (split_at l) l) ++ compute_root (drop (split_at l) l).
Proof. destruct l as [|x [|y l]]; simpl; [lia|lia|done]. Qed.

(** Equal roots come from equal inputs at the top, or from a collision. *)
Lemma top_input_eq_or l1 l2 S :
  root_inputs l1 ⊆ S -> root_inputs l2 ⊆ S -> compute_root l1 = compute_root l2 ->
  top_input l1 = top_input l2 \/ has_collision S.
Proof.
  intros H1 H2. rewrite !compute_root_top. apply sha256_eq_or.
  - apply H1, top_input_in.
  - apply H2, top_input_in.
Qed.

Lemma compute_root_binds l1 l2 S :
  root_inputs l1 ⊆ S -> root_inputs l2 ⊆ S ->
  compute_root l1 = compute_root l2 -> l1 = l2 \/ has_collision S.
Proof.
  revert l2. induction l1 as [|x|l1 Hl1 IH1 IH2] using split_ind; intros l2 HS1 HS2 Heq;
    (destruct (top_input_eq_or _ _ S HS1 HS2 Heq) as [Htop|]; [|by right]).
  - destruct l2 as [|y [|z l2]]; [by left|discriminate Htop|discriminate Htop].
  - destruct l2 as [|y [|z l2]]; [discriminate Htop| |discriminate Htop].
    injection Htop as ->. by left.
  - rewrite (top_input_node l1 Hl1) in Htop.
    destruct (decide (2 <= length l2)) as [Hl2|];
      [|destruct l2 as [|y [|z l2]]; simpl in *; try lia; discriminate Htop].
    rewrite (top_input_node l2 Hl2) in Htop. injection Htop as Htop.
    apply app_inj_1 in Htop as [Ha Hb]; [|by rewrite !compute_root_length].
    apply IH1 in Ha as [Ha|]; [|by right|
      etrans; [apply root_inputs_take|]|etrans; [apply root_inputs_take|]]; try done.
    apply IH2 in Hb as [Hb|]; [|by right|
      etrans; [apply root_inputs_drop|]|etrans; [apply root_inputs_drop|]]; try done.
    left. rewrite -(take_drop (split_at l1) l1) -(take_drop (split_at l2) l2). congruence.
Qed.

Lemma compute_root_binds_both l1 l2 :
  compute_root l1 = compute_root l2 ->
  l1 = l2 \/ has_collision (root_inputs l1 ++ root_inputs l2).
Proof. apply compute_root_binds; set_solver. Qed.

(** ** Inclusion proofs *)

Lemma trace_go_fuel f1 f2 m size :
  (size <= Z.of_nat f1)%Z -> (size <= Z.of_nat f2)%Z -> trace_go f1 m size = trace_go f2 m size.
Proof.
  revert f2 m size. induction f1 as [|f1 IH]; intros f2 m size H1 H2.
  - destruct f2 as [|f2]; [done|]. simpl. destruct (Z.ltb_spec 1 size); [lia|done].
  - destruct f2 as [|f2]; simpl; destruct (Z.ltb_spec 1 size); try lia; try done.
    pose proof (largest_power_bounds size).
    destruct (Z.ltb_spec m (largest_power_of_two_less_than size)); f_equal; apply IH; lia.
Qed.

Lemma trace_step m size : (1 < size)%Z ->
  trace m size
  = let k := largest_power_of_two_less_than size in
    if (m <? k)%Z then true :: trace m k else false :: trace (m - k)%Z (size - k)%Z.
Proof.
  intros Hs. unfold trace. pose proof (largest_power_bounds size) as Hk.
  rewrite (trace_go_fuel (Z.to_nat size) (S (Z.to_nat size))); [lia|lia|]. simpl.
  destruct (Z.ltb_spec 1 size); [|lia].
  destruct (Z.ltb_spec m (largest_power_of_two_less_than size));
    f_equal; apply trace_go_fuel; lia.
Qed.

Lemma trace_one m size : (size <= 1)%Z -> trace m size = [].
Proof.
  intros Hs. unfold trace. destruct (Z.to_nat size); [done|]. simpl.
  destruct (Z.ltb_spec 1 size); [lia|done].
Qed.

Lemma path_go_fuel l f1 f2 m : 1 <= length l ->
  length l <= f1 -> length l <= f2 -> path_go f1 l m = path_go f2 l m.
Proof.
  revert f1 f2 m. induction l as [|x|l Hl IH1 IH2] using split_ind; intros f1 f2 m H0 H1 H2.
  - simpl in *; lia.
  - destruct f1, f2; simpl in *; try lia; done.
  - pose proof (split_at_bounds l Hl) as Hk.
    destruct f1 as [|f1], f2 as [|f2]; try lia. cbn [path_go].
    destruct (Nat.eqb_spec (length l) 1); [done|].
    destruct (Nat.ltb_spec m (split_at l)); f_equal; [apply IH1|apply IH2];
      rewrite ?length_take ?length_drop; lia.
Qed.

Lemma path_split l m : 2 <= length l ->
  path l m
  = let k := split_at l in
    if (m <? k)%nat
    then path (take k l) m ++ [mth_from_leaf_hashes (drop k l)]
    else path (drop k l) (m - k) ++ [mth_from_leaf_hashes (take k l)].
Proof.
  intros Hl. pose proof (split_at_bounds l Hl) as Hk. unfold path.
  rewrite (path_go_fuel l (length l) (S (length l))); try lia. cbn [path_go].
  destruct (Nat.eqb_spec (length l) 1); [lia|].
  destruct (Nat.ltb_spec m (split_at l)); f_equal; apply path_go_fuel;
    rewrite ?length_take ?length_drop; lia.
Qed.

(** One level of the verifier's directions, on a list of leaves. *)
Lemma trace_split {A} (l : list A) m : 2 <= length l -> m < length l ->
  trace (Z.of_nat m) (Z.of_nat (length l))
  = let k := split_at l in
    if (m <? k)%nat
    then true :: trace (Z.of_nat m) (Z.of_nat (length (take k l)))
    else false :: trace (Z.of_nat (m - k)) (Z.of_nat (length (drop k l))).
Proof.
  intros Hl Hm. pose proof (split_at_bounds l Hl) as Hk. rewrite trace_step; [lia|].
  cbn zeta. rewrite length_take length_drop.
  assert (largest_power_of_two_less_than (Z.of_nat (length l)) = Z.of_nat (split_at l)) as ->.
  { unfold split_at in *. lia. }
  destruct (Z.ltb_spec (Z.of_nat m) (Z.of_nat (split_at l)));
    destruct (Nat.ltb_spec m (split_at l)); try lia; do 2 f_equal; lia.
Qed.

Lemma combine_snoc {A B} (xs : list A) (ys : list B) x y :
  length xs = length ys -> combine (xs ++ [x]) (ys ++ [y]) = combine xs ys ++ [(x, y)].
Proof.
  revert ys. induction xs as [|a xs IH]; intros [|b ys] Hl; simpl in *; try lia; [done|].
  f_equal. apply IH. lia.
Qed.

(** The generated path has the verifier's length and climbs to the root. *)
Lemma path_climbs l m h : l !! m = Some h ->
  length (trace (Z.of_nat m) (Z.of_nat (length l))) = length (path l m)
  /\ fold_left climb (combine (rev (trace (Z.of_nat m) (Z.of_nat (length l)))) (path l m)) h
     = mth_from_leaf_hashes l.
Proof.
  revert m. induction l as [|x|l Hl IH1 IH2] using split_ind; intros m Hm.
  - done.
  - destruct m; [|done]. simpl in Hm. injection Hm as ->. done.
  - pose proof (split_at_bounds l Hl) as Hk. pose proof (lookup_lt_Some _ _ _ Hm) as Hlt.
    rewrite trace_split // path_split // mth_split //. cbn zeta.
    destruct (Nat.ltb_spec m (split_at l)) as [Hmk|Hmk].
    + destruct (IH1 m) as [Hlen Hfold]; [by rewrite lookup_take_lt|].
      split; [rewrite length_app /= Hlen; lia|].
      rewrite [rev _]/= combine_snoc ?length_rev // fold_left_app Hfold. done.
    + destruct (IH2 (m - split_at l)) as [Hlen Hfold].
      { rewrite lookup_drop. by replace (split_at l + (m - split_at l)) with m by lia. }
      split; [rewrite length_app /= Hlen; lia|].
      rewrite [rev _]/= combine_snoc ?length_rev // fold_left_app Hfold. done.
Qed.

Lemma climb_inputs_app c s1 s2 :
  climb_inputs c (s1 ++ s2) = climb_inputs c s1 ++ climb_inputs (fold_left climb s1 c) s2.
Proof.
  revert c. induction s1 as [|s s1 IH]; intros c; [done|]. simpl. by rewrite IH.
Qed.

Lemma climb_length c s : length c = 32 -> length (fold_left climb s c) = 32.
Proof.
  revert c. induction s as [|[[] sib] s IH]; intros c Hc; simpl; [done| |];
    apply IH, sha256_length.
Qed.

(** Two children that hash to the root of [es] are its two subtrees' roots
    laid end to end, or there is a collision. *)
Lemma node_root_or es l r S : 2 <= length es ->
  (x01 :: l ++ r) ∈ S -> root_inputs es ⊆ S -> node_hash l r = compute_root es ->
  l ++ r = compute_root (take (split_at es) es) ++ compute_root (drop (split_at es) es)
  \/ has_collision S.
Proof.
  intros Hl Hin HS Heq. rewrite compute_root_top in Heq.
  destruct (sha256_eq_or S (x01 :: l ++ r) (top_input es)) as [Hx|]; [done| |done| |by right].
  - apply HS, top_input_in.
  - left. rewrite top_input_node // in Hx. by injection Hx.
Qed.

(** A path that climbs from [leaf_hash e] at position [m] to the root of [es]
    starts at entry [m], or exhibits a collision. *)
Lemma climb_binds es m e proof S :
  m < length es ->
  length (trace (Z.of_nat m) (Z.of_nat (length es))) = length proof ->
  let steps := combine (rev (trace (Z.of_nat m) (Z.of_nat (length es)))) proof in
  root_inputs es ⊆ S -> (x00 :: e) :: climb_inputs (leaf_hash e) steps ⊆ S ->
  fold_left climb steps (leaf_hash e) = compute_root es ->
  es !! m = Some e \/ has_collision S.
Proof.
  revert m proof. induction es as [|x|es Hl IH1 IH2] using split_ind;
    intros m proof Hm Hlen steps HS HS'.
  - simpl in Hm; lia.
  - simpl in Hm. assert (m = 0) as -> by lia. unfold steps. simpl. intros Heq.
    destruct (sha256_eq_or S (x00 :: e) (x00 :: x)) as [Hx|]; [| |exact Heq| |by right].
    + apply HS'. by left.
    + apply HS. by left.
    + injection Hx as ->. by left.
  - pose proof (split_at_bounds es Hl) as Hk. revert Hlen steps HS'.
    rewrite trace_split //. cbn zeta. intros Hlen.
    destruct proof as [|sib proof _] using rev_ind; [by destruct (m <? split_at es)%nat|].
    rewrite length_app /= in Hlen.
    destruct (Nat.ltb_spec m (split_at es)) as [Hmk|Hmk]; simpl in Hlen |- *;
      rewrite combine_snoc ?length_rev ?climb_inputs_app ?fold_left_app; try lia;
      set (c := fold_left climb _ _); intros HS' Heq;
      (apply (node_root_or es _ _ S) in Heq as [Hx|];
        [|by right|done|apply HS'; set_solver|done]).
    + apply app_inj_1 in Hx as [Hx _];
        [|by rewrite compute_root_length; apply climb_length, sha256_length].
      destruct (IH1 m proof) as [Hi|]; [rewrite length_take; lia|lia| |set_solver|done| |by right].
      * etrans; [by apply root_inputs_take|done].
      * left. by rewrite lookup_take_lt in Hi.
    + apply app_inj_2 in Hx as [_ Hx];
        [|by rewrite compute_root_length; apply climb_length, sha256_length].
      destruct (IH2 (m - split_at es) proof) as [Hi|];
        [rewrite length_drop; lia|lia| |set_solver|done| |by right].
      * etrans; [by apply root_inputs_drop|done].
      * left. rewrite lookup_drop in Hi.
        by replace (split_at es + (m - split_at es)) with m in Hi by lia.
Qed.
End Tree.

(** ** Canonical event bytes *)

(** The events of a list that are objects. *)
Definition event_dicts (events : list json) : list dict := omap as_dict events.

(** Two events with the same value for every key that does not start with
    [merkle_]. *)
Definition same_bound_fields (event event' : json) : Prop :=
  exists e e', event = JObj e /\ event' = JObj e' /\ forall k, startswith k "merkle_" = false -> e !! k = e' !! k.
Lemma scrub_lookup (e : dict) k : startswith k "merkle_" = false -> scrub e !! k = e !! k.
Proof. intros Hk. unfold scrub. rewrite map_lookup_filter. destruct (e !! k); [|done]. cbn. by rewrite option_guard_True. Qed.

Section EventLeaves.
Context `{HashFn}.

Lemma canonical_event_bytes_eq e1 e2 :
  canonical_event_bytes e1 = canonical_event_bytes e2 <-> scrub e1 = scrub e2.
Proof.
  unfold canonical_event_bytes. split; [|congruence].
  intros Heq%(inj utf8)%(inj (dumps false)). by injection Heq.
Qed.

Lemma mapR_entries events entries :
  mapR (event_entry LEAF_FORMAT_CURRENT) events = Ok entries ->
  events = JObj <$> event_dicts events
  /\ entries = canonical_event_bytes <$> event_dicts events.
Proof.
  revert entries. induction events as [|e events IH]; intros entries Hm; simpl in Hm; inv_ok;
    [done|].
  destruct e; simpl in *; inv_ok. destruct (IH _ eq_refl) as [He ->].
  split; [|done]. by rewrite {1}He.
Qed.

Lemma compute_merkle_root_format2 events r n :
  compute_merkle_root events LEAF_FORMAT_CURRENT = Ok (r, n) ->
  events = JObj <$> event_dicts events
  /\ r = hex (compute_root (canonical_event_bytes <$> event_dicts events))
  /\ n = Z.of_nat (length events).
Proof.
  unfold compute_merkle_root. simpl. intros Hr. inv_ok.
  pose proof (mapR_ok_length _ _ _ E) as Hlen.
  destruct (mapR_entries _ _ E) as [He ->]. repeat split; [done|]. by rewrite Hlen.
Qed.

Lemma compute_merkle_root_objects (ds : list dict) :
  compute_merkle_root (JObj <$> ds) LEAF_FORMAT_CURRENT
  = Ok (hex (compute_root (canonical_event_bytes <$> ds)), Z.of_nat (length ds)).
Proof.
  assert (mapR (event_entry LEAF_FORMAT_CURRENT) (JObj <$> ds) = Ok (canonical_event_bytes <$> ds)) as Hm.
  { induction ds as [|d ds IH]; [done|]. simpl. unfold fmap in IH. by rewrite IH. }
  unfold compute_merkle_root. simpl. by rewrite Hm /= length_fmap.
Qed.

(** Equal canonical bytes, position by position, are events with the same bound
    fields. *)
Lemma canonical_list_eq (ds1 ds2 : list dict) :
  canonical_event_bytes <$> ds1 = canonical_event_bytes <$> ds2 ->
  Forall2 same_bound_fields (JObj <$> ds1) (JObj <$> ds2).
Proof.
  revert ds2. induction ds1 as [|d ds1 IH]; intros [|d2 ds2]; [by constructor|done..|].
  rewrite !fmap_cons. intros [Hd%canonical_event_bytes_eq Hds]%(inj2 cons). constructor; [|exact (IH _ Hds)].
  exists d, d2. split; [done|]. split; [done|]. intros k Hk.
  by rewrite -(scrub_lookup d k Hk) Hd (scrub_lookup d2 k Hk).
Qed.

Lemma format2_binds events1 events2 r n1 n2 :
  compute_merkle_root events1 LEAF_FORMAT_CURRENT = Ok (r, n1) ->
  compute_merkle_root events2 LEAF_FORMAT_CURRENT = Ok (r, n2) ->
  Forall2 same_bound_fields events1 events2
  \/ has_collision (root_inputs (canonical_event_bytes <$> event_dicts events1)
                   ++ root_inputs (canonical_event_bytes <$> event_dicts events2)).
Proof.
  intros (He1 & Hr1 & _)%compute_merkle_root_format2 (He2 & Hr2 & _)%compute_merkle_root_format2.
  rewrite Hr1 in Hr2. apply (inj hex) in Hr2.
  destruct (compute_root_binds_both _ _ Hr2) as [Heq|]; [left|by right].
  rewrite He1 He2. by apply canonical_list_eq.
Qed.
End EventLeaves.

(** ** Properties *)

Section Properties.
Context `{HashFn}.

(** The Merkle root binds its entries.  Two lists of entries with the same
    root, of whatever lengths, are the same list - or two of the byte strings
    that were hashed to compute the two roots collide under SHA-256. *)
Theorem merkle_root_binding (entries1 entries2 : list bytes) :
  compute_root entries1 = compute_root entries2 ->
  entries1 = entries2 \/ has_collision (root_inputs entries1 ++ root_inputs entries2).
Proof. apply compute_root_binds_both. Qed.

(** C36: every proof [inclusion_proof] produces is accepted: for an index in
    range it returns, and [verify_inclusion] accepts the proof for that entry
    against the root of all entries. *)
Theorem inclusion_complete (entries : list bytes) (index : Z) (e : bytes) :
  (0 <= index)%Z -> entries !! Z.to_nat index = Some e ->
  exists proof, inclusion_proof entries index = Ok proof
    /\ verify_inclusion (compute_root entries) e index (Z.of_nat (length entries)) proof = true.
Proof.
  intros H0 He. pose proof (lookup_lt_Some _ _ _ He) as Hlt. unfold inclusion_proof.
  destruct (Z.leb_spec 0 index), (Z.ltb_spec index (Z.of_nat (length entries))); try lia.
  eexists. split; [done|].
  destruct (path_climbs (leaf_hash <$> entries) (Z.to_nat index) (leaf_hash e)) as [Hlen Hfold].
  { by rewrite list_lookup_fmap He. }
  rewrite length_fmap Z2Nat.id // in Hlen Hfold. unfold verify_inclusion.
  destruct (Z.leb_spec 0 index), (Z.ltb_spec index (Z.of_nat (length entries))); try lia. simpl.
  destruct (Z.eqb_spec (Z.of_nat (length entries)) 1) as [Hone|].
  - destruct entries as [|x [|y entries]]; simpl in *; try lia.
    assert (index = 0)%Z as -> by lia. simpl in *. injection He as ->.
    by apply bool_decide_eq_true.
  - rewrite Hlen Nat.eqb_refl /=. by apply bool_decide_eq_true.
Qed.

(** C11: an accepted inclusion proof is about the entry that is really there.
    Whatever proof verifies [e] at [index] against the root of [entries], [e]
    is entry [index] - or two of the byte strings hashed by the two
    computations collide. *)
Theorem inclusion_sound (entries : list bytes) (index : Z) (e : bytes) (proof : list bytes) :
  verify_inclusion (compute_root entries) e index (Z.of_nat (length entries)) proof = true ->
  entries !! Z.to_nat index = Some e
  \/ has_collision (root_inputs entries
        ++ inclusion_inputs e index (Z.of_nat (length entries)) proof).
Proof.
  unfold verify_inclusion.
  destruct (Z.leb_spec 0 index), (Z.ltb_spec index (Z.of_nat (length entries)));
    simpl; try done. intros Hv.
  assert (length (trace index (Z.of_nat (length entries))) = length proof
    /\ fold_left climb (combine (rev (trace index (Z.of_nat (length entries)))) proof) (leaf_hash e)
       = compute_root entries) as [Hlen Hfold].
  { destruct (Z.eqb_spec (Z.of_nat (length entries)) 1) as [Hone|].
    - rewrite trace_one; [lia|]. destruct proof; [|done]. by apply bool_decide_eq_true in Hv.
    - destruct (Nat.eqb_spec (length (trace index (Z.of_nat (length entries)))) (length proof));
        [|done]. by apply bool_decide_eq_true in Hv. }
  destruct (Z_of_nat_complete index) as [i ->]; [done|]. rewrite Nat2Z.id.
  eapply climb_binds; [lia|exact Hlen| | |exact Hfold]; set_solver.
Qed.

(** C7: the stamped root binds every field of every event.  Two event arrays
    that [compute_merkle_root] gives the same root under the current leaf
    format agree on every event, field for field, up to the [merkle_*] fields
    the format excludes - or SHA-256 inputs that were hashed collide. *)
Theorem merkle_root_binds_event_content (events1 events2 : list json) (r : string) (n1 n2 : Z) :
  compute_merkle_root events1 LEAF_FORMAT_CURRENT = Ok (r, n1) ->
  compute_merkle_root events2 LEAF_FORMAT_CURRENT = Ok (r, n2) ->
  Forall2 same_bound_fields events1 events2
  \/ has_collision (root_inputs (canonical_event_bytes <$> event_dicts events1)
                   ++ root_inputs (canonical_event_bytes <$> event_dicts events2)).
Proof. apply format2_binds. Qed.
End Properties.

(** ** Witnesses, on real digests *)

Definition sample_entries : list bytes := utf8 <$> ["one"; "two"; "three"; "four"; "five"].
Definition sample_events : list json :=
  [JObj {["event_id" := JStr "E1"; "merkle_leaf" := JInt 7]}; JObj {["event_id" := JStr "E2"]}].
Definition sample_events' : list json :=
  [JObj {["event_id" := JStr "E1"]}; JObj {["event_id" := JStr "E2"; "merkle_root" := JNull]}].

Lemma merkle_root_binding_witness :
  sample_entries = sample_entries
  \/ has_collision (root_inputs sample_entries ++ root_inputs sample_entries).
Proof. apply (merkle_root_binding sample_entries sample_entries). reflexivity. Defined.

Lemma inclusion_complete_witness :
  exists proof, inclusion_proof sample_entries 3 = Ok proof
    /\ verify_inclusion (compute_root sample_entries) (utf8 "four") 3 5 proof = true.
Proof. apply (inclusion_complete sample_entries 3 (utf8 "four")); [lia|reflexivity]. Defined.

Definition sample_proof : list bytes :=
  match inclusion_proof sample_entries 3 with Ok p => p | Err _ => [] end.
Lemma inclusion_sound_witness :
  sample_entries !! 3%nat = Some (utf8 "four")
  \/ has_collision (root_inputs sample_entries ++ inclusion_inputs (utf8 "four") 3 5 sample_proof).
Proof.
  apply (inclusion_sound sample_entries 3 (utf8 "four") sample_proof). vm_compute. reflexivity.
Defined.

Lemma merkle_root_binds_event_content_witness :
  Forall2 same_bound_fields sample_events sample_events'
  \/ has_collision (root_inputs (canonical_event_bytes <$> event_dicts sample_events)
                   ++ root_inputs (canonical_event_bytes <$> event_dicts sample_events')).
Proof.
  apply (merkle_root_binds_event_content sample_events sample_events'
    "3656350d146ee683ba1a1fc774be96fc72b0bdefc43e15f02c40e91b521457eb" 2 2); vm_compute; reflexivity.
Defined.
