(* ===== verification/Consistency.v ===== *)
(** * Consistency proofs

    [consistency_proof] and [verify_consistency] of
    [_internal/integrity/merkle.py].  The verifier is an iterative walk over the
    bits of the two tree sizes; [consistency_reference] is the recursive reading
    of the same check, and the two are proved equal.  Completeness and soundness
    of the protocol are proved through the reference. *)

From S2P Require Import Prelude PyStr Json Sha256 Errors Merkle.
From Stdlib Require Import Strings.Byte.
From stdpp Require Import options.

Section Consistency.
Context `{HashFn}.

(** ** Definitions *)

(** [_subproof], with the number of leaves as fuel. *)
Fixpoint subproof_go (fuel m : nat) (leaves : list bytes) (complete_subtree : bool) : list bytes :=
  if (m =? length leaves)%nat then
    if complete_subtree then [] else [mth_from_leaf_hashes leaves]
  else
    match fuel with
    | O => []
    | S fuel' =>
        let k := split_at leaves in
        if (m <=? k)%nat
        then subproof_go fuel' m (take k leaves) complete_subtree
             ++ [mth_from_leaf_hashes (drop k leaves)]
        else subproof_go fuel' (m - k) (drop k leaves) false
             ++ [mth_from_leaf_hashes (take k leaves)]
    end.
Definition subproof (m : nat) (leaves : list bytes) (complete_subtree : bool) : list bytes :=
  subproof_go (length leaves) m leaves complete_subtree.

Definition consistency_proof (entries : list bytes) (old_size : Z) : res (list bytes) :=
  let new_size := Z.of_nat (length entries) in
  if negb ((0 <=? old_size)%Z && (old_size <=? new_size)%Z) then Err ValueError
  else if (old_size =? 0)%Z || (old_size =? new_size)%Z then Ok []
  else Ok (subproof (Z.to_nat old_size) (leaf_hash <$> entries) true).

(** [fn & 1]. *)
Definition odd_bit (fn : Z) : bool := negb (Z.land fn 1 =? 0)%Z.

(** The loops shift a number right, so its bit count is fuel enough. *)
Definition bits (z : Z) : nat := S (Z.to_nat (Z.log2 z)).

(** [while fn & 1: fn >>= 1; sn >>= 1]. *)
Fixpoint strip_ones (fuel : nat) (fn sn : Z) : Z * Z :=
  match fuel with
  | O => (fn, sn)
  | S fuel' =>
      if odd_bit fn then strip_ones fuel' (Z.shiftr fn 1) (Z.shiftr sn 1) else (fn, sn)
  end.

(** [while not (fn & 1) and fn != 0: fn >>= 1; sn >>= 1]. *)
Fixpoint skip_zeros (fuel : nat) (fn sn : Z) : Z * Z :=
  match fuel with
  | O => (fn, sn)
  | S fuel' =>
      if negb (odd_bit fn) && negb (fn =? 0)%Z
      then skip_zeros fuel' (Z.shiftr fn 1) (Z.shiftr sn 1) else (fn, sn)
  end.

(** The loop variables [fn], [sn], [first_root], [second_root]. *)
Record walk_state := WS { w_fn : Z; w_sn : Z; w_first : bytes; w_second : bytes }.

(** One turn of [for node in nodes[1:]]; [None] is the early [return False]. *)
Definition walk_step (st : walk_state) (node : bytes) : option walk_state :=
  if (w_sn st =? 0)%Z then None
  else
    let '(WS fn sn f s) := st in
    if odd_bit fn || (fn =? sn)%Z then
      let '(fn, sn) := skip_zeros (bits fn) fn sn in
      Some (WS (Z.shiftr fn 1) (Z.shiftr sn 1) (node_hash node f) (node_hash node s))
    else Some (WS (Z.shiftr fn 1) (Z.shiftr sn 1) f (node_hash s node)).
Fixpoint walk (st : walk_state) (nodes : list bytes) : option walk_state :=
  match nodes with
  | [] => Some st
  | node :: nodes' => st' ← walk_step st node; walk st' nodes'
  end.

Definition verify_consistency (old_root new_root : bytes) (old_size new_size : Z)
    (proof : list bytes) : bool :=
  let m := old_size in let n := new_size in
  if (m <? 0)%Z || (n <? 0)%Z || (n <? m)%Z then false
  else if (m =? 0)%Z then bool_decide (proof = [])
  else if (m =? n)%Z then bool_decide (proof = []) && bool_decide (old_root = new_root)
  else
    let nodes := if (Z.land m (m - 1) =? 0)%Z then old_root :: proof else proof in
    match nodes with
    | [] => false
    | seed :: nodes' =>
        let '(fn, sn) := strip_ones (bits (m - 1)) (m - 1) (n - 1) in
        match walk (WS fn sn seed seed) nodes' with
        | None => false
        | Some st => (w_sn st =? 0)%Z && bool_decide (w_first st = old_root)
                     && bool_decide (w_second st = new_root)
        end
    end.

(** ** The recursive reference *)

(** Directions from the root down to the largest subtree that is full at the
    old size: [true] where it lies to the left. *)
Fixpoint descent_go (fuel : nat) (m n : Z) : list bool :=
  match fuel with
  | O => []
  | S fuel' =>
      if (m =? n)%Z then []
      else
        let k := largest_power_of_two_less_than n in
        if (m <=? k)%Z then true :: descent_go fuel' m k
        else false :: descent_go fuel' (m - k)%Z (n - k)%Z
  end.
Definition descent (m n : Z) : list bool := descent_go (Z.to_nat n) m n.

(** Both roots rebuilt one level up: a right sibling is new, a left sibling
    belongs to both trees. *)
Definition climb2 (roots : bytes * bytes) (step : bool * bytes) : bytes * bytes :=
  if step.1 then (roots.1, node_hash roots.2 step.2)
  else (node_hash step.2 roots.1, node_hash step.2 roots.2).
Definition climb2_all (dirs : list bool) (seed : bytes) (nodes : list bytes) : bytes * bytes :=
  fold_left climb2 (combine (rev dirs) nodes) (seed, seed).

Definition consistency_reference (old_root new_root : bytes) (m n : Z) (proof : list bytes) : bool :=
  let dirs := descent m n in
  let nodes := if forallb id dirs then old_root :: proof else proof in
  match nodes with
  | [] => false
  | seed :: nodes' =>
      (length nodes' =? length dirs)%nat
      && bool_decide (climb2_all dirs seed nodes' = (old_root, new_root))
  end.

(** Everything hashed by the verifier. *)
Fixpoint climb2_inputs (roots : bytes * bytes) (steps : list (bool * bytes)) : list bytes :=
  match steps with
  | [] => []
  | s :: steps' =>
      (if s.1 then [x01 :: roots.2 ++ s.2] else [x01 :: s.2 ++ roots.1; x01 :: s.2 ++ roots.2])
      ++ climb2_inputs (climb2 roots s) steps'
  end.
Definition consistency_inputs (old_root : bytes) (m n : Z) (proof : list bytes) : list bytes :=
  match (if forallb id (descent m n) then old_root :: proof else proof) with
  | [] => []
  | seed :: nodes => climb2_inputs (seed, seed) (combine (rev (descent m n)) nodes)
  end.

(** ** Bits *)

Lemma odd_bit_spec z : odd_bit z = Z.odd z.
Proof.
  unfold odd_bit. change 1%Z with (Z.ones 1). rewrite Z.land_ones; [lia|].
  change (2 ^ 1)%Z with 2%Z. rewrite Zmod_odd. by destruct (Z.odd z).
Qed.
Lemma shiftr1 z : Z.shiftr z 1 = (z / 2)%Z.
Proof. by rewrite Z.shiftr_div_pow2. Qed.

Lemma bits_half fn : (1 < fn)%Z -> bits fn = S (bits (fn / 2)).
Proof.
  intros Hf. unfold bits. f_equal. rewrite -Z.div2_div Z.div2_spec Z.log2_shiftr; [lia|].
  pose proof (Z.log2_pos fn). lia.
Qed.

(** ** The walk's directions *)

(** The sequence of sibling sides the walk expects, from the leaves up. *)
Fixpoint moves_go (fuel : nat) (fn sn : Z) : list bool :=
  match fuel with
  | O => []
  | S fuel' =>
      if (sn =? 0)%Z then []
      else if odd_bit fn || (fn =? sn)%Z then
        let '(fn, sn) := skip_zeros (bits fn) fn sn in
        false :: moves_go fuel' (Z.shiftr fn 1) (Z.shiftr sn 1)
      else true :: moves_go fuel' (Z.shiftr fn 1) (Z.shiftr sn 1)
  end.
Definition moves (fn sn : Z) : list bool := moves_go (bits sn) fn sn.

Lemma skip_zeros_odd f fn sn : Z.odd fn = true -> skip_zeros f fn sn = (fn, sn).
Proof. intros Ho. destruct f; [done|]. simpl. by rewrite odd_bit_spec Ho. Qed.

Lemma even_half x : Z.odd x = false -> (x = 2 * (x / 2))%Z.
Proof. intros Ho. pose proof (Z.div_mod x 2). rewrite Zmod_odd Ho in H0. lia. Qed.
Lemma odd_half x : Z.odd x = true -> (x = 2 * (x / 2) + 1)%Z.
Proof. intros Ho. pose proof (Z.div_mod x 2). rewrite Zmod_odd Ho in H0. lia. Qed.

Lemma skip_zeros_even x : (0 < x)%Z -> Z.odd x = false ->
  skip_zeros (bits x) x x = skip_zeros (bits (x / 2)) (x / 2) (x / 2).
Proof.
  intros Hx Ho. pose proof (even_half x Ho).
  rewrite bits_half; [lia|]. cbn [skip_zeros]. rewrite odd_bit_spec Ho shiftr1.
  destruct (Z.eqb_spec x 0); [lia|done].
Qed.

Lemma skip_zeros_diag f x : (0 < x)%Z ->
  exists y, skip_zeros f x x = (y, y) /\ (0 < y <= x)%Z.
Proof.
  revert x. induction f as [|f IH]; intros x Hx; simpl; [exists x; split; [done|lia]|].
  rewrite odd_bit_spec !shiftr1. destruct (Z.odd x) eqn:Ho; simpl; [exists x; split; [done|lia]|].
  destruct (Z.eqb_spec x 0); [lia|]. simpl. pose proof (even_half x Ho).
  destruct (IH (x / 2)%Z) as (y & -> & Hy); [lia|]. exists y. split; [done|lia].
Qed.

Lemma pow2_half f x : (0 <= x < 2 ^ Z.of_nat (S f))%Z -> (0 <= x / 2 < 2 ^ Z.of_nat f)%Z.
Proof.
  rewrite Nat2Z.inj_succ Z.pow_succ_r; [lia|]. intros Hx.
  split; [apply Z.div_pos; lia|apply Z.div_lt_upper_bound; lia].
Qed.

Lemma moves_go_fuel f1 f2 fn sn : (0 <= fn <= sn)%Z ->
  (sn < 2 ^ Z.of_nat f1)%Z -> (sn < 2 ^ Z.of_nat f2)%Z -> moves_go f1 fn sn = moves_go f2 fn sn.
Proof.
  revert f2 fn sn. induction f1 as [|f1 IH]; intros f2 fn sn Hfn H1 H2.
  - assert (sn = 0)%Z as -> by (simpl in H1; lia). by destruct f2.
  - destruct f2 as [|f2].
    { assert (sn = 0)%Z as -> by (simpl in H2; lia). done. }
    cbn [moves_go]. destruct (Z.eqb_spec sn 0); [done|].
    assert (fn / 2 <= sn / 2)%Z by (apply Z.div_le_mono; lia).
    pose proof (pow2_half f1 sn ltac:(lia)). pose proof (pow2_half f2 sn ltac:(lia)).
    assert (0 <= fn / 2)%Z by (apply Z.div_pos; lia).
    rewrite odd_bit_spec. destruct (Z.odd fn) eqn:Ho; cbn [orb].
    + rewrite skip_zeros_odd //. cbn beta iota. rewrite !shiftr1. f_equal. apply IH; lia.
    + destruct (Z.eqb_spec fn sn) as [->|]; [|rewrite !shiftr1; f_equal; apply IH; lia].
      destruct (skip_zeros_diag (bits sn) sn) as (y & -> & Hy); [lia|].
      cbn beta iota. rewrite !shiftr1. f_equal. apply IH; [|apply pow2_half; lia..].
      split; [apply Z.div_pos; lia|lia].
Qed.

Lemma bits_bound z : (0 <= z)%Z -> (z < 2 ^ Z.of_nat (bits z))%Z.
Proof.
  intros Hz. unfold bits. rewrite Nat2Z.inj_succ Z2Nat.id; [apply Z.log2_nonneg|].
  destruct (Z.eq_dec z 0%Z) as [->|]; [done|]. apply Z.log2_spec. lia.
Qed.

(** The defining equations of [moves], free of fuel. *)
Lemma moves_zero fn : moves fn 0 = [].
Proof. done. Qed.

Lemma moves_odd fn sn : (0 <= fn <= sn)%Z -> (0 < sn)%Z -> Z.odd fn = true ->
  moves fn sn = false :: moves (fn / 2) (sn / 2).
Proof.
  intros Hfn Hsn Ho. unfold moves at 1, bits. cbn [moves_go].
  destruct (Z.eqb_spec sn 0); [lia|].
  rewrite odd_bit_spec Ho. cbn [orb]. rewrite skip_zeros_odd //. cbn beta iota. rewrite !shiftr1. f_equal.
  pose proof (bits_bound sn ltac:(lia)) as Hb.
  apply moves_go_fuel; [split; [apply Z.div_pos; lia|apply Z.div_le_mono; lia]| |].
  - apply pow2_half. unfold bits in Hb. lia.
  - apply bits_bound, Z.div_pos; lia.
Qed.

Lemma moves_even fn sn : (0 <= fn < sn)%Z -> Z.odd fn = false ->
  moves fn sn = true :: moves (fn / 2) (sn / 2).
Proof.
  intros Hfn Ho. unfold moves at 1, bits. cbn [moves_go].
  destruct (Z.eqb_spec sn 0); [lia|].
  rewrite odd_bit_spec Ho. cbn [orb]. destruct (Z.eqb_spec fn sn); [lia|]. rewrite !shiftr1. f_equal.
  pose proof (bits_bound sn ltac:(lia)) as Hb.
  apply moves_go_fuel; [split; [apply Z.div_pos; lia|apply Z.div_le_mono; lia]| |].
  - apply pow2_half. unfold bits in Hb. lia.
  - apply bits_bound, Z.div_pos; lia.
Qed.

Lemma moves_diag x : (0 < x)%Z -> Z.odd x = false -> moves x x = moves (x / 2) (x / 2).
Proof.
  intros Hx Ho. pose proof (even_half x Ho) as Hh. unfold moves, bits. cbn [moves_go].
  destruct (Z.eqb_spec x 0), (Z.eqb_spec (x / 2) 0); try lia.
  rewrite !Z.eqb_refl !orb_true_r skip_zeros_even //.
  destruct (skip_zeros_diag (bits (x / 2)) (x / 2)) as (y & -> & Hy); [lia|].
  cbn beta iota. rewrite !shiftr1. f_equal.
  pose proof (bits_bound x ltac:(lia)). pose proof (bits_bound (x / 2) ltac:(lia)).
  unfold bits in *.
  apply moves_go_fuel; [split; [apply Z.div_pos; lia|lia]|apply pow2_half; lia..].
Qed.

(** ** One level of the tree, seen from the bits *)

Lemma pow2_S d : (2 ^ Z.of_nat (S d) = 2 * 2 ^ Z.of_nat d)%Z.
Proof. rewrite Nat2Z.inj_succ Z.pow_succ_r //. lia. Qed.

Lemma odd_add_even x y : Z.odd (x + 2 * y) = Z.odd x.
Proof. by rewrite Z.odd_add_mul_2. Qed.
Lemma half_add_even x y : ((x + 2 * y) / 2 = x / 2 + y)%Z.
Proof. rewrite Z.mul_comm Z.div_add; [lia|done]. Qed.
Lemma half_pow2_pred x : ((2 * x - 1) / 2 = x - 1)%Z.
Proof. symmetry. apply Z.div_unique with 1%Z; lia. Qed.

Lemma moves_left d fn sn :
  (0 <= fn < 2 ^ Z.of_nat d)%Z -> (2 ^ Z.of_nat d <= sn < 2 * 2 ^ Z.of_nat d)%Z ->
  moves fn sn = moves fn (2 ^ Z.of_nat d - 1) ++ [true].
Proof.
  revert fn sn. induction d as [|d IH]; intros fn sn Hfn Hsn.
  - simpl in *. assert (fn = 0)%Z as -> by lia. by assert (sn = 1)%Z as -> by lia.
  - rewrite pow2_S in Hfn Hsn |- *.
    assert (0 <= fn / 2 < 2 ^ Z.of_nat d)%Z
      by (split; [apply Z.div_pos; lia|apply Z.div_lt_upper_bound; lia]).
    assert (2 ^ Z.of_nat d <= sn / 2 < 2 * 2 ^ Z.of_nat d)%Z
      by (split; [apply Z.div_le_lower_bound; lia|apply Z.div_lt_upper_bound; lia]).
    destruct (Z.odd fn) eqn:Ho.
    + rewrite !(moves_odd fn) //; try lia. by rewrite half_pow2_pred IH.
    + pose proof (even_half fn Ho). rewrite !(moves_even fn) //; try lia.
      by rewrite half_pow2_pred IH.
Qed.

Lemma moves_right d fn sn : (0 <= fn <= sn)%Z -> (sn < 2 ^ Z.of_nat d)%Z ->
  moves (fn + 2 ^ Z.of_nat d) (sn + 2 ^ Z.of_nat d) = moves fn sn ++ [false].
Proof.
  revert fn sn. induction d as [|d IH]; intros fn sn Hfn Hsn.
  - simpl in Hsn. assert (sn = 0)%Z as -> by lia. by assert (fn = 0)%Z as -> by lia.
  - rewrite pow2_S in Hsn |- *. assert (0 < 2 ^ Z.of_nat d)%Z by (apply Z.pow_pos_nonneg; lia).
    assert (0 <= fn / 2 <= sn / 2)%Z
      by (split; [apply Z.div_pos; lia|apply Z.div_le_mono; lia]).
    assert (sn / 2 < 2 ^ Z.of_nat d)%Z by (apply Z.div_lt_upper_bound; lia).
    destruct (Z.odd fn) eqn:Ho; [|destruct (Z.eq_dec fn sn) as [->|Hne]].
    + rewrite (moves_odd fn) //; [pose proof (odd_half fn Ho); lia|].
      rewrite moves_odd ?odd_add_even ?half_add_even ?IH //; lia.
    + rewrite moves_diag ?odd_add_even ?half_add_even ?IH //; [lia|].
      destruct (Z.eq_dec sn 0) as [->|]; [done|]. rewrite (moves_diag sn) //. lia.
    + rewrite (moves_even fn) //; [lia|].
      rewrite moves_even ?odd_add_even ?half_add_even ?IH //; lia.
Qed.

(** The walk after [strip_ones]. *)
Definition stripped_moves (fn sn : Z) : list bool :=
  let '(fn, sn) := strip_ones (bits fn) fn sn in moves fn sn.

Lemma stripped_even fn sn : Z.odd fn = false -> stripped_moves fn sn = moves fn sn.
Proof. intros Ho. unfold stripped_moves, bits. cbn [strip_ones]. by rewrite odd_bit_spec Ho. Qed.

Lemma stripped_odd fn sn : (0 < fn)%Z -> Z.odd fn = true ->
  stripped_moves fn sn = stripped_moves (fn / 2) (sn / 2).
Proof.
  intros Hf Ho. unfold stripped_moves. destruct (Z.eq_dec fn 1%Z) as [->|].
  - cbn -[moves Z.div]. by rewrite !shiftr1.
  - rewrite bits_half; [lia|]. cbn [strip_ones]. by rewrite odd_bit_spec Ho !shiftr1.
Qed.

Lemma stripped_left d fn sn :
  (0 <= fn < 2 ^ Z.of_nat d)%Z -> (2 ^ Z.of_nat d <= sn < 2 * 2 ^ Z.of_nat d)%Z ->
  stripped_moves fn sn = stripped_moves fn (2 ^ Z.of_nat d - 1) ++ [true].
Proof.
  revert fn sn. induction d as [|d IH]; intros fn sn Hfn Hsn.
  - simpl in Hfn. assert (fn = 0)%Z as -> by lia. rewrite !stripped_even //.
    by apply (moves_left 0).
  - destruct (Z.odd fn) eqn:Ho; [|rewrite !stripped_even //; by apply moves_left].
    rewrite pow2_S in Hfn Hsn |- *. pose proof (odd_half fn Ho).
    rewrite !(stripped_odd fn) //; try lia. rewrite half_pow2_pred. apply IH.
    + split; [apply Z.div_pos; lia|apply Z.div_lt_upper_bound; lia].
    + split; [apply Z.div_le_lower_bound; lia|apply Z.div_lt_upper_bound; lia].
Qed.

Lemma stripped_right d fn sn : (0 <= fn < sn)%Z -> (sn < 2 ^ Z.of_nat d)%Z ->
  stripped_moves (fn + 2 ^ Z.of_nat d) (sn + 2 ^ Z.of_nat d) = stripped_moves fn sn ++ [false].
Proof.
  revert fn sn. induction d as [|d IH]; intros fn sn Hfn Hsn; [simpl in Hsn; lia|].
  pose proof (moves_right (S d) fn sn) as Hr. rewrite pow2_S in Hsn Hr |- *.
  assert (0 < 2 ^ Z.of_nat d)%Z by (apply Z.pow_pos_nonneg; lia).
  destruct (Z.odd fn) eqn:Ho.
  - pose proof (odd_half fn Ho).
    rewrite (stripped_odd fn) //; [lia|].
    rewrite (stripped_odd (fn + _)) ?odd_add_even //; [lia|]. rewrite !half_add_even. apply IH.
    + split; [apply Z.div_pos; lia|]. pose proof (Z.div_le_mono (fn + 1) sn 2).
      replace (fn + 1)%Z with ((fn / 2 + 1) * 2)%Z in * by lia. rewrite Z.div_mul in H2; lia.
    + apply Z.div_lt_upper_bound; lia.
  - rewrite !stripped_even ?odd_add_even //. apply Hr; lia.
Qed.

Lemma stripped_full d : stripped_moves (2 ^ Z.of_nat d - 1) (2 ^ Z.of_nat d - 1) = [].
Proof.
  induction d as [|d IH]; [done|]. rewrite pow2_S.
  assert (0 < 2 ^ Z.of_nat d)%Z by (apply Z.pow_pos_nonneg; lia).
  rewrite stripped_odd ?half_pow2_pred //; [lia|].
  replace (2 * 2 ^ Z.of_nat d - 1)%Z with (-1 + 2 * 2 ^ Z.of_nat d)%Z by lia.
  by rewrite odd_add_even.
Qed.

(** ** The walk follows the descent *)

Lemma descent_go_fuel f1 f2 m n : (0 < m <= n)%Z ->
  (n <= Z.of_nat f1)%Z -> (n <= Z.of_nat f2)%Z -> descent_go f1 m n = descent_go f2 m n.
Proof.
  revert f2 m n. induction f1 as [|f1 IH]; intros f2 m n Hm H1 H2; [lia|].
  destruct f2 as [|f2]; [lia|]. simpl. destruct (Z.eqb_spec m n); [done|].
  pose proof (largest_power_bounds n).
  destruct (Z.leb_spec m (largest_power_of_two_less_than n)); f_equal; apply IH; lia.
Qed.

Lemma descent_refl n : descent n n = [].
Proof. unfold descent. destruct (Z.to_nat n); [done|]. simpl. by rewrite Z.eqb_refl. Qed.

Lemma descent_step m n : (0 < m < n)%Z ->
  descent m n
  = let k := largest_power_of_two_less_than n in
    if (m <=? k)%Z then true :: descent m k else false :: descent (m - k)%Z (n - k)%Z.
Proof.
  intros Hm. unfold descent. pose proof (largest_power_bounds n) as Hk.
  rewrite (descent_go_fuel (Z.to_nat n) (S (Z.to_nat n))); try lia. simpl.
  destruct (Z.eqb_spec m n); [lia|].
  destruct (Z.leb_spec m (largest_power_of_two_less_than n));
    f_equal; apply descent_go_fuel; lia.
Qed.

(** The largest power of two below [n], as a power of a natural number. *)
Lemma largest_power_pow2 n : (2 <= n)%Z ->
  exists d, largest_power_of_two_less_than n = (2 ^ Z.of_nat d)%Z
    /\ (2 ^ Z.of_nat d < n <= 2 * 2 ^ Z.of_nat d)%Z.
Proof.
  intros Hn. destruct (largest_power_bounds n Hn) as (Hk & Hk2 & Heq).
  exists (Z.to_nat (Z.log2 (n - 1))). rewrite Z2Nat.id; [apply Z.log2_nonneg|]. lia.
Qed.

Lemma stripped_moves_descent (N : nat) m n :
  (n <= Z.of_nat N)%Z ->
  (0 < m < n \/ exists d, m = n /\ n = 2 ^ Z.of_nat d)%Z ->
  stripped_moves (m - 1) (n - 1) = rev (descent m n).
Proof.
  revert m n. induction N as [|N IH]; intros m n HN [Hm|(d & -> & ->)].
  1: lia.
  1,3: by rewrite descent_refl stripped_full.
  rewrite descent_step //. destruct (largest_power_pow2 n) as (d & -> & Hd); [lia|]. cbn zeta.
  destruct (Z.leb_spec m (2 ^ Z.of_nat d)); cbn [rev].
  - rewrite (stripped_left d); [lia|lia|]. rewrite IH //; [lia|].
    destruct (Z.eq_dec m (2 ^ Z.of_nat d)) as [->|]; [right; by exists d|left; lia].
  - replace (m - 1)%Z with (m - 2 ^ Z.of_nat d - 1 + 2 ^ Z.of_nat d)%Z by lia.
    replace (n - 1)%Z with (n - 2 ^ Z.of_nat d - 1 + 2 ^ Z.of_nat d)%Z by lia.
    rewrite stripped_right; [lia|lia|]. rewrite IH //; [lia|left; lia].
Qed.

Lemma moves_skip x y : (0 < y <= x)%Z -> skip_zeros (bits x) x x = (y, y) ->
  moves x x = false :: moves (y / 2) (y / 2).
Proof.
  intros Hy Hs. pose proof (bits_bound x ltac:(lia)). unfold moves at 1.
  unfold bits at 1. cbn [moves_go]. destruct (Z.eqb_spec x 0); [lia|].
  rewrite Z.eqb_refl orb_true_r Hs. cbn beta iota. rewrite !shiftr1. f_equal.
  apply moves_go_fuel; [split; [apply Z.div_pos; lia|lia]| |apply bits_bound, Z.div_pos; lia].
  apply pow2_half. unfold bits in H0. lia.
Qed.

(** A walk that ends with [sn = 0] has consumed exactly the expected
    siblings, and its roots are the ones [climb2] computes. *)
Lemma walk_moves nodes : forall fn sn f s, (0 <= fn <= sn)%Z ->
  if (length nodes =? length (moves fn sn))%nat
  then exists fn', walk (WS fn sn f s) nodes
         = Some (let r := fold_left climb2 (combine (moves fn sn) nodes) (f, s) in
                 WS fn' 0 r.1 r.2)
  else match walk (WS fn sn f s) nodes with Some st => (w_sn st =? 0)%Z = false | None => True end.
Proof.
  induction nodes as [|node nodes IH]; intros fn sn f s Hfn.
  - destruct (Z.eq_dec sn 0) as [->|Hne]; [rewrite moves_zero /=; by eexists|].
    assert (exists b l, moves fn sn = b :: l) as (b & l & ->); [|simpl; by apply Z.eqb_neq].
    destruct (Z.odd fn) eqn:Ho; [rewrite moves_odd //; [lia|eauto]|].
    unfold moves, bits. cbn [moves_go]. apply Z.eqb_neq in Hne. rewrite Hne.
    destruct (odd_bit fn || (fn =? sn)%Z); [destruct (skip_zeros _ _ _)|]; eauto.
  - cbn [walk]. unfold walk_step. cbn [w_sn].
    destruct (Z.eqb_spec sn 0) as [->|Hne]; [done|].
    assert (0 <= fn / 2 <= sn / 2)%Z
      by (split; [apply Z.div_pos; lia|apply Z.div_le_mono; lia]).
    rewrite odd_bit_spec. destruct (Z.odd fn) eqn:Ho; cbn [orb].
    + rewrite skip_zeros_odd //. cbn beta iota. rewrite !shiftr1 moves_odd //; [lia|].
      cbn [mbind option_bind]. apply (IH (fn / 2)%Z (sn / 2)%Z). done.
    + destruct (Z.eqb_spec fn sn) as [->|Hne'].
      * destruct (skip_zeros_diag (bits sn) sn) as (y & Hy & Hle); [lia|].
        rewrite (moves_skip sn y) // Hy. cbn beta iota. rewrite !shiftr1. cbn [mbind option_bind].
        apply (IH (y / 2)%Z (y / 2)%Z). split; [apply Z.div_pos; lia|lia].
      * rewrite !shiftr1 moves_even //; [lia|]. cbn [mbind option_bind].
        apply (IH (fn / 2)%Z (sn / 2)%Z). done.
Qed.

(** ** Powers of two: the descent that never turns right *)

Lemma land_pred_pow2 m : (0 < m)%Z ->
  (Z.land m (m - 1) =? 0)%Z = (m =? 2 ^ Z.log2 m)%Z.
Proof.
  intros Hm. pose proof (Z.log2_spec m Hm) as Hs. pose proof (Z.log2_nonneg m) as Hd.
  destruct (Z.eqb_spec m (2 ^ Z.log2 m)) as [Heq|Hne].
  - apply Z.eqb_eq. rewrite {2}Heq Z.sub_1_r -Z.ones_equiv Z.land_ones // {1}Heq Z.mod_same //.
    apply Z.pow_nonzero; lia.
  - apply Z.eqb_neq. intros Hland. apply (f_equal (fun z => Z.testbit z (Z.log2 m))) in Hland.
    rewrite Z.land_spec Z.bits_0 Z.bit_log2 // in Hland.
    assert (Z.log2 (m - 1) = Z.log2 m) as Hl by (apply Z.log2_unique; lia).
    rewrite -Hl Z.bit_log2 // in Hland.
    assert (0 < 2 ^ Z.log2 m)%Z by (apply Z.pow_pos_nonneg; lia). lia.
Qed.

Lemma descent_all_left (N : nat) m n :
  (n <= Z.of_nat N)%Z ->
  (0 < m < n \/ exists d, m = n /\ n = 2 ^ Z.of_nat d)%Z ->
  forallb id (descent m n) = (m =? 2 ^ Z.log2 m)%Z.
Proof.
  revert m n. induction N as [|N IH]; intros m n HN [Hm|(d & -> & ->)].
  1: lia.
  1,3: rewrite descent_refl Z.log2_pow2; [lia|]; by rewrite Z.eqb_refl.
  rewrite descent_step //. destruct (largest_power_pow2 n) as (d & -> & Hd); [lia|]. cbn zeta.
  destruct (Z.leb_spec m (2 ^ Z.of_nat d)); cbn [forallb id].
  - apply IH; [lia|].
    destruct (Z.eq_dec m (2 ^ Z.of_nat d)) as [->|]; [right; by exists d|left; lia].
  - symmetry. apply Z.eqb_neq.
    assert (Z.log2 m = Z.of_nat d) as ->; [|lia].
    apply Z.log2_unique; [lia|]. rewrite Z.pow_succ_r; lia.
Qed.

Lemma strip_ones_bound k fn sn : (0 <= fn <= sn)%Z ->
  let '(fn', sn') := strip_ones k fn sn in (0 <= fn' <= sn')%Z.
Proof.
  revert fn sn. induction k as [|k IH]; intros fn sn Hle; simpl; [done|].
  destruct (odd_bit fn); [|done]. apply IH. rewrite !shiftr1.
  split; [apply Z.div_pos; lia|apply Z.div_le_mono; lia].
Qed.

Lemma consistency_walk_is_reference old_root new_root m n proof : (0 < m < n)%Z ->
  verify_consistency old_root new_root m n proof
  = consistency_reference old_root new_root m n proof.
Proof.
  intros Hm. unfold verify_consistency, consistency_reference. cbn zeta.
  destruct (Z.ltb_spec m 0), (Z.ltb_spec n 0), (Z.ltb_spec n m); try lia. cbn [orb].
  destruct (Z.eqb_spec m 0), (Z.eqb_spec m n); try lia.
  rewrite land_pred_pow2; [lia|].
  rewrite (descent_all_left (Z.to_nat n)); [lia|by left|].
  set (nodes := if (m =? 2 ^ Z.log2 m)%Z then old_root :: proof else proof).
  destruct nodes as [|seed nodes]; [done|].
  pose proof (stripped_moves_descent (Z.to_nat n) m n) as Hd.
  unfold stripped_moves in Hd.
  pose proof (strip_ones_bound (bits (m - 1)) (m - 1) (n - 1) ltac:(lia)) as Hb.
  destruct (strip_ones _ _ _) as [fn sn].
  pose proof (walk_moves nodes fn sn seed seed Hb) as Hw.
  rewrite Hd in Hw; [lia|by left|]. rewrite length_rev in Hw. unfold climb2_all.
  destruct (Nat.eqb_spec (length nodes) (length (descent m n))) as [Heq|Hne]; cbn [andb].
  - destruct Hw as [fn' ->]. cbn [w_sn w_first w_second andb].
    set (r := fold_left _ _ _). destruct r as [f s']. cbn [fst snd].
    rewrite Z.eqb_refl. cbn [andb]. rewrite -bool_decide_and. apply bool_decide_ext. naive_solver.
  - destruct (walk _ _); [by rewrite Hw|done].
Qed.

(** ** Generated proofs are accepted *)

Lemma subproof_go_fuel l f1 f2 m b : 0 < m <= length l ->
  length l <= f1 -> length l <= f2 -> subproof_go f1 m l b = subproof_go f2 m l b.
Proof.
  revert f1 f2 m b. induction l as [|x|l Hl IH1 IH2] using split_ind; intros f1 f2 m b Hm H1 H2.
  - simpl in Hm; lia.
  - simpl in Hm. assert (m = 1) as -> by lia. by destruct f1, f2.
  - pose proof (split_at_bounds l Hl) as Hk.
    destruct f1 as [|f1], f2 as [|f2]; try lia. cbn [subproof_go].
    destruct (Nat.eqb_spec m (length l)); [done|].
    destruct (Nat.leb_spec m (split_at l)); f_equal; [apply IH1|apply IH2];
      rewrite ?length_take ?length_drop; lia.
Qed.

Lemma subproof_split l m b : 2 <= length l -> 0 < m < length l ->
  subproof m l b
  = let k := split_at l in
    if (m <=? k)%nat then subproof m (take k l) b ++ [mth_from_leaf_hashes (drop k l)]
    else subproof (m - k) (drop k l) false ++ [mth_from_leaf_hashes (take k l)].
Proof.
  intros Hl Hm. pose proof (split_at_bounds l Hl) as Hk. unfold subproof.
  rewrite (subproof_go_fuel l (length l) (S (length l))); try lia. cbn [subproof_go].
  destruct (Nat.eqb_spec m (length l)); [lia|].
  destruct (Nat.leb_spec m (split_at l)); f_equal; apply subproof_go_fuel;
    rewrite ?length_take ?length_drop; lia.
Qed.

Lemma descent_split {A} (l : list A) m : 2 <= length l -> 0 < m < length l ->
  descent (Z.of_nat m) (Z.of_nat (length l))
  = let k := split_at l in
    if (m <=? k)%nat
    then true :: descent (Z.of_nat m) (Z.of_nat (length (take k l)))
    else false :: descent (Z.of_nat (m - k)) (Z.of_nat (length (drop k l))).
Proof.
  intros Hl Hm. pose proof (split_at_bounds l Hl) as Hk. rewrite descent_step; [lia|].
  cbn zeta. rewrite length_take length_drop.
  assert (largest_power_of_two_less_than (Z.of_nat (length l)) = Z.of_nat (split_at l)) as ->.
  { unfold split_at in *. lia. }
  destruct (Z.leb_spec (Z.of_nat m) (Z.of_nat (split_at l)));
    destruct (Nat.leb_spec m (split_at l)); try lia; do 2 f_equal; lia.
Qed.

(** A prefix longer than the split is split at the same point. *)
Lemma split_at_between {A} (l l' : list A) : 2 <= length l ->
  split_at l < length l' <= length l -> split_at l' = split_at l.
Proof.
  intros Hl Hl'. unfold split_at in *.
  destruct (largest_power_pow2 (Z.of_nat (length l))) as (d & Heq & Hd); [lia|].
  rewrite Heq in Hl' |- *. f_equal.
  destruct (largest_power_bounds (Z.of_nat (length l'))) as (_ & _ & ->); [lia|].
  f_equal. apply Z.log2_unique; [lia|]. rewrite Z.pow_succ_r; lia.
Qed.

Lemma climb2_all_snoc b dirs seed nodes node : length nodes = length dirs ->
  climb2_all (b :: dirs) seed (nodes ++ [node]) = climb2 (climb2_all dirs seed nodes) (b, node).
Proof.
  intros Hlen. unfold climb2_all. cbn [rev].
  by rewrite combine_snoc ?length_rev // fold_left_app.
Qed.

(** What a generated subproof consists of: the old subtree's root as a seed -
    left out when the verifier has it already - and one sibling per direction,
    which climb to both roots. *)
Lemma subproof_climbs l m b : 0 < m <= length l ->
  let dirs := descent (Z.of_nat m) (Z.of_nat (length l)) in
  exists seed nodes,
    subproof m l b = (if b && forallb id dirs then nodes else seed :: nodes)
    /\ (forallb id dirs = true -> seed = mth_from_leaf_hashes (take m l))
    /\ length nodes = length dirs
    /\ climb2_all dirs seed nodes = (mth_from_leaf_hashes (take m l), mth_from_leaf_hashes l).
Proof.
  revert m b. induction l as [|x|l Hl IH1 IH2] using split_ind; intros m b Hm; cbn zeta.
  - simpl in Hm; lia.
  - simpl in Hm. assert (m = 1) as -> by lia. exists x, []. by destruct b.
  - destruct (decide (m = length l)) as [->|Hne].
    { rewrite descent_refl firstn_all. exists (mth_from_leaf_hashes l), [].
      unfold subproof. destruct l; [simpl in *; lia|].
      cbn [subproof_go length]. rewrite Nat.eqb_refl. by destruct b. }
    pose proof (split_at_bounds l Hl) as Hk.
    rewrite subproof_split ?descent_split ?(mth_split l) //; try lia. cbn zeta.
    destruct (Nat.leb_spec m (split_at l)) as [Hmk|Hmk]; cbn [forallb id andb].
    + destruct (IH1 m b) as (seed & nodes & Hsub & Hseed & Hlen & Hcl);
        [rewrite length_take; lia|]. rewrite take_take Nat.min_l // in Hseed Hcl.
      exists seed, (nodes ++ [mth_from_leaf_hashes (drop (split_at l) l)]).
      rewrite Hsub climb2_all_snoc // Hcl length_app Hlen /=.
      split; [by destruct (_ && _)|]. split; [done|]. split; [lia|done].
    + destruct (IH2 (m - split_at l) false) as (seed & nodes & Hsub & _ & Hlen & Hcl);
        [rewrite length_drop; lia|].
      exists seed, (nodes ++ [mth_from_leaf_hashes (take (split_at l) l)]).
      rewrite Hsub climb2_all_snoc // Hcl length_app Hlen andb_false_r /=.
      split; [done|]. split; [done|]. split; [lia|]. f_equal.
      rewrite (mth_split (take m l)); [rewrite length_take; lia|].
      rewrite (split_at_between l (take m l)) ?length_take //; [lia|].
      rewrite take_take Nat.min_l; [lia|]. by rewrite skipn_firstn_comm.
Qed.

(** *** Soundness *)

Lemma climb2_inputs_snoc st steps x :
  climb2_inputs st (steps ++ [x])
  = climb2_inputs st steps ++ climb2_inputs (fold_left climb2 steps st) [x].
Proof.
  revert st. induction steps as [|s steps IH]; intros st; [done|].
  cbn [climb2_inputs fold_left app]. rewrite IH. by rewrite app_assoc.
Qed.

Lemma climb2_second_length dirs seed nodes : dirs <> [] -> length nodes = length dirs ->
  length (climb2_all dirs seed nodes).2 = 32.
Proof.
  destruct dirs as [|b dirs]; [done|]. intros _ Hlen.
  destruct nodes as [|node nodes _] using rev_ind; [done|].
  rewrite length_app /= in Hlen. rewrite climb2_all_snoc; [lia|].
  unfold climb2. destruct b; apply sha256_length.
Qed.

Lemma descent_nonempty m n : (0 < m < n)%Z -> descent m n <> [].
Proof. intros Hmn. rewrite descent_step //. cbn zeta. by destruct (_ <=? _)%Z. Qed.

(** The old subtree's side: the second root before the last step is a digest,
    also when no step came before. *)
Lemma climb2_left_length dirs seed nodes E s : length nodes = length dirs ->
  climb2_all dirs seed nodes = (compute_root E, s) -> length s = 32.
Proof.
  intros Hlen Hcl. destruct dirs as [|b dirs].
  - destruct nodes; [|done]. unfold climb2_all in Hcl. simpl in Hcl.
    injection Hcl as -> <-. apply compute_root_length.
  - pose proof (climb2_second_length (b :: dirs) seed nodes ltac:(done) Hlen) as H2.
    by rewrite Hcl in H2.
Qed.

(** What a climb must satisfy to show that [E] is a prefix of [D]. *)
Definition climbs_to (E D : list bytes) (seed : bytes) (nodes : list bytes) (S : list bytes) : Prop :=
  let dirs := descent (Z.of_nat (length E)) (Z.of_nat (length D)) in
  length nodes = length dirs /\ root_inputs E ⊆ S /\ root_inputs D ⊆ S
  /\ climb2_inputs (seed, seed) (combine (rev dirs) nodes) ⊆ S
  /\ climb2_all dirs seed nodes = (compute_root E, compute_root D).

Lemma climbs_to_same E D seed nodes S : length E = length D ->
  climbs_to E D seed nodes S -> E = take (length E) D \/ has_collision S.
Proof.
  intros Heq (Hlen & HE & HD & _ & Hcl). rewrite Heq descent_refl in Hlen Hcl.
  destruct nodes; [|done]. unfold climb2_all in Hcl. simpl in Hcl. injection Hcl as -> Hr.
  destruct (compute_root_binds E D S HE HD Hr) as [->|]; [|by right].
  left. by rewrite firstn_all.
Qed.

Lemma climbs_to_left E D seed nodes S : 2 <= length D -> 0 < length E <= split_at D ->
  climbs_to E D seed nodes S ->
  has_collision S \/ exists nodes', climbs_to E (take (split_at D) D) seed nodes' S.
Proof.
  intros Hl Hm (Hlen & HE & HD & HS & Hcl). pose proof (split_at_bounds D Hl) as Hk.
  rewrite descent_split // in Hlen HS Hcl; [lia|]. cbn zeta in *.
  destruct (Nat.leb_spec (length E) (split_at D)); [|lia].
  destruct nodes as [|node nodes _] using rev_ind; [done|]. rewrite length_app /= in Hlen.
  cbn [rev] in HS. rewrite combine_snoc in HS; [rewrite length_rev; lia|].
  rewrite climb2_inputs_snoc in HS.
  rewrite climb2_all_snoc in Hcl; [lia|].
  change (fold_left climb2 _ (seed, seed)) with (climb2_all (descent (Z.of_nat (length E))
    (Z.of_nat (length (take (split_at D) D)))) seed nodes) in HS.
  destruct (climb2_all _ seed nodes) as [r1 s] eqn:Hc. cbn in Hcl, HS. injection Hcl as -> Hs.
  assert (length s = 32) as Hs32 by (eapply climb2_left_length; [|exact Hc]; lia).
  destruct (node_root_or D s node S Hl) as [Heq|]; [set_solver|done|done| |by left].
  apply app_inj_1 in Heq as [-> _]; [|by rewrite compute_root_length].
  right. exists nodes. repeat split; [lia|done| |set_solver|done].
  etrans; [by apply root_inputs_take|done].
Qed.

Lemma climbs_to_right E D seed nodes S : 2 <= length D -> split_at D < length E < length D ->
  climbs_to E D seed nodes S ->
  has_collision S
  \/ take (split_at D) E = take (split_at D) D
     /\ exists nodes', climbs_to (drop (split_at D) E) (drop (split_at D) D) seed nodes' S.
Proof.
  intros Hl Hm (Hlen & HE & HD & HS & Hcl). pose proof (split_at_bounds D Hl) as Hk.
  assert (split_at E = split_at D) as HkE by (apply split_at_between; lia).
  rewrite descent_split // in Hlen HS Hcl; [lia|]. cbn zeta in *.
  destruct (Nat.leb_spec (length E) (split_at D)); [lia|].
  destruct nodes as [|node nodes _] using rev_ind; [done|]. rewrite length_app /= in Hlen.
  cbn [rev] in HS. rewrite combine_snoc in HS; [rewrite length_rev; lia|].
  rewrite climb2_inputs_snoc in HS.
  rewrite climb2_all_snoc in Hcl; [lia|].
  set (dirs := descent _ _) in *. change (fold_left climb2 _ (seed, seed))
    with (climb2_all dirs seed nodes) in HS.
  destruct (climb2_all dirs seed nodes) as [r1 s] eqn:Hc. cbn in Hcl, HS. injection Hcl as Hr Hs.
  assert (length s = 32) as Hs32.
  { change s with (r1, s).2. rewrite -Hc. apply climb2_second_length; [|lia].
    apply descent_nonempty. rewrite length_drop. lia. }
  destruct (node_root_or D node s S Hl) as [Heq|]; [set_solver|done|done| |by left].
  apply app_inj_2 in Heq as [Hn1 ->]; [|by rewrite compute_root_length].
  destruct (node_root_or E node r1 S) as [Heq|]; [lia|set_solver|done|done| |by left].
  rewrite HkE in Heq.
  apply app_inj_1 in Heq as [Hn2 ->]; [|by rewrite Hn1 !compute_root_length].
  destruct (compute_root_binds (take (split_at D) E) (take (split_at D) D) S) as [Ht|];
    [rewrite -HkE; etrans; [apply root_inputs_take; lia|done]
    |etrans; [by apply root_inputs_take|done]|congruence| |by left].
  right. split; [done|]. exists nodes. unfold climbs_to. cbn zeta.
  rewrite (length_drop E). fold dirs. repeat split; [lia| | |set_solver|done].
  - rewrite -HkE. etrans; [apply root_inputs_drop; lia|done].
  - etrans; [by apply root_inputs_drop|done].
Qed.

(** A climb that ends in the roots of [E] and [D] shows that [E] is a prefix
    of [D], or exhibits a collision. *)
Lemma climbs_to_prefix D : forall E seed nodes S, 0 < length E <= length D ->
  climbs_to E D seed nodes S -> E = take (length E) D \/ has_collision S.
Proof.
  induction D as [|x|D Hl IH1 IH2] using split_ind; intros E seed nodes S Hm Hc.
  - simpl in Hm; lia.
  - simpl in Hm. eapply climbs_to_same; [|exact Hc]. simpl; lia.
  - destruct (decide (length E = length D)); [by eapply climbs_to_same, Hc|].
    pose proof (split_at_bounds D Hl) as Hk.
    destruct (decide (length E <= split_at D)).
    + apply climbs_to_left in Hc as [|[nodes' Hc]]; [by right| |done|lia].
      apply IH1 in Hc as [Hc|]; [|by right|rewrite length_take; lia].
      rewrite take_take Nat.min_l // in Hc. by left.
    + apply climbs_to_right in Hc as [|[Ht [nodes' Hc]]]; [by right| |done|lia].
      apply IH2 in Hc as [Hc|]; [|by right|rewrite !length_drop; lia].
      left. rewrite -{1}(take_drop (split_at D) E) Ht Hc length_drop.
      rewrite firstn_skipn_comm. replace (split_at D + (length E - split_at D)) with (length E) by lia.
      rewrite -{2}(take_drop (split_at D) (take (length E) D)) take_take.
      by rewrite Nat.min_l; [lia|].
Qed.

(** ** Properties *)

(** C10: [verify_consistency]'s walk over the bits of the two tree sizes
    computes exactly the recursive check of [consistency_reference], on every
    pair of roots and every proof, honest or not. *)
Theorem consistency_bit_walk_correct old_root new_root m n proof :
  (0 < m < n)%Z ->
  verify_consistency old_root new_root m n proof
  = consistency_reference old_root new_root m n proof.
Proof. apply consistency_walk_is_reference. Qed.

(** C37: every proof [consistency_proof] produces is accepted: for each old
    size up to the log's it returns, and the verifier accepts the proof
    against the root of that prefix and the root of the whole log. *)
Theorem consistency_complete (entries : list bytes) (old_size : Z) :
  (0 <= old_size <= Z.of_nat (length entries))%Z ->
  exists proof, consistency_proof entries old_size = Ok proof
    /\ verify_consistency (compute_root (take (Z.to_nat old_size) entries)) (compute_root entries)
         old_size (Z.of_nat (length entries)) proof = true.
Proof.
  intros Hm. destruct (Z_of_nat_complete old_size) as [m ->]; [lia|]. rewrite Nat2Z.id.
  unfold consistency_proof.
  destruct (Z.leb_spec 0 (Z.of_nat m)), (Z.leb_spec (Z.of_nat m) (Z.of_nat (length entries))); try lia.
  cbn [andb negb]. destruct (Z.eqb_spec (Z.of_nat m) 0) as [Hz|Hz]; cbn [orb].
  { exists []. split; [done|]. unfold verify_consistency.
    by rewrite !(proj2 (Z.ltb_ge _ _)) ?Hz //; lia. }
  destruct (Z.eqb_spec (Z.of_nat m) (Z.of_nat (length entries))) as [Hmn|Hmn].
  { exists []. split; [done|]. unfold verify_consistency. rewrite firstn_all2; [lia|].
    rewrite !(proj2 (Z.ltb_ge _ _)); try lia. rewrite Hmn Z.eqb_refl. cbn [orb].
    by destruct (Z.of_nat (length entries) =? 0)%Z; rewrite !bool_decide_true. }
  eexists. split; [done|]. rewrite consistency_walk_is_reference; [lia|]. rewrite Nat2Z.id.
  destruct (subproof_climbs (leaf_hash <$> entries) m true) as (seed & nodes & -> & Hseed & Hlen & Hcl);
    [rewrite length_fmap; lia|]. rewrite length_fmap -fmap_take in Hseed Hlen Hcl |- *.
  unfold consistency_reference. cbn [andb].
  destruct (forallb id (descent _ _)) eqn:Hall; rewrite Hlen Nat.eqb_refl bool_decide_true //.
  by rewrite Hseed // in Hcl.
Qed.

(** C9: an accepted consistency proof means the old log is a prefix of the new
    one.  Whatever proof verifies between the root of [old] and the root of
    [new], no entry of [old] was changed, dropped or reordered - or two of
    the byte strings hashed on the way collide. *)
Theorem consistency_sound (old new : list bytes) (proof : list bytes) :
  0 < length old ->
  verify_consistency (compute_root old) (compute_root new)
    (Z.of_nat (length old)) (Z.of_nat (length new)) proof = true ->
  old = take (length old) new
  \/ has_collision (root_inputs old ++ root_inputs new
       ++ consistency_inputs (compute_root old) (Z.of_nat (length old)) (Z.of_nat (length new)) proof).
Proof.
  intros Hm. destruct (decide (length old < length new)) as [Hlt|Hge].
  - rewrite consistency_walk_is_reference; [lia|].
    unfold consistency_reference, consistency_inputs.
    destruct (if forallb id _ then _ else _) as [|seed nodes]; [done|].
    intros [Hlen%Nat.eqb_eq Hcl%bool_decide_eq_true]%andb_true_iff.
    apply (climbs_to_prefix new old seed nodes); [lia|].
    repeat split; [done|set_solver|set_solver|set_solver|done].
  - unfold verify_consistency.
    destruct (Z.ltb_spec (Z.of_nat (length new)) (Z.of_nat (length old))); [by rewrite orb_true_r|].
    rewrite !(proj2 (Z.ltb_ge _ _)); try lia.
    destruct (Z.eqb_spec (Z.of_nat (length old)) 0), (Z.eqb_spec (Z.of_nat (length old)) (Z.of_nat (length new)));
      try lia; cbn [orb]. intros [_ Hr%bool_decide_eq_true]%andb_true_iff.
    destruct (compute_root_binds_both _ _ Hr) as [->|Hc]; [left; by rewrite firstn_all|right].
    eapply has_collision_mono; [|exact Hc]. set_solver.
Qed.
End Consistency.

(** ** Witnesses, on real digests *)

Definition sample_extension : list bytes :=
  match consistency_proof sample_entries 3 with Ok p => p | Err _ => [] end.

Lemma consistency_bit_walk_correct_witness :
  verify_consistency (compute_root (take 3 sample_entries)) (compute_root sample_entries) 3 5 sample_extension
  = consistency_reference (compute_root (take 3 sample_entries)) (compute_root sample_entries) 3 5
      sample_extension.
Proof. apply (consistency_bit_walk_correct _ _ 3 5 sample_extension). lia. Defined.

Lemma consistency_complete_witness :
  exists proof, consistency_proof sample_entries 3 = Ok proof
    /\ verify_consistency (compute_root (take 3 sample_entries)) (compute_root sample_entries) 3 5 proof
       = true.
Proof. apply (consistency_complete sample_entries 3). simpl. lia. Defined.

Lemma consistency_sound_witness :
  take 3 sample_entries = take 3 sample_entries
  \/ has_collision (root_inputs (take 3 sample_entries) ++ root_inputs sample_entries
       ++ consistency_inputs (compute_root (take 3 sample_entries)) 3 5 sample_extension).
Proof.
  apply (consistency_sound (take 3 sample_entries) sample_entries sample_extension);
    [simpl; lia|vm_compute; reflexivity].
Defined.
