(* ===== verification/Restatements.v ===== *)
(** * Administrative restatements

    [_internal/restatements.py]: an appended event with a [restatement] block
    records a change of signature-bound layer metadata.  This file holds the
    delta merge, the replay of a restatement chain and the test for a change
    that destroys recorded evidence. *)

From S2P Require Import Prelude PyStr Json Errors.
From stdpp Require Import options.

(** ** Definitions *)

Definition LAYER_SCOPE_REF : string := "__layer__".
Definition SIGNED_METADATA_FIELDS : list string :=
  ["claim_hashes"; "audit_report_sha256"; "artifact_digests"].
Definition RESTATABLE_METADATA_FIELDS : list string := SIGNED_METADATA_FIELDS.
Definition MAP_TARGETS : list string := ["claim_hashes"; "artifact_digests"].

(** One entry of a delta: a null deletes the key. *)
Definition merge_entry (after : option json) (current : option json) : option json :=
  match after with
  | Some JNull => None
  | Some v => Some v
  | None => current
  end.

Definition merge_delta (current after : json) : json :=
  match current, after with
  | JObj c, JObj a => JObj (merge merge_entry a c)
  | _, _ => after
  end.

Definition is_restatement (event : json) : res bool :=
  match event with
  | JObj e =>
      match get "restatement" e with
      | JObj _ => t ← get_in "source" "type" e; Ok (py_eqb t (JStr "restatement"))
      | _ => Ok false
      end
  | _ => Ok false
  end.

(** The [restatement] block of an event that passed [is_restatement]. *)
Definition block_of (event : json) : dict :=
  match event with
  | JObj e => match get "restatement" e with JObj b => b | _ => ∅ end
  | _ => ∅
  end.

(** Each restatement event with its block, in append order. *)
Definition restatements (events : list json) : res (list (json * dict)) :=
  es ← filterR is_restatement events; Ok (map (fun e => (e, block_of e)) es).

Definition names_target (target : string) (block : dict) : bool :=
  py_eqb (get "target" block) (JStr target).

Definition restatements_for (events : list json) (target : string) : res (list dict) :=
  rs ← restatements events; Ok (List.filter (names_target target) (map snd rs)).

(** The values one restatement block moved its target, or one key of it, from
    and to. *)
Definition block_values (key : option string) (block : dict) : list json :=
  let before := get "before" block in
  let after := get "after" block in
  let entry (v : json) (k : string) :=
    match v with JObj m => option_list (m !! k) | _ => [] end in
  match key with
  | None => [before; after]
  | Some k => entry before k ++ entry after k
  end.
Definition retired_values (events : list json) (target : string) (key : option string) : res (list json) :=
  blocks ← restatements_for events target; Ok (concat (map (block_values key) blocks)).

(** [prior in (None, {}, "")]. *)
Definition nothing_recorded (prior : json) : bool :=
  py_in prior [JNull; JObj ∅; JStr ""%string].

Definition is_destructive_change (prior new : json) : bool :=
  if nothing_recorded prior then false
  else match prior, new with
       | JObj p, JObj n => existsb (fun kv => py_neqb (get kv.1 n) kv.2) (items p)
       | _, _ => py_neqb new prior
       end.

(** One turn of the replay. *)
Definition replay_block (expected : json) (block : dict) : json :=
  merge_delta (if is_dict expected then expected else JNull) (get "after" block).

Definition terminal_value (events : list json) (target : string) : res (bool * json) :=
  chain ← restatements_for events target;
  match chain with
  | [] => Ok (false, JNull)
  | _ => Ok (true, fold_left replay_block chain JNull)
  end.

(** Events that are objects and no restatements. *)
Definition is_evidence (e : json) : res bool :=
  if is_dict e then r ← is_restatement e; Ok (negb r) else Ok false.
Definition apply_restatements (events : list json) : res (list json) :=
  filterR is_evidence events.

(** ** Lemmas *)

Lemma merge_delta_lookup c a k :
  exists m, merge_delta (JObj c) (JObj a) = JObj m /\ m !! k = merge_entry (a !! k) (c !! k).
Proof.
  eexists. split; [reflexivity|]. rewrite lookup_merge. unfold diag_None, merge_entry.
  by destruct (a !! k) as [[]|], (c !! k).
Qed.

Lemma restatements_for_app es1 es2 target :
  restatements_for (es1 ++ es2) target
  = (b1 ← restatements_for es1 target; b2 ← restatements_for es2 target; Ok (b1 ++ b2)).
Proof.
  unfold restatements_for, restatements. rewrite filterR_app.
  destruct (filterR is_restatement es1); simpl; [|done].
  destruct (filterR is_restatement es2); simpl; [|done].
  by rewrite !map_app List.filter_app.
Qed.

(** The replay once it holds an object and meets only objects. *)
Definition is_map_block (b : dict) : Prop := exists a, get "after" b = JObj a.
Definition after_entry (k : string) (b : dict) : option json :=
  match get "after" b with JObj a => a !! k | _ => None end.

Lemma replay_objects chain m : Forall is_map_block chain ->
  exists m', fold_left replay_block chain (JObj m) = JObj m'
    /\ forall k, m' !! k = fold_left (fun cur b => merge_entry (after_entry k b) cur) chain (m !! k).
Proof.
  revert m. induction chain as [|b chain IH]; intros m Hall; [by exists m|].
  apply Forall_cons in Hall as [[a Ha] Hall]. cbn [fold_left].
  unfold replay_block at 2. rewrite Ha /=.
  destruct (IH (merge merge_entry a m) Hall) as (m' & -> & Hm'). exists m'. split; [done|].
  intros k. rewrite Hm'. f_equal. unfold after_entry. rewrite Ha.
  destruct (merge_delta_lookup m a k) as (m2 & [= <-] & ->). done.
Qed.

Lemma replay_chain b chain a : get "after" b = JObj a -> Forall is_map_block chain ->
  exists m', fold_left replay_block (b :: chain) JNull = JObj m'
    /\ forall k, m' !! k = fold_left (fun cur b => merge_entry (after_entry k b) cur) chain (a !! k).
Proof.
  intros Ha Hall. cbn [fold_left]. unfold replay_block at 2. rewrite Ha /=.
  by apply replay_objects.
Qed.

Lemma merge_entries_untouched k chain cur : Forall (fun b => after_entry k b = None) chain ->
  fold_left (fun cur b => merge_entry (after_entry k b) cur) chain cur = cur.
Proof.
  revert cur. induction chain as [|b chain IH]; intros cur Hall; [done|].
  apply Forall_cons in Hall as [Hb Hall]. simpl. rewrite Hb. by apply IH.
Qed.

Lemma existsb_items_false {A} (f : string * A -> bool) (m : gmap string A) :
  existsb f (items m) = false <-> forall k v, m !! k = Some v -> f (k, v) = false.
Proof.
  rewrite -not_true_iff_false existsb_exists. split.
  - intros Hn k v Hk. apply not_true_iff_false. intros Hf. apply Hn. exists (k, v).
    split; [|done]. by apply list_elem_of_In, items_lookup.
  - intros Hall ([k v] & Hin%list_elem_of_In%items_lookup & Hf). by rewrite Hall in Hf.
Qed.

Lemma nothing_recorded_obj m : nothing_recorded (JObj m) = bool_decide (m = ∅).
Proof.
  unfold nothing_recorded, py_in, py_eqb. simpl. rewrite orb_false_r. apply bool_decide_ext.
  split; [|by intros ->]. intros [= Hm]. rewrite fmap_empty in Hm. by apply fmap_empty_inv in Hm.
Qed.

(** *** What a delta, a loss and an earlier restatement are, for the theorems *)

(** The new value is the old one with the delta's entries set, and those the
    delta has null gone; what is no map is replaced. *)
Definition delta_applied (current after new : json) : Prop :=
  (forall c a, current = JObj c -> after = JObj a -> exists n, new = JObj n
     /\ (forall k, a !! k = None -> n !! k = c !! k) /\ (forall k, a !! k = Some JNull -> n !! k = None)
     /\ forall k v, a !! k = Some v -> v <> JNull -> n !! k = Some v)
  /\ ((forall c, current <> JObj c) \/ (forall a, after <> JObj a) -> new = after).
Lemma merge_delta_applied current after : delta_applied current after (merge_delta current after).
Proof.
  split.
  - intros c a -> ->. eexists. split; [reflexivity|].
    split_and!; intros k; rewrite lookup_merge; unfold diag_None, merge_entry.
    + intros ->. by destruct (c !! k).
    + intros ->. by destruct (c !! k).
    + intros v -> Hv. by destruct v.
  - destruct current, after; try done. intros [Hn|Hn]; by destruct (Hn _ eq_refl).
Qed.

(** Something recorded is no longer there: an entry of a map, or a value. *)
Definition value_lost (prior new : json) : Prop :=
  (exists p n k v, prior = JObj p /\ new = JObj n /\ p !! k = Some v /\ py_eqb (get k n) v = false)
  \/ ((forall p n, prior = JObj p -> new <> JObj n) /\ prior ∉ [JNull; JObj ∅; JStr ""] /\ py_eqb new prior = false).
Lemma value_lost_destructive prior new : value_lost prior new -> is_destructive_change prior new = true.
Proof.
  unfold is_destructive_change. intros [(p & n & k & v & -> & -> & Hk & Hv)|(Hno & Hpr & Heq)].
  - rewrite nothing_recorded_obj bool_decide_false; [intros ->; by rewrite lookup_empty in Hk|].
    apply existsb_exists. exists (k, v). unfold py_neqb. cbn. rewrite Hv. split; [|done].
    by apply list_elem_of_In, items_lookup.
  - assert (nothing_recorded prior = false) as ->.
    { destruct prior as [|b|z|t| |m]; try done; [set_solver| |].
      - unfold nothing_recorded, py_in. cbn. rewrite orb_false_r. rewrite py_eqb_str_r. apply bool_decide_eq_false.
        set_solver.
      - rewrite nothing_recorded_obj. apply bool_decide_eq_false. set_solver. }
    unfold py_neqb. destruct prior, new; try (by rewrite Heq). by destruct (Hno _ _ eq_refl eq_refl).
Qed.

(** A restatement of the target in the log, and its block. *)
Definition earlier_restatement (events : list json) (target : string) (block : dict) : Prop :=
  exists e src, JObj e ∈ events /\ get "restatement" e = JObj block
    /\ get "source" e = JObj src /\ get "type" src = JStr "restatement" /\ get "target" block = JStr target.
Lemma filterR_keeps {E A} (f : A -> result E bool) l l' x :
  filterR f l = Ok l' -> x ∈ l -> f x = Ok true -> x ∈ l'.
Proof.
  revert l'. induction l as [|a l IH]; intros l' Hl Hx Hf; [by apply not_elem_of_nil in Hx|].
  simpl in Hl. inv_ok. apply elem_of_cons in Hx as [->|Hx].
  - rewrite Hf in E0. injection E0 as <-. by left.
  - assert (x ∈ a1) by (by eapply IH). destruct a0; [by right|done].
Qed.
Lemma earlier_in events target block blocks : earlier_restatement events target block ->
  restatements_for events target = Ok blocks -> block ∈ blocks.
Proof.
  intros (e & src & Hin & Hb & Hsrc & Hty & Ht) Hr. unfold restatements_for, restatements in Hr.
  inv_bind Hr as [rs|] Hrs. inv_bind Hrs as [es|] Hes. injection Hrs as <-. injection Hr as <-.
  apply list_elem_of_In, filter_In. unfold names_target. rewrite Ht py_eqb_refl. split; [|done].
  rewrite map_map. cbn [snd]. apply in_map_iff. exists (JObj e). cbn. rewrite Hb. split; [done|].
  apply list_elem_of_In. refine (filterR_keeps _ _ _ _ Hes Hin _). cbn. unfold get_in. by rewrite Hb Hsrc Hty /= py_eqb_refl.
Qed.

(** ** Properties *)

(** Replaying a restatement chain gives each key the last value a block
      named for it.  If the blocks for [target] all carry maps, the last one to
      mention [k] is [b], and it gives [k] the non-null value [v], then the
      terminal value is a map with [v] at [k]. *)
Theorem terminal_value_last_given events target pre b post k v :
  restatements_for events target = Ok (pre ++ b :: post) ->
  Forall is_map_block (pre ++ b :: post) ->
  after_entry k b = Some v -> v <> JNull ->
  Forall (fun b => after_entry k b = None) post ->
  exists m, terminal_value events target = Ok (true, JObj m) /\ m !! k = Some v.
Proof.
  intros Hev Hall Hb Hv Hpost. unfold terminal_value. rewrite Hev. cbn [mbind result_bind].
  assert (forall cur, merge_entry (Some v) cur = Some v) as Hme by (intros; by destruct v).
  destruct pre as [|b0 pre]; cbn [app] in *.
  - apply Forall_cons in Hall as [[a Ha] Hall].
    destruct (replay_chain b post a Ha Hall) as (m & Hm & Hk).
    cbn [app]. rewrite Hm. exists m. split; [done|].
    rewrite Hk merge_entries_untouched //. by rewrite /after_entry Ha in Hb.
  - apply Forall_cons in Hall as [[a Ha] Hall].
    destruct (replay_chain b0 (pre ++ b :: post) a Ha Hall) as (m & Hm & Hk).
    cbn [app]. rewrite Hm. exists m. split; [done|].
    rewrite Hk fold_left_app. cbn [fold_left]. rewrite Hb Hme. by apply merge_entries_untouched.
Qed.

(** A map change is flagged as destructive exactly when some recorded entry
    is not kept: dropped, or given a value that is not equal to the old one.
    Adding keys is never destructive. *)
Theorem destructive_change_spec (prior new : dict) :
  is_destructive_change (JObj prior) (JObj new) = false
  <-> forall k v, prior !! k = Some v -> py_eqb (get k new) v = true.
Proof.
  unfold is_destructive_change. rewrite nothing_recorded_obj.
  case_bool_decide as Hp.
  - subst. split; [|done]. intros _ k v Hk. by rewrite lookup_empty in Hk.
  - rewrite existsb_items_false. unfold py_neqb. simpl.
    split; intros Hall k v Hk; specialize (Hall k v Hk).
    + by apply negb_false_iff.
    + by apply negb_false_iff.
Qed.

(** ** Witnesses *)

Definition sample_restatement (target : string) (before after : json) : json :=
  JObj {["event_id" := JStr "R"; "source" := JObj {["type" := JStr "restatement"]};
         "restatement" := JObj {["target" := JStr target; "before" := before; "after" := after]}]}.
Definition sample_block (target : string) (before after : json) : dict :=
  block_of (sample_restatement target before after).
Definition delta (k : string) (v : json) : json := JObj {[k := v]}.

Lemma terminal_value_last_given_witness :
  exists m, terminal_value
      [sample_restatement "claim_hashes" JNull (delta "F1" (JStr "a"));
       sample_restatement "claim_hashes" (delta "F1" (JStr "a")) (delta "F1" (JStr "b"));
       sample_restatement "claim_hashes" JNull (delta "F2" (JStr "c"))] "claim_hashes"
    = Ok (true, JObj m) /\ m !! "F1" = Some (JStr "b").
Proof.
  apply (terminal_value_last_given _ _ [sample_block "claim_hashes" JNull (delta "F1" (JStr "a"))]
    (sample_block "claim_hashes" (delta "F1" (JStr "a")) (delta "F1" (JStr "b")))
    [sample_block "claim_hashes" JNull (delta "F2" (JStr "c"))]);
    [vm_compute; reflexivity| |vm_compute; reflexivity|discriminate|].
  - repeat constructor; eexists; vm_compute; reflexivity.
  - repeat constructor.
Defined.
