(* ===== verification/Signing.v ===== *)
(** * Signing backends

    [_internal/integrity/signing.py].  The cosign program, the sigstore package
    and the process environment are not part of the repository: they are the
    fields of [SigningTools], and the backends are the code around them.  The
    texts of error messages are not modelled. *)

From S2P Require Import Prelude PyStr Json Sha256 Errors.
From stdpp Require Import options.

(** ** The outside world *)

(** How a [subprocess.run] ended: it could not be run or timed out, or it
    exited with a code. *)
Inductive run (A : Type) := RunError | Exited (code : Z) (out : A).
Arguments RunError {A}.
Arguments Exited {A} _ _.

Class SigningTools := {
  environ : gmap string string;
  (** [shutil.which("cosign") is not None] *)
  cosign_installed : bool;
  (** [cosign] with these arguments, the payload in the file [payload.bin];
      the content of the bundle file it wrote, if any *)
  cosign_sign : list string -> bytes -> run (option bytes);
  (** [cosign] with these arguments, the payload in [payload.bin] and the given
      text in [in.bundle] *)
  cosign_verify : list string -> bytes -> option string -> run unit;
  sigstore_importable : bool;
  sigstore_token : Type;
  (** [IdentityToken(raw, client_id=...)] *)
  identity_token : string -> string -> res sigstore_token;
  detect_credential : res (option string);
  (** [Issuer(url).identity_token(client_id=...)] *)
  issuer_token : option string -> option string -> res sigstore_token;
  (** signing with a context for custom [(ca_url, tlog_url)] or the default one *)
  sigstore_sign : option (string * string) -> sigstore_token -> bytes -> res string;
  sigstore_parse_bundle : string -> res unit;
  (** verification of a payload and bundle for an identity and its issuer *)
  sigstore_verify : option (string * string) -> bytes -> string -> string -> string -> res unit
}.

(** ** Definitions *)

Record SignResult := { signature : string; success : bool }.
Record VerifyResult := { valid : bool }.
Definition sign_failed : SignResult := {| signature := ""; success := false |}.

Record SigningConfig := {
  method : string;
  key_path : option string;
  oidc_issuer : option string;
  oidc_client_id : option string;
  expected_identity : option string;
  oidc_token : option string;
  allow_interactive : bool;
  ca_url : option string;
  tlog_url : option string
}.

(** The abstract [SigningBackend]. *)
Record SigningBackend := {
  method_name : string;
  available : bool;
  sign : bytes -> string -> bool -> res SignResult;
  verify : bytes -> string -> string -> res VerifyResult
}.

Inductive evidence := TlogEntries (n : Z) | Rfc3161Timestamps (n : Z).

Definition transparency_evidence (bundle : json) : res (list evidence) :=
  match bundle with
  | JObj b =>
      vm ← get_obj "verificationMaterial" b;
      tlog ← (if get_truthy "tlogEntries" vm
              then n ← py_len (get "tlogEntries" vm); Ok [TlogEntries n] else Ok []);
      stamps ← get_in "timestampVerificationData" "rfc3161Timestamps" vm;
      ts ← (if truthy stamps then n ← py_len stamps; Ok [Rfc3161Timestamps n] else Ok []);
      Ok (tlog ++ ts)
  | _ => Err AttributeError
  end.

(** Text-mode reading turns CRLF and CR into LF. *)
Fixpoint universal_newlines (l : list ascii) : list ascii :=
  match l with
  | [] => []
  | c :: l' =>
      if (code c =? 13)%Z then
        ascii_of_nat 10 ::
          match l' with
          | d :: l'' => if (code d =? 10)%Z then universal_newlines l'' else universal_newlines l'
          | [] => []
          end
      else c :: universal_newlines l'
  end.
Definition read_text (content : bytes) : res string :=
  cs ← of_option (utf8_decode content) ValueError; Ok (of_chars (universal_newlines cs)).

Definition lstrip (s : string) : string := of_chars (lstrip_by is_space (chars s)).

Section Backends.
Context `{SigningTools}.

Definition ENV_PREFIXES : list string := ["LAAS_SIGNING_"; "HARNESS_SIGNING_"].

(** First set value across the prefixes. *)
Definition signing_env (suffix : string) : option string :=
  head (omap (fun prefix => environ !! (prefix +:+ suffix)) ENV_PREFIXES).
Definition signing_env_or (suffix dflt : string) : string := default dflt (signing_env suffix).

Definition from_env : SigningConfig := {|
  method := signing_env_or "METHOD" "keypair";
  key_path := signing_env "KEY_PATH";
  oidc_issuer := signing_env "OIDC_ISSUER";
  oidc_client_id := signing_env "OIDC_CLIENT_ID";
  expected_identity := signing_env "EXPECTED_IDENTITY";
  oidc_token := signing_env "OIDC_TOKEN";
  allow_interactive := String.eqb (signing_env_or "OIDC_INTERACTIVE" "0") "1";
  ca_url := signing_env "CA_URL";
  tlog_url := signing_env "TLOG_URL"
|}.

(** *** Cosign *)

Definition cosign_sign_args (key_path : string) (rekor : bool) : list string :=
  ["cosign"; "sign-blob"; "--key"; key_path; "--yes"]
  ++ (if rekor then [] else ["--use-signing-config=false"; "--tlog-upload=false"])
  ++ ["--bundle"; "out.bundle"; "payload.bin"].

(** The bundle after the post-condition check.  [json.dumps] keeps the order
    of the bundle's keys, which documents do not carry here: the model writes
    them sorted. *)
Definition accept_bundle (raw : string) (rekor : bool) : res SignResult :=
  match loads raw with
  | None | Some JNull => Ok {| signature := raw; success := true |}
  | Some bundle =>
      published ← (if rekor then Ok [] else transparency_evidence bundle);
      match published with
      | [] => Ok {| signature := dumps true bundle; success := true |}
      | _ => Ok sign_failed
      end
  end.

Definition cosign_backend_sign (payload : bytes) (key_path : string) (rekor : bool) : res SignResult :=
  match cosign_sign (cosign_sign_args key_path rekor) payload with
  | RunError => Ok sign_failed
  | Exited code out =>
      if negb (code =? 0)%Z then Ok sign_failed
      else match out with
           | None => Ok sign_failed
           | Some content =>
               text ← read_text content;
               let raw := strip text in
               if str_truthy raw then accept_bundle raw rekor else Ok sign_failed
           end
  end.

Definition cosign_backend_verify (payload : bytes) (sig key_path : string) : res VerifyResult :=
  let is_bundle := startswith (lstrip sig) "{" in
  let args :=
    if is_bundle
    then ["cosign"; "verify-blob"; "--key"; key_path; "--bundle"; "in.bundle";
          "--insecure-ignore-tlog"; "payload.bin"]
    else ["cosign"; "verify-blob"; "--key"; key_path; "--signature"; sig; "payload.bin"] in
  match cosign_verify args payload (if is_bundle then Some sig else None) with
  | RunError => Ok {| valid := false |}
  | Exited code _ => Ok {| valid := (code =? 0)%Z |}
  end.

Definition CosignBackend : SigningBackend := {|
  method_name := "keypair";
  available := cosign_installed;
  sign := cosign_backend_sign;
  verify := cosign_backend_verify
|}.

(** *** Sigstore OIDC *)

(** [_validate_custom_urls]: false when the configuration is half set. *)
Definition custom_urls_valid (c : SigningConfig) : bool :=
  Bool.eqb (opt_truthy (ca_url c)) (opt_truthy (tlog_url c)).
Definition custom_urls (c : SigningConfig) : option (string * string) :=
  match ca_url c, tlog_url c with
  | Some a, Some t => if str_truthy a && str_truthy t then Some (a, t) else None
  | _, _ => None
  end.

Definition interactive_token (c : SigningConfig) : res sigstore_token :=
  issuer_token (opt_or (oidc_issuer c) None) (opt_or (oidc_client_id c) None).

(** Explicit token, then ambient credentials, then the interactive flow;
    only the ambient step's errors are swallowed. *)
Definition resolve_identity_token (c : SigningConfig) : res (option sigstore_token) :=
  let client_id := str_or (oidc_client_id c) "sigstore" in
  if opt_truthy (oidc_token c) then
    t ← identity_token (default "" (oidc_token c)) client_id; Ok (Some t)
  else
    let ambient :=
      raw ← detect_credential;
      if opt_truthy raw then t ← identity_token (default "" raw) client_id; Ok (Some t)
      else Ok None in
    match ambient with
    | Ok (Some t) => Ok (Some t)
    | _ => if allow_interactive c then t ← interactive_token c; Ok (Some t) else Ok None
    end.

Definition sigstore_backend_sign (c : SigningConfig) (payload : bytes) (_ : string) (_ : bool)
  : res SignResult :=
  if negb sigstore_importable then Ok sign_failed
  else if negb (custom_urls_valid c) then Ok sign_failed
  else
    match resolve_identity_token c with
    | Ok (Some token) =>
        match sigstore_sign (custom_urls c) token payload with
        | Ok bundle => Ok {| signature := bundle; success := true |}
        | Err _ => Ok sign_failed
        end
    | _ => Ok sign_failed
    end.

Definition sigstore_backend_verify (c : SigningConfig) (payload : bytes) (sig _ : string)
  : res VerifyResult :=
  if negb sigstore_importable then Ok {| valid := false |}
  else if negb (custom_urls_valid c) then Ok {| valid := false |}
  else
    match sigstore_parse_bundle sig with
    | Err _ => Ok {| valid := false |}
    | Ok _ =>
        if negb (opt_truthy (expected_identity c)) || negb (opt_truthy (oidc_issuer c))
        then Ok {| valid := false |}
        else
          match sigstore_verify (custom_urls c) payload sig
                  (default "" (expected_identity c)) (default "" (oidc_issuer c)) with
          | Ok _ => Ok {| valid := true |}
          | Err _ => Ok {| valid := false |}
          end
    end.

Definition SigstoreOIDCBackend (c : SigningConfig) : SigningBackend := {|
  method_name := "identity";
  available := sigstore_importable;
  sign := sigstore_backend_sign c;
  verify := sigstore_backend_verify c
|}.

(** A backend built without arguments. *)
Definition unconfigured : SigningConfig := {|
  method := "identity"; key_path := None; oidc_issuer := None; oidc_client_id := None;
  expected_identity := None; oidc_token := None; allow_interactive := false;
  ca_url := None; tlog_url := None
|}.

(** *** Factories *)

Definition get_backend (name : string) : res SigningBackend :=
  if String.eqb name "cosign" then Ok CosignBackend
  else if String.eqb name "sigstore-oidc" then Ok (SigstoreOIDCBackend unconfigured)
  else Err ValueError.

(** [_METHOD_BACKENDS.get(method)]; a list or an object is not hashable. *)
Definition get_backend_for_method (method : json) : res SigningBackend :=
  match method with
  | JStr m =>
      if String.eqb m "keypair" then Ok CosignBackend
      else if String.eqb m "identity" then Ok (SigstoreOIDCBackend unconfigured)
      else Err ValueError
  | JArr _ | JObj _ => Err TypeError
  | _ => Err ValueError
  end.

Definition get_backend_from_config (c : SigningConfig) : res SigningBackend :=
  if String.eqb (method c) "keypair" then Ok CosignBackend
  else if String.eqb (method c) "identity" then Ok (SigstoreOIDCBackend c)
  else Err ValueError.
End Backends.

(** ** Properties *)

Lemma accept_bundle_unpublished raw r bundle :
  accept_bundle raw false = Ok r -> success r = true ->
  loads (signature r) = Some bundle -> bundle <> JNull -> transparency_evidence bundle = Ok [].
Proof.
  unfold accept_bundle. destruct (loads raw) as [b|] eqn:Hraw; intros Hr Hs Hl Hn.
  - destruct (decide (b = JNull)) as [->|Hb]; [inv_ok; simpl in *; congruence|].
    assert ((published ← transparency_evidence b;
             match published with
             | [] => Ok {| signature := dumps true b; success := true |}
             | _ => Ok sign_failed
             end) = Ok r) as Hr' by (by destruct b).
    destruct (transparency_evidence b) as [[|]|] eqn:Ht; simpl in Hr'; inv_ok; simpl in *; try done.
    rewrite loads_dumps in Hl. by injection Hl as <-.
  - inv_ok. simpl in *. congruence.
Qed.

Section Properties.
Context `{SigningTools}.

(** A successful signature is never the empty text. *)
Lemma cosign_signature_nonempty payload key_path rekor r :
  cosign_backend_sign payload key_path rekor = Ok r -> success r = true ->
  str_truthy (signature r) = true.
Proof.
  unfold cosign_backend_sign. intros Hr Hs.
  destruct (cosign_sign _ _) as [|code out]; [inv_ok; done|].
  destruct (negb _); [inv_ok; done|]. destruct out; [|inv_ok; done].
  destruct (read_text _) as [text|]; [|done]. cbn [mbind result_bind] in Hr.
  destruct (str_truthy (strip text)) eqn:Ht; [|inv_ok; done]. unfold accept_bundle in Hr.
  destruct (loads (strip text)) as [b|]; [|by injection Hr as <-].
  assert (str_truthy (dumps true b) = true) as Hd.
  { apply str_truthy_spec. intros Hd. pose proof (loads_dumps true b) as Hl. by rewrite Hd in Hl. }
  destruct b; try (by injection Hr as <-);
    (destruct (if rekor then Ok [] else _) as [[|]|]; [| |done]; injection Hr as <-; done).
Qed.

(** The cosign backend never hands out a published signature.  Whatever
    the cosign program did with the flags it was given, a successful [sign]
    without [rekor] whose signature is a JSON bundle carries no
    transparency-log entry and no RFC 3161 timestamp. *)
Theorem cosign_signature_not_published payload key_path r bundle :
  cosign_backend_sign payload key_path false = Ok r -> success r = true ->
  loads (signature r) = Some bundle -> bundle <> JNull ->
  transparency_evidence bundle = Ok [].
Proof.
  unfold cosign_backend_sign. intros Hr Hs Hl Hn.
  destruct (cosign_sign _ _) as [|code out]; [inv_ok; done|].
  destruct (negb _); [inv_ok; done|]. destruct out; [|inv_ok; done]. inv_ok.
  destruct (str_truthy _); [|inv_ok; done]. eapply accept_bundle_unpublished; eauto.
Qed.
End Properties.

(** ** A concrete world, for witnesses *)

(** A cosign that answers with a fixed bundle text and accepts signatures of
    its own making; no sigstore. *)
Definition sample_tools (env : gmap string string) (bundle : string) : SigningTools := {|
  environ := env;
  cosign_installed := true;
  cosign_sign := fun _ _ => Exited 0 (Some (utf8 bundle));
  cosign_verify := fun _ _ sig =>
    Exited (if bool_decide (sig = Some bundle) then 0 else 1)%Z tt;
  sigstore_importable := false;
  sigstore_token := unit;
  identity_token := fun _ _ => Err RuntimeError;
  detect_credential := Ok None;
  issuer_token := fun _ _ => Err RuntimeError;
  sigstore_sign := fun _ _ _ => Err RuntimeError;
  sigstore_parse_bundle := fun _ => Err ValueError;
  sigstore_verify := fun _ _ _ _ _ => Err RuntimeError
|}.
Definition sample_bundle : json :=
  JObj {["verificationMaterial" := JObj {["tlogEntries" := JArr []]}; "messageSignature" := JStr "c2ln"]}.

Lemma cosign_signature_not_published_witness :
  transparency_evidence sample_bundle = Ok [].
Proof.
  apply (@cosign_signature_not_published (sample_tools ∅ (dumps true sample_bundle)) [] "cosign.key"
    {| signature := dumps true sample_bundle; success := true |} sample_bundle);
    [vm_compute; reflexivity|reflexivity|vm_compute; reflexivity|discriminate].
Defined.
