(* ===== verification/Ledger.v ===== *)
(** * Layer integrity

    [_internal/integrity/ledger.py]: stamping a layer's Merkle metadata, signing
    it, and verifying both.  [_internal/layer_finalize.py], the sign, stamp and
    verify handlers and the restatement check on metadata are built on it.

    A layer is passed around as a mutable [dict]; here each operation returns
    the layer it leaves behind.  A raise leaves no layer: every caller either
    discards the object or never stores it. *)

From S2P Require Import Prelude PyStr Json Sha256 Errors Merkle Restatements Signing.
From stdpp Require Import options.

(** ** Findings *)

Inductive Severity := ERROR | WARNING.

(** The messages of the findings, with the arguments that identify a place. *)
Inductive integrity_message :=
| RootAbsent
| EpochNegative (epoch : Z)
| EpochExceedsEvents
| EpochEqualsEvents
| LeafFormatUnknown
| LegacyLeafFormat
| RootMismatch
| SizeMismatch
| CheckpointAbsent
| CheckpointMismatch
| CheckpointAtEpochZero
| RestatedDrift (field : string) (entries : option (list string))
| SignatureRequired
| NoPublicKey
| SignatureWithoutRoot
| UnknownSigningMethod
| BackendUnavailable
| LegacySignatureFormat
| UnknownSignatureFormat
| SignatureInvalid.

Record IntegrityFinding := Finding { severity : Severity; message : integrity_message }.
Definition err_finding (m : integrity_message) : IntegrityFinding := Finding ERROR m.
Definition warn_finding (m : integrity_message) : IntegrityFinding := Finding WARNING m.

Inductive sign_status := SUnconfigured | SSigned | SFailed.
Record SignAttempt := {
  status : sign_status;
  attempt_method : option string;
  stale_signature_dropped : bool
}.
#[global] Instance sign_status_eq_dec : EqDecision sign_status.
Proof. solve_decision. Defined.

Definition sign_attempt (s : sign_status) (m : option string) : SignAttempt :=
  {| status := s; attempt_method := m; stale_signature_dropped := false |}.
Definition configured (a : SignAttempt) : bool := bool_decide (status a <> SUnconfigured).

Inductive sign_warning := NotSigned | StaleSignatureDropped.
Definition attempt_warning (a : SignAttempt) : option sign_warning :=
  match status a with
  | SFailed => Some NotSigned
  | _ => if stale_signature_dropped a then Some StaleSignatureDropped else None
  end.

(** [replace(attempt, stale_signature_dropped=True)] where the drop was not
    superseded by a new signature. *)
Definition note_dropped (dropped : bool) (a : SignAttempt) : SignAttempt :=
  if dropped && negb (bool_decide (status a = SSigned))
  then {| status := status a; attempt_method := attempt_method a; stale_signature_dropped := true |}
  else a.

Section Integrity.
Context `{HashFn, SigningTools}.

(** ** Stamping *)

(** [layer.setdefault("metadata", {})]; reading or writing a key of anything
    but an object is a [TypeError]. *)
Definition setdefault_metadata (layer : dict) : res dict :=
  match layer !! "metadata" with
  | None => Ok ∅
  | Some (JObj m) => Ok m
  | Some _ => Err TypeError
  end.
Definition with_metadata (layer meta : dict) : dict := <["metadata" := JObj meta]> layer.

(** The refusals before anything is stamped. *)
Definition check_epoch (epoch : Z) (count : nat) : res unit :=
  _ ← raise_if (epoch <? 0)%Z ValueError;
  if (count =? 0)%nat then raise_if (negb (epoch =? 0)%Z) ValueError
  else raise_if (Z.of_nat count <=? epoch)%Z ValueError.

Definition drop_signature (meta : dict) : dict :=
  delete "merkle_signature_format" (delete "merkle_signing_method"
    (delete "merkle_root_signature" meta)).

(** The stamped fields. *)
Definition stamp_fields (root : string) (size : Z) (meta : dict) : dict :=
  <["leaf_format" := JInt LEAF_FORMAT_CURRENT]> (<["merkle_algorithm" := JStr "sha256"]>
    (<["merkle_size" := JInt size]> (<["merkle_root" := JStr root]> meta))).

Definition stamp_merkle_metadata (layer : dict) : res (bool * dict) :=
  events ← events_of layer;
  meta0 ← setdefault_metadata layer;
  let meta := match meta0 !! "merkle_epoch" with
              | None => <["merkle_epoch" := JInt 0]> meta0
              | Some _ => meta0
              end in
  epoch ← py_int (get "merkle_epoch" meta);
  _ ← check_epoch epoch (length events);
  let pre_epoch := take (Z.to_nat epoch) events in
  let post_epoch := drop (Z.to_nat epoch) events in
  let meta :=
    if (0 <? epoch)%Z
    then <["pre_merkle_checkpoint" := JStr (compute_pre_epoch_checkpoint pre_epoch)]> meta
    else delete "pre_merkle_checkpoint" meta in
  let prior_root := get "merkle_root" meta in
  '(root, size) ← compute_merkle_root post_epoch LEAF_FORMAT_CURRENT;
  let meta := stamp_fields root size meta in
  if negb (is_null prior_root) && py_neqb prior_root (JStr root)
  then Ok (true, with_metadata layer (drop_signature meta))
  else Ok (false, with_metadata layer meta).

(** ** Signing *)

Definition SIGNATURE_FORMAT_CURRENT : Z := 4.

Definition merkle_root_payload (merkle_root : json) : res bytes :=
  match merkle_root with
  | JStr s => of_option (fromhex s) ValueError
  | _ => Err TypeError
  end.

(** The digest of a map that is there and not empty. *)
Definition digest_or_none (v : json) : json :=
  if truthy v then JStr (hexdigest (utf8 (dumps true v))) else JNull.

Definition signature_doc (meta : dict) (fmt : Z) : dict :=
  let doc : dict := {[
    "merkle_root" := get "merkle_root" meta;
    "leaf_format" := default (JInt 1) (meta !! "leaf_format");
    "merkle_epoch" := default (JInt 0) (meta !! "merkle_epoch");
    "merkle_size" := get "merkle_size" meta;
    "pre_merkle_checkpoint" := get "pre_merkle_checkpoint" meta;
    "claim_hashes_digest" := digest_or_none (get "claim_hashes" meta) ]} in
  let doc := if (3 <=? fmt)%Z
             then <["audit_report_sha256" := get "audit_report_sha256" meta]> doc else doc in
  if (4 <=? fmt)%Z
  then <["artifact_digests_digest" := digest_or_none (get "artifact_digests" meta)]> doc else doc.

Definition merkle_signature_payload (meta : dict) (fmt : Z) : bytes :=
  sha256 (utf8 (dumps true (JObj (signature_doc meta fmt)))).

(** The metadata fields a successful signature sets. *)
Definition signed_metadata (sig method : string) (meta : dict) : dict :=
  <["merkle_signature_format" := JInt SIGNATURE_FORMAT_CURRENT]>
    (<["merkle_signing_method" := JStr method]> (<["merkle_root_signature" := JStr sig]> meta)).

Definition sign_if_configured (layer : dict) (config : option SigningConfig) (rekor : bool)
  : res (SignAttempt * dict) :=
  let config := match config with Some c => c | None => from_env end in
  let m := if str_truthy (method config) then method config else "keypair" in
  if String.eqb m "keypair" && negb (opt_truthy (key_path config))
  then Ok (sign_attempt SUnconfigured None, layer)
  else if negb (String.eqb m "keypair") && negb (opt_truthy (oidc_token config))
  then Ok (sign_attempt SUnconfigured (Some m), layer)
  else
    meta ← get_obj "metadata" layer;
    if negb (get_truthy "merkle_root" meta) then Ok (sign_attempt SFailed (Some m), layer)
    else
      let signed :=
        backend ← get_backend_from_config config;
        r ← sign backend (merkle_signature_payload meta SIGNATURE_FORMAT_CURRENT)
              (str_or (key_path config) "") rekor;
        Ok (backend, r) in
      match signed with
      | Err _ => Ok (sign_attempt SFailed (Some m), layer)
      | Ok (backend, r) =>
          if negb (success r) then Ok (sign_attempt SFailed (Some m), layer)
          else Ok (sign_attempt SSigned (Some (method_name backend)),
                   with_metadata layer (signed_metadata (signature r) (method_name backend) meta))
      end.

Definition stamp_and_sign (layer : dict) (rekor : bool) : res (SignAttempt * dict) :=
  '(dropped, layer) ← stamp_merkle_metadata layer;
  '(attempt, layer) ← sign_if_configured layer None rekor;
  Ok (note_dropped dropped attempt, layer).

(** ** Verification *)

(** The keys of [expected] that [actual] does not hold, sorted. *)
Definition drifted (expected : dict) (actual : json) : list string :=
  map fst (List.filter (fun kv =>
    match actual with JObj a => py_neqb (get kv.1 a) kv.2 | _ => true end) (items expected)).

Definition verify_restated_field (meta : dict) (events : list json) (field : string)
  : res (list IntegrityFinding) :=
  '(restated, expected) ← terminal_value events field;
  if negb restated then Ok []
  else
    let actual := get field meta in
    match expected with
    | JObj e =>
        match drifted e actual with
        | [] => Ok []
        | keys => Ok [err_finding (RestatedDrift field (Some keys))]
        end
    | _ => Ok (if py_eqb actual expected then [] else [err_finding (RestatedDrift field None)])
    end.

Definition verify_restated_metadata (layer : dict) : res (list IntegrityFinding) :=
  meta ← get_obj "metadata" layer;
  events ← events_of layer;
  fs ← mapR (verify_restated_field meta events) SIGNED_METADATA_FIELDS;
  Ok (concat fs).

(** [int(leaf_format)], with [-1] for what is no number. *)
Definition read_leaf_format (meta : dict) : Z :=
  match py_int (default (JInt 1) (meta !! "leaf_format")) with Ok z => z | Err _ => -1 end%Z.

Definition check_checkpoint (meta : dict) (events : list json) (epoch : Z) : list IntegrityFinding :=
  let checkpoint := get "pre_merkle_checkpoint" meta in
  if (0 <? epoch)%Z then
    if is_null checkpoint then [err_finding CheckpointAbsent]
    else if py_neqb checkpoint (JStr (compute_pre_epoch_checkpoint (take (Z.to_nat epoch) events)))
    then [err_finding CheckpointMismatch] else []
  else if negb (is_null checkpoint)
          && py_neqb checkpoint (JStr (compute_pre_epoch_checkpoint []))
  then [err_finding CheckpointAtEpochZero] else [].

(** The checks after the early returns. *)
Definition check_tree (meta : dict) (events : list json) (epoch leaf_format : Z)
  : res (list IntegrityFinding) :=
  '(computed_root, computed_size) ← compute_merkle_root (drop (Z.to_nat epoch) events) leaf_format;
  let declared_size := get "merkle_size" meta in
  Ok ((if (leaf_format =? 1)%Z then [err_finding LegacyLeafFormat] else [])
      ++ (if py_neqb (get "merkle_root" meta) (JStr computed_root)
          then [err_finding RootMismatch] else [])
      ++ (if negb (is_null declared_size) && py_neqb declared_size (JInt computed_size)
          then [err_finding SizeMismatch] else [])
      ++ check_checkpoint meta events epoch).

Definition verify_merkle_integrity (layer : dict) : res (list IntegrityFinding) :=
  meta ← get_obj "metadata" layer;
  events ← events_of layer;
  if is_null (get "merkle_root" meta) then Ok [err_finding RootAbsent]
  else
    epoch ← py_int (default (JInt 0) (meta !! "merkle_epoch"));
    let count := Z.of_nat (length events) in
    if (epoch <? 0)%Z then Ok [err_finding (EpochNegative epoch)]
    else if (0 <? count)%Z && (count <? epoch)%Z then Ok [err_finding EpochExceedsEvents]
    else if (0 <? count)%Z && (epoch =? count)%Z then Ok [err_finding EpochEqualsEvents]
    else
      let leaf_format := read_leaf_format meta in
      if negb ((leaf_format =? 1)%Z || (leaf_format =? LEAF_FORMAT_CURRENT)%Z)
      then Ok [err_finding LeafFormatUnknown]
      else
        tree ← check_tree meta events epoch leaf_format;
        restated ← verify_restated_metadata layer;
        Ok (tree ++ restated).

(** The payload a declared signature format stands for, and the findings that
    format alone causes; [None] is an unknown format. *)
Definition payload_for_format (meta : dict) (sig_format : json)
  : res (option (bytes * list IntegrityFinding)) :=
  if py_eqb sig_format (JInt SIGNATURE_FORMAT_CURRENT)
  then Ok (Some (merkle_signature_payload meta SIGNATURE_FORMAT_CURRENT, []))
  else if py_eqb sig_format (JInt 3) then Ok (Some (merkle_signature_payload meta 3, []))
  else if py_eqb sig_format (JInt 2) then Ok (Some (merkle_signature_payload meta 2, []))
  else if py_eqb sig_format (JInt 1) then
    p ← merkle_root_payload (get "merkle_root" meta);
    Ok (Some (p, [warn_finding LegacySignatureFormat]))
  else Ok None.

(** The backend that verifies: the given one, or the declared method's. *)
Definition choose_signer (meta : dict) (backend : option SigningBackend) : res (option SigningBackend) :=
  match backend with
  | Some b => Ok (Some b)
  | None =>
      let declared := get "merkle_signing_method" meta in
      if is_null declared then b ← get_backend "cosign"; Ok (Some b)
      else match get_backend_for_method declared with
           | Ok b => Ok (Some b)
           | Err ValueError => Ok None
           | Err e => Err e
           end
  end.

Definition verify_merkle_signature (layer : dict) (pubkey_path : option string)
    (backend : option SigningBackend) : res (list IntegrityFinding) :=
  meta ← get_obj "metadata" layer;
  let sig := get "merkle_root_signature" meta in
  if negb (truthy sig) then
    Ok (if get_truthy "merkle_root" meta && String.eqb (signing_env_or "REQUIRED" "0") "1"
        then [err_finding SignatureRequired] else [])
  else match pubkey_path with
  | None => Ok [warn_finding NoPublicKey]
  | Some pubkey =>
      if negb (get_truthy "merkle_root" meta) then Ok [err_finding SignatureWithoutRoot]
      else
        signer ← choose_signer meta backend;
        match signer with
        | None => Ok [err_finding UnknownSigningMethod]
        | Some signer =>
            if negb (available signer) then Ok [warn_finding BackendUnavailable]
            else
              p ← payload_for_format meta (default (JInt 1) (meta !! "merkle_signature_format"));
              match p, sig with
              | None, _ => Ok [err_finding UnknownSignatureFormat]
              | Some (payload, format_findings), JStr s =>
                  r ← verify signer payload s pubkey;
                  Ok (if valid r then format_findings else [err_finding SignatureInvalid])
              | Some _, _ => Err AttributeError
              end
        end
  end.

(** ** What a stamp leaves behind *)

(** The metadata after a stamp, as one expression. *)
Definition stamped_meta (events : list json) (epoch : Z) (root : string) (size : Z) (dropped : bool)
    (meta0 : dict) : dict :=
  let meta := <["merkle_epoch" := default (JInt 0) (meta0 !! "merkle_epoch")]> meta0 in
  let meta :=
    if (0 <? epoch)%Z
    then <["pre_merkle_checkpoint"
           := JStr (compute_pre_epoch_checkpoint (take (Z.to_nat epoch) events))]> meta
    else delete "pre_merkle_checkpoint" meta in
  let meta := stamp_fields root size meta in
  if dropped then drop_signature meta else meta.

(** The epochs a stamp accepts. *)
Definition epoch_in_range (epoch : Z) (events : list json) : Prop :=
  (0 <= epoch)%Z /\ ((epoch < Z.of_nat (length events))%Z \/ events = [] /\ epoch = 0%Z).

Lemma check_epoch_ok epoch events u :
  check_epoch epoch (length events) = Ok u <-> epoch_in_range epoch events.
Proof.
  unfold check_epoch, epoch_in_range. destruct u, (Z.ltb_spec epoch 0); simpl.
  - split; [done|lia].
  - destruct events as [|e events]; cbn [length Nat.eqb]; rewrite raise_if_ok.
    + rewrite negb_false_iff Z.eqb_eq. split; [intros ->; split; [lia|by right]|].
      intros [_ [?|[_ ?]]]; simpl in *; lia.
    + rewrite Z.leb_gt. split; [intros; split; [lia|by left]|]. by intros [_ [?|[? _]]].
Qed.

Record stamp_facts (layer : dict) (dropped : bool) (layer' : dict) := {
  sf_events : list json;
  sf_meta : dict;
  sf_epoch : Z;
  sf_root : string;
  sf_size : Z;
  sf_events_of : events_of layer = Ok sf_events;
  sf_meta_of : setdefault_metadata layer = Ok sf_meta;
  sf_epoch_of : py_int (default (JInt 0) (sf_meta !! "merkle_epoch")) = Ok sf_epoch;
  sf_range : epoch_in_range sf_epoch sf_events;
  sf_root_of : compute_merkle_root (drop (Z.to_nat sf_epoch) sf_events) LEAF_FORMAT_CURRENT
               = Ok (sf_root, sf_size);
  sf_dropped : dropped = negb (is_null (get "merkle_root" sf_meta))
                         && py_neqb (get "merkle_root" sf_meta) (JStr sf_root);
  sf_layer : layer' = with_metadata layer
               (stamped_meta sf_events sf_epoch sf_root sf_size dropped sf_meta)
}.

Lemma stamp_inv layer dropped layer' :
  stamp_merkle_metadata layer = Ok (dropped, layer') -> stamp_facts layer dropped layer'.
Proof.
  unfold stamp_merkle_metadata. intros Hs.
  destruct (events_of layer) as [events|] eqn:He; [|done].
  destruct (setdefault_metadata layer) as [meta0|] eqn:Hm; [|done]. cbn [mbind result_bind] in Hs.
  assert (match meta0 !! "merkle_epoch" with
          | None => <["merkle_epoch" := JInt 0]> meta0 | Some _ => meta0 end
    = <["merkle_epoch" := default (JInt 0) (meta0 !! "merkle_epoch")]> meta0) as Hmeta.
  { destruct (meta0 !! "merkle_epoch") eqn:Hk; [|done]. simpl. by rewrite insert_id. }
  rewrite Hmeta get_insert_eq in Hs.
  destruct (py_int _) as [epoch|] eqn:Hep; [|done]. cbn [mbind result_bind] in Hs.
  destruct (check_epoch epoch (length events)) eqn:Hc; [|done]. cbn [mbind result_bind] in Hs.
  destruct (compute_merkle_root _ _) as [[root size]|] eqn:Hr; [|done]. cbn [mbind result_bind] in Hs.
  assert (forall v, get "merkle_root" (if (0 <? epoch)%Z
    then <["pre_merkle_checkpoint" := v]> (<["merkle_epoch" := default (JInt 0) (meta0 !! "merkle_epoch")]> meta0)
    else delete "pre_merkle_checkpoint" (<["merkle_epoch" := default (JInt 0) (meta0 !! "merkle_epoch")]> meta0))
    = get "merkle_root" meta0) as Hroot.
  { intros v. destruct (0 <? epoch)%Z; by rewrite ?get_delete_ne ?get_insert_ne. }
  rewrite Hroot in Hs. apply check_epoch_ok in Hc.
  destruct (negb _ && _) eqn:Hd; injection Hs as <- <-;
    (econstructor; [exact He|exact Hm|exact Hep|exact Hc|exact Hr|by rewrite Hd|done]).
Qed.

Lemma get_obj_with_metadata layer meta : get_obj "metadata" (with_metadata layer meta) = Ok meta.
Proof. unfold get_obj, with_metadata, get. by rewrite lookup_insert_eq. Qed.
Lemma events_of_with_metadata layer meta : events_of (with_metadata layer meta) = events_of layer.
Proof. unfold events_of, get_list, with_metadata, get. by rewrite lookup_insert_ne. Qed.
Lemma setdefault_with_metadata layer meta : setdefault_metadata (with_metadata layer meta) = Ok meta.
Proof. unfold setdefault_metadata, with_metadata. by rewrite lookup_insert_eq. Qed.

Definition SIGNATURE_FIELDS : list string :=
  ["merkle_root_signature"; "merkle_signing_method"; "merkle_signature_format"].
Definition STAMPED_FIELDS : list string :=
  ["merkle_root"; "merkle_size"; "merkle_algorithm"; "leaf_format"; "merkle_epoch";
   "pre_merkle_checkpoint"].

(** Reading a field of the stamped metadata. *)
Ltac read_stamped_at epoch dropped :=
  unfold stamped_meta, stamp_fields, drop_signature; cbn zeta;
  destruct (0 <? epoch)%Z, dropped; simplify_map_eq; try done.

Section Stamped.
Context (events : list json) (epoch : Z) (root : string) (size : Z) (dropped : bool) (meta : dict).
Ltac read_stamped := read_stamped_at epoch dropped.
Notation stamped := (stamped_meta events epoch root size dropped meta).

Lemma stamped_root : stamped !! "merkle_root" = Some (JStr root).
Proof. read_stamped. Qed.
Lemma stamped_size : stamped !! "merkle_size" = Some (JInt size).
Proof. read_stamped. Qed.
Lemma stamped_leaf_format : stamped !! "leaf_format" = Some (JInt LEAF_FORMAT_CURRENT).
Proof. read_stamped. Qed.
Lemma stamped_epoch :
  stamped !! "merkle_epoch" = Some (default (JInt 0) (meta !! "merkle_epoch")).
Proof. read_stamped. Qed.
Lemma stamped_checkpoint :
  stamped !! "pre_merkle_checkpoint"
  = if (0 <? epoch)%Z
    then Some (JStr (compute_pre_epoch_checkpoint (take (Z.to_nat epoch) events))) else None.
Proof. read_stamped. Qed.
Lemma stamped_signature k : k ∈ SIGNATURE_FIELDS ->
  stamped !! k = if dropped then None else meta !! k.
Proof.
  unfold SIGNATURE_FIELDS. rewrite !elem_of_cons. intros [->|[->|[->|[]%not_elem_of_nil]]];
    read_stamped.
Qed.
Lemma stamped_other k : k ∉ SIGNATURE_FIELDS -> k ∉ STAMPED_FIELDS -> stamped !! k = meta !! k.
Proof.
  unfold SIGNATURE_FIELDS, STAMPED_FIELDS. rewrite !not_elem_of_cons.
  intros (?&?&?&_) (?&?&?&?&?&?&_). read_stamped.
Qed.
End Stamped.

(** ** Verifying what was stamped *)

Lemma check_tree_stamped events epoch root size dropped meta :
  compute_merkle_root (drop (Z.to_nat epoch) events) LEAF_FORMAT_CURRENT = Ok (root, size) ->
  check_tree (stamped_meta events epoch root size dropped meta) events epoch LEAF_FORMAT_CURRENT = Ok [].
Proof.
  intros Hr. unfold check_tree. rewrite Hr. cbn [mbind result_bind].
  unfold check_checkpoint, get. rewrite stamped_root stamped_size stamped_checkpoint. simpl.
  unfold py_neqb. rewrite !py_eqb_refl. destruct (0 <? epoch)%Z; simpl; [|done].
  by rewrite py_eqb_refl.
Qed.

Lemma verify_stamped layer dropped layer' :
  stamp_merkle_metadata layer = Ok (dropped, layer') ->
  verify_merkle_integrity layer' = verify_restated_metadata layer'.
Proof.
  intros [events meta epoch root size He Hm Hep Hrange Hr _ ->]%stamp_inv.
  unfold verify_merkle_integrity. rewrite get_obj_with_metadata events_of_with_metadata He.
  cbn [mbind result_bind]. unfold get at 1. rewrite stamped_root. cbn [is_null default].
  rewrite stamped_epoch. cbn [default]. rewrite Hep. cbn [mbind result_bind].
  destruct Hrange as [Hpos Hrange]. rewrite (proj2 (Z.ltb_ge _ _)) //.
  assert ((0 <? Z.of_nat (length events))%Z && (Z.of_nat (length events) <? epoch)%Z = false
    /\ (0 <? Z.of_nat (length events))%Z && (epoch =? Z.of_nat (length events))%Z = false) as [-> ->].
  { destruct Hrange as [|[-> ->]]; [|done]. split; apply andb_false_iff; right; lia. }
  unfold read_leaf_format. rewrite stamped_leaf_format. cbn [default py_int].
  rewrite check_tree_stamped //. cbn. by destruct (verify_restated_metadata _).
Qed.

(** A forged event array under stamped metadata that raises no finding. *)
Lemma check_tree_clean meta events epoch :
  check_tree meta events epoch LEAF_FORMAT_CURRENT = Ok [] ->
  exists root size, compute_merkle_root (drop (Z.to_nat epoch) events) LEAF_FORMAT_CURRENT = Ok (root, size)
    /\ py_eqb (get "merkle_root" meta) (JStr root) = true
    /\ ((0 < epoch)%Z -> py_eqb (get "pre_merkle_checkpoint" meta)
         (JStr (compute_pre_epoch_checkpoint (take (Z.to_nat epoch) events))) = true).
Proof.
  unfold check_tree. destruct (compute_merkle_root _ _) as [[root size]|]; [|done].
  cbn [mbind result_bind]. intros [= Heq]. exists root, size. split; [done|].
  apply app_eq_nil in Heq as [Hroot Heq].
  apply app_eq_nil in Heq as [_ Heq]. unfold py_neqb in Hroot. split.
  - by destruct (py_eqb (get "merkle_root" meta) (JStr root)).
  - intros Hpos. unfold check_checkpoint in Heq.
    destruct (Z.ltb_spec 0 epoch); [|lia]. destruct (is_null _); [done|].
    unfold py_neqb in Heq. by destruct (py_eqb _ (JStr _)) in Heq |- *.
Qed.

(** No finding on a layer means none of its checks found anything. *)
Lemma verify_clean layer meta epoch root :
  get_obj "metadata" layer = Ok meta -> meta !! "merkle_root" = Some (JStr root) ->
  meta !! "leaf_format" = Some (JInt LEAF_FORMAT_CURRENT) ->
  py_int (default (JInt 0) (meta !! "merkle_epoch")) = Ok epoch ->
  verify_merkle_integrity layer = Ok [] ->
  exists events, events_of layer = Ok events /\ (0 <= epoch)%Z
    /\ check_tree meta events epoch LEAF_FORMAT_CURRENT = Ok [].
Proof.
  intros Hm Hr Hl Hep. unfold verify_merkle_integrity. rewrite Hm. cbn [mbind result_bind].
  destruct (events_of layer) as [events|] eqn:He; [|done]. cbn [mbind result_bind].
  assert (get "merkle_root" meta = JStr root) as -> by (unfold get; by rewrite Hr).
  cbn [is_null]. rewrite Hep. cbn [mbind result_bind].
  destruct (Z.ltb_spec epoch 0); [done|].
  destruct (_ && _); [done|]. destruct (_ && _); [done|].
  unfold read_leaf_format. rewrite Hl. cbn [default py_int].
  change (negb _) with false. cbn iota.
  destruct (check_tree _ _ _ _) as [fs|] eqn:Hc; [|done]. cbn [mbind result_bind].
  destruct (verify_restated_metadata layer); [|done]. cbn [mbind result_bind].
  intros [= [-> _]%app_eq_nil]. by exists events.
Qed.

Lemma compute_pre_epoch_checkpoint_inj es1 es2 :
  compute_pre_epoch_checkpoint es1 = compute_pre_epoch_checkpoint es2 ->
  es1 = es2 \/ has_collision [utf8 (dumps true (JArr es1)); utf8 (dumps true (JArr es2))].
Proof.
  intros Heq.
  destruct (hexdigest_eq_or [utf8 (dumps true (JArr es1)); utf8 (dumps true (JArr es2))]
    (utf8 (dumps true (JArr es1))) (utf8 (dumps true (JArr es2)))) as [Hx|];
    [set_solver|set_solver|exact Heq| |by right].
  left. apply (inj utf8), (inj (dumps true)) in Hx. by injection Hx.
Qed.

(** ** Properties *)

(** C31: a stamped layer verifies.  After [stamp_merkle_metadata] returns,
    [verify_merkle_integrity] finds nothing about the tree, the size, the
    epoch or the checkpoint: its findings are those of the restatement check
    alone. *)
Theorem stamp_then_verify layer dropped layer' :
  stamp_merkle_metadata layer = Ok (dropped, layer') ->
  verify_merkle_integrity layer' = verify_restated_metadata layer'.
Proof. apply verify_stamped. Qed.

(** A stamp changes nothing but its own fields.  Everything outside
    [metadata] is as it was; of the metadata, only the six stamped fields
    change, and the three signature fields are either all kept or - exactly
    when a recorded root differs from the new one - all removed. *)
Theorem stamp_frame layer dropped layer' :
  stamp_merkle_metadata layer = Ok (dropped, layer') ->
  (forall k, k <> "metadata" -> layer' !! k = layer !! k)
  /\ exists meta meta' root, setdefault_metadata layer = Ok meta
     /\ layer' !! "metadata" = Some (JObj meta') /\ meta' !! "merkle_root" = Some (JStr root)
     /\ (forall k, k ∉ SIGNATURE_FIELDS -> k ∉ STAMPED_FIELDS -> meta' !! k = meta !! k)
     /\ (forall k, k ∈ SIGNATURE_FIELDS -> meta' !! k = if dropped then None else meta !! k)
     /\ (dropped = true <-> get "merkle_root" meta <> JNull
                           /\ get "merkle_root" meta <> JStr root).
Proof.
  intros [events meta epoch root size He Hm Hep Hrange Hr Hd ->]%stamp_inv. split.
  { intros k Hk. unfold with_metadata. rewrite lookup_insert_ne; [congruence|done]. }
  eexists meta, _, root. split; [done|]. split; [unfold with_metadata; by rewrite lookup_insert_eq|].
  split; [apply stamped_root|]. split; [intros; by apply stamped_other|].
  split; [intros; by apply stamped_signature|].
  rewrite Hd andb_true_iff negb_true_iff. unfold py_neqb. rewrite negb_true_iff.
  rewrite py_eqb_str_r bool_decide_eq_false. by destruct (get "merkle_root" meta); naive_solver.
Qed.

(** A stamp never papers over a truncated log.  When the recorded epoch is
    negative, or leaves no event inside the tree - also when the log is empty
    and the epoch is not - stamping is refused. *)
Theorem stamp_refuses_truncation layer events meta epoch :
  events_of layer = Ok events -> setdefault_metadata layer = Ok meta ->
  py_int (default (JInt 0) (meta !! "merkle_epoch")) = Ok epoch ->
  (epoch < 0 \/ Z.of_nat (length events) < epoch
   \/ (epoch = Z.of_nat (length events) /\ epoch <> 0))%Z ->
  stamp_merkle_metadata layer = Err ValueError.
Proof.
  intros He Hm Hep Hbad. unfold stamp_merkle_metadata. rewrite He Hm. cbn [mbind result_bind].
  assert (forall (m : dict), get "merkle_epoch" (match m !! "merkle_epoch" with
    | None => <["merkle_epoch" := JInt 0]> m | Some _ => m end)
    = default (JInt 0) (m !! "merkle_epoch")) as ->.
  { intros m. destruct (m !! "merkle_epoch") eqn:Hk; [|by rewrite get_insert_eq].
    unfold get. by rewrite Hk. }
  rewrite Hep. cbn [mbind result_bind].
  destruct (check_epoch epoch (length events)) as [u|e] eqn:Hc.
  - apply check_epoch_ok in Hc as [? [?|[-> ->]]]; simpl in *; lia.
  - unfold check_epoch in Hc. destruct (epoch <? 0)%Z; simpl in Hc; [by inv_ok|].
    by destruct (_ =? 0); apply raise_if_err in Hc as [_ <-].
Qed.

(** Stamping is idempotent: stamping a stamped layer again changes nothing
    and drops no signature. *)
Theorem stamp_idempotent layer dropped layer' :
  stamp_merkle_metadata layer = Ok (dropped, layer') ->
  stamp_merkle_metadata layer' = Ok (false, layer').
Proof.
  intros [events meta epoch root size He Hm Hep Hrange Hr Hd ->]%stamp_inv.
  set (m := stamped_meta events epoch root size dropped meta).
  unfold stamp_merkle_metadata. rewrite events_of_with_metadata He setdefault_with_metadata.
  cbn [mbind result_bind]. fold m.
  pose proof (stamped_epoch events epoch root size dropped meta) as Hme. fold m in Hme.
  assert (get "merkle_epoch" m = default (JInt 0) (meta !! "merkle_epoch")) as Hge
    by (unfold get; by rewrite Hme).
  rewrite Hme. cbn iota. rewrite Hge. rewrite Hep. cbn [mbind result_bind].
  destruct (check_epoch epoch (length events)) eqn:Hc;
    [|by rewrite (proj2 (check_epoch_ok epoch events tt) Hrange) in Hc].
  cbn [mbind result_bind]. rewrite Hr. cbn [mbind result_bind].
  assert ((if (0 <? epoch)%Z
    then <["pre_merkle_checkpoint" := JStr (compute_pre_epoch_checkpoint (take (Z.to_nat epoch) events))]> m
    else delete "pre_merkle_checkpoint" m) = m) as ->.
  { pose proof (stamped_checkpoint events epoch root size dropped meta) as Hcp. fold m in Hcp.
    destruct (0 <? epoch)%Z; [by apply insert_id|by apply delete_id]. }
  assert (stamp_fields root size m = m) as ->.
  { unfold stamp_fields, m. rewrite !insert_id //; read_stamped_at epoch dropped. }
  unfold get. unfold m at 1 2. rewrite stamped_root. cbn [default is_null]. unfold py_neqb.
  rewrite py_eqb_refl. cbn. unfold with_metadata. by rewrite insert_insert_eq.
Qed.

(** C2: tamper evidence.  Take any stamped layer, and any document that keeps
    its metadata but whose events are arbitrary.  If [verify_merkle_integrity]
    reports nothing about it, the events before the stamped epoch are unchanged,
    and every later event is unchanged in every field whose name does not start
    with [merkle_]; none is added, dropped or moved - or byte strings that were
    hashed collide under SHA-256. *)
Theorem tampering_is_detected layer dropped layer' forged :
  stamp_merkle_metadata layer = Ok (dropped, layer') ->
  forged !! "metadata" = layer' !! "metadata" ->
  verify_merkle_integrity forged = Ok [] ->
  exists events events' meta epoch, events_of layer = Ok events /\ events_of forged = Ok events'
    /\ get_obj "metadata" layer' = Ok meta /\ py_int (get "merkle_epoch" meta) = Ok epoch
    /\ (0 <= epoch <= Z.of_nat (length events))%Z
    /\ ((take (Z.to_nat epoch) events' = take (Z.to_nat epoch) events
         /\ Forall2 same_bound_fields (drop (Z.to_nat epoch) events') (drop (Z.to_nat epoch) events))
        \/ has_collision
             ([utf8 (dumps true (JArr (take (Z.to_nat epoch) events')));
               utf8 (dumps true (JArr (take (Z.to_nat epoch) events)))]
              ++ root_inputs (canonical_event_bytes <$> event_dicts (drop (Z.to_nat epoch) events'))
              ++ root_inputs (canonical_event_bytes <$> event_dicts (drop (Z.to_nat epoch) events)))).
Proof.
  intros [events meta epoch root size He Hm Hep Hrange Hr Hd ->]%stamp_inv Hforged Hv.
  set (m := stamped_meta events epoch root size dropped meta) in *.
  assert (get_obj "metadata" forged = Ok m) as Hmf.
  { unfold get_obj, get. rewrite Hforged. unfold with_metadata. by rewrite lookup_insert_eq. }
  destruct (verify_clean forged m epoch root) as (events' & He' & _ & Hc);
    [done|apply stamped_root|apply stamped_leaf_format|unfold m; by rewrite stamped_epoch|done|].
  exists events, events', m, epoch. split; [done|]. split; [done|]. split; [apply get_obj_with_metadata|].
  split; [unfold m, get; by rewrite stamped_epoch|]. split; [destruct Hrange as [? [?|[-> ->]]]; cbn; lia|].
  apply check_tree_clean in Hc as (root' & size' & Hr' & Hroot & Hcp).
  unfold get in Hroot. unfold m in Hroot at 1. rewrite stamped_root py_eqb_str_r in Hroot.
  apply bool_decide_eq_true in Hroot. injection Hroot as <-.
  assert (take (Z.to_nat epoch) events' = take (Z.to_nat epoch) events
    \/ has_collision [utf8 (dumps true (JArr (take (Z.to_nat epoch) events')));
         utf8 (dumps true (JArr (take (Z.to_nat epoch) events)))]) as [Hpre|Hcol].
  { destruct (Z.ltb_spec 0 epoch) as [Hpos|]; [|left; by replace (Z.to_nat epoch) with 0 by lia].
    apply compute_pre_epoch_checkpoint_inj. specialize (Hcp Hpos).
    unfold get in Hcp. unfold m in Hcp at 1. rewrite stamped_checkpoint in Hcp.
    destruct (Z.ltb_spec 0 epoch); [|lia]. cbn [default] in Hcp.
    rewrite py_eqb_str_r in Hcp. apply bool_decide_eq_true in Hcp. by injection Hcp. }
  - destruct (format2_binds _ _ _ _ _ Hr' Hr) as [Hpost|Hcol]; [by left; split|right].
    eapply has_collision_mono; [|exact Hcol]. set_solver.
  - right. eapply has_collision_mono; [|exact Hcol]. set_solver.
Qed.

(** *** What a signature covers *)

(** Everything hashed by [merkle_signature_payload]. *)
Definition signature_inputs (meta : dict) (fmt : Z) : list bytes :=
  [utf8 (dumps true (JObj (signature_doc meta fmt)));
   utf8 (dumps true (get "claim_hashes" meta)); utf8 (dumps true (get "artifact_digests" meta))].

(** Equal, or both absent or empty, which the payload does not tell apart. *)
Definition same_or_empty (v1 v2 : json) : Prop :=
  v1 = v2 \/ (truthy v1 = false /\ truthy v2 = false).

Lemma doc_hashed meta fmt :
  utf8 (dumps true (JObj (signature_doc meta fmt))) ∈ signature_inputs meta fmt.
Proof. by left. Qed.
Lemma claims_hashed meta fmt : utf8 (dumps true (get "claim_hashes" meta)) ∈ signature_inputs meta fmt.
Proof. by right; left. Qed.
Lemma artifacts_hashed meta fmt :
  utf8 (dumps true (get "artifact_digests" meta)) ∈ signature_inputs meta fmt.
Proof. by right; right; left. Qed.

Lemma digest_or_none_binds v1 v2 S :
  utf8 (dumps true v1) ∈ S -> utf8 (dumps true v2) ∈ S ->
  digest_or_none v1 = digest_or_none v2 -> same_or_empty v1 v2 \/ has_collision S.
Proof.
  intros H1 H2. unfold digest_or_none, same_or_empty.
  destruct (truthy v1), (truthy v2); try done; [|by left; right].
  intros [= [Hx%(inj utf8)%(inj (dumps true))|]%(hexdigest_eq_or S)]; auto.
Qed.

Lemma signature_payload_doc m1 m2 fmt S :
  signature_inputs m1 fmt ⊆ S -> signature_inputs m2 fmt ⊆ S ->
  merkle_signature_payload m1 fmt = merkle_signature_payload m2 fmt ->
  signature_doc m1 fmt = signature_doc m2 fmt \/ has_collision S.
Proof.
  intros H1 H2 Heq. apply (sha256_eq_or S) in Heq as [Hx|];
    [|by right|apply H1, doc_hashed|apply H2, doc_hashed].
  left. apply (inj utf8), (inj (dumps true)) in Hx. by injection Hx.
Qed.

(** Reading one entry of two equal format-4 documents. *)
Ltac doc_entry Hd k :=
  let Hk := fresh "Hk" in
  pose proof (f_equal (lookup k) Hd) as Hk;
  unfold signature_doc in Hk; change (3 <=? SIGNATURE_FORMAT_CURRENT)%Z with true in Hk;
  change (4 <=? SIGNATURE_FORMAT_CURRENT)%Z with true in Hk; cbv iota zeta in Hk;
  repeat first [rewrite lookup_insert_eq in Hk | rewrite lookup_insert_ne in Hk; [done|]
               | rewrite lookup_singleton_eq in Hk];
  by injection Hk.

(** C8: a format-4 signature binds the root and its whole interpretation.  Two
    metadata blocks with the same signed payload agree on the root, the leaf
    format, the epoch, the size, the checkpoint and the audited report's
    digest, and on the claim hashes and artifact digests (up to absent
    against empty) - or byte strings that were hashed collide. *)
Theorem signature_payload_binds m1 m2 :
  merkle_signature_payload m1 SIGNATURE_FORMAT_CURRENT
  = merkle_signature_payload m2 SIGNATURE_FORMAT_CURRENT ->
  (get "merkle_root" m1 = get "merkle_root" m2
   /\ default (JInt 1) (m1 !! "leaf_format") = default (JInt 1) (m2 !! "leaf_format")
   /\ default (JInt 0) (m1 !! "merkle_epoch") = default (JInt 0) (m2 !! "merkle_epoch")
   /\ get "merkle_size" m1 = get "merkle_size" m2
   /\ get "pre_merkle_checkpoint" m1 = get "pre_merkle_checkpoint" m2
   /\ get "audit_report_sha256" m1 = get "audit_report_sha256" m2
   /\ same_or_empty (get "claim_hashes" m1) (get "claim_hashes" m2)
   /\ same_or_empty (get "artifact_digests" m1) (get "artifact_digests" m2))
  \/ has_collision (signature_inputs m1 SIGNATURE_FORMAT_CURRENT
                    ++ signature_inputs m2 SIGNATURE_FORMAT_CURRENT).
Proof.
  set (S := signature_inputs m1 _ ++ _). intros Heq.
  assert (signature_inputs m1 SIGNATURE_FORMAT_CURRENT ⊆ S) as HS1
    by (intros x Hx; apply elem_of_app; by left).
  assert (signature_inputs m2 SIGNATURE_FORMAT_CURRENT ⊆ S) as HS2
    by (intros x Hx; apply elem_of_app; by right).
  apply (signature_payload_doc m1 m2 _ S HS1 HS2) in Heq as [Hd|]; [|by right].
  assert (digest_or_none (get "claim_hashes" m1) = digest_or_none (get "claim_hashes" m2)) as Hc
    by doc_entry Hd "claim_hashes_digest".
  assert (digest_or_none (get "artifact_digests" m1) = digest_or_none (get "artifact_digests" m2)) as Ha
    by doc_entry Hd "artifact_digests_digest".
  apply (digest_or_none_binds _ _ S) in Hc as [Hc|];
    [|by right|apply HS1, claims_hashed|apply HS2, claims_hashed].
  apply (digest_or_none_binds _ _ S) in Ha as [Ha|];
    [|by right|apply HS1, artifacts_hashed|apply HS2, artifacts_hashed].
  left. repeat split; [..|exact Hc|exact Ha].
  - doc_entry Hd "merkle_root".
  - doc_entry Hd "leaf_format".
  - doc_entry Hd "merkle_epoch".
  - doc_entry Hd "merkle_size".
  - doc_entry Hd "pre_merkle_checkpoint".
  - doc_entry Hd "audit_report_sha256".
Qed.

(** *** Signing, then verifying *)

(** The signed payload does not depend on the signature fields themselves. *)
Lemma signed_metadata_doc sig m meta fmt :
  signature_doc (signed_metadata sig m meta) fmt = signature_doc meta fmt.
Proof.
  unfold signature_doc, signed_metadata. rewrite !get_insert_ne //. by rewrite !lookup_insert_ne.
Qed.

Lemma sign_inv layer config rekor attempt layer' :
  sign_if_configured layer (Some config) rekor = Ok (attempt, layer') -> status attempt = SSigned ->
  exists meta backend r, get_obj "metadata" layer = Ok meta
    /\ get_truthy "merkle_root" meta = true
    /\ get_backend_from_config config = Ok backend
    /\ sign backend (merkle_signature_payload meta SIGNATURE_FORMAT_CURRENT)
         (str_or (key_path config) "") rekor = Ok r
    /\ success r = true
    /\ layer' = with_metadata layer (signed_metadata (signature r) (method_name backend) meta).
Proof.
  unfold sign_if_configured. intros Hs Hst.
  destruct (_ && _); [by injection Hs as <- <-|]. destruct (_ && _); [by injection Hs as <- <-|].
  destruct (get_obj "metadata" layer) as [meta|]; [|done]. cbn [mbind result_bind] in Hs.
  destruct (get_truthy "merkle_root" meta) eqn:Hroot; cbn [negb] in Hs; [|by injection Hs as <- <-].
  destruct (get_backend_from_config config) as [backend|]; cbn [mbind result_bind] in Hs;
    [|by injection Hs as <- <-].
  destruct (sign backend _ _ _) as [r|] eqn:Hsig; cbn [mbind result_bind] in Hs;
    [|by injection Hs as <- <-].
  destruct (success r) eqn:Hsucc; cbn [negb] in Hs; [|by injection Hs as <- <-].
  injection Hs as <- <-. exists meta, backend, r. done.
Qed.

(** What cosign does, of the two commands the backend runs: the bundle of
    [sign-blob] is a file with a JSON object, and [verify-blob] with the public key
    of the key pair accepts that object, however it is laid out, for the payload
    that was signed. *)
Definition cosign_sign_command (key : string) (flags : list string) : list string :=
  ["cosign"; "sign-blob"; "--key"; key; "--yes"] ++ flags ++ ["--bundle"; "out.bundle"; "payload.bin"].
Definition cosign_verify_command (pub : string) : list string :=
  ["cosign"; "verify-blob"; "--key"; pub; "--bundle"; "in.bundle"; "--insecure-ignore-tlog"; "payload.bin"].
Record cosign_key_pair (key pub : string) : Prop := {
  cosign_bundle flags payload content :
    cosign_sign (cosign_sign_command key flags) payload = Exited 0 (Some content) ->
    exists text bundle, read_text content = Ok text /\ loads (strip text) = Some (JObj bundle);
  cosign_accepts flags payload content text bundle text' :
    cosign_sign (cosign_sign_command key flags) payload = Exited 0 (Some content) ->
    read_text content = Ok text -> loads (strip text) = Some (JObj bundle) -> loads text' = Some (JObj bundle) ->
    cosign_verify (cosign_verify_command pub) payload (Some text') = Exited 0 tt
}.

(** A signature the backend made of such a key pair, and its check. *)
Lemma cosign_round_trip key pub payload rekor r : cosign_key_pair key pub ->
  cosign_backend_sign payload key rekor = Ok r -> success r = true ->
  cosign_backend_verify payload (signature r) pub = Ok {| valid := true |}.
Proof.
  intros Hpair. unfold cosign_backend_sign.
  assert (exists flags, cosign_sign_args key rekor = cosign_sign_command key flags) as [flags ->] by (by eexists).
  destruct (cosign_sign _ payload) as [|code out] eqn:Hsign; [by intros [= <-]|].
  destruct (Z.eqb_spec code 0) as [->|]; cbn [negb]; [|by intros [= <-]].
  destruct out as [content|]; [|by intros [= <-]].
  destruct (cosign_bundle _ _ Hpair _ _ _ Hsign) as (text & bundle & Htext & Hb). rewrite Htext. cbn [mbind result_bind].
  destruct (str_truthy _); [|by intros [= <-]]. unfold accept_bundle. rewrite Hb.
  intros Hr Hs. inv_bind Hr as [published|] Hp. destruct published; injection Hr as <-; [|done].
  cbn [signature]. unfold cosign_backend_verify.
  assert (startswith (lstrip (dumps true (JObj bundle))) "{" = true) as ->.
  { unfold lstrip, dumps. rewrite chars_of_chars. cbn [dump_chars lstrip_by].
    replace (is_space "{") with false by reflexivity. unfold startswith. cbn. by destruct (of_chars _). }
  by rewrite (cosign_accepts _ _ Hpair _ _ _ _ _ _ Hsign Htext Hb (loads_dumps true (JObj bundle))).
Qed.

(** C32: what was signed verifies.  If cosign accepts, under a public key, the
    bundles it makes with a private key, then a layer that [sign_if_configured]
    signed with that private key - with a new signature, not one kept - passes
    [verify_merkle_signature] under the public key: the backend is chosen from the
    layer's own metadata, the payload is the one that was signed, and the bundle
    survives being checked, laid out again and stored. *)
Theorem sign_then_verify layer config rekor attempt layer' key pub :
  method config = "keypair" -> key_path config = Some key -> cosign_installed = true -> cosign_key_pair key pub ->
  sign_if_configured layer (Some config) rekor = Ok (attempt, layer') ->
  status attempt = SSigned ->
  verify_merkle_signature layer' (Some pub) None = Ok [].
Proof.
  intros Hm Hkey Hav Hpair Hs Hst.
  destruct (sign_inv _ _ _ _ _ Hs Hst) as (meta & b & r & Hmeta & Hroot & Hb & Hsig & Hsucc & ->).
  rewrite Hkey in Hsig. assert (str_or (Some key) "" = key) as Hk by (by destruct key).
  unfold get_backend_from_config in Hb. rewrite Hm /= in Hb. injection Hb as <-.
  unfold verify_merkle_signature. rewrite get_obj_with_metadata. cbn [mbind result_bind].
  set (m := signed_metadata (signature r) (method_name CosignBackend) meta).
  assert (get "merkle_root_signature" m = JStr (signature r)) as ->
    by (unfold m, signed_metadata; rewrite get_insert_ne; [done|];
        rewrite get_insert_ne; [done|]; by rewrite get_insert_eq).
  cbn [truthy]. rewrite (cosign_signature_nonempty _ _ _ _ Hsig Hsucc). cbn [negb].
  assert (get_truthy "merkle_root" m = true) as ->
    by (unfold m, signed_metadata, get_truthy; by rewrite !get_insert_ne).
  assert (choose_signer m None = Ok (Some CosignBackend)) as ->.
  { unfold choose_signer, m, signed_metadata. rewrite get_insert_ne; [done|]. by rewrite get_insert_eq. }
  cbn [mbind result_bind negb available CosignBackend]. rewrite Hav. cbn [negb].
  assert (m !! "merkle_signature_format" = Some (JInt SIGNATURE_FORMAT_CURRENT)) as ->
    by (unfold m, signed_metadata; by rewrite lookup_insert_eq).
  unfold payload_for_format. cbn [default]. rewrite py_eqb_refl. cbn [mbind result_bind].
  unfold merkle_signature_payload, m. rewrite signed_metadata_doc.
  rewrite Hk in Hsig. cbn [sign verify CosignBackend] in Hsig |- *. by rewrite (cosign_round_trip _ _ _ _ _ Hpair Hsig Hsucc).
Qed.
End Integrity.

(** ** Witnesses: a layer with an epoch, on real digests *)

Definition sample_layer : dict := {[
  "events" := JArr [JObj {["event_id" := JStr "E0"]}; JObj {["event_id" := JStr "E1"; "actor" := JStr "a"]};
                    JObj {["event_id" := JStr "E2"]}];
  "metadata" := JObj {["merkle_epoch" := JInt 1; "claim_hashes" := JObj {["F1" := JStr "h1"]}]} ]}.
Definition stamp_of (layer : dict) : dict :=
  match stamp_merkle_metadata layer with Ok (_, l) => l | Err _ => ∅ end.
Definition sample_stamped : dict := Eval vm_compute in stamp_of sample_layer.
Lemma stamp_then_verify_witness :
  verify_merkle_integrity sample_stamped = verify_restated_metadata sample_stamped.
Proof. apply (stamp_then_verify sample_layer false sample_stamped). vm_compute. reflexivity. Defined.

Lemma stamp_frame_witness :
  sample_stamped !! "events" = sample_layer !! "events".
Proof.
  apply (stamp_frame sample_layer false sample_stamped); [vm_compute; reflexivity|done].
Defined.

Lemma stamp_refuses_truncation_witness :
  stamp_merkle_metadata (<["events" := JArr []]> sample_layer) = Err ValueError.
Proof.
  apply (stamp_refuses_truncation (<["events" := JArr []]> sample_layer) []
    {["merkle_epoch" := JInt 1; "claim_hashes" := JObj {["F1" := JStr "h1"]}]} 1);
    [vm_compute; reflexivity|vm_compute; reflexivity|vm_compute; reflexivity|simpl; lia].
Defined.

Lemma stamp_idempotent_witness : stamp_merkle_metadata sample_stamped = Ok (false, sample_stamped).
Proof. apply (stamp_idempotent sample_layer false sample_stamped). vm_compute. reflexivity. Defined.

(** A forgery the format does not see: a [merkle_*] field inside an event. *)
Definition sample_forged : dict :=
  <["events" := JArr [JObj {["event_id" := JStr "E0"]};
                      JObj {["event_id" := JStr "E1"; "actor" := JStr "a"; "merkle_note" := JInt 1]};
                      JObj {["event_id" := JStr "E2"]}]]> sample_stamped.
Lemma tampering_is_detected_witness :
  exists events events' meta epoch, events_of sample_layer = Ok events /\ events_of sample_forged = Ok events'
    /\ get_obj "metadata" sample_stamped = Ok meta /\ py_int (get "merkle_epoch" meta) = Ok epoch
    /\ (0 <= epoch <= Z.of_nat (length events))%Z
    /\ ((take (Z.to_nat epoch) events' = take (Z.to_nat epoch) events
         /\ Forall2 same_bound_fields (drop (Z.to_nat epoch) events') (drop (Z.to_nat epoch) events))
        \/ has_collision
             ([utf8 (dumps true (JArr (take (Z.to_nat epoch) events')));
               utf8 (dumps true (JArr (take (Z.to_nat epoch) events)))]
              ++ root_inputs (canonical_event_bytes <$> event_dicts (drop (Z.to_nat epoch) events'))
              ++ root_inputs (canonical_event_bytes <$> event_dicts (drop (Z.to_nat epoch) events)))).
Proof.
  apply (tampering_is_detected sample_layer false sample_stamped sample_forged);
    vm_compute; reflexivity.
Defined.

Lemma signature_payload_binds_witness :
  get "merkle_root" {["claim_hashes" := JNull]} = get "merkle_root" {["claim_hashes" := JObj ∅]}
  \/ has_collision (signature_inputs {["claim_hashes" := JNull]} SIGNATURE_FORMAT_CURRENT
                    ++ signature_inputs {["claim_hashes" := JObj ∅]} SIGNATURE_FORMAT_CURRENT).
Proof.
  destruct (signature_payload_binds {["claim_hashes" := JNull]} {["claim_hashes" := JObj ∅]})
    as [[Hr _]|Hc]; [vm_compute; reflexivity|by left|by right].
Defined.

Definition sample_key : SigningConfig := {|
  method := "keypair"; key_path := Some "cosign.key"; oidc_issuer := None; oidc_client_id := None;
  expected_identity := None; oidc_token := None; allow_interactive := false;
  ca_url := None; tlog_url := None |}.
(** A cosign with one key pair: it signs with the private key alone, and accepts
    its bundle in any layout under the public one. *)
#[local] Instance sample_world : SigningTools := {|
  environ := ∅; cosign_installed := true;
  cosign_sign := fun args _ =>
    if String.eqb (nth 3 args "") "cosign.key" then Exited 0 (Some (utf8 (dumps true sample_bundle))) else Exited 1 None;
  cosign_verify := fun args _ sig =>
    Exited (if String.eqb (nth 3 args "") "cosign.pub" && bool_decide ((t ← sig; loads t) = Some sample_bundle)
            then 0 else 1)%Z tt;
  sigstore_importable := false; sigstore_token := unit; identity_token := fun _ _ => Err RuntimeError;
  detect_credential := Ok None; issuer_token := fun _ _ => Err RuntimeError;
  sigstore_sign := fun _ _ _ => Err RuntimeError; sigstore_parse_bundle := fun _ => Err ValueError;
  sigstore_verify := fun _ _ _ _ _ => Err RuntimeError
|}.
Lemma sample_sign_content key flags payload content :
  cosign_sign (cosign_sign_command key flags) payload = Exited 0 (Some content) ->
  content = utf8 (dumps true sample_bundle).
Proof.
  cbn [cosign_sign sample_world cosign_sign_command app nth]. generalize (utf8 (dumps true sample_bundle)).
  intros c. destruct (String.eqb _ _); [|done]. by intros [= ->].
Qed.
Lemma sample_bundle_text : read_text (utf8 (dumps true sample_bundle)) = Ok (dumps true sample_bundle)
  /\ loads (strip (dumps true sample_bundle)) = Some sample_bundle.
Proof. split; vm_compute; reflexivity. Qed.
Lemma sample_key_pair : cosign_key_pair "cosign.key" "cosign.pub".
Proof.
  destruct sample_bundle_text as [Hr Hl]. split.
  - intros flags payload content ->%sample_sign_content. exists (dumps true sample_bundle). eexists.
    split; [exact Hr|]. rewrite Hl. reflexivity.
  - intros flags payload content text bundle text' ->%sample_sign_content. rewrite Hr. intros Ht.
    assert (text = dumps true sample_bundle) as -> by congruence. rewrite Hl. intros Hb Htext.
    rewrite -Hb in Htext. cbn [cosign_verify sample_world cosign_verify_command nth].
    rewrite bool_decide_true; [exact Htext|reflexivity].
Qed.
Definition sample_signed : dict := Eval vm_compute in
  match sign_if_configured sample_stamped (Some sample_key) false with
  | Ok (_, l) => l | Err _ => ∅ end.
Lemma sign_then_verify_witness : verify_merkle_signature sample_signed (Some "cosign.pub") None = Ok [].
Proof.
  apply (sign_then_verify sample_stamped sample_key false (sign_attempt SSigned (Some "keypair"))
    sample_signed "cosign.key" "cosign.pub");
    [reflexivity|reflexivity|reflexivity|exact sample_key_pair|vm_compute; reflexivity|reflexivity].
Defined.
