(* ===== verification/Identity.v ===== *)
(** * Finding identity

    [_internal/identity.py]: the fingerprint recipe (canonical repository,
    canonical paths, primary CWE, policy check) and the attribution of an
    existing stamp to the recipe that made it; [handlers/fingerprint_handler.py]
    on top of it. *)

From S2P Require Import Prelude PyStr Json Sha256 Errors.
From stdpp Require Import options.

(** ** Definitions *)

Definition ALGO_VERSION : string := "v3".

(** Case folding of A-Z only. *)
Definition ascii_lower_char (c : ascii) : ascii := if is_upper_az c then shift_char 32 c else c.
Definition ascii_upper_char (c : ascii) : ascii := if is_lower_az c then shift_char (-32) c else c.
Definition ascii_lower (s : string) : string := of_chars (map ascii_lower_char (chars s)).
Definition ascii_upper (s : string) : string := of_chars (map ascii_upper_char (chars s)).

Definition drop_prefix (p s : string) : option string :=
  if startswith s p then Some (of_chars (drop (String.length p) (chars s))) else None.
Definition drop_suffix (p s : string) : option string :=
  if endswith s p then Some (str_take (String.length s - String.length p) s) else None.

(** [re.sub(r"^git@([^:]+):", r"https://\1/", s)]. *)
Definition scp_to_https (s : string) : string :=
  match drop_prefix "git@" s with
  | Some rest =>
      match partition ":"%char rest with
      | Some (host, path) => if str_truthy host then "https://" +:+ host +:+ "/" +:+ path else s
      | None => s
      end
  | None => s
  end.

(** [re.sub(r"^(https?|ssh|git)://", "https://", s)]. *)
Definition scheme_to_https (s : string) : string :=
  match head (omap (fun p => drop_prefix p s) ["https://"; "http://"; "ssh://"; "git://"]) with
  | Some rest => "https://" +:+ rest
  | None => s
  end.

Definition is_slash (c : ascii) : bool := (code c =? 47)%Z.
Definition is_dot_or_slash (c : ascii) : bool := is_slash c || (code c =? 46)%Z.

Definition canon_repo (url : option string) : string :=
  let s := ascii_lower (strip (default "" url)) in
  let s := scheme_to_https (scp_to_https s) in
  let s := default s (drop_suffix ".git" s) in
  of_chars (rstrip_by is_slash (chars s)).

(** [re.sub(r"/{2,}", "/", s)]. *)
Fixpoint collapse_slashes (l : list ascii) : list ascii :=
  match l with
  | c :: (d :: _) as l' => if is_slash c && is_slash d then collapse_slashes l' else c :: collapse_slashes l'
  | _ => l
  end.

(** [(v or "").strip()] of an optional text; anything else truthy has no [strip]. *)
Definition text_or_empty (v : json) : res string :=
  match v with
  | JStr s => Ok s
  | _ => if truthy v then Err AttributeError else Ok ""
  end.

Definition canon_path (p : json) : res string :=
  s ← text_or_empty p;
  let s := map (fun c => if (code c =? 92)%Z then "/"%char else c) (chars (strip s)) in
  Ok (of_chars (rstrip_by is_slash (lstrip_by is_dot_or_slash (collapse_slashes s)))).

Definition cwe_list (finding : dict) : list json :=
  match get "cwe" finding with
  | JStr s => if str_truthy s then [JStr s] else []
  | _ => []
  end.

Definition policy_check (finding : dict) : string :=
  match get "check_id" finding with
  | JStr s => ascii_upper (strip s)
  | _ => ""
  end.

(** [loc.get("path")], for a location that is an object. *)
Definition location_field (key : string) (location : json) : res json :=
  match location with JObj l => Ok (get key l) | _ => Err AttributeError end.

Definition location_anchor (location : json) : res string :=
  path ← location_field "path" location;
  p ← canon_path path;
  if str_truthy p then Ok p
  else resource ← location_field "resource" location; canon_path resource.

Definition CWE_NO_NUMBER : Z := 10 ^ 9.

(** [re.search(r"(\d+)", text)]. *)
Fixpoint first_digits (l : list ascii) : list ascii :=
  match l with
  | c :: l' => if is_digit c then (span_digits l).1 else first_digits l'
  | [] => []
  end.

Definition cwe_text (s : string) : string := strip (ascii_upper (strip s)).

(** [_rank]. *)
Definition cwe_rank (s : string) : res (Z * string) :=
  let text := cwe_text s in
  match first_digits (chars text) with
  | [] => Ok (CWE_NO_NUMBER, text)
  | ds => n ← of_option (int_of_str (of_chars ds)) ValueError; Ok (n, text)
  end.

(** Tuple order. *)
Definition rank_ltb (a b : Z * string) : bool :=
  (a.1 <? b.1)%Z || ((a.1 =? b.1)%Z && String.ltb a.2 b.2).
(** [min(..)] keeps the first of equal ranks; what is returned of the minimum
    is the text of its rank. *)
Definition min_rank (r : Z * string) (rs : list (Z * string)) : Z * string :=
  fold_left (fun best x => if rank_ltb x best then x else best) rs r.

Definition primary_cwe (finding : dict) : res string :=
  cwes ← (if get_truthy "cwes" finding then get_list "cwes" finding else Ok (cwe_list finding));
  texts ← mapR py_str cwes;
  ranks ← mapR cwe_rank (List.filter (fun s => str_truthy (strip s)) texts);
  match ranks with
  | [] => Ok "CWE-0"
  | r :: rs => let text := (min_rank r rs).2 in Ok (if str_truthy text then text else "CWE-0")
  end.

(** [sorted({...})] of texts. *)
Definition sorted_set (l : list string) : list string :=
  map fst (items (list_to_map (map (fun s => (s, tt)) l) : gmap string unit)).

Definition truthy_strings (l : list string) : list string := List.filter str_truthy l.

Section Recipe.
Context `{HashFn}.

Definition sha256_hex (data : string) : string := hexdigest (utf8 data).

Definition paths_v3 (finding : dict) : res (list string) :=
  locs ← get_list "locations" finding;
  anchors ← mapR location_anchor locs;
  Ok (sorted_set (truthy_strings anchors)).

Definition fingerprint_payload (repo_url : option string) (paths : list string) (cwe check : string)
  : string :=
  join "|" ([canon_repo repo_url; join ";" paths; cwe] ++ if str_truthy check then [check] else []).

Definition fingerprint (finding : dict) (repo_url : option string) (strict : bool) : res string :=
  paths ← paths_v3 finding;
  _ ← raise_if (strict && match paths with [] => true | _ => false end) DegenerateIdentity;
  cwe ← primary_cwe finding;
  Ok (sha256_hex (fingerprint_payload repo_url paths cwe (policy_check finding))).

(** ** Attribution *)

Definition canon_paths (finding : dict) : res (list string) :=
  locs ← get_list "locations" finding;
  mapR (fun loc => p ← location_field "path" loc; canon_path p) locs.
Definition paths_v1 (finding : dict) : res (list string) :=
  ps ← canon_paths finding; Ok (sorted_set ps).
Definition paths_v2 (finding : dict) : res (list string) :=
  ps ← canon_paths finding; Ok (sorted_set (truthy_strings ps)).

Definition cwe_current (finding : dict) : res string :=
  cwe ← primary_cwe finding;
  let check := policy_check finding in
  Ok (if str_truthy check then cwe +:+ "|" +:+ check else cwe).

Definition cwe_first (finding : dict) : res string :=
  cwes ← get_list "cwes" finding;
  match List.filter truthy cwes with
  | [] => Ok "CWE-0"
  | JStr s :: _ => Ok (ascii_upper (strip s))
  | _ :: _ => Err AttributeError
  end.

Definition ALGO_LADDER : list (string * ((dict -> res (list string)) * (dict -> res string))) :=
  [("v3", (paths_v3, cwe_current)); ("v2", (paths_v2, cwe_first)); ("v1", (paths_v1, cwe_first))].

Definition recipe_hash (repo_url : option string) (paths : list string) (cwe : string) : string :=
  sha256_hex (join "|" [canon_repo repo_url; join ";" paths; cwe]).

(** The inner loop over the ladder for one candidate. *)
Fixpoint climb_ladder (finding : dict) (stamp : string) (candidate : option string)
    (rungs : list (string * ((dict -> res (list string)) * (dict -> res string)))) : res (option string) :=
  match rungs with
  | [] => Ok None
  | (version, (paths_of, cwe_of)) :: rungs' =>
      paths ← paths_of finding;
      cwe ← cwe_of finding;
      if String.eqb (recipe_hash candidate paths cwe) stamp then Ok (Some version)
      else climb_ladder finding stamp candidate rungs'
  end.

Fixpoint attribute_go (finding : dict) (stamp : string) (seen candidates : list (option string))
  : res (option string) :=
  match candidates with
  | [] => Ok None
  | c :: cs =>
      if bool_decide (c ∈ seen) then attribute_go finding stamp seen cs
      else
        v ← climb_ladder finding stamp c ALGO_LADDER;
        match v with
        | Some version => Ok (Some version)
        | None => attribute_go finding stamp (seen ++ [c]) cs
        end
  end.
Definition attribute (finding : dict) (stamp : string) (repo_candidates : list (option string))
  : res (option string) := attribute_go finding stamp [] repo_candidates.

(** ** The handler *)

(** [ValidationError(f"...")]: [ServiceError.__init__] takes keyword arguments
    only, so the constructor call itself raises. *)
Definition raise_positional_validation_error {A} : res A := Err TypeError.

(** One turn of [compute_fingerprints]: the finding as left behind, and
    whether it was stamped. *)
Definition stamp_finding (repository : option string) (finding : dict) : res (dict * bool) :=
  if negb (get_truthy "locations" finding) || negb (get_truthy "cwes" finding)
  then Ok (finding, false)
  else
    match fingerprint finding repository true with
    | Ok fp => Ok (<["fingerprint" := JStr fp]> finding, true)
    | Err DegenerateIdentity => raise_positional_validation_error
    | Err e => Err e
    end.

Definition compute_fingerprints (findings : list dict) (repository : option string)
  : res (list dict * Z) :=
  rs ← mapR (stamp_finding repository) findings;
  Ok (map fst rs, Z.of_nat (length (List.filter snd rs))).
End Recipe.

(** ** Order independence *)

(** An element function whose only exception is [e]. *)
Definition raises_only {A B} (e : exn) (f : A -> res B) : Prop :=
  forall x e', f x = Err e' -> e' = e.

Lemma mapR_err_iff {A B} e (f : A -> res B) l : raises_only e f ->
  (exists x, x ∈ l /\ f x = Err e) -> mapR f l = Err e.
Proof.
  intros Hf (x & Hx & He). induction l as [|y l IH]; [by apply not_elem_of_nil in Hx|].
  simpl. destruct (f y) as [b|e'] eqn:Hy; simpl; [|by rewrite (Hf _ _ Hy)].
  apply elem_of_cons in Hx as [<-|Hx]; [congruence|]. by rewrite IH.
Qed.

Lemma mapR_err_inv {A B} (f : A -> res B) l e :
  mapR f l = Err e -> exists x, x ∈ l /\ f x = Err e.
Proof.
  induction l as [|y l IH]; simpl; [done|]. destruct (f y) as [b|e'] eqn:Hy; simpl; intros Hm.
  - destruct (mapR f l) eqn:Hl; simpl in Hm; inv_ok.
    destruct IH as (x & Hx & He); [done|]. exists x. split; [by right|done].
  - inv_ok. exists y. split; [by left|done].
Qed.

Lemma mapR_elem_of {A B} (f : A -> res B) l ys b :
  mapR f l = Ok ys -> b ∈ ys <-> exists x, x ∈ l /\ f x = Ok b.
Proof.
  intros Hm%mapR_ok_Forall2. induction Hm as [|x y l ys Hx _ IH].
  - split; [by intros ?%not_elem_of_nil|]. by intros (? & ?%not_elem_of_nil & _).
  - rewrite elem_of_cons IH. split.
    + intros [->|(x' & Hx' & Hf)]; [exists x; split; [by left|done]|exists x'; split; [by right|done]].
    + intros (x' & [->|Hx']%elem_of_cons & Hf); [left; congruence|right; by exists x'].
Qed.

(** Two lists with the same elements map to results with the same elements. *)
Lemma mapR_same_set {A B} e (f : A -> res B) l1 l2 : raises_only e f ->
  (forall x, x ∈ l1 <-> x ∈ l2) ->
  (mapR f l1 = Err e /\ mapR f l2 = Err e)
  \/ exists ys1 ys2, mapR f l1 = Ok ys1 /\ mapR f l2 = Ok ys2 /\ forall y, y ∈ ys1 <-> y ∈ ys2.
Proof.
  intros Hf Hl.
  destruct (mapR f l1) as [ys1|e1] eqn:H1, (mapR f l2) as [ys2|e2] eqn:H2.
  - right. exists ys1, ys2. split_and!; [done..|]. intros y.
    rewrite (mapR_elem_of f l1 ys1 y H1) (mapR_elem_of f l2 ys2 y H2). by setoid_rewrite Hl.
  - destruct (mapR_err_inv f l2 e2 H2) as (x & Hx%Hl & He). pose proof (Hf _ _ He) as ->.
    rewrite (mapR_err_iff e f l1) // in H1. by exists x.
  - destruct (mapR_err_inv f l1 e1 H1) as (x & Hx%Hl & He). pose proof (Hf _ _ He) as ->.
    rewrite (mapR_err_iff e f l2) // in H2. by exists x.
  - left. destruct (mapR_err_inv f l1 e1 H1) as (x & _ & ->%Hf).
    by destruct (mapR_err_inv f l2 e2 H2) as (y & _ & ->%Hf).
Qed.

Lemma sorted_set_ext l1 l2 : (forall s, s ∈ l1 <-> s ∈ l2) -> sorted_set l1 = sorted_set l2.
Proof.
  intros Hl. unfold sorted_set. do 2 f_equal. apply map_eq. intros s.
  assert (forall l s u, (list_to_map (map (fun s => (s, tt)) l) : gmap string unit) !! s = Some u
    <-> s ∈ l) as Hin.
  { clear. intros l s []. induction l as [|a l IH]; simpl.
    - rewrite lookup_empty. split; [done|by intros ?%not_elem_of_nil].
    - rewrite lookup_insert_Some IH elem_of_cons. destruct (decide (a = s)); naive_solver. }
  apply option_eq. intros u. by rewrite !Hin.
Qed.

(** Ranks are totally ordered. *)
Lemma string_ltb_le s t : String.ltb t s = false <-> String.le s t.
Proof.
  unfold String.ltb, String.le, String.leb, is_true. rewrite (String.compare_antisym t s).
  by destruct (String.compare s t).
Qed.
Definition rank_le (a b : Z * string) : Prop := rank_ltb b a = false.
Lemma rank_le_spec a b : rank_le a b <-> (a.1 < b.1)%Z \/ a.1 = b.1 /\ String.le a.2 b.2.
Proof.
  destruct a as [n s], b as [m t]. unfold rank_le, rank_ltb. simpl. rewrite orb_false_iff andb_false_iff.
  rewrite string_ltb_le Z.ltb_ge Z.eqb_neq. split.
  - intros [? [?|?]]; [lia|]. destruct (decide (n = m)); [by right|lia].
  - intros [?|[-> ?]]; [lia|]. split; [lia|by right].
Qed.
Lemma rank_le_refl a : rank_le a a.
Proof. apply rank_le_spec. by right. Qed.
Lemma rank_le_trans a b c : rank_le a b -> rank_le b c -> rank_le a c.
Proof.
  rewrite !rank_le_spec. intros [?|[-> ?]] [?|[? ?]]; [left; lia..|]. right. split; [done|etrans; eassumption].
Qed.
Lemma rank_le_total a b : rank_le a b \/ rank_le b a.
Proof.
  rewrite !rank_le_spec. destruct (Z.lt_trichotomy a.1 b.1) as [?|[->|?]]; [by left; left| |by right; left].
  destruct (total String.le a.2 b.2); [left|right]; by right.
Qed.
Lemma rank_le_antisym a b : rank_le a b -> rank_le b a -> a = b.
Proof.
  destruct a as [n s], b as [m t]. rewrite !rank_le_spec. simpl.
  intros [?|[-> ?]] [?|[? ?]]; try lia. f_equal. by apply (anti_symm String.le).
Qed.

(** The fold computes the least rank. *)
Lemma min_rank_spec r rs :
  min_rank r rs ∈ r :: rs /\ forall x, x ∈ r :: rs -> rank_le (min_rank r rs) x.
Proof.
  unfold min_rank. revert r. induction rs as [|y rs IH]; intros r; cbn [fold_left].
  - split; [by left|]. intros x [->|[]%not_elem_of_nil]%elem_of_cons. apply rank_le_refl.
  - destruct (IH (if rank_ltb y r then y else r)) as [Hin Hle]. set (m := fold_left _ _ _) in *.
    assert (rank_le m y /\ rank_le m r) as [Hy Hr].
    { assert (rank_le m (if rank_ltb y r then y else r)) as Hb by (apply Hle; by left).
      destruct (rank_ltb y r) eqn:E; split; try done; eapply rank_le_trans; try exact Hb; try done.
      destruct (rank_le_total y r) as [|Hn]; [done|]. unfold rank_le in Hn. congruence. }
    split.
    + apply elem_of_cons in Hin as [->|Hin]; [destruct (rank_ltb y r); set_solver|set_solver].
    + intros x [->|[->|Hx]%elem_of_cons]%elem_of_cons; [done..|]. apply Hle. by right.
Qed.

Lemma min_rank_same_set r1 rs1 r2 rs2 : (forall x, x ∈ r1 :: rs1 <-> x ∈ r2 :: rs2) ->
  min_rank r1 rs1 = min_rank r2 rs2.
Proof.
  intros Hs. destruct (min_rank_spec r1 rs1) as [Hi1 Hl1], (min_rank_spec r2 rs2) as [Hi2 Hl2].
  apply rank_le_antisym; [apply Hl1|apply Hl2]; by apply Hs.
Qed.

Lemma raises_anchor : raises_only AttributeError location_anchor.
Proof.
  assert (forall v, raises_only AttributeError (fun _ : unit => canon_path v)) as Hc.
  { intros v [] e. unfold canon_path, text_or_empty. destruct v; simpl; try (by intros [= <-]); try done;
      repeat case_match; simpl; congruence. }
  intros loc e. unfold location_anchor, location_field. destruct loc; simpl; try congruence.
  destruct (canon_path (get "path" m)) as [p|] eqn:Hp; simpl; [|intros [= <-]; exact (Hc _ tt _ Hp)].
  destruct (str_truthy p); [done|]. simpl. intros He. exact (Hc _ tt _ He).
Qed.
Lemma raises_py_str : raises_only TypeError py_str.
Proof. intros v e. destruct v; simpl; congruence. Qed.
Lemma raises_cwe_rank : raises_only ValueError cwe_rank.
Proof.
  intros s e. unfold cwe_rank. destruct (first_digits _); [done|].
  destruct (int_of_str _); simpl; congruence.
Qed.

Section IdentityProperties.
Context `{HashFn}.

Lemma paths_same_set (f1 f2 : dict) l1 l2 :
  get "locations" f1 = JArr l1 -> get "locations" f2 = JArr l2 -> (forall x, x ∈ l1 <-> x ∈ l2) ->
  paths_v3 f1 = paths_v3 f2.
Proof.
  intros H1 H2 Hl. unfold paths_v3, get_list. rewrite H1 H2. cbn [mbind result_bind].
  destruct (mapR_same_set _ location_anchor l1 l2 raises_anchor Hl)
    as [[-> ->]|(ys1 & ys2 & -> & -> & Hy)]; [done|]. cbn [mbind result_bind]. f_equal.
  apply sorted_set_ext. intros s. unfold truthy_strings.
  rewrite !list_elem_of_In !filter_In -!list_elem_of_In. by rewrite Hy.
Qed.

Lemma primary_cwe_same_set (f1 f2 : dict) c1 c2 :
  get "cwes" f1 = JArr c1 -> get "cwes" f2 = JArr c2 -> get "cwe" f1 = get "cwe" f2 ->
  (forall x, x ∈ c1 <-> x ∈ c2) -> primary_cwe f1 = primary_cwe f2.
Proof.
  intros H1 H2 Hsingle Hc. unfold primary_cwe, get_truthy, get_list, cwe_list. rewrite H1 H2 Hsingle.
  assert (truthy (JArr c1) = truthy (JArr c2)) as ->.
  { destruct c1 as [|x c1], c2 as [|y c2]; try done; simpl.
    - exfalso. eapply not_elem_of_nil, (proj2 (Hc y)). by left.
    - exfalso. eapply not_elem_of_nil, (proj1 (Hc x)). by left. }
  destruct (truthy (JArr c2)); [|done]. cbn [mbind result_bind].
  destruct (mapR_same_set _ py_str c1 c2 raises_py_str Hc)
    as [[-> ->]|(t1 & t2 & -> & -> & Ht)]; [done|]. cbn [mbind result_bind].
  set (g := fun s => str_truthy (strip s)).
  destruct (mapR_same_set _ cwe_rank (List.filter g t1) (List.filter g t2) raises_cwe_rank)
    as [[-> ->]|(r1 & r2 & -> & -> & Hr)]; [|done|].
  { intros s. rewrite !list_elem_of_In !filter_In -!list_elem_of_In. by rewrite Ht. }
  cbn [mbind result_bind]. destruct r1 as [|r1 rs1], r2 as [|r2 rs2]; [done| | |].
  - exfalso. eapply not_elem_of_nil, (proj2 (Hr r2)). by left.
  - exfalso. eapply not_elem_of_nil, (proj1 (Hr r1)). by left.
  - by rewrite (min_rank_same_set r1 rs1 r2 rs2 Hr).
Qed.

(** A fingerprint does not depend on the order or the repetition of a
    finding's locations and CWEs.  Two findings that list the same locations
    and the same CWEs, in any order and any number of times, and agree on the
    policy check get the same fingerprint - or fail with the same exception. *)
Theorem fingerprint_order_independent (f1 f2 : dict) l1 l2 c1 c2 repo strict :
  get "locations" f1 = JArr l1 -> get "locations" f2 = JArr l2 -> (forall x, x ∈ l1 <-> x ∈ l2) ->
  get "cwes" f1 = JArr c1 -> get "cwes" f2 = JArr c2 -> (forall x, x ∈ c1 <-> x ∈ c2) ->
  get "cwe" f1 = get "cwe" f2 -> get "check_id" f1 = get "check_id" f2 ->
  fingerprint f1 repo strict = fingerprint f2 repo strict.
Proof.
  intros Hl1 Hl2 Hl Hc1 Hc2 Hc Hs Hk. unfold fingerprint, policy_check.
  rewrite (paths_same_set f1 f2 l1 l2) // (primary_cwe_same_set f1 f2 c1 c2) //. by rewrite Hk.
Qed.

Lemma recipe_hash_current finding repo paths cwe :
  recipe_hash repo paths (if str_truthy (policy_check finding)
                          then cwe +:+ "|" +:+ policy_check finding else cwe)
  = sha256_hex (fingerprint_payload repo paths cwe (policy_check finding)).
Proof.
  unfold recipe_hash, fingerprint_payload. by destruct (str_truthy (policy_check finding)).
Qed.

(** Every fingerprint the current recipe mints is attributed to it: asked
    about a stamp that [fingerprint] returned, with the repository it was made
    for first among the candidates, [attribute] answers the current version. *)
Theorem attribute_current finding repo strict stamp rest :
  fingerprint finding repo strict = Ok stamp ->
  attribute finding stamp (repo :: rest) = Ok (Some ALGO_VERSION).
Proof.
  unfold fingerprint. intros Hf. destruct (paths_v3 finding) as [paths|] eqn:Hp; [|done].
  cbn [mbind result_bind] in Hf. destruct (raise_if _ _); [|done]. cbn [mbind result_bind] in Hf.
  destruct (primary_cwe finding) as [cwe|] eqn:Hc; [|done]. cbn [mbind result_bind] in Hf.
  injection Hf as <-. unfold attribute. cbn [attribute_go].
  rewrite bool_decide_false; [apply not_elem_of_nil|].
  unfold ALGO_LADDER. cbn [climb_ladder].
  rewrite Hp. cbn [mbind result_bind]. unfold cwe_current. rewrite Hc. cbn [mbind result_bind].
  cbv zeta. by rewrite recipe_hash_current String.eqb_refl.
Qed.
End IdentityProperties.

(** ** The degenerate case *)

Section Degenerate.
Context `{HashFn}.

(** Strict mode narrows the recipe's domain and nothing else: it returns
    what the lenient recipe returns, and refuses exactly the findings with no
    usable location. *)
Theorem strict_narrows_domain finding repo paths :
  paths_v3 finding = Ok paths ->
  (paths = [] -> fingerprint finding repo true = Err DegenerateIdentity)
  /\ (paths <> [] -> fingerprint finding repo true = fingerprint finding repo false).
Proof.
  intros Hp. unfold fingerprint. rewrite Hp. cbn [mbind result_bind].
  split; [by intros ->|]. by destruct paths.
Qed.

(** The error path of [compute_fingerprints] raises a [TypeError] - a server
    error - where it means to raise a [ValidationError]: the constructor does
    not take positional arguments. *)
Theorem degenerate_finding_is_server_error finding repo findings :
  get_truthy "locations" finding = true -> get_truthy "cwes" finding = true ->
  fingerprint finding repo true = Err DegenerateIdentity ->
  compute_fingerprints (finding :: findings) repo = Err TypeError
  /\ status_code TypeError = 500%Z /\ status_code (Service ValidationError) = 422%Z.
Proof.
  intros Hl Hc Hf. split; [|done]. unfold compute_fingerprints. cbn [mapR].
  assert (stamp_finding repo finding = Err TypeError) as Hs
    by (unfold stamp_finding; by rewrite Hl Hc Hf).
  by rewrite Hs.
Qed.
End Degenerate.

(** A trailing slash hides the [.git] suffix from [canon_repo]: the two
    spellings of one repository get different identities. *)
Example canon_repo_git_slash :
  canon_repo (Some "https://github.com/org/repo.git/") = "https://github.com/org/repo.git"
  /\ canon_repo (Some "https://github.com/org/repo.git") = "https://github.com/org/repo".
Proof. vm_compute. done. Qed.
Example canon_repo_spellings :
  canon_repo (Some "git@GitHub.com:org/Repo.git") = "https://github.com/org/repo"
  /\ canon_repo (Some " ssh://github.com/org/repo/ ") = "https://github.com/org/repo"
  /\ canon_repo None = "".
Proof. vm_compute. done. Qed.
Example canon_path_spellings :
  canon_path (JStr "./src\\a//b.go/") = Ok "src/a/b.go" /\ canon_path (JStr "/./") = Ok ""
  /\ canon_path (JInt 3) = Err AttributeError.
Proof. vm_compute. done. Qed.
Example primary_cwe_is_numeric :
  primary_cwe {["cwes" := JArr [JStr "CWE-1104"; JStr " cwe-937"; JStr "NOINFO"]]} = Ok "CWE-937".
Proof. vm_compute. done. Qed.

(** ** Witnesses *)

Definition sample_finding (locations cwes : list json) : dict :=
  {["id" := JStr "F1"; "locations" := JArr locations; "cwes" := JArr cwes]}.
Definition loc (p : string) : json := JObj {["path" := JStr p]}.

Lemma fingerprint_order_independent_witness :
  fingerprint (sample_finding [loc "a.go"; loc "b.go"] [JStr "CWE-79"; JStr "CWE-20"]) (Some "h/r") true
  = fingerprint (sample_finding [loc "b.go"; loc "a.go"; loc "a.go"] [JStr "CWE-20"; JStr "CWE-79"])
      (Some "h/r") true.
Proof.
  apply (fingerprint_order_independent _ _ [loc "a.go"; loc "b.go"] [loc "b.go"; loc "a.go"; loc "a.go"]
    [JStr "CWE-79"; JStr "CWE-20"] [JStr "CWE-20"; JStr "CWE-79"]);
    try (vm_compute; reflexivity); intros x; rewrite !elem_of_cons; tauto.
Defined.

Lemma attribute_current_witness :
  attribute (sample_finding [loc "a.go"] [JStr "CWE-79"])
    "8559b0b6b3efc23d79bb0205637121b4fe3ab02d99b8e7cf4dec551b4fed3901" [Some "h/r"; None] = Ok (Some "v3").
Proof.
  apply (attribute_current (sample_finding [loc "a.go"] [JStr "CWE-79"]) (Some "h/r") true).
  vm_compute. reflexivity.
Defined.

Lemma strict_narrows_domain_witness :
  fingerprint (sample_finding [loc "./"] [JStr "CWE-79"]) (Some "h/r") true = Err DegenerateIdentity.
Proof.
  apply (strict_narrows_domain (sample_finding [loc "./"] [JStr "CWE-79"]) (Some "h/r") []);
    vm_compute; reflexivity.
Defined.

Lemma degenerate_finding_is_server_error_witness :
  compute_fingerprints [sample_finding [loc "."] [JStr "CWE-79"]] (Some "h/r") = Err TypeError.
Proof.
  apply (degenerate_finding_is_server_error (sample_finding [loc "."] [JStr "CWE-79"]) (Some "h/r") []);
    vm_compute; reflexivity.
Defined.
