(* ===== verification/Contracts.v ===== *)
(** * The contract models

    [traust_contracts.v1.models.layer] is a separate package.  The records below
    hold the fields the ledger reads and writes; how a model is validated from a
    document and written back to one is the package's, a field of [Contracts].
    [ContractLaws] states the documented behaviour the ledger relies on: a
    written event carries the fields it was built with. *)

From S2P Require Import Prelude PyStr Json Errors.
From stdpp Require Import options.

Record LayerActor := {
  kind : string;
  identity : option string;
  ldap_verified : option bool;
  identity_verified : option bool;
  identity_provider : option string;
  identity_issuer : option string;
  identity_subject : option string;
  employee_status : option string;
  display_name : option string
}.

Record LayerSource := { source_type : string; source_ref : string; actor : LayerActor }.

Record LayerDisposition := {
  validity : option string;
  resolution : option string;
  disposition_severity : option string
}.
Definition no_disposition : LayerDisposition :=
  {| validity := None; resolution := None; disposition_severity := None |}.

Record LayerEvent := {
  event_id : string;
  finding_ref : string;
  recorded_at : string;
  occurred_at : option string;
  source : LayerSource;
  disposition : LayerDisposition;
  rationale : option string;
  fingerprint_of : option string;
  evidence_grade : option string;
  auto_accept_tier : json;
  restatement : option dict
}.

#[global] Instance layer_actor_eq_dec : EqDecision LayerActor.
Proof. solve_decision. Defined.
#[global] Instance layer_source_eq_dec : EqDecision LayerSource.
Proof. solve_decision. Defined.
#[global] Instance layer_disposition_eq_dec : EqDecision LayerDisposition.
Proof. solve_decision. Defined.
#[global] Instance layer_event_eq_dec : EqDecision LayerEvent.
Proof. solve_decision. Defined.

Class Contracts := {
  (** [LayerActor.to_dict], [LayerEvent.to_dict] *)
  actor_to_dict : LayerActor -> dict;
  event_to_dict : LayerEvent -> dict;
  (** [LayerEvent.model_validate]; [None] is a pydantic [ValidationError], a
      subclass of [ValueError] *)
  event_model_validate : dict -> option LayerEvent;
  (** [LayerRestatement.from_dict] *)
  restatement_from_dict : dict -> res dict;
  (** the layer schema of the contracts package: [validate_layer] accepts *)
  schema_accepts : dict -> bool
}.

(** The shape every schema-valid layer has: metadata is an object, events is an
    array of objects with a non-empty text id each, needs_review is an array. *)
Definition event_shape (e : json) : bool :=
  match e with
  | JObj d => match get "event_id" d with JStr s => str_truthy s | _ => false end
  | _ => false
  end.
Definition layer_shape (layer : dict) : bool :=
  match get "metadata" layer, get "events" layer, get "needs_review" layer with
  | JObj _, JArr es, JArr _ => forallb event_shape es
  | _, _, _ => false
  end.

(** What a written event holds of the event it was built from, and what the
    layer schema requires. *)
Class ContractLaws `{Contracts} := {
  to_dict_event_id e : event_to_dict e !! "event_id" = Some (JStr (event_id e));
  to_dict_finding_ref e : event_to_dict e !! "finding_ref" = Some (JStr (finding_ref e));
  to_dict_source e : exists s, event_to_dict e !! "source" = Some (JObj s)
    /\ s !! "type" = Some (JStr (source_type (source e)))
    /\ s !! "ref" = Some (JStr (source_ref (source e)))
    /\ s !! "actor" = Some (JObj (actor_to_dict (actor (source e))));
  to_dict_disposition e : exists d, event_to_dict e !! "disposition" = Some (JObj d)
    /\ get "validity" d = from_option JStr JNull (validity (disposition e))
    /\ get "resolution" d = from_option JStr JNull (resolution (disposition e))
    /\ (disposition e = no_disposition -> d = ∅);
  to_dict_restatement e :
    get "restatement" (event_to_dict e) = from_option JObj JNull (restatement e);
  schema_shape layer : schema_accepts layer = true -> layer_shape layer = true;
  actor_dict_kind a : actor_to_dict a !! "kind" = Some (JStr (kind a));
  actor_dict_identity a : get "identity" (actor_to_dict a) = from_option JStr JNull (identity a);
  actor_dict_verified a :
    get "identity_verified" (actor_to_dict a) = from_option JBool JNull (identity_verified a);
  actor_dict_ldap a :
    get "ldap_verified" (actor_to_dict a) = from_option JBool JNull (ldap_verified a)
}.

(** ** A concrete model, which leaves unset fields out *)

Section Sample.
Definition set_opt (k : string) (v : option json) (d : dict) : dict :=
  match v with Some x => <[k := x]> d | None => d end.
Definition sample_actor_dict (a : LayerActor) : dict :=
  <["kind" := JStr (kind a)]>
    (set_opt "identity" (JStr <$> identity a)
      (set_opt "identity_verified" (JBool <$> identity_verified a)
        (set_opt "ldap_verified" (JBool <$> ldap_verified a) ∅))).
Definition sample_disposition_dict (d : LayerDisposition) : dict :=
  set_opt "validity" (JStr <$> validity d)
    (set_opt "resolution" (JStr <$> resolution d)
      (set_opt "severity" (JStr <$> disposition_severity d) ∅)).
Definition sample_event_dict (e : LayerEvent) : dict :=
  <["event_id" := JStr (event_id e)]> (<["finding_ref" := JStr (finding_ref e)]>
    (<["recorded_at" := JStr (recorded_at e)]>
      (<["source" := JObj (<["type" := JStr (source_type (source e))]>
         (<["ref" := JStr (source_ref (source e))]>
           {["actor" := JObj (sample_actor_dict (actor (source e)))]}))]>
        (<["disposition" := JObj (sample_disposition_dict (disposition e))]>
          (set_opt "rationale" (JStr <$> rationale e)
            (set_opt "fingerprint" (JStr <$> fingerprint_of e)
              (set_opt "restatement" (JObj <$> restatement e) ∅))))))).

Definition opt_str (v : json) : option string := as_str v.
Definition opt_bool (v : json) : option bool := match v with JBool b => Some b | _ => None end.
Definition sample_actor_of (d : dict) : option LayerActor :=
  k ← opt_str (get "kind" d);
  Some {| kind := k; identity := opt_str (get "identity" d);
          ldap_verified := opt_bool (get "ldap_verified" d);
          identity_verified := opt_bool (get "identity_verified" d);
          identity_provider := None; identity_issuer := None; identity_subject := None;
          employee_status := None; display_name := None |}.
Definition sample_validate (d : dict) : option LayerEvent :=
  eid ← opt_str (get "event_id" d);
  ref ← opt_str (get "finding_ref" d);
  at_ ← opt_str (get "recorded_at" d);
  s ← as_dict (get "source" d);
  ty ← opt_str (get "type" s);
  sref ← opt_str (get "ref" s);
  ad ← as_dict (get "actor" s);
  a ← sample_actor_of ad;
  disp ← as_dict (get "disposition" d);
  Some {| event_id := eid; finding_ref := ref; recorded_at := at_; occurred_at := None;
          source := {| source_type := ty; source_ref := sref; actor := a |};
          disposition := {| validity := opt_str (get "validity" disp);
                            resolution := opt_str (get "resolution" disp);
                            disposition_severity := opt_str (get "severity" disp) |};
          rationale := opt_str (get "rationale" d);
          fingerprint_of := opt_str (get "fingerprint" d);
          evidence_grade := opt_str (get "evidence_grade" d);
          auto_accept_tier := get "auto_accept_tier" d;
          restatement := as_dict (get "restatement" d) |}.

#[global] Instance sample_contracts : Contracts := {|
  actor_to_dict := sample_actor_dict;
  event_to_dict := sample_event_dict;
  event_model_validate := sample_validate;
  restatement_from_dict := fun b => Ok b;
  schema_accepts := layer_shape
|}.

Lemma lookup_set_opt_ne k k' v d : k' <> k -> set_opt k' v d !! k = d !! k.
Proof. intros Hk. destruct v; simpl; [|done]. by rewrite lookup_insert_ne. Qed.
Lemma lookup_set_opt_eq k v d : d !! k = None -> set_opt k v d !! k = v.
Proof. intros Hd. destruct v; simpl; [by rewrite lookup_insert_eq|done]. Qed.

(** Walks to the insertion of the key that is read. *)
Ltac read_key :=
  unfold get;
  repeat first [rewrite lookup_insert_eq | rewrite lookup_insert_ne; [done|]
               | rewrite lookup_set_opt_ne; [done|] | rewrite lookup_set_opt_eq
               | rewrite lookup_singleton_eq | rewrite lookup_empty]; try done.

#[global] Instance sample_contract_laws : ContractLaws.
Proof.
  split.
  - intros e. simpl. unfold sample_event_dict. read_key.
  - intros e. simpl. unfold sample_event_dict. read_key.
  - intros e. simpl. eexists. split; [unfold sample_event_dict; read_key|].
    split; [read_key|]. split; [read_key|]. read_key.
  - intros e. simpl. exists (sample_disposition_dict (disposition e)).
    split; [unfold sample_event_dict; read_key|].
    unfold sample_disposition_dict.
    split; [read_key; by destruct (validity _)|].
    split; [read_key; by destruct (resolution _)|]. by intros ->.
  - intros e. simpl. unfold sample_event_dict. read_key. by destruct (restatement e).
  - done.
  - intros a. simpl. unfold sample_actor_dict. read_key.
  - intros a. simpl. unfold sample_actor_dict. read_key. by destruct (identity a).
  - intros a. simpl. unfold sample_actor_dict. read_key. by destruct (identity_verified a).
  - intros a. simpl. unfold sample_actor_dict. read_key. by destruct (ldap_verified a).
Qed.
End Sample.
