(* ===== verification/Time.v ===== *)
(** * Timestamps

    [datetime.fromisoformat] and the comparison of datetimes.  A datetime is an
    instant in microseconds - UTC when it carries an offset, local otherwise -
    and comparing one that has an offset with one that has not raises
    [TypeError].  The parser reads the extended ISO 8601 forms (which include
    RFC 3339); the basic and week-date forms of the standard library are outside
    the model, as is the overflow of a conversion near the years 1 and 9999. *)

From S2P Require Import Prelude PyStr Json Errors.
From stdpp Require Import options.

Record datetime := DT { micros : Z; aware : bool }.
#[global] Instance datetime_eq_dec : EqDecision datetime.
Proof. solve_decision. Defined.

(** ** Parsing *)

(** Exactly [n] digits. *)
Fixpoint take_digits (n : nat) (acc : Z) (l : list ascii) : option (Z * list ascii) :=
  match n with
  | O => Some (acc, l)
  | S n' =>
      match l with
      | c :: l' => if is_digit c then take_digits n' (acc * 10 + (code c - 48))%Z l' else None
      | [] => None
      end
  end.

Definition expect (n : Z) (l : list ascii) : option (list ascii) :=
  match l with c :: l' => if (code c =? n)%Z then Some l' else None | [] => None end.

Definition is_leap (y : Z) : bool :=
  (y mod 4 =? 0)%Z && (negb (y mod 100 =? 0)%Z || (y mod 400 =? 0)%Z).
Definition days_in_month (y m : Z) : Z :=
  if (m =? 2)%Z then if is_leap y then 29%Z else 28%Z
  else if (m =? 4)%Z || (m =? 6)%Z || (m =? 9)%Z || (m =? 11)%Z then 30%Z else 31%Z.
(** Days before the first of a month, and before the first of a year. *)
Definition days_before_month (y m : Z) : Z :=
  fold_left (fun acc i => acc + days_in_month y (Z.of_nat i))%Z (seq 1 (Z.to_nat m - 1)) 0%Z.
Definition days_before_year (y : Z) : Z :=
  let p := (y - 1)%Z in (p * 365 + p / 4 - p / 100 + p / 400)%Z.

Definition parse_date (l : list ascii) : option (Z * list ascii) :=
  '(y, l) ← take_digits 4 0 l; l ← expect 45 l;
  '(m, l) ← take_digits 2 0 l; l ← expect 45 l;
  '(d, l) ← take_digits 2 0 l;
  if (1 <=? y)%Z && (1 <=? m)%Z && (m <=? 12)%Z && (1 <=? d)%Z && (d <=? days_in_month y m)%Z
  then Some ((days_before_year y + days_before_month y m + (d - 1))%Z, l) else None.

(** A fraction of a second: at least one digit, the sixth and later ones cut. *)
Definition parse_fraction (l : list ascii) : option (Z * list ascii) :=
  let '(ds, r) := span_digits l in
  match ds with
  | [] => None
  | _ => Some (digits_value (take 6 (ds ++ repeat "0"%char 6)), r)
  end.

(** [HH[:MM[:SS[.f+]]]] in microseconds, within the given hour bound. *)
Definition parse_clock (l : list ascii) : option (Z * list ascii) :=
  '(h, l) ← take_digits 2 0 l;
  let '(ms, l) :=
    match expect 58 l with
    | None => (Some (0, 0, 0)%Z, l)
    | Some l1 =>
        match take_digits 2 0 l1 with
        | None => (None, l)
        | Some (mi, l2) =>
            match expect 58 l2 with
            | None => (Some (mi, 0, 0)%Z, l2)
            | Some l3 =>
                match take_digits 2 0 l3 with
                | None => (None, l)
                | Some (s, l4) =>
                    match (match expect 46 l4 with Some r => Some r | None => expect 44 l4 end) with
                    | None => (Some (mi, s, 0)%Z, l4)
                    | Some l5 =>
                        match parse_fraction l5 with
                        | None => (None, l)
                        | Some (f, l6) => (Some (mi, s, f), l6)
                        end
                    end
                end
            end
        end
    end in
  '(mi, s, f) ← ms;
  if (h <? 24)%Z && (mi <? 60)%Z && (s <? 60)%Z
  then Some (((h * 3600 + mi * 60 + s) * 1000000 + f)%Z, l) else None.

(** The offset: [Z], or a sign and a clock. *)
Definition parse_offset (l : list ascii) : option (option Z) :=
  match l with
  | [] => Some None
  | c :: l' =>
      if (code c =? 90)%Z then match l' with [] => Some (Some 0%Z) | _ => None end
      else if (code c =? 43)%Z || (code c =? 45)%Z then
        '(o, r) ← parse_clock l';
        match r with
        | [] => Some (Some (if (code c =? 45)%Z then - o else o)%Z)
        | _ => None
        end
      else None
  end.

Definition fromisoformat (s : string) : option datetime :=
  '(days, l) ← parse_date (chars s);
  match l with
  | [] => Some (DT (days * 86400000000)%Z false)
  | _ :: l' =>
      '(t, r) ← parse_clock l';
      off ← parse_offset r;
      let local := (days * 86400000000 + t)%Z in
      Some (match off with Some o => DT (local - o)%Z true | None => DT local false end)
  end.

(** ** Comparison *)

(** [a <= b]. *)
Definition dt_leb (a b : datetime) : res bool :=
  if Bool.eqb (aware a) (aware b) then Ok (micros a <=? micros b)%Z else Err TypeError.

(** [sorted(xs, key=...)] of pairs with their keys: stable; it compares some
    pair of differently aware keys when there is one. *)
Section Sort.
Context {A : Type}.
Fixpoint insert_by (x : datetime * A) (l : list (datetime * A)) : list (datetime * A) :=
  match l with
  | [] => [x]
  | y :: l' => if (micros x.1 <? micros y.1)%Z then x :: l else y :: insert_by x l'
  end.
Definition sort_keyed (l : list (datetime * A)) : list (datetime * A) :=
  fold_left (fun acc x => insert_by x acc) l [].
Definition same_awareness (l : list (datetime * A)) : bool :=
  forallb (fun x => aware x.1) l || forallb (fun x => negb (aware x.1)) l.
Definition sorted_by_time (l : list (datetime * A)) : res (list (datetime * A)) :=
  if same_awareness l then Ok (sort_keyed l) else Err TypeError.
End Sort.

Example iso_utc : fromisoformat "1970-01-02T00:00:00Z" = Some (DT 62135683200000000 true).
Proof. vm_compute. reflexivity. Qed.
Example iso_offset :
  fromisoformat "2026-09-02T10:30:00.25+02:00" = fromisoformat "2026-09-02 08:30:00,250000Z".
Proof. vm_compute. reflexivity. Qed.
Example iso_naive : aware <$> fromisoformat "2026-09-02" = Some false.
Proof. vm_compute. reflexivity. Qed.
Example iso_bad : fromisoformat "2026-02-29T00:00:00Z" = None.
Proof. vm_compute. reflexivity. Qed.

(** ** Lemmas *)

Section SortLemmas.
Context {A : Type}.
Definition time_le (x y : datetime * A) : Prop := (micros x.1 <= micros y.1)%Z.

Lemma insert_by_perm (x : datetime * A) l : insert_by x l ≡ₚ x :: l.
Proof.
  induction l as [|y l IH]; simpl; [done|]. destruct (_ <? _)%Z; [done|].
  rewrite IH. apply Permutation_swap.
Qed.
Lemma fold_insert_perm (l acc : list (datetime * A)) :
  fold_left (fun acc x => insert_by x acc) l acc ≡ₚ l ++ acc.
Proof.
  revert acc. induction l as [|x l IH]; intros acc; simpl; [done|].
  rewrite IH insert_by_perm. by rewrite Permutation_middle.
Qed.
Lemma sort_keyed_perm (l : list (datetime * A)) : sort_keyed l ≡ₚ l.
Proof. unfold sort_keyed. by rewrite fold_insert_perm app_nil_r. Qed.

Lemma insert_by_sorted (x : datetime * A) l :
  StronglySorted time_le l -> StronglySorted time_le (insert_by x l).
Proof.
  induction 1 as [|y l Hs IH Hy]; simpl; [by repeat constructor|].
  destruct (Z.ltb_spec (micros x.1) (micros y.1)).
  - constructor; [by constructor|]. constructor; [unfold time_le; lia|].
    eapply Forall_impl; [exact Hy|]. unfold time_le. intros; lia.
  - constructor; [done|]. rewrite insert_by_perm. constructor; [unfold time_le; lia|done].
Qed.
Lemma sort_keyed_sorted (l : list (datetime * A)) : StronglySorted time_le (sort_keyed l).
Proof.
  unfold sort_keyed.
  assert (forall acc, StronglySorted time_le acc ->
    StronglySorted time_le (fold_left (fun acc x => insert_by x acc) l acc)) as Hgen.
  { induction l as [|x l IH]; intros acc Hacc; simpl; [done|]. by apply IH, insert_by_sorted. }
  apply Hgen. constructor.
Qed.

Lemma same_awareness_perm (l l' : list (datetime * A)) :
  l ≡ₚ l' -> same_awareness l = same_awareness l'.
Proof.
  intros Hp. unfold same_awareness. by rewrite !(forallb_perm _ _ _ Hp).
Qed.

(** Distinct times are sorted the same way from any order. *)
Lemma sort_keyed_unique (l l' : list (datetime * A)) :
  l ≡ₚ l' -> NoDup (map (fun x => micros x.1) l) -> sort_keyed l = sort_keyed l'.
Proof.
  intros Hp Hnd. apply (StronglySorted_unique_strong time_le).
  - intros x y Hx Hy Hxy Hyx. rewrite sort_keyed_perm in Hx. rewrite sort_keyed_perm -Hp in Hy.
    apply (NoDup_map_inj (fun x => micros x.1) l); [done..|]. unfold time_le in *. lia.
  - apply sort_keyed_sorted.
  - apply sort_keyed_sorted.
  - by rewrite !sort_keyed_perm.
Qed.
End SortLemmas.
