(* ===== verification/Disposition.v ===== *)
(** * Disposition precedence

    [_internal/disposition.py]: how the events about one finding decide its
    validity, assurance, resolution and severity. *)

From S2P Require Import Prelude PyStr Json Errors Contracts Time.
From stdpp Require Import options.

(** ** Definitions *)

Definition CONFIRMED : string := "confirmed".
Definition FALSE_POSITIVE : string := "false_positive".
Definition EXEC_SOURCE_TYPES : list string := ["validation_report"; "verification_report"].

Definition resolution_tier (source_type : string) : Z :=
  if String.eqb source_type "verification_report" then 0%Z
  else if String.eqb source_type "jira" then 1%Z else 2%Z.

(** [is_actor_verified] on an actor document, [_actor_verified] on a typed one. *)
Definition is_actor_verified (actor : dict) : bool :=
  let iv := get "identity_verified" actor in
  if is_null iv then get_truthy "ldap_verified" actor else truthy iv.
Definition actor_verified (e : LayerEvent) : bool :=
  match identity_verified (actor (source e)) with
  | Some b => b
  | None => default false (ldap_verified (actor (source e)))
  end.

Definition is_human (e : LayerEvent) : bool := String.eqb (kind (actor (source e))) "human".
Definition is_machine (e : LayerEvent) : bool := String.eqb (kind (actor (source e))) "machine".

Definition event_class (e : LayerEvent) : Z :=
  if bool_decide (evidence_grade e = Some "E2") || bool_decide (evidence_grade e = Some "E3") then 3%Z
  else if is_human e then 2%Z
  else if bool_decide (source_type (source e) ∈ EXEC_SOURCE_TYPES) then 1%Z
  else 3%Z.

(** [_event_dt]. *)
Definition event_dt (e : LayerEvent) : res datetime :=
  of_option (fromisoformat (recorded_at e)) (Service (CorruptStoredEventError (event_id e))).

Definition has_validity (v : string) (e : LayerEvent) : bool :=
  bool_decide (validity (disposition e) = Some v).

Inductive assurance := CLAIMED | MACHINE_VERIFIED | HUMAN_REVIEWED | EXECUTION_PROVEN.

(** What [derive_disposition] computes, before it is put in a dict. *)
Record derived := {
  d_validity : json;
  d_resolution : string;
  d_assurance : assurance;
  d_last_updated : string;
  d_events : list string;
  d_severity_override : option LayerEvent;
  d_conflict : bool;
  d_refuted_awaiting_signoff : bool;
  d_fp_overridden : bool;
  d_fp_reassertion_blocked : bool
}.

(** An event with its instant.  Once [sorted] has returned, all instants are
    comparable, so the later comparisons are of microseconds. *)
Notation timed := (datetime * LayerEvent)%type.

Definition of_class (c : Z) (l : list timed) : list timed :=
  List.filter (fun x => (event_class x.2 =? c)%Z) l.
Definition validity_json (e : LayerEvent) : json := from_option JStr JNull (validity (disposition e)).

(** The validity below execution: the last human, else the last machine word. *)
Definition static_validity (base : json) (human_v machine_v : list timed) : json :=
  match last human_v with
  | Some x => validity_json x.2
  | None =>
      match last machine_v with
      | Some x =>
          if has_validity FALSE_POSITIVE x.2 && negb (truthy (auto_accept_tier x.2))
          then base else validity_json x.2
      | None => base
      end
  end.

(** Human false-positive verdicts after the proof, and who verifiably gave them. *)
Definition after_proof (proof : timed) (human_fp : list timed) : list timed :=
  List.filter (fun x => (micros proof.1 <? micros x.1)%Z) human_fp.
Definition post_ids (post : list timed) : list (option string) :=
  remove_dups (map (fun x => identity (actor (source x.2)))
    (List.filter (fun x => actor_verified x.2) post)).

(** Validity, [fp_overridden], [fp_reassertion_blocked]. *)
Definition decide_validity (base : json) (exec_v human_v machine_v : list timed) : json * bool * bool :=
  match last (List.filter (fun x => negb (has_validity FALSE_POSITIVE x.2)) exec_v) with
  | None => (static_validity base human_v machine_v, false, false)
  | Some proof =>
      if has_validity CONFIRMED proof.2 then
        let human_fp := List.filter (fun x => has_validity FALSE_POSITIVE x.2) human_v in
        let overridden := existsb (fun x => (micros x.1 <=? micros proof.1)%Z) human_fp in
        let post := after_proof proof human_fp in
        if (2 <=? length (post_ids post))%nat then (JStr FALSE_POSITIVE, false, false)
        else (JStr CONFIRMED, overridden, match post with [] => false | _ => true end)
      else (validity_json proof.2, false, false)
  end.

Definition derive_resolution (evts : list timed) : string :=
  let revs := List.filter (fun x => opt_truthy (resolution (disposition x.2))) evts in
  let tier x := resolution_tier (source_type (source (x : timed).2)) in
  let best := fold_left Z.min (map tier revs) 2%Z in
  match last (List.filter (fun x => (tier x =? best)%Z) revs) with
  | Some x => default "" (resolution (disposition x.2))
  | None => "open"
  end.

(** Both verdicts appear among the validity events. *)
Definition both_verdicts (vevents : list timed) : bool :=
  existsb (fun x => has_validity CONFIRMED x.2) vevents
  && existsb (fun x => has_validity FALSE_POSITIVE x.2) vevents.

Definition validity_events (evts : list timed) : list timed :=
  List.filter (fun x => opt_truthy (validity (disposition x.2))) evts.

Definition derive (base : json) (evts : list timed) (generated_at : string) : derived :=
  let vevents := validity_events evts in
  let exec_v := of_class 1 vevents in
  let human_v := of_class 2 vevents in
  let machine_v := of_class 3 vevents in
  let '(v, fp_overridden, fp_blocked) := decide_validity base exec_v human_v machine_v in
  let conflict := both_verdicts vevents in
  let refuted :=
    existsb (fun x => has_validity FALSE_POSITIVE x.2 && is_machine x.2
                      && negb (truthy (auto_accept_tier x.2))) vevents
    && py_neqb v (JStr FALSE_POSITIVE)
    && match human_v with [] => true | _ => false end in
  {| d_validity := v;
     d_resolution := derive_resolution evts;
     d_assurance := match exec_v, human_v, machine_v with
                    | _ :: _, _, _ => EXECUTION_PROVEN
                    | [], _ :: _, _ => HUMAN_REVIEWED
                    | [], [], _ :: _ => MACHINE_VERIFIED
                    | [], [], [] => CLAIMED
                    end;
     d_last_updated := match last evts with Some x => recorded_at x.2 | None => generated_at end;
     d_events := map (fun x => event_id x.2) evts;
     d_severity_override :=
       snd <$> last (List.filter (fun x => opt_truthy (disposition_severity (disposition x.2))
                                           && (event_class x.2 =? 2)%Z) evts);
     d_conflict := conflict;
     d_refuted_awaiting_signoff := refuted && negb conflict;
     d_fp_overridden := fp_overridden;
     d_fp_reassertion_blocked := fp_blocked |}.

(** The result dict. *)
Definition assurance_value (a : assurance) : string :=
  match a with
  | CLAIMED => "claimed" | MACHINE_VERIFIED => "machine_verified"
  | HUMAN_REVIEWED => "human_reviewed" | EXECUTION_PROVEN => "execution_proven"
  end.
Definition severity_override_dict (e : LayerEvent) : dict :=
  let d : dict := {["severity" := from_option JStr JNull (disposition_severity (disposition e));
                    "by" := JStr (str_or (identity (actor (source e))) "?");
                    "at" := JStr (str_or (occurred_at e) (recorded_at e))]} in
  if opt_truthy (rationale e) then <["rationale" := from_option JStr JNull (rationale e)]> d else d.
Definition flag (k : string) (b : bool) (d : dict) : dict := if b then <[k := JBool true]> d else d.
Definition derived_dict (r : derived) : dict :=
  let d : dict := {["validity" := d_validity r; "resolution" := JStr (d_resolution r);
                    "assurance" := JStr (assurance_value (d_assurance r));
                    "last_updated" := JStr (d_last_updated r);
                    "events" := JArr (map JStr (d_events r))]} in
  let d := match d_severity_override r with
           | Some e => <["severity_override" := JObj (severity_override_dict e)]> d | None => d end in
  flag "fp_reassertion_blocked" (d_fp_reassertion_blocked r)
    (flag "fp_overridden" (d_fp_overridden r)
      (flag "refuted_awaiting_signoff" (d_refuted_awaiting_signoff r) (flag "conflict" (d_conflict r) d))).

(** Typed events in time order. *)
Definition timed_events (events : list LayerEvent) : res (list timed) :=
  keyed ← mapR (fun e => dt ← event_dt e; Ok (dt, e)) events;
  sorted_by_time keyed.

Definition derive_typed (finding : dict) (events : list LayerEvent) (generated_at : string) : res derived :=
  evts ← timed_events events;
  Ok (derive (default (JStr "not_verified") (finding !! "validation_status")) evts generated_at).

Section Coerce.
Context `{Contracts}.

(** [LayerEvent.model_validate(e)]. *)
Definition coerce_event (e : json) : res LayerEvent :=
  match e with
  | JObj d => of_option (event_model_validate d) ValueError
  | _ => Err ValueError
  end.

Definition derive_disposition (finding : dict) (events : list json) (generated_at : string) : res dict :=
  evts ← mapR coerce_event events;
  r ← derive_typed finding evts generated_at;
  Ok (derived_dict r).
End Coerce.

(** ** Lemmas *)

Lemma last_filter_in {A} (f : A -> bool) l x :
  last (List.filter f l) = Some x -> x ∈ l /\ f x = true.
Proof.
  intros Hl. apply last_Some_elem_of, list_elem_of_In, filter_In in Hl as [Hin Hf].
  split; [by apply list_elem_of_In|done].
Qed.

Lemma last_of_class_in c evts x : last (of_class c (validity_events evts)) = Some x ->
  x ∈ evts /\ event_class x.2 = c /\ opt_truthy (validity (disposition x.2)) = true.
Proof.
  intros [Hin Hc%Z.eqb_eq]%last_filter_in. unfold validity_events in Hin.
  apply list_elem_of_In, filter_In in Hin as [Hin Hv]. by rewrite list_elem_of_In.
Qed.

Lemma validity_json_eq e v : validity_json e = JStr v <-> has_validity v e = true.
Proof.
  unfold validity_json, has_validity. rewrite bool_decide_eq_true.
  destruct (validity (disposition e)); simpl; split; congruence.
Qed.

(** The execution-class events that can decide. *)
Definition decisive (evts : list timed) : list timed :=
  List.filter (fun x => negb (has_validity FALSE_POSITIVE x.2)) (of_class 1 (validity_events evts)).

(** Two verified humans, with different identities, called the finding a false
    positive after the proof. *)
Definition two_signers (proof : timed) (evts : list timed) : Prop :=
  exists x y, x ∈ evts /\ y ∈ evts
    /\ identity (actor (source x.2)) <> identity (actor (source y.2))
    /\ Forall (fun z => event_class z.2 = 2%Z /\ has_validity FALSE_POSITIVE z.2 = true
                        /\ actor_verified z.2 = true /\ (micros proof.1 < micros z.1)%Z) [x; y].

Lemma two_post_ids proof evts :
  2 <= length (post_ids (after_proof proof
         (List.filter (fun x => has_validity FALSE_POSITIVE x.2) (of_class 2 (validity_events evts))))) ->
  two_signers proof evts.
Proof.
  unfold post_ids. set (l := List.filter _ _). intros Hlen.
  assert (forall z, z ∈ l -> z ∈ evts /\ event_class z.2 = 2%Z /\ has_validity FALSE_POSITIVE z.2 = true
    /\ actor_verified z.2 = true /\ (micros proof.1 < micros z.1)%Z) as Hl.
  { intros z Hz. unfold l, after_proof, of_class, validity_events in Hz.
    rewrite list_elem_of_In !filter_In in Hz.
    destruct Hz as [[[[[Hin Hv] Hc] Hfp] Ht] Ha]. apply Z.eqb_eq in Hc. apply Z.ltb_lt in Ht.
    by rewrite list_elem_of_In. }
  set (ids := remove_dups _) in Hlen. pose proof (NoDup_remove_dups _ : NoDup ids) as Hnd.
  destruct ids as [|i [|j ids']] eqn:Hids; simpl in Hlen; try lia.
  apply NoDup_cons in Hnd as [Hij _].
  assert (forall i, i ∈ ids -> exists z, z ∈ l /\ identity (actor (source z.2)) = i) as Hmem.
  { intros k Hk. unfold ids in Hk. apply elem_of_remove_dups, list_elem_of_fmap in Hk as (z & -> & Hz).
    by exists z. }
  destruct (Hmem i) as (x & Hx & Hxi); [rewrite Hids; by left|].
  destruct (Hmem j) as (y & Hy & Hyj); [rewrite Hids; by right; left|].
  destruct (Hl x Hx) as [Hxe Hxp], (Hl y Hy) as [Hye Hyp].
  exists x, y. split_and!; [done|done| |by apply Forall_cons; split; [|apply Forall_cons; split]].
  rewrite Hxi Hyj. intros ->. apply Hij. by left.
Qed.

(** ** Properties *)

(** C18: nobody can make a finding a false positive alone where the rules ask for
    more.  If the derived validity is [false_positive] and the report's own
    claim was not, then: over an execution-class proof, two verified humans with
    different identities said so after the proof; without a proof, a human
    said so, or a machine verdict that was auto-accepted. *)
Theorem false_positive_authority base evts generated_at :
  d_validity (derive base evts generated_at) = JStr FALSE_POSITIVE -> base <> JStr FALSE_POSITIVE ->
  match last (decisive evts) with
  | Some proof => two_signers proof evts
  | None =>
      exists x, x ∈ evts /\ has_validity FALSE_POSITIVE x.2 = true
        /\ (event_class x.2 = 2%Z \/ event_class x.2 = 3%Z /\ truthy (auto_accept_tier x.2) = true)
  end.
Proof.
  unfold derive. set (human_v := of_class 2 _). set (machine_v := of_class 3 _).
  destruct (decide_validity _ _ _ _) as [[v o] b] eqn:Hd. cbn [d_validity]. intros -> Hbase.
  unfold decide_validity in Hd. fold (decisive evts) in Hd.
  destruct (last (decisive evts)) as [proof|] eqn:Hp.
  - destruct (has_validity CONFIRMED proof.2).
    + destruct (Nat.leb_spec 2 (length (post_ids (after_proof proof (List.filter
        (fun x => has_validity FALSE_POSITIVE x.2) human_v))))) as [H2|]; [by apply two_post_ids|done].
    + apply last_filter_in in Hp as [_ Hfp]. injection Hd as Hv _ _.
      apply validity_json_eq in Hv. by rewrite Hv in Hfp.
  - injection Hd as Hv _ _. unfold static_validity in Hv.
    destruct (last human_v) as [x|] eqn:Hh.
    + apply last_of_class_in in Hh as (Hin & Hc & _). exists x. rewrite -validity_json_eq. auto.
    + destruct (last machine_v) as [x|] eqn:Hm; [|done].
      apply last_of_class_in in Hm as (Hin & Hc & _).
      destruct (has_validity FALSE_POSITIVE x.2) eqn:Hf; cbn [andb] in Hv.
      * exists x. destruct (truthy (auto_accept_tier x.2)); cbn [negb] in Hv; naive_solver.
      * apply validity_json_eq in Hv. congruence.
Qed.

(** The disposition does not depend on the order events are stored in.  For
    events with pairwise different instants, every permutation of them derives
    the same result. *)
Theorem disposition_order_independent finding es es' generated_at keyed :
  mapR (fun e => dt ← event_dt e; Ok (dt, e)) es = Ok keyed ->
  NoDup (map (fun x => micros x.1) keyed) -> es ≡ₚ es' ->
  derive_typed finding es generated_at = derive_typed finding es' generated_at.
Proof.
  intros Hk Hnd Hp.
  assert (exists keyed', mapR (fun e => dt ← event_dt e; Ok (dt, e)) es' = Ok keyed' /\ keyed ≡ₚ keyed')
    as (keyed' & Hk' & Hpk).
  { by apply (mapR_perm _ es). }
  unfold derive_typed, timed_events. rewrite Hk Hk'. cbn [mbind result_bind].
  unfold sorted_by_time. rewrite (same_awareness_perm _ _ Hpk). by rewrite (sort_keyed_unique _ _ Hpk).
Qed.

(** A resolution comes from the best tier that spoke, latest first.  If any
    event carries a resolution, the derived one is that of an event whose tier
    is the best of all, with no later event of the same tier. *)
Theorem resolution_precedence evts :
  existsb (fun x => opt_truthy (resolution (disposition x.2))) evts = true ->
  exists pre x post, evts = pre ++ x :: post
    /\ resolution (disposition x.2) = Some (derive_resolution evts)
    /\ (forall y, y ∈ evts -> opt_truthy (resolution (disposition y.2)) = true ->
        (resolution_tier (source_type (source x.2)) <= resolution_tier (source_type (source y.2)))%Z)
    /\ (forall y, y ∈ post -> opt_truthy (resolution (disposition y.2)) = true ->
        (resolution_tier (source_type (source x.2)) < resolution_tier (source_type (source y.2)))%Z).
Proof.
  unfold derive_resolution. set (r := fun x : timed => opt_truthy (resolution (disposition x.2))).
  set (tier := fun x : timed => resolution_tier (source_type (source x.2))). intros Hex.
  set (best := fold_left Z.min (map tier (List.filter r evts)) 2%Z).
  destruct (fold_min_spec (map tier (List.filter r evts)) 2%Z) as (_ & Hall & Hatt). fold best in Hall, Hatt.
  assert (forall y, y ∈ evts -> r y = true -> (best <= tier y)%Z) as Hbest.
  { intros y Hy Hr. apply Hall. apply (list_elem_of_fmap_2 tier).
    apply list_elem_of_In, filter_In. by rewrite -list_elem_of_In. }
  assert (exists y, y ∈ evts /\ r y && (tier y =? best)%Z = true) as (y & Hy & Hfy).
  { destruct Hatt as [Hb|(y & Hb & Hy)%list_elem_of_fmap].
    - apply existsb_exists in Hex as (y & Hy%list_elem_of_In & Hr). exists y. split; [done|].
      apply andb_true_iff. split; [done|]. specialize (Hbest y Hy Hr).
      apply Z.eqb_eq. unfold tier, resolution_tier in *. repeat case_match; lia.
    - apply list_elem_of_In, filter_In in Hy as [Hy Hr]. exists y. rewrite list_elem_of_In.
      split; [done|]. by rewrite Hr -Hb Z.eqb_refl. }
  rewrite filter_filter_and.
  destruct (last (List.filter (fun x : timed =>
    r x && (resolution_tier (source_type (source x.2)) =? best)%Z) evts)) as [x|] eqn:Hlast.
  - destruct (last_filter_split _ _ _ Hlast) as (pre & post & -> & Hx & Hpost).
    apply andb_true_iff in Hx as [Hr Ht%Z.eqb_eq]. exists pre, x, post. split; [done|].
    rewrite Ht. split; [unfold r, opt_truthy in Hr; simpl in Hr |- *; by destruct (resolution (disposition x.2))|].
    split; [done|]. intros z Hz Hrz. fold (tier z).
    assert (best <= tier z)%Z by (apply Hbest; [set_solver|done]).
    specialize (Hpost z Hz). unfold r in Hpost. rewrite Hrz /= in Hpost.
    apply Z.eqb_neq in Hpost. unfold tier in *. lia.
  - apply last_None in Hlast. assert (y ∈ List.filter (fun x => r x && (tier x =? best)%Z) evts) as Hin
      by (apply list_elem_of_In, filter_In; by rewrite -list_elem_of_In).
    rewrite Hlast in Hin. by apply not_elem_of_nil in Hin.
Qed.

Lemma filter_skip {A} (f : A -> bool) pre x post : f x = false ->
  List.filter f (pre ++ x :: post) = List.filter f (pre ++ post).
Proof. intros Hx. rewrite !List.filter_app. simpl. by rewrite Hx. Qed.

(** An event without a disposition - a restatement, an alias - never speaks
    on a finding: with it or without it, validity, resolution, assurance,
    severity and every flag are the same. *)
Theorem empty_disposition_is_neutral base pre x post generated_at :
  disposition x.2 = no_disposition ->
  let r := derive base (pre ++ post) generated_at in
  let r' := derive base (pre ++ x :: post) generated_at in
  (d_validity r', d_resolution r', d_assurance r', d_severity_override r')
  = (d_validity r, d_resolution r, d_assurance r, d_severity_override r)
  /\ (d_conflict r', d_refuted_awaiting_signoff r', d_fp_overridden r', d_fp_reassertion_blocked r')
    = (d_conflict r, d_refuted_awaiting_signoff r, d_fp_overridden r, d_fp_reassertion_blocked r).
Proof.
  intros Hx. cbn zeta. unfold derive.
  assert (validity_events (pre ++ x :: post) = validity_events (pre ++ post)) as ->
    by (apply filter_skip; by rewrite Hx).
  assert (derive_resolution (pre ++ x :: post) = derive_resolution (pre ++ post)) as ->.
  { unfold derive_resolution. rewrite filter_skip //. by rewrite Hx. }
  rewrite (filter_skip _ pre x post); [by rewrite Hx|].
  by destruct (decide_validity _ _ _ _) as [[v o] b].
Qed.

(** ** Witnesses *)

Definition sample_actor (k : string) (who : option string) (verified : option bool) : LayerActor := {|
  kind := k; identity := who; ldap_verified := None; identity_verified := verified;
  identity_provider := None; identity_issuer := None; identity_subject := None;
  employee_status := None; display_name := None |}.
Definition sample_event (id at_ ty : string) (a : LayerActor) (v r : option string) : LayerEvent := {|
  event_id := id; finding_ref := "F1"; recorded_at := at_; occurred_at := None;
  source := {| source_type := ty; source_ref := "ref"; actor := a |};
  disposition := {| validity := v; resolution := r; disposition_severity := None |};
  rationale := None; fingerprint_of := None; evidence_grade := None; auto_accept_tier := JNull;
  restatement := None |}.
Definition proof_event := sample_event "E1" "2026-01-01T00:00:00Z" "validation_report"
  (sample_actor "machine" None None) (Some CONFIRMED) None.
Definition fp_event (id at_ who : string) := sample_event id at_ "interactive"
  (sample_actor "human" (Some who) (Some true)) (Some FALSE_POSITIVE) None.
Definition sample_history : list LayerEvent :=
  [fp_event "E3" "2026-01-03T00:00:00Z" "bob"; proof_event; fp_event "E2" "2026-01-02T00:00:00Z" "ann"].
Definition keyed_of (es : list LayerEvent) : list timed :=
  match mapR (fun e => dt ← event_dt e; Ok (dt, e)) es with Ok l => l | Err _ => [] end.
Definition sample_timed : list timed := sort_keyed (keyed_of sample_history).

Lemma false_positive_authority_witness :
  match last (decisive sample_timed) with
  | Some proof => two_signers proof sample_timed
  | None =>
      exists x, x ∈ sample_timed /\ has_validity FALSE_POSITIVE x.2 = true
        /\ (event_class x.2 = 2%Z \/ event_class x.2 = 3%Z /\ truthy (auto_accept_tier x.2) = true)
  end.
Proof.
  apply (false_positive_authority (JStr "not_verified") sample_timed "now");
    [vm_compute; reflexivity|discriminate].
Defined.

Lemma disposition_order_independent_witness :
  derive_typed ∅ sample_history "now" = derive_typed ∅ (rev sample_history) "now".
Proof.
  apply (disposition_order_independent ∅ sample_history (rev sample_history) "now" (keyed_of sample_history)).
  - vm_compute. reflexivity.
  - apply (bool_decide_unpack (NoDup _)). vm_compute. exact I.
  - apply Permutation_rev.
Defined.

Definition sample_resolved : list timed := sort_keyed (keyed_of
  [sample_event "E1" "2026-01-01T00:00:00Z" "verification_report" (sample_actor "machine" None None)
     None (Some "resolved");
   sample_event "E2" "2026-01-02T00:00:00Z" "jira" (sample_actor "human" (Some "ann") None)
     None (Some "open")]).
Lemma resolution_precedence_witness :
  exists pre x post, sample_resolved = pre ++ x :: post
    /\ resolution (disposition x.2) = Some (derive_resolution sample_resolved).
Proof.
  destruct (resolution_precedence sample_resolved) as (pre & x & post & Heq & Hr & _);
    [vm_compute; reflexivity|]. exists pre, x, post. done.
Defined.
Example resolution_precedence_value : derive_resolution sample_resolved = "resolved".
Proof. vm_compute. reflexivity. Qed.

Lemma empty_disposition_is_neutral_witness :
  d_validity (derive JNull (sample_timed ++ [(DT 0 true, sample_event "R" "2027-01-01" "restatement"
      (sample_actor "human" (Some "root") (Some true)) None None)]) "now")
  = d_validity (derive JNull (sample_timed ++ []) "now").
Proof.
  destruct (empty_disposition_is_neutral JNull sample_timed
    (DT 0 true, sample_event "R" "2027-01-01" "restatement"
      (sample_actor "human" (Some "root") (Some true)) None None) [] "now") as [Hv _]; [reflexivity|].
  exact (f_equal (fun p => p.1.1.1) Hv).
Defined.
