(* ===== verification/Events.v ===== *)
(** * Events

    [_internal/events/_core.py]: the canonical event id, claim hashes, identity
    stamps, alias events and the projections over them;
    [_internal/events/builders.py]: the human, severity and restatement events;
    [_internal/event_fields.py] and [_internal/submissions.py]: reading a
    client's event. *)

From S2P Require Import Prelude PyStr Json Sha256 Errors Restatements Identity Contracts.
From stdpp Require Import options.

Section Core.
Context `{HashFn}.

(** ** [_core.py] *)

Definition CLAIM_FIELDS : list string :=
  ["id"; "title"; "severity"; "cwes"; "locations"; "description"; "remediation"].

Definition claim_doc (finding : dict) : dict :=
  list_to_map (map (fun k => (k, get k finding)) CLAIM_FIELDS).
Definition compute_claim_hash (finding : dict) : string :=
  sha256_hex (dumps false (JObj (claim_doc finding))).

Definition event_id_payload (source_ref finding_ref validity resolution : string) : string :=
  source_ref +:+ "|" +:+ finding_ref +:+ "|" +:+ validity +:+ "|" +:+ resolution.
(** [validity or ''] is [str_or validity ""]. *)
Definition compute_event_id (source_ref finding_ref : string) (validity resolution : option string)
  : string :=
  sha256_hex (event_id_payload source_ref finding_ref (str_or validity "") (str_or resolution "")).

(** The same on document values, as the write path calls it: an f-string
    writes [str(v)]. *)
Definition text_or (v : json) : res string := if truthy v then py_str v else Ok "".
Definition compute_event_id_json (source_ref finding_ref validity resolution : json) : res string :=
  s ← py_str source_ref; f ← py_str finding_ref; v ← text_or validity; r ← text_or resolution;
  Ok (sha256_hex (event_id_payload s f v r)).

(** [index.get(ref)] for an index from references to fingerprints. *)
Definition index_get (index : dict) (ref : json) : res json :=
  match ref with
  | JStr r => Ok (get r index)
  | JArr _ | JObj _ => Err TypeError
  | _ => Ok JNull
  end.

(** [attach_identity] over any way to look a reference up. *)
Definition attach_with (lookup : json -> res json) (event : dict) : res (bool * dict) :=
  if get_truthy "fingerprint" event then Ok (false, event)
  else
    fp ← lookup (get "finding_ref" event);
    if truthy fp
    then Ok (true, <["fingerprint_algo" := JStr ALGO_VERSION]> (<["fingerprint" := fp]> event))
    else Ok (false, event).
Definition attach_identity (event index : dict) : res (bool * dict) := attach_with (index_get index) event.

(** The optional entries of an alias, in the order they are written. *)
Definition ALIAS_EXTRAS : list string :=
  ["confirmed"; "rejected"; "similarity"; "path_overlap"; "from_report"; "note"].

(** [extras] holds the optional arguments that are not [None]. *)
Definition make_alias_event (old_ref new_ref matched_by recorded_at source_ref : string) (actor : dict)
    (rationale : string) (extras : dict) : dict :=
  {["event_id" := JStr (compute_event_id source_ref old_ref None None);
    "finding_ref" := JStr old_ref;
    "recorded_at" := JStr recorded_at;
    "source" := JObj {["type" := JStr "rebaseline"; "ref" := JStr source_ref; "actor" := JObj actor]};
    "disposition" := JObj ∅;
    "rationale" := JStr rationale;
    "alias" := JObj (<["new_finding_ref" := JStr new_ref]> (<["matched_by" := JStr matched_by]>
                 (filter (fun kv => kv.1 ∈ ALIAS_EXTRAS /\ kv.2 <> JNull) extras)))]}.

(** [a[key]]. *)
Definition index_key (key : string) (v : json) : res json :=
  match v with
  | JObj m => of_option (m !! key) KeyError
  | _ => Err TypeError
  end.

(** The entry an alias event projects to. *)
Definition alias_entry (event : dict) (alias : json) : res dict :=
  new_id ← index_key "new_finding_ref" alias;
  matched_by ← index_key "matched_by" alias;
  let extras : dict := match alias with
                       | JObj a => filter (fun kv => kv.1 ∈ ALIAS_EXTRAS) a | _ => ∅ end in
  let entry := <["new_id" := new_id]> (<["matched_by" := matched_by]>
                 (<["mapped_at" := get "recorded_at" event]> extras)) in
  source ← get_obj "source" event;
  actor ← get_obj "actor" source;
  Ok (if get_truthy "confirmed" entry && get_truthy "identity" actor
      then <["confirmed_by" := get "identity" actor]>
             (<["confirmed_at" := get "recorded_at" event]> entry)
      else entry).

(** One turn of the projection; a reference that is not a text is outside
    the model. *)
Definition project_alias (out : gmap string dict) (event : json) : res (gmap string dict) :=
  match event with
  | JObj e =>
      let a := get "alias" e in
      if negb (truthy a) || negb (get_truthy "finding_ref" e) then Ok out
      else
        entry ← alias_entry e a;
        match get "finding_ref" e with
        | JStr ref => Ok (<[ref := entry]> out)
        | _ => Err TypeError
        end
  | _ => Err AttributeError
  end.
Definition aliases_from_events (events : list json) : res (gmap string dict) :=
  foldM project_alias events ∅.

Definition project_finding (out : gmap string dict) (event : json) : res (gmap string dict) :=
  match event with
  | JObj e =>
      match get "finding" e with
      | JObj f =>
          if negb (get_truthy "id" f) then Ok out
          else match get "id" f with JStr fid => Ok (<[fid := f]> out) | _ => Err TypeError end
      | _ => Ok out
      end
  | _ => Err AttributeError
  end.
Definition findings_from_events (events : list json) : res (gmap string dict) :=
  es ← apply_restatements events; foldM project_finding es ∅.

(** ** [builders.py] *)

Definition FP_DECISIONS : list string := ["false_positive"; "override_false_positive"].
Definition DATE_PREFIX_LEN : nat := 10.
Definition RESTATEMENT_REF_DIGEST_LEN : nat := 12.

Definition interactive_ref (recorded_at suffix : string) : string :=
  "interactive:" +:+ str_take DATE_PREFIX_LEN recorded_at +:+ ":" +:+ suffix.

Definition validity_for_decision (decision : string) : string :=
  if bool_decide (decision ∈ FP_DECISIONS) then "false_positive" else "confirmed".

(** The event all three builders make. *)
Definition build_event (finding_ref ty sref : string) (disp : LayerDisposition) (rationale : string)
    (actor : LayerActor) (recorded_at : string) (restatement : option dict) : LayerEvent := {|
  event_id := compute_event_id sref finding_ref (validity disp) (resolution disp);
  finding_ref := finding_ref; recorded_at := recorded_at; occurred_at := Some recorded_at;
  source := {| source_type := ty; source_ref := sref; actor := actor |};
  disposition := disp; rationale := Some rationale; fingerprint_of := None;
  evidence_grade := None; auto_accept_tier := JNull; restatement := restatement |}.

Definition build_human_event (finding_ref decision rationale : string) (actor : LayerActor)
    (recorded_at : string) : res LayerEvent :=
  let v := validity_for_decision decision in
  _ ← raise_if (negb (opt_truthy (identity actor))) ValueError;
  let sref := interactive_ref recorded_at (default "" (identity actor)) in
  Ok (build_event finding_ref "interactive" sref
        {| validity := Some v; resolution := None; disposition_severity := None |}
        rationale actor recorded_at None).

Definition build_severity_event (finding_ref level rationale : string) (actor : LayerActor)
    (recorded_at : string) : LayerEvent :=
  build_event finding_ref "interactive" (interactive_ref recorded_at ("severity:" +:+ level))
    {| validity := None; resolution := None; disposition_severity := Some level |}
    rationale actor recorded_at None.

Definition restatement_source_ref (block : dict) (identity recorded_at : string) : string :=
  let digest := sha256_hex (dumps true (JObj block)) in
  "restatement:" +:+ str_take DATE_PREFIX_LEN recorded_at +:+ ":" +:+ identity +:+ ":"
    +:+ str_take RESTATEMENT_REF_DIGEST_LEN digest.

Context `{Contracts}.

Definition build_restatement_event (block : dict) (rationale : string) (actor : LayerActor)
    (recorded_at finding_ref : string) : res LayerEvent :=
  _ ← raise_if (negb (opt_truthy (identity actor))) ValueError;
  let sref := restatement_source_ref block (default "" (identity actor)) recorded_at in
  r ← restatement_from_dict block;
  Ok (build_event finding_ref "restatement" sref no_disposition rationale actor recorded_at (Some r)).

(** ** [event_fields.py], [submissions.py] *)

Definition event_text (event : dict) (key : string) : res string :=
  let v := get key event in if is_null v then Ok "" else py_str v.

Definition client_actor (event : dict) : dict :=
  match get "actor" event with
  | JObj a => a
  | _ =>
      match get "source" event with
      | JObj s => match get "actor" s with JObj a => a | _ => ∅ end
      | _ => ∅
      end
  end.
Definition client_disposition (event : dict) : dict :=
  match get "disposition" event with JObj d => d | _ => ∅ end.

Record EventEnvelope := { envelope_kind : string; envelope_event : dict }.
Definition submission_id_for_event (envelope : EventEnvelope) : string :=
  sha256_hex (dumps true (JObj {["kind" := JStr (envelope_kind envelope);
                                 "event" := JObj (envelope_event envelope)]})).
End Core.

(** ** Lemmas *)

Definition bar : ascii := "|"%char.
Definition no_bar (s : string) : Prop := bar ∉ chars s.

(** The text after the last bar is determined. *)
Lemma split_last_bar l1 l2 r1 r2 : bar ∉ r1 -> bar ∉ r2 ->
  l1 ++ bar :: r1 = l2 ++ bar :: r2 -> l1 = l2 /\ r1 = r2.
Proof.
  intros H1 H2. revert l2. induction l1 as [|c l1 IH]; intros [|d l2]; simpl; intros Heq.
  - injection Heq as ->. done.
  - injection Heq as <- ->. destruct H1. apply elem_of_app. right. by left.
  - injection Heq as -> <-. destruct H2. apply elem_of_app. right. by left.
  - injection Heq as -> Heq. by destruct (IH _ Heq) as [-> ->].
Qed.

Section CoreProperties.
Context `{HashFn}.

Lemma payload_chars s f v r :
  chars (event_id_payload s f v r)
  = ((chars s ++ bar :: chars f) ++ bar :: chars v) ++ bar :: chars r.
Proof. unfold event_id_payload. rewrite !chars_app /=. by rewrite -!app_assoc. Qed.

Lemma event_id_payload_inj s1 f1 v1 r1 s2 f2 v2 r2 :
  no_bar f1 -> no_bar v1 -> no_bar r1 -> no_bar f2 -> no_bar v2 -> no_bar r2 ->
  event_id_payload s1 f1 v1 r1 = event_id_payload s2 f2 v2 r2 ->
  s1 = s2 /\ f1 = f2 /\ v1 = v2 /\ r1 = r2.
Proof.
  intros Hf1 Hv1 Hr1 Hf2 Hv2 Hr2 Heq. apply (f_equal (fun s : string => chars s)) in Heq.
  rewrite !payload_chars in Heq.
  apply split_last_bar in Heq as [Heq Hr]; [|done..]. apply split_last_bar in Heq as [Heq Hv]; [|done..].
  apply split_last_bar in Heq as [Hs Hf]; [|done..].
  split_and!; by apply (inj (fun s : string => chars s)).
Qed.

(** The event id identifies the determination.  For references and
    verdicts without a bar - the source reference may hold anything - equal
    ids mean the same source, finding, validity and resolution, or two
    hashed strings collide. *)
Theorem event_id_binds s1 f1 v1 r1 s2 f2 v2 r2 :
  no_bar f1 -> no_bar (str_or v1 "") -> no_bar (str_or r1 "") ->
  no_bar f2 -> no_bar (str_or v2 "") -> no_bar (str_or r2 "") ->
  compute_event_id s1 f1 v1 r1 = compute_event_id s2 f2 v2 r2 ->
  (s1 = s2 /\ f1 = f2 /\ str_or v1 "" = str_or v2 "" /\ str_or r1 "" = str_or r2 "")
  \/ has_collision [utf8 (event_id_payload s1 f1 (str_or v1 "") (str_or r1 ""));
                    utf8 (event_id_payload s2 f2 (str_or v2 "") (str_or r2 ""))].
Proof.
  intros Hf1 Hv1 Hr1 Hf2 Hv2 Hr2 Heq. unfold compute_event_id, sha256_hex in Heq.
  set (p1 := event_id_payload s1 _ _ _) in *. set (p2 := event_id_payload s2 _ _ _) in *.
  destruct (hexdigest_eq_or [utf8 p1; utf8 p2] (utf8 p1) (utf8 p2)) as [Hx|];
    [by left|by right; left|done| |by right].
  left. apply (inj utf8) in Hx. by apply event_id_payload_inj.
Qed.

Lemma claim_doc_lookup finding k : k ∈ CLAIM_FIELDS -> claim_doc finding !! k = Some (get k finding).
Proof.
  intros Hk. unfold claim_doc. apply elem_of_list_to_map.
  - change (NoDup CLAIM_FIELDS). apply (bool_decide_unpack (NoDup _)). vm_compute. exact I.
  - by apply (list_elem_of_fmap_2 (fun k => (k, get k finding))).
Qed.

(** A claim hash pins the whole claim.  Findings with the same hash agree
    on every claim field, or the two hashed documents collide; fields outside
    the claim - a fingerprint, a status - never move the hash. *)
Theorem claim_hash_binds f1 f2 :
  ((forall k, k ∈ CLAIM_FIELDS -> get k f1 = get k f2) -> compute_claim_hash f1 = compute_claim_hash f2)
  /\ (compute_claim_hash f1 = compute_claim_hash f2 ->
      (forall k, k ∈ CLAIM_FIELDS -> get k f1 = get k f2)
      \/ has_collision [utf8 (dumps false (JObj (claim_doc f1))); utf8 (dumps false (JObj (claim_doc f2)))]).
Proof.
  split.
  - intros Hk. unfold compute_claim_hash, claim_doc. do 4 f_equal. apply map_ext_in.
    intros k Hin%list_elem_of_In. by rewrite Hk.
  - intros Heq. unfold compute_claim_hash, sha256_hex in Heq.
    destruct (hexdigest_eq_or [utf8 (dumps false (JObj (claim_doc f1))); utf8 (dumps false (JObj (claim_doc f2)))]
      _ _ ltac:(by left) ltac:(by right; left) Heq) as [Hx|]; [left|by right].
    apply (inj utf8), (inj (dumps false)), (inj JObj) in Hx. intros k Hk.
    pose proof (claim_doc_lookup f1 k Hk) as Hl. rewrite Hx claim_doc_lookup // in Hl. congruence.
Qed.

(** *** Identity stamps and aliases *)

Lemma attach_with_frame lookup event stamped event' :
  attach_with lookup event = Ok (stamped, event') ->
  (get_truthy "fingerprint" event = true -> stamped = false)
  /\ (stamped = false -> event' = event)
  /\ (stamped = true -> get_truthy "fingerprint" event' = true
      /\ get "fingerprint_algo" event' = JStr ALGO_VERSION)
  /\ (forall k, k <> "fingerprint" -> k <> "fingerprint_algo" -> event' !! k = event !! k).
Proof.
  unfold attach_with. destruct (get_truthy "fingerprint" event) eqn:Hf.
  - intros [= <- <-]. done.
  - destruct (lookup _) as [fp|]; [|done]. cbn [mbind result_bind].
    destruct (truthy fp) eqn:Hfp; intros [= <- <-]; [|done].
    split_and!; [done|done| |].
    + intros _. unfold get_truthy. by rewrite get_insert_ne // !get_insert_eq.
    + intros k Hk1 Hk2. rewrite !lookup_insert_ne; congruence.
Qed.

(** An identity stamp is write-once and touches nothing else.
    [attach_identity] reports [True] exactly when it wrote; it never writes
    over a fingerprint, and leaves every other field - the event id among
    them - as it was. *)
Theorem attach_identity_write_once event index stamped event' :
  attach_identity event index = Ok (stamped, event') ->
  (get_truthy "fingerprint" event = true -> stamped = false)
  /\ (stamped = false -> event' = event)
  /\ (stamped = true -> get_truthy "fingerprint" event' = true
      /\ get "fingerprint_algo" event' = JStr ALGO_VERSION)
  /\ (forall k, k <> "fingerprint" -> k <> "fingerprint_algo" -> event' !! k = event !! k).
Proof.
  apply attach_with_frame.
Qed.

Lemma make_alias_event_entry old_ref new_ref matched_by recorded_at source_ref actor rationale extras :
  str_truthy old_ref = true ->
  exists entry,
    (forall out, project_alias out (JObj (make_alias_event old_ref new_ref matched_by recorded_at source_ref
                                      actor rationale extras)) = Ok (<[old_ref := entry]> out))
    /\ entry !! "new_id" = Some (JStr new_ref) /\ entry !! "matched_by" = Some (JStr matched_by)
    /\ entry !! "mapped_at" = Some (JStr recorded_at).
Proof.
  intros Hold. set (e := make_alias_event _ _ _ _ _ _ _ _).
  set (a := <["new_finding_ref" := JStr new_ref]> (<["matched_by" := JStr matched_by]>
              (filter (fun kv => kv.1 ∈ ALIAS_EXTRAS /\ kv.2 <> JNull) extras)) : dict).
  assert (get "alias" e = JObj a) as Ha by reflexivity.
  assert (get "finding_ref" e = JStr old_ref) as Hr by reflexivity.
  assert (get "recorded_at" e = JStr recorded_at) as Hat by reflexivity.
  assert (truthy (JObj a) = true) as Hta.
  { simpl. apply bool_decide_eq_true. unfold a. apply insert_non_empty. }
  assert (exists entry, alias_entry e (JObj a) = Ok entry
    /\ entry !! "new_id" = Some (JStr new_ref) /\ entry !! "matched_by" = Some (JStr matched_by)
    /\ entry !! "mapped_at" = Some (JStr recorded_at)) as (entry & He & Hentry).
  { unfold alias_entry, index_key, of_option. unfold a at 1 2. rewrite lookup_insert_eq.
    rewrite lookup_insert_ne // lookup_insert_eq. cbn [mbind result_bind].
    assert (get_obj "source" e = Ok {["type" := JStr "rebaseline"; "ref" := JStr source_ref;
      "actor" := JObj actor]}) as -> by reflexivity. cbn [mbind result_bind].
    assert (get_obj "actor" {["type" := JStr "rebaseline"; "ref" := JStr source_ref;
      "actor" := JObj actor]} = Ok actor) as -> by reflexivity. cbn [mbind result_bind].
    eexists. split; [reflexivity|]. rewrite Hat.
    destruct (_ && _); split_and!; by simplify_map_eq. }
  exists entry. split; [|done]. intros out. unfold project_alias. fold e.
  rewrite Ha Hta. unfold get_truthy. rewrite Hr. cbn [truthy]. rewrite Hold. cbn [negb orb].
  by rewrite He.
Qed.

(** A rename is read back from the log.  After an alias event for
    [old_ref] is appended, the projection maps [old_ref] to its successor and
    every other reference to what it was mapped to before. *)
Theorem alias_round_trip events out old_ref new_ref matched_by recorded_at source_ref actor rationale extras :
  str_truthy old_ref = true -> aliases_from_events events = Ok out ->
  exists entry,
    aliases_from_events (events ++ [JObj (make_alias_event old_ref new_ref matched_by recorded_at
                           source_ref actor rationale extras)]) = Ok (<[old_ref := entry]> out)
    /\ entry !! "new_id" = Some (JStr new_ref) /\ entry !! "matched_by" = Some (JStr matched_by).
Proof.
  intros Hold Hout.
  destruct (make_alias_event_entry old_ref new_ref matched_by recorded_at source_ref actor rationale
    extras Hold) as (entry & Hp & Hn & Hm & _).
  exists entry. split; [|done]. unfold aliases_from_events in *.
  rewrite foldM_app Hout. cbn [mbind result_bind foldM]. by rewrite Hp.
Qed.
End CoreProperties.

(** ** Witnesses *)

Ltac no_bar_closed := apply (bool_decide_unpack (_ ∉ _)); vm_compute; exact I.

Lemma event_id_binds_witness :
  ("interactive:2026-01-01:a|b" = "interactive:2026-01-01:a|b" /\ "F1" = "F1"
   /\ str_or None "" = str_or (Some "") "" /\ str_or (Some "open") "" = str_or (Some "open") "")
  \/ has_collision
       [utf8 (event_id_payload "interactive:2026-01-01:a|b" "F1" (str_or None "") (str_or (Some "open") ""));
        utf8 (event_id_payload "interactive:2026-01-01:a|b" "F1" (str_or (Some "") "")
                (str_or (Some "open") ""))].
Proof.
  apply (event_id_binds "interactive:2026-01-01:a|b" "F1" None (Some "open")
    "interactive:2026-01-01:a|b" "F1" (Some "") (Some "open"));
    try no_bar_closed. vm_compute. reflexivity.
Defined.

Lemma attach_identity_write_once_witness :
  false = true -> get_truthy "fingerprint" {["finding_ref" := JStr "F1"; "fingerprint" := JStr "old"]} = true
  /\ get "fingerprint_algo" {["finding_ref" := JStr "F1"; "fingerprint" := JStr "old"]} = JStr ALGO_VERSION.
Proof.
  apply (attach_identity_write_once {["finding_ref" := JStr "F1"; "fingerprint" := JStr "old"]}
    {["F1" := JStr "new"]} false {["finding_ref" := JStr "F1"; "fingerprint" := JStr "old"]}).
  vm_compute. reflexivity.
Defined.

Lemma alias_round_trip_witness :
  exists entry,
    aliases_from_events ([] ++ [JObj (make_alias_event "F1" "F2" "title" "2026-01-01T00:00:00Z" "ref" ∅
      "renamed" ∅)]) = Ok (<["F1" := entry]> ∅)
    /\ entry !! "new_id" = Some (JStr "F2") /\ entry !! "matched_by" = Some (JStr "title").
Proof.
  apply (alias_round_trip [] ∅ "F1" "F2" "title" "2026-01-01T00:00:00Z" "ref" ∅ "renamed" ∅);
    vm_compute; reflexivity.
Defined.
