(* ===== verification/Gates.v ===== *)
(** * Gates

    [_internal/gates.py] and [_internal/kinds.py]: the checks in front of every
    write.  Each gate returns normally or raises its service error; logging is
    not modelled.  The clock is a parameter of the one gate that reads it. *)

From S2P Require Import Prelude PyStr Json Sha256 Errors Restatements Contracts Time Disposition.
From stdpp Require Import options.

(** ** Event kinds *)

Inductive EventKind := COUNTERSIGN | SEVERITY | REGRESSION | IMPACT | VULN_SCAN.
#[global] Instance event_kind_eq_dec : EqDecision EventKind.
Proof. solve_decision. Defined.
Definition BIRTH_EVENT_KINDS : list EventKind := [REGRESSION; IMPACT; VULN_SCAN].
Definition HUMAN_LANE : list EventKind := [COUNTERSIGN; SEVERITY].
Definition event_kind_of (raw : string) : option EventKind :=
  if String.eqb raw "countersign" then Some COUNTERSIGN
  else if String.eqb raw "severity" then Some SEVERITY
  else if String.eqb raw "regression" then Some REGRESSION
  else if String.eqb raw "impact" then Some IMPACT
  else if String.eqb raw "vuln_scan" then Some VULN_SCAN
  else None.

(** ** Actors *)

Definition reject (b : bool) (e : service_error) : res unit := raise_if b (Service e).

Definition reject_machine_disposition (actor disposition : dict) : res unit :=
  reject (py_eqb (get "kind" actor) (JStr "machine") && bool_decide (disposition <> ∅))
    MachineDispositionError.

Definition reject_machine_human_lane (actor : LayerActor) (event_kind : EventKind) : res unit :=
  reject (bool_decide (event_kind ∈ HUMAN_LANE) && String.eqb (kind actor) "machine")
    MachineDispositionError.

Definition require_human_identity (actor : LayerActor) (event_kind : EventKind) : res unit :=
  reject (bool_decide (event_kind ∈ HUMAN_LANE) && negb (opt_truthy (identity actor)))
    IdentityRequiredError.

Definition is_verified (actor : LayerActor) : bool :=
  match identity_verified actor, employee_status actor with
  | Some b, _ => b
  | None, Some s => String.eqb s "active"
  | None, None => default false (ldap_verified actor)
  end.

Definition require_verified_for_false_positive (actor : LayerActor) (validity : string) : res unit :=
  reject (String.eqb validity "false_positive" && String.eqb (kind actor) "human"
          && negb (opt_truthy (identity actor) && is_verified actor))
    IdentityUnverifiedError.

Definition require_verified_human (actor : LayerActor) : res unit :=
  let identity := strip (default "" (identity actor)) in
  _ ← reject (negb (String.eqb (kind actor) "human") || negb (str_truthy identity)) IdentityRequiredError;
  reject (negb (is_verified actor)) IdentityUnverifiedError.

Definition normalize (s : string) : string := lower (strip s).

Definition require_admin (actor : LayerActor) (admin_identities : list string) : res unit :=
  _ ← require_verified_human actor;
  let allowed := map normalize (List.filter (fun a => str_truthy (strip a)) admin_identities) in
  reject (negb (bool_decide (normalize (default "" (identity actor)) ∈ allowed))) NotAnAdminError.

(** ** Restatements *)

(** [(authority or {}).get(key) if isinstance(authority, dict) else None]. *)
Definition authority_field (key : string) (block : dict) : json :=
  match get "authority" block with JObj a => get key a | _ => JNull end.

Definition require_restatement_authority (block : dict) : res unit :=
  _ ← reject (negb (get_truthy "target" block)) RestatementAuthorityError;
  _ ← reject (match authority_field "ticket" block with
              | JStr t => negb (str_truthy (strip t)) | _ => true end) RestatementAuthorityError;
  _ ← reject (bool_decide (block !! "after" = None)) RestatementAuthorityError;
  reject (match block !! "before" with
          | Some b => py_eqb b (get "after" block) | None => false end) RestatementAuthorityError.

Definition require_something_to_restate (block : dict) (actual : json) : res unit :=
  match get "before" block with
  | JObj before =>
      reject (match actual with
              | JObj a => existsb (fun kv => bool_decide (a !! kv.1 = None)) (items before)
              | _ => true
              end) NothingToRestateError
  | _ => reject (nothing_recorded actual) NothingToRestateError
  end.

Definition require_fresh_restatement (block : dict) (actual : json) : res unit :=
  match get "before" block, actual with
  | JObj before, JObj a =>
      reject (existsb (fun kv => py_neqb (get kv.1 a) kv.2) (items before)) StaleRestatementError
  | before, _ => reject (py_neqb before actual) StaleRestatementError
  end.

(** The entries of [after] that the chain already moved away from. *)
Definition replayed_keys (events : list json) (target : string) (after : dict) : res (list string) :=
  kvs ← filterR (fun kv => vs ← retired_values events target (Some kv.1); Ok (py_in kv.2 vs)) (items after);
  Ok (map fst kvs).

Definition require_monotonic_restatement (block : dict) (events : list json) : res unit :=
  target ← py_str (get "target" block);
  match get "after" block with
  | JObj after =>
      keys ← replayed_keys events target after;
      match keys with
      | [] => Ok tt
      | _ => Err (Service (RetiredValueRestatedError keys))
      end
  | after =>
      vs ← retired_values events target None;
      reject (py_in after vs) (RetiredValueRestatedError ["(whole value)"])
  end.

(** The distinct approvers other than the actor. *)
Definition independent_approvers (block : dict) (actor : LayerActor) : list string :=
  let approvers :=
    match authority_field "approved_by" block with
    | JStr raw => map normalize (List.filter (fun a => str_truthy (strip a)) (split ","%char raw))
    | _ => []
    end in
  remove_dups (List.filter (fun a => negb (String.eqb a (normalize (default "" (identity actor))))) approvers).

Definition require_restatement_approvers (block : dict) (actor : LayerActor) (minimum : Z) : res unit :=
  if (minimum <=? 0)%Z then Ok tt
  else
    let found := Z.of_nat (length (independent_approvers block actor)) in
    reject (found <? minimum)%Z (InsufficientApproversError minimum found).

(** ** Content *)

Definition RATIONALE_MIN_LENGTH : Z := 10.
Definition require_rationale_length (rationale : string) : res unit :=
  reject (str_len rationale <? RATIONALE_MIN_LENGTH)%Z RationaleTooShortError.

(** [_parse_recorded_at]: the instant, a naive time being read as UTC. *)
Definition parse_recorded_at (recorded_at : string) : res Z :=
  dt ← of_option (fromisoformat recorded_at) ValueError; Ok (micros dt).

Definition TIMESTAMP_FUTURE_LIMIT_HOURS : Z := 24.
Definition require_timestamp_bounds (now : Z) (recorded_at : string) : res unit :=
  parsed ← parse_recorded_at recorded_at;
  reject (now + TIMESTAMP_FUTURE_LIMIT_HOURS * 3600 * 1000000 <? parsed)%Z TimestampFutureError.

Definition require_valid_epoch (layer : dict) : res unit :=
  match get "events" layer with
  | JArr (e :: es) =>
      match get "metadata" layer with
      | JObj metadata =>
          let raw_epoch := get "merkle_epoch" metadata in
          _ ← reject (is_null raw_epoch) InvalidEpochError;
          epoch ← py_int raw_epoch;
          reject ((epoch <? 0)%Z || (Z.of_nat (length (e :: es)) <? epoch)%Z) InvalidEpochError
      | _ => Err (Service InvalidEpochError)
      end
  | _ => Ok tt
  end.

(** ** The two-person rule *)

Inductive parsed_event := Parsed (e : LayerEvent) | Unparseable | NotAnEvent.

Section TwoPerson.
Context `{Contracts}.

Definition parse_event (raw : json) : parsed_event :=
  match raw with
  | JObj d => match event_model_validate d with Some e => Parsed e | None => Unparseable end
  | _ => NotAnEvent
  end.

Definition matches_finding (e : LayerEvent) (ref : string) : bool :=
  String.eqb (finding_ref e) ref
  || (opt_truthy (fingerprint_of e) && bool_decide (fingerprint_of e = Some ref)).

(** The parsed events about the finding. *)
Definition matching_events (raw_events : list json) (ref : string) : list LayerEvent :=
  List.filter (fun e => matches_finding e ref)
    (omap (fun raw => match parse_event raw with Parsed e => Some e | _ => None end) raw_events).
Definition has_unparseable (raw_events : list json) : bool :=
  existsb (fun raw => match parse_event raw with Unparseable => true | _ => false end) raw_events.

Definition exec_confirmed (e : LayerEvent) : bool :=
  bool_decide (source_type (source e) ∈ EXEC_SOURCE_TYPES) && has_validity CONFIRMED e.
(** A verified human's earlier false-positive verdict. *)
Definition signed_fp (e : LayerEvent) : bool :=
  has_validity FALSE_POSITIVE e && is_human e && actor_verified e
  && opt_truthy (identity (actor (source e))).

Definition require_two_person (layer : dict) (ref actor_identity incoming_validity : string) : res unit :=
  if negb (String.eqb incoming_validity "false_positive") then Ok tt
  else match get "events" layer with
       | JArr raw_events =>
           let matching := matching_events raw_events ref in
           let unparseable := has_unparseable raw_events in
           if negb (existsb exec_confirmed matching) && negb unparseable then Ok tt
           else
             _ ← reject unparseable TwoPersonViolatedError;
             reject (existsb (fun e => signed_fp e
                       && bool_decide (identity (actor (source e)) = Some actor_identity)) matching)
               TwoPersonViolatedError
       | _ => Ok tt
       end.
End TwoPerson.

(** ** Lemmas *)

Lemma reject_ok b e : reject b e = Ok tt <-> b = false.
Proof. apply raise_if_ok. Qed.
Lemma bind_unit_ok {E} (r s : result E unit) : (_ ← r; s) = Ok tt <-> r = Ok tt /\ s = Ok tt.
Proof. destruct r as [[]|]; simpl; naive_solver. Qed.

Lemma require_verified_human_ok actor :
  require_verified_human actor = Ok tt
  <-> kind actor = "human" /\ strip (default "" (identity actor)) <> "" /\ is_verified actor = true.
Proof.
  unfold require_verified_human. rewrite bind_unit_ok !reject_ok orb_false_iff !negb_false_iff.
  rewrite String.eqb_eq str_truthy_spec. tauto.
Qed.

Lemma mapped_filter_in {A} (f : A -> string) (g : A -> bool) l s :
  s ∈ map f (List.filter g l) <-> exists a, a ∈ l /\ g a = true /\ f a = s.
Proof.
  rewrite list_elem_of_In in_map_iff. setoid_rewrite filter_In. setoid_rewrite list_elem_of_In.
  naive_solver.
Qed.

(** ** Properties *)

(** The admin gate admits exactly the verified humans on the list.  It
    passes if and only if the actor is a human with a non-blank, verified
    identity that equals - up to case and surrounding space - a non-blank
    configured one.  In particular an empty list admits nobody. *)
Theorem admin_gate_exact actor admin_identities :
  require_admin actor admin_identities = Ok tt
  <-> kind actor = "human" /\ strip (default "" (identity actor)) <> "" /\ is_verified actor = true
      /\ exists a, a ∈ admin_identities /\ strip a <> ""
                   /\ normalize a = normalize (default "" (identity actor)).
Proof.
  unfold require_admin. rewrite bind_unit_ok require_verified_human_ok reject_ok negb_false_iff.
  rewrite bool_decide_eq_true mapped_filter_in. setoid_rewrite str_truthy_spec. tauto.
Qed.

(** The approval threshold counts independent people.  A restatement passes
    a positive threshold if and only if its authority names at least that many
    different approvers, after folding case and space, none of them the actor. *)
Theorem approvers_gate_exact block actor minimum : (0 < minimum)%Z ->
  require_restatement_approvers block actor minimum = Ok tt
  <-> exists people, NoDup people /\ (minimum <= Z.of_nat (length people))%Z
      /\ Forall (fun p => p <> normalize (default "" (identity actor))
                 /\ exists raw a, authority_field "approved_by" block = JStr raw
                      /\ a ∈ split ","%char raw /\ strip a <> "" /\ normalize a = p) people.
Proof.
  intros Hmin. unfold require_restatement_approvers.
  destruct (Z.leb_spec minimum 0); [lia|]. rewrite reject_ok Z.ltb_ge.
  assert (forall p, p ∈ independent_approvers block actor
    <-> p <> normalize (default "" (identity actor))
        /\ exists raw a, authority_field "approved_by" block = JStr raw
             /\ a ∈ split ","%char raw /\ strip a <> "" /\ normalize a = p) as Hin.
  { intros p. unfold independent_approvers. rewrite elem_of_remove_dups list_elem_of_In filter_In.
    rewrite -list_elem_of_In negb_true_iff String.eqb_neq.
    destruct (authority_field "approved_by" block) as [| | |raw| |];
      try (rewrite elem_of_nil; naive_solver).
    rewrite mapped_filter_in. setoid_rewrite str_truthy_spec. naive_solver. }
  split.
  - intros Hlen. exists (independent_approvers block actor).
    split; [apply NoDup_remove_dups|]. split; [done|].
    apply Forall_forall. intros p Hp. by apply Hin.
  - intros (people & Hnd & Hlen & Hall). etrans; [exact Hlen|]. apply inj_le.
    apply submseteq_length, NoDup_submseteq; [done|]. intros p Hp. apply Hin.
    rewrite Forall_forall in Hall. by apply Hall.
Qed.

Section GateProperties.
Context `{Contracts}.

(** No one signs twice over an execution proof.  If a false-positive
    verdict passes the two-person gate on a finding that an execution source
    confirmed, then every stored event could be read, and no earlier
    false-positive verdict on that finding is by a verified human with the
    actor's identity. *)
Lemma two_person_ok layer raw_events ref actor_identity proof :
  get "events" layer = JArr raw_events ->
  proof ∈ matching_events raw_events ref -> exec_confirmed proof = true ->
  require_two_person layer ref actor_identity "false_positive" = Ok tt ->
  has_unparseable raw_events = false
  /\ forall e, e ∈ matching_events raw_events ref -> signed_fp e = true ->
     identity (actor (source e)) <> Some actor_identity.
Proof.
  intros Hev Hproof Hconf. unfold require_two_person. rewrite Hev. cbn.
  assert (existsb exec_confirmed (matching_events raw_events ref) = true) as ->.
  { apply existsb_exists. exists proof. by rewrite -list_elem_of_In. }
  cbn [negb andb]. rewrite bind_unit_ok !reject_ok. intros [Hun Hsig]. split; [done|].
  intros e He Hs Hid. assert (existsb (fun e => signed_fp e
    && bool_decide (identity (actor (source e)) = Some actor_identity))
    (matching_events raw_events ref) = true) as Hex; [|congruence].
  apply existsb_exists. exists e. rewrite -list_elem_of_In. split; [done|].
  by rewrite Hs bool_decide_true.
Qed.
End GateProperties.

(** *** No way back *)

Lemma py_in_elem v l w : w ∈ l -> py_eqb v w = true -> py_in v l = true.
Proof. intros Hw Heq. apply existsb_exists. exists w. by rewrite -list_elem_of_In. Qed.

(** A retired value does not come back.  If some restatement of [target]
    already named the value [v] for key [k], as what was there before or as what
    it set, a restatement that sets [k] to [v] again is refused. *)
Lemma no_rollback block events target b k v v' m after :
  get "target" block = JStr target -> earlier_restatement events target b ->
  get "before" b = JObj m \/ get "after" b = JObj m -> m !! k = Some v ->
  get "after" block = JObj after -> after !! k = Some v' -> py_eqb v' v = true ->
  require_monotonic_restatement block events <> Ok tt.
Proof.
  intros Ht He Hm Hk Ha Hk' Heq. unfold require_monotonic_restatement.
  rewrite Ht Ha. cbn [py_str mbind result_bind]. unfold replayed_keys.
  destruct (filterR _ (items after)) as [kvs|] eqn:Hf; cbn [mbind result_bind]; [|done].
  assert (exists vs, retired_values events target (Some k) = Ok vs) as [vs Hvs].
  { apply items_lookup in Hk'. clear -Hf Hk'. revert kvs Hf. induction (items after) as [|kv l IH]; intros kvs Hf;
      [by apply not_elem_of_nil in Hk'|]. simpl in Hf. inv_ok. apply elem_of_cons in Hk' as [<-|Hin]; [|by eapply IH].
    cbn in *. destruct (retired_values events target (Some k)); [by eexists|done]. }
  assert (v ∈ vs) as Hin.
  { unfold retired_values in Hvs. inv_bind Hvs as [blocks|] Hr. injection Hvs as <-.
    apply list_elem_of_In, in_concat. exists (block_values (Some k) b).
    split; [apply in_map, list_elem_of_In; exact (earlier_in _ _ _ _ He Hr)|].
    apply list_elem_of_In. unfold block_values. destruct Hm as [-> | ->]; rewrite Hk; set_solver. }
  assert ((k, v') ∈ kvs) as Hkv.
  { eapply filterR_keeps; [exact Hf|by apply items_lookup|]. cbn [fst snd].
    rewrite Hvs. cbn [mbind result_bind]. f_equal. exact (py_in_elem _ _ _ Hin Heq). }
  destruct kvs; [by apply not_elem_of_nil in Hkv|done].
Qed.

(** Nor does a value of a field that is no map. *)
Lemma no_rollback_value block events target b v :
  get "target" block = JStr target -> earlier_restatement events target b ->
  v = get "before" b \/ v = get "after" b ->
  (forall after, get "after" block <> JObj after) -> py_eqb (get "after" block) v = true ->
  require_monotonic_restatement block events <> Ok tt.
Proof.
  intros Ht He Hv Hno Heq. unfold require_monotonic_restatement. rewrite Ht. cbn [py_str mbind result_bind].
  unfold retired_values. destruct (restatements_for events target) as [blocks|] eqn:Hr; cbn [mbind result_bind];
    [|destruct (get "after" block); try done; by destruct (Hno m)].
  assert (py_in (get "after" block) (concat (map (block_values None) blocks)) = true) as Hin.
  { refine (py_in_elem _ _ v _ Heq). apply list_elem_of_In, in_concat. exists (block_values None b).
    split; [apply in_map, list_elem_of_In; exact (earlier_in _ _ _ _ He Hr)|]. apply list_elem_of_In. cbn. set_solver. }
  destruct (get "after" block); try (by rewrite Hin). by destruct (Hno m).
Qed.

(** ** Witnesses *)

Definition sample_approved : dict :=
  {["target" := JStr "claim_hashes"; "after" := JObj {["F1" := JStr "c"]};
    "authority" := JObj {["ticket" := JStr "SEC-1"; "approved_by" := JStr "Ann, bob ,ann,,root"]}]}.

Lemma approvers_gate_exact_witness :
  exists people, NoDup people /\ (2 <= Z.of_nat (length people))%Z
    /\ Forall (fun p => p <> normalize (default "" (identity (sample_actor "human" (Some "Root") (Some true))))
               /\ exists raw a, authority_field "approved_by" sample_approved = JStr raw
                    /\ a ∈ split ","%char raw /\ strip a <> "" /\ normalize a = p) people.
Proof.
  apply (approvers_gate_exact sample_approved (sample_actor "human" (Some "Root") (Some true)) 2);
    [lia|vm_compute; reflexivity].
Defined.

Definition event_doc (id at_ ty who_kind who v : string) : json :=
  JObj {["event_id" := JStr id; "finding_ref" := JStr "F1"; "recorded_at" := JStr at_;
         "source" := JObj {["type" := JStr ty; "ref" := JStr "ref";
           "actor" := JObj {["kind" := JStr who_kind; "identity" := JStr who; "identity_verified" := JBool true]}]};
         "disposition" := JObj {["validity" := JStr v]}]}.
Definition challenged_events : list json :=
  [event_doc "E1" "2026-01-01T00:00:00Z" "validation_report" "machine" "scanner" "confirmed";
   event_doc "E2" "2026-01-02T00:00:00Z" "interactive" "human" "ann" "false_positive"].
(** The first signer is refused, another is not. *)
Example two_person_passes_bob :
  require_two_person {["events" := JArr challenged_events]} "F1" "bob" "false_positive" = Ok tt.
Proof. vm_compute. reflexivity. Qed.
Example two_person_refuses_ann :
  require_two_person {["events" := JArr challenged_events]} "F1" "ann" "false_positive"
  = Err (Service TwoPersonViolatedError).
Proof. vm_compute. reflexivity. Qed.
