(* ===== verification/Records.v ===== *)
(** * Stored records

    [_internal/backends/records.py]: a layer document as the rows of the
    normalized store - one row of payloads for the layer, one per event - and
    back.  The payload bytes are authoritative; the other columns are projections
    for queries. *)

From S2P Require Import Prelude PyStr Json Errors Contracts Time.
From stdpp Require Import options.

(** ** Encoding *)

Definition KNOWN_ROOT_KEYS : list string := ["events"; "metadata"; "needs_review"].

Definition encode_json (v : json) : bytes := utf8 (dumps true v).

(** [json.loads(payload.decode("utf-8"))]; both failures are [ValueError]s. *)
Definition decode_json (payload : bytes) : res json :=
  cs ← of_option (utf8_decode payload) ValueError;
  of_option (loads_chars cs) ValueError.

Definition as_object (v : json) (e : storage_error) : res dict :=
  match v with JObj m => Ok m | _ => Err (Storage e) end.
Definition as_array (v : json) (e : storage_error) : res (list json) :=
  match v with JArr l => Ok l | _ => Err (Storage e) end.
Definition optional_object (v : json) : dict := match v with JObj m => m | _ => ∅ end.

(** Backslashes doubled and NUL written out, for text columns. *)
Definition escape_char (c : ascii) : list ascii :=
  if (code c =? 92)%Z then ["\"%char; "\"%char]
  else if (code c =? 0)%Z then chars "\u0000" else [c].
Definition optional_string (v : json) : option string :=
  match v with JStr s => Some (of_chars (flat_map escape_char (chars s))) | _ => None end.
Definition optional_integer (v : json) : option Z := match v with JInt z => Some z | _ => None end.
Definition optional_boolean (v : json) : option bool := match v with JBool b => Some b | _ => None end.

Definition timestamp (v : json) : option datetime :=
  match v with
  | JStr s =>
      if str_truthy s
      then fromisoformat (of_chars (flat_map (fun c => if (code c =? 90)%Z then chars "+00:00" else [c])
                            (chars s)))
      else None
  | _ => None
  end.

(** ** Records *)

Record EventRecord := { er_sequence : Z; er_document : dict; er_event_id : string }.

Definition event_from_document (sequence : Z) (v : json) : res EventRecord :=
  document ← as_object v InvalidLayerDocumentError;
  match get "event_id" document with
  | JStr s => if str_truthy s
              then Ok {| er_sequence := sequence; er_document := document; er_event_id := s |}
              else Err (Storage InvalidLayerDocumentError)
  | _ => Err (Storage InvalidLayerDocumentError)
  end.
Definition event_payload (r : EventRecord) : bytes := encode_json (JObj (er_document r)).

(** A row of the events table. *)
Record event_row := {
  row_layer_id : string;
  row_seq : Z;
  row_event_id : string;
  row_finding_ref : option string;
  row_fingerprint : option string;
  row_fingerprint_algo : option string;
  row_recorded_at : option datetime;
  row_occurred_at : option datetime;
  row_source_type : option string;
  row_source_ref : option string;
  row_actor_kind : option string;
  row_actor_identity : option string;
  row_validity : option string;
  row_resolution : option string;
  row_evidence_grade : option string;
  row_auto_accept_tier : option bool;
  row_payload : bytes
}.

Definition database_values (layer_id : string) (r : EventRecord) : event_row :=
  let doc := er_document r in
  let source := optional_object (get "source" doc) in
  let actor := optional_object (get "actor" source) in
  let disposition := optional_object (get "disposition" doc) in
  {| row_layer_id := layer_id;
     row_seq := er_sequence r;
     row_event_id := er_event_id r;
     row_finding_ref := optional_string (get "finding_ref" doc);
     row_fingerprint := optional_string (get "fingerprint" doc);
     row_fingerprint_algo := optional_string (get "fingerprint_algo" doc);
     row_recorded_at := timestamp (get "recorded_at" doc);
     row_occurred_at := timestamp (get "occurred_at" doc);
     row_source_type := optional_string (get "type" source);
     row_source_ref := optional_string (get "ref" source);
     row_actor_kind := optional_string (get "kind" actor);
     row_actor_identity := optional_string (get "identity" actor);
     row_validity := optional_string (get "validity" disposition);
     row_resolution := optional_string (get "resolution" disposition);
     row_evidence_grade := optional_string (get "evidence_grade" doc);
     row_auto_accept_tier := optional_boolean (get "auto_accept_tier" doc);
     row_payload := event_payload r |}.

Record LayerRecord := {
  lr_metadata : dict;
  lr_events : list EventRecord;
  lr_needs_review : list json;
  lr_extensions : dict;
  lr_root_keys : list string
}.

(** [layer.get(key) or {}], [... or []]. *)
Definition or_value (v dflt : json) : json := if truthy v then v else dflt.

Definition is_root_key (k : string) : bool := bool_decide (k ∈ KNOWN_ROOT_KEYS).

(** [enumerate]. *)
Fixpoint enumerate_from {A} (i : Z) (l : list A) : list (Z * A) :=
  match l with [] => [] | x :: l' => (i, x) :: enumerate_from (i + 1) l' end.

Definition layer_from_document (document : json) : res LayerRecord :=
  layer ← as_object document InvalidLayerDocumentError;
  metadata ← as_object (or_value (get "metadata" layer) (JObj ∅)) InvalidLayerDocumentError;
  raw_events ← as_array (or_value (get "events" layer) (JArr [])) InvalidLayerDocumentError;
  needs_review ← as_array (or_value (get "needs_review" layer) (JArr [])) InvalidLayerDocumentError;
  events ← mapR (fun iv => event_from_document iv.1 iv.2) (enumerate_from 0 raw_events);
  Ok {| lr_metadata := metadata; lr_events := events; lr_needs_review := needs_review;
        lr_extensions := filter (fun kv => is_root_key kv.1 = false) layer;
        lr_root_keys := List.filter (fun k => bool_decide (is_Some (layer !! k))) KNOWN_ROOT_KEYS |}.

Definition event_payloads (r : LayerRecord) : list bytes := map event_payload (lr_events r).

(** How many events are already stored: history may be extended, never
    shortened or rewritten. *)
Definition append_offset (r : LayerRecord) (stored : list bytes) : res nat :=
  let incoming := event_payloads r in
  _ ← raise_if (length incoming <? length stored)%nat (Storage LayerConflictError);
  _ ← raise_if (negb (bool_decide (take (length stored) incoming = stored))) (Storage LayerConflictError);
  Ok (length stored).

(** The columns of a row of the layers table, but for its key and owner. *)
Record layer_values := {
  lv_metadata_payload : bytes;
  lv_needs_review_payload : bytes;
  lv_extensions_payload : bytes;
  lv_root_keys_payload : bytes;
  lv_repository : option string;
  lv_created_at : option datetime;
  lv_merkle_root : option string;
  lv_merkle_epoch : option Z;
  lv_merkle_size : option Z;
  lv_merkle_root_signature : option string;
  lv_merkle_signing_method : option string;
  lv_merkle_signature_format : option Z
}.
Definition layer_values_of (r : LayerRecord) : layer_values :=
  let m := lr_metadata r in
  {| lv_metadata_payload := encode_json (JObj m);
     lv_needs_review_payload := encode_json (JArr (lr_needs_review r));
     lv_extensions_payload := encode_json (JObj (lr_extensions r));
     lv_root_keys_payload := encode_json (JArr (map JStr (lr_root_keys r)));
     lv_repository := optional_string (get "repository" m);
     lv_created_at := timestamp (get "created" m);
     lv_merkle_root := optional_string (get "merkle_root" m);
     lv_merkle_epoch := optional_integer (get "merkle_epoch" m);
     lv_merkle_size := optional_integer (get "merkle_size" m);
     lv_merkle_root_signature := optional_string (get "merkle_root_signature" m);
     lv_merkle_signing_method := optional_string (get "merkle_signing_method" m);
     lv_merkle_signature_format := optional_integer (get "merkle_signature_format" m) |}.

Definition new_event_values (r : LayerRecord) (layer_id : string) (offset : nat) : list event_row :=
  map (database_values layer_id) (drop offset (lr_events r)).

Record StoredLayerRecord := {
  sr_metadata : dict;
  sr_needs_review : list json;
  sr_extensions : dict;
  sr_root_keys : list string
}.

Definition from_payloads (metadata needs_review extensions root_keys : bytes) : res StoredLayerRecord :=
  keys ← (v ← decode_json root_keys; as_array v CorruptStoredLayerError);
  names ← mapR (fun k => of_option (as_str k) (Storage CorruptStoredLayerError)) keys;
  m ← (v ← decode_json metadata; as_object v CorruptStoredLayerError);
  q ← (v ← decode_json needs_review; as_array v CorruptStoredLayerError);
  x ← (v ← decode_json extensions; as_object v CorruptStoredLayerError);
  Ok {| sr_metadata := m; sr_needs_review := q; sr_extensions := x; sr_root_keys := names |}.

Definition reconstruct (s : StoredLayerRecord) (payloads : list bytes) : res dict :=
  events ← mapR (fun p => v ← decode_json p; as_object v CorruptStoredLayerError) payloads;
  let values : dict := {["metadata" := JObj (sr_metadata s); "events" := JArr (map JObj events);
                         "needs_review" := JArr (sr_needs_review s)]} in
  Ok (fold_left (fun layer k => match values !! k with Some v => <[k := v]> layer | None => layer end)
        (sr_root_keys s) (sr_extensions s)).

(** ** Lemmas *)

Lemma decode_encode v : decode_json (encode_json v) = Ok v.
Proof.
  unfold decode_json, encode_json, utf8. rewrite utf8_decode_encode. cbn [of_option mbind result_bind].
  pose proof (loads_dumps true v) as Hl. unfold loads in Hl. by rewrite Hl.
Qed.
Lemma encode_json_inj : Inj (=) (=) encode_json.
Proof. intros v w Heq. apply (f_equal decode_json) in Heq. rewrite !decode_encode in Heq. by injection Heq. Qed.
#[global] Existing Instance encode_json_inj.

(** What a schema-shaped layer consists of. *)
Record shaped (layer : dict) := {
  sh_metadata : dict; sh_events : list dict; sh_needs_review : list json;
  sh_metadata_of : layer !! "metadata" = Some (JObj sh_metadata);
  sh_events_of : layer !! "events" = Some (JArr (map JObj sh_events));
  sh_needs_review_of : layer !! "needs_review" = Some (JArr sh_needs_review);
  sh_ids : forallb event_shape (map JObj sh_events) = true
}.

Lemma get_lookup_some k (d : dict) v : get k d = v -> v <> JNull -> d !! k = Some v.
Proof. unfold get. destruct (d !! k); simpl; congruence. Qed.

Lemma layer_shape_shaped layer : layer_shape layer = true -> shaped layer.
Proof.
  unfold layer_shape. destruct (get "metadata" layer) as [| | | | |m] eqn:Hm; try done.
  destruct (get "events" layer) as [| | | |es|] eqn:He; try done.
  destruct (get "needs_review" layer) as [| | | |q|] eqn:Hq; try done. intros Hall.
  assert (es = map JObj (omap as_dict es)) as Hes.
  { clear -Hall. induction es as [|e es IH]; [done|]. simpl in Hall. apply andb_true_iff in Hall as [He Hall].
    destruct e; try done. csimpl. f_equal. by apply IH. }
  exists m (omap as_dict es) q; [by apply get_lookup_some|rewrite -Hes; by apply get_lookup_some
    |by apply get_lookup_some|by rewrite -Hes].
Qed.

Lemma event_from_document_ok i e s : get "event_id" e = JStr s -> str_truthy s = true ->
  event_from_document i (JObj e) = Ok {| er_sequence := i; er_document := e; er_event_id := s |}.
Proof. intros Hid Hs. unfold event_from_document. cbn [as_object mbind result_bind]. by rewrite Hid Hs. Qed.

Lemma events_from_documents es i : forallb event_shape (map JObj es) = true ->
  exists rs, mapR (fun iv => event_from_document iv.1 iv.2) (enumerate_from i (map JObj es)) = Ok rs
    /\ map er_document rs = es
    /\ map er_sequence rs = map (fun n => i + Z.of_nat n)%Z (seq 0 (length es)).
Proof.
  revert i. induction es as [|e es IH]; intros i Hall; [by exists []|].
  cbn [map forallb event_shape] in Hall. apply andb_true_iff in Hall as [He Hall].
  destruct (get "event_id" e) as [| | |s| |] eqn:Hid; try done.
  destruct (IH (i + 1)%Z Hall) as (rs & Hrs & Hd & Hs).
  exists ({| er_sequence := i; er_document := e; er_event_id := s |} :: rs).
  cbn [enumerate_from map mapR fst snd]. rewrite (event_from_document_ok i e s) //.
  cbn [mbind result_bind]. rewrite Hrs.
  split; [done|]. split; [cbn; by rewrite Hd|]. cbn [map length seq er_sequence]. f_equal; [lia|].
  rewrite Hs -seq_shift map_map. apply map_ext. intros. lia.
Qed.

Lemma or_value_typed v dflt : v <> JNull ->
  match v with JObj m => dflt = JObj ∅ | JArr l => dflt = JArr [] | _ => False end -> or_value v dflt = v.
Proof.
  unfold or_value. destruct v as [| | | |l|m]; try done; intros _ ->.
  - by destruct l.
  - cbn [truthy]. case_bool_decide as Hm; [done|]. f_equal. symmetry. by apply dec_stable.
Qed.

Lemma layer_record_shaped layer (sh : shaped layer) :
  exists r, layer_from_document (JObj layer) = Ok r
    /\ lr_metadata r = sh_metadata _ sh /\ map er_document (lr_events r) = sh_events _ sh
    /\ map er_sequence (lr_events r) = map Z.of_nat (seq 0 (length (sh_events _ sh)))
    /\ lr_needs_review r = sh_needs_review _ sh
    /\ lr_extensions r = filter (fun kv => is_root_key kv.1 = false) layer
    /\ lr_root_keys r = KNOWN_ROOT_KEYS.
Proof.
  destruct sh as [m es q Hm He Hq Hids]. cbn [sh_metadata sh_events sh_needs_review].
  unfold layer_from_document. cbn [as_object mbind result_bind]. unfold get. rewrite Hm He Hq. cbn [default id].
  rewrite !or_value_typed //. cbn [as_object as_array mbind result_bind].
  destruct (events_from_documents es 0 Hids) as (rs & -> & Hd & Hs). cbn [mbind result_bind].
  eexists. split; [reflexivity|]. cbn. rewrite He Hm Hq. split_and!; done.
Qed.

Lemma insert_root_keys (layer : dict) m es q :
  layer !! "metadata" = Some m -> layer !! "events" = Some es -> layer !! "needs_review" = Some q ->
  <["needs_review" := q]> (<["metadata" := m]> (<["events" := es]>
    (filter (fun kv => is_root_key kv.1 = false) layer))) = layer.
Proof.
  intros Hm He Hq. apply map_eq. intros k.
  destruct (decide (k = "needs_review")) as [->|H1]; [by rewrite lookup_insert_eq|].
  rewrite lookup_insert_ne; [congruence|]. destruct (decide (k = "metadata")) as [->|H2]; [by rewrite lookup_insert_eq|].
  rewrite lookup_insert_ne; [congruence|]. destruct (decide (k = "events")) as [->|H3]; [by rewrite lookup_insert_eq|].
  rewrite lookup_insert_ne; [congruence|]. rewrite map_lookup_filter.
  destruct (layer !! k); [|done]. cbn. rewrite option_guard_True //.
  unfold is_root_key, KNOWN_ROOT_KEYS. apply bool_decide_eq_false. set_solver.
Qed.

Lemma decode_events rs :
  mapR (fun p => v ← decode_json p; as_object v CorruptStoredLayerError) (map event_payload rs)
  = Ok (map er_document rs).
Proof.
  induction rs as [|r rs IH]; [done|]. cbn [map mapR].
  assert (decode_json (event_payload r) = Ok (JObj (er_document r))) as -> by apply decode_encode.
  cbn [mbind result_bind as_object]. by rewrite IH.
Qed.

(** Writing a layer to rows and reading the rows back. *)
Definition read_back (r : LayerRecord) : res dict :=
  let v := layer_values_of r in
  s ← from_payloads (lv_metadata_payload v) (lv_needs_review_payload v) (lv_extensions_payload v)
        (lv_root_keys_payload v);
  reconstruct s (event_payloads r).

Lemma from_payloads_values r :
  from_payloads (lv_metadata_payload (layer_values_of r)) (lv_needs_review_payload (layer_values_of r))
    (lv_extensions_payload (layer_values_of r)) (lv_root_keys_payload (layer_values_of r))
  = Ok {| sr_metadata := lr_metadata r; sr_needs_review := lr_needs_review r;
          sr_extensions := lr_extensions r; sr_root_keys := lr_root_keys r |}.
Proof.
  unfold from_payloads, layer_values_of. cbn [lv_metadata_payload lv_needs_review_payload
    lv_extensions_payload lv_root_keys_payload]. rewrite !decode_encode. cbn [mbind result_bind as_array as_object].
  assert (forall ks, mapR (fun k => of_option (as_str k) (Storage CorruptStoredLayerError)) (map JStr ks)
    = Ok ks) as ->; [|done].
  induction ks as [|k ks IH]; [done|]. cbn. cbn in IH. by rewrite IH.
Qed.

Lemma read_back_shaped layer r : layer_shape layer = true ->
  layer_from_document (JObj layer) = Ok r -> read_back r = Ok layer.
Proof.
  intros sh%layer_shape_shaped Hr.
  destruct (layer_record_shaped layer sh) as (r' & Hr' & Hm & He & _ & Hq & Hx & Hk).
  rewrite Hr in Hr'. injection Hr' as <-. unfold read_back. rewrite from_payloads_values.
  cbn [mbind result_bind]. unfold reconstruct, event_payloads. rewrite decode_events.
  cbn [mbind result_bind sr_metadata sr_needs_review sr_extensions sr_root_keys].
  rewrite Hm He Hq Hx Hk. f_equal. destruct sh as [m es q Hm' He' Hq' Hids].
  cbn [sh_metadata sh_events sh_needs_review]. unfold KNOWN_ROOT_KEYS. cbn [fold_left].
  repeat first [rewrite lookup_insert_eq | rewrite lookup_insert_ne; [done|] | rewrite lookup_singleton_eq].
  by apply insert_root_keys.
Qed.

(** ** Properties *)

(** Storing a layer loses nothing.  Every schema-shaped layer has a record,
    and reading back the rows of that record - metadata, queue, unknown root
    keys, and every event in order - gives the layer itself. *)
Theorem layer_rows_round_trip layer :
  layer_shape layer = true ->
  exists r, layer_from_document (JObj layer) = Ok r /\ read_back r = Ok layer.
Proof.
  intros Hs. destruct (layer_record_shaped layer (layer_shape_shaped layer Hs)) as (r & Hr & _).
  exists r. split; [done|]. by apply read_back_shaped.
Qed.

Lemma append_offset_ok r stored n :
  append_offset r stored = Ok n <-> n = length stored /\ take (length stored) (event_payloads r) = stored.
Proof.
  unfold append_offset. destruct (Nat.ltb_spec (length (event_payloads r)) (length stored)) as [Hlt|Hge]; cbn.
  - split; [done|]. intros [_ Ht]. apply (f_equal length) in Ht. rewrite length_take in Ht. lia.
  - case_bool_decide as Ht; cbn; split; [intros [= <-]; done|intros [-> _]; done|done|by intros [_ ?]].
Qed.

(** History is append-only.  A layer's events are accepted over stored ones
    if and only if the stored documents are, one for one, its first events; the
    offset is then their number. *)
Theorem append_only r old n :
  append_offset r (map (fun d => encode_json (JObj d)) old) = Ok n
  <-> n = length old /\ exists new, map er_document (lr_events r) = old ++ new.
Proof.
  rewrite append_offset_ok length_map. apply and_iff_compat_l.
  assert (event_payloads r = map (fun d => encode_json (JObj d)) (map er_document (lr_events r))) as ->.
  { unfold event_payloads. by rewrite map_map. }
  set (docs := map er_document (lr_events r)). rewrite firstn_map. split.
  - intros Heq. exists (drop (length old) docs). rewrite -{1}(take_drop (length old) docs). f_equal.
    eapply (map_inj_eq (fun d => encode_json (JObj d))); [|exact Heq].
    intros a b He%(inj encode_json). by apply (inj JObj).
  - intros [new ->]. by rewrite take_app_length.
Qed.

(** ** Witnesses *)

Definition sample_stored_layer : dict := {[
  "metadata" := JObj {["repository" := JStr "h/r"; "merkle_epoch" := JInt 0]};
  "events" := JArr [JObj {["event_id" := JStr "E1"]}; JObj {["event_id" := JStr "E2"]}];
  "needs_review" := JArr []; "x-extra" := JBool true ]}.
Lemma layer_rows_round_trip_witness :
  exists r, layer_from_document (JObj sample_stored_layer) = Ok r /\ read_back r = Ok sample_stored_layer.
Proof. apply (layer_rows_round_trip sample_stored_layer). vm_compute. reflexivity. Defined.
