(* ===== verification/Backend.v ===== *)
(** * Storage keys and the backend interface

    [_internal/backends/keys.py], [paths.py] and the [Backend] protocol of
    [_internal/backends/__init__.py].  [Backend] is the set of operations;
    [BackendLaws] is what they promise a client, stated over an abstract view of
    the store ([stored]).  The file and the database backend are its instances,
    and the writer is proved against the interface alone. *)

From S2P Require Import Prelude PyStr Json Errors Contracts.
From stdpp Require Import options.

(** ** Keys *)

Inductive LayerKey := DbLayerKey (layer_id : string) | FileKey (path : string).
#[global] Instance layer_key_eq_dec : EqDecision LayerKey.
Proof. solve_decision. Defined.

Definition is_alnum (c : ascii) : bool := is_digit c || is_lower_az c || is_upper_az c.
Definition is_id_char (c : ascii) : bool :=
  is_alnum c || (code c =? 46)%Z || (code c =? 95)%Z || (code c =? 45)%Z.
Definition is_newline (c : ascii) : bool := (code c =? 10)%Z.

(** [$] also matches before a final newline. *)
Definition drop_final_newline (l : list ascii) : list ascii :=
  match last l with Some c => if is_newline c then take (length l - 1) l else l | None => l end.

Fixpoint has_dotdot (l : list ascii) : bool :=
  match l with
  | c :: (d :: _) as l' => ((code c =? 46)%Z && (code d =? 46)%Z) || has_dotdot l'
  | _ => false
  end.

(** [[a-zA-Z0-9]([a-zA-Z0-9._-]*[a-zA-Z0-9])?]. *)
Definition id_body (l : list ascii) : bool :=
  match l with
  | c :: _ => is_alnum c && forallb is_id_char l && from_option is_alnum false (last l)
  | [] => false
  end.

(** [re.match(LAYER_ID_PATTERN, layer_id)]; the characters it admits contain no
    newline but a final one, so the look-ahead sees the whole text. *)
Definition layer_id_ok (layer_id : string) : bool :=
  let l := drop_final_newline (chars layer_id) in
  negb (has_dotdot (chars layer_id))
  && match l with
     | c :: l' => if (code c =? 46)%Z then id_body l' else id_body l
     | [] => false
     end.

(** [re.match(DB_LAYER_ID_PATTERN, layer_id)]. *)
Definition db_inner (c : ascii) : bool := negb (in_range 0 31 c || (code c =? 127)%Z).
Definition db_outer (c : ascii) : bool := negb (in_range 0 32 c || (code c =? 127)%Z).
Definition db_layer_id_ok (layer_id : string) : bool :=
  let l := drop_final_newline (chars layer_id) in
  match l with
  | c :: _ => db_outer c && forallb db_inner l && from_option db_outer false (last l)
  | [] => false
  end.
Definition DB_LAYER_ID_MAX_LENGTH : Z := 512.

(** [Path.stem]. *)
Definition path_name (p : string) : string := default "" (last (split "/"%char p)).
Fixpoint drop_suffix_rev (l : list ascii) : option (list ascii) :=
  match l with
  | [] => None
  | c :: l' => if (code c =? 46)%Z then Some l' else drop_suffix_rev l'
  end.
Definition path_stem (p : string) : string :=
  let name := path_name p in
  let r := rev (chars name) in
  match r with
  | c :: _ =>
      if (code c =? 46)%Z then name
      else match drop_suffix_rev r with
           | Some [] | None => name
           | Some l => of_chars (rev l)
           end
  | [] => name
  end.

(** [str(Path(data_dir) / f"{layer_id}.json")], for a directory given without a
    trailing separator. *)
Definition join_path (data_dir name : string) : string := data_dir +:+ "/" +:+ name.
Definition layer_file_path (data_dir layer_id : string) : res string :=
  _ ← raise_if (negb (layer_id_ok layer_id)) ValueError;
  Ok (join_path data_dir (layer_id +:+ ".json")).

Definition layer_key (opaque_layer_ids : bool) (data_dir layer_id : string) : res LayerKey :=
  _ ← raise_if (negb (str_truthy layer_id)) (Service MissingLayerIdError);
  if opaque_layer_ids then
    _ ← raise_if ((DB_LAYER_ID_MAX_LENGTH <? str_len layer_id)%Z || negb (db_layer_id_ok layer_id))
          (Service InvalidLayerIdError);
    Ok (DbLayerKey layer_id)
  else
    _ ← raise_if (negb (layer_id_ok layer_id)) (Service InvalidLayerIdError);
    p ← layer_file_path data_dir layer_id;
    Ok (FileKey p).

(** ** The interface *)

Section Validate.
Context `{Contracts}.
(** [validation.validate_layer]. *)
Definition validate_layer (document : dict) : res unit :=
  raise_if (negb (schema_accepts document)) (Storage InvalidLayerDocumentError).
Lemma validate_layer_ok d u : validate_layer d = Ok u -> schema_accepts d = true.
Proof. unfold validate_layer. by destruct (schema_accepts d). Qed.
End Validate.

Definition EMPTY_LAYER : dict := {["events" := JArr []]}.

Class Backend (S : Type) := {
  opaque_layer_ids : bool;
  b_load : LayerKey -> S -> res dict;
  b_initialize : LayerKey -> dict -> option string -> S -> res S;
  b_store : LayerKey -> dict -> S -> res S;
  (** load, apply, store: one atomic step *)
  b_mutate : forall A : Type, LayerKey -> (dict -> res (A * dict)) -> S -> res (A * S)
}.
Arguments b_mutate {_ _ _}.

(** What a backend promises.  [slot] names the place a key stands for, [key_ok]
    says the backend takes keys of that form; [stored] is the layer kept in a
    slot, [good] the store's own invariant. *)
Class BackendLaws (S : Type) `{Backend S, Contracts} := {
  slot : LayerKey -> string;
  key_ok : LayerKey -> Prop;
  stored : string -> S -> option dict;
  good : S -> Prop;
  mutate_promise A k (f : dict -> res (A * dict)) s a s' :
    good s -> b_mutate k f s = Ok (a, s') ->
    exists d d', stored (slot k) s = Some d /\ f d = Ok (a, d') /\ schema_accepts d' = true
      /\ stored (slot k) s' = Some d' /\ good s' /\ key_ok k
      /\ forall i, i <> slot k -> stored i s' = stored i s;
  initialize_promise k d owner s s' :
    good s -> b_initialize k d owner s = Ok s' ->
    stored (slot k) s = None /\ schema_accepts d = true /\ stored (slot k) s' = Some d /\ good s'
      /\ key_ok k /\ forall i, i <> slot k -> stored i s' = stored i s;
  load_promise k s d :
    good s -> key_ok k -> stored (slot k) s = Some d -> schema_accepts d = true -> b_load k s = Ok d
}.

(** What a backend promises of [store], which replaces a whole document:
    [store_checked] says that it refuses one whose events do not continue the
    stored ones. *)
Class StoreLaws (S : Type) `{BackendLaws S} := {
  store_checked : bool;
  store_promise k d s s' :
    good s -> b_store k d s = Ok s' ->
    stored (slot k) s' = Some d /\ good s' /\ forall i, i <> slot k -> stored i s' = stored i s;
  store_continues k d0 d es s s' :
    store_checked = true -> good s -> b_store k d s = Ok s' -> stored (slot k) s = Some d0 ->
    get "events" d0 = JArr es -> exists new, get "events" d = JArr (es ++ new)
}.

(** ** Properties of keys *)

Lemma layer_id_ok_chars layer_id c : layer_id_ok layer_id = true -> c ∈ chars layer_id ->
  is_id_char c = true \/ is_newline c = true.
Proof.
  unfold layer_id_ok. intros [_ Hb]%andb_true_iff Hc.
  assert (c ∈ drop_final_newline (chars layer_id) \/ is_newline c = true) as [Hin|]; [|left|by right].
  { unfold drop_final_newline. destruct (last (chars layer_id)) as [d|] eqn:Hl; [|by left].
    destruct (is_newline d) eqn:Hd; [|by left].
    apply last_Some in Hl as [l' Hl]. rewrite Hl in Hc |- *. rewrite length_app /=.
    replace (length l' + 1 - 1) with (length l') by lia. rewrite take_app_length.
    apply elem_of_app in Hc as [| ->%list_elem_of_singleton]; [by left|by right]. }
  destruct (drop_final_newline (chars layer_id)) as [|x l]; [done|].
  assert (forall m, id_body m = true -> forallb is_id_char m = true) as Hbody.
  { intros [|y m]; [done|]. cbn [id_body]. by intros [[_ Hf]%andb_true_iff _]%andb_true_iff. }
  destruct (code x =? 46)%Z eqn:Hx.
  - apply elem_of_cons in Hin as [->|Hin].
    + unfold is_id_char. rewrite Hx. by rewrite orb_true_r.
    + apply Hbody in Hb. rewrite forallb_forall in Hb. by apply Hb, list_elem_of_In.
  - apply Hbody in Hb. rewrite forallb_forall in Hb. by apply Hb, list_elem_of_In.
Qed.

(** A layer id never leaves the data directory.  Whenever [layer_key] gives
    a file path, it is the id with [.json] directly under the directory, and the
    id holds no separator, no backslash and no [..]. *)
Theorem file_key_confined data_dir layer_id path :
  layer_key false data_dir layer_id = Ok (FileKey path) ->
  path = join_path data_dir (layer_id +:+ ".json")
  /\ "/"%char ∉ chars layer_id /\ "\"%char ∉ chars layer_id /\ has_dotdot (chars layer_id) = false.
Proof.
  unfold layer_key. destruct (str_truthy layer_id); cbn; [|done].
  destruct (layer_id_ok layer_id) eqn:Hok; cbn; [|done]. unfold layer_file_path. rewrite Hok. cbn.
  intros [= <-]. split; [done|].
  split; [|split].
  - intros Hc. by destruct (layer_id_ok_chars _ _ Hok Hc).
  - intros Hc. by destruct (layer_id_ok_chars _ _ Hok Hc).
  - unfold layer_id_ok in Hok. apply andb_true_iff in Hok as [Hd _]. by apply negb_true_iff.
Qed.

Lemma file_key_confined_witness :
  "/data/.github.json" = join_path "/data" (".github" +:+ ".json")
  /\ "/"%char ∉ chars ".github" /\ "\"%char ∉ chars ".github" /\ has_dotdot (chars ".github") = false.
Proof. apply (file_key_confined "/data" ".github" "/data/.github.json"). vm_compute. reflexivity. Defined.

(** A final newline passes both patterns: [$] matches before it. *)
Definition newline_id : string := of_chars (chars "layer" ++ [ascii_of_nat 10]).
Example newline_layer_id_accepted :
  layer_id_ok newline_id = true /\ db_layer_id_ok newline_id = true
  /\ layer_id_ok "a..b" = false /\ layer_id_ok "." = false /\ layer_id_ok "a/b" = false.
Proof. vm_compute. done. Qed.
