(* ===== verification/FileBackend.v ===== *)
(** * The file backend

    [_internal/backends/file.py].  The store is the set of files by path, each
    with its text.  Every operation runs under an exclusive lock on its file and
    replaces the file in one step, so an operation is one transition and a raise
    leaves the store as it was.  The layout of the text - indentation, the order
    of keys - is not modelled: files are written compact and sorted, and read
    in any layout. *)

From S2P Require Import Prelude PyStr Json Errors Contracts Backend.
From stdpp Require Import options.

Definition files := gmap string string.

Section File.
Context `{Contracts}.

(** [Path(key)] of something that is no path. *)
Definition file_path (k : LayerKey) : res string :=
  match k with FileKey p => Ok p | DbLayerKey _ => Err TypeError end.

(** [_load_unlocked].  A document that is not an object fails in its first
    [.get]. *)
Definition file_parse (text : string) : res json := of_option (loads text) ValueError.
Definition load_unlocked (path : string) (fs : files) : res json :=
  match fs !! path with
  | Some text => file_parse text
  | None => Ok (JObj EMPTY_LAYER)
  end.
Definition file_load (k : LayerKey) (fs : files) : res dict :=
  path ← file_path k;
  doc ← load_unlocked path fs;
  match doc with JObj d => Ok d | _ => Err AttributeError end.

(** [_store_unlocked]: temporary file, then replace. *)
Definition store_unlocked (path : string) (data : dict) (fs : files) : files :=
  <[path := dumps true (JObj data)]> fs.

Definition file_initialize (k : LayerKey) (data : dict) (product_repo_id : option string) (fs : files)
  : res files :=
  _ ← validate_layer data;
  path ← file_path k;
  _ ← raise_if (bool_decide (is_Some (fs !! path))) (Storage LayerConflictError);
  Ok (store_unlocked path data fs).

Definition export_layer (k : LayerKey) (fs : files) : res dict :=
  layer ← file_load k fs; _ ← validate_layer layer; Ok layer.

Definition file_store (k : LayerKey) (data : dict) (fs : files) : res files :=
  path ← file_path k; Ok (store_unlocked path data fs).

Definition SHELL_FIELDS : list string := ["audit_report"; "repository"; "created"; "harness_version"].
(** The initialized-shell test of [mutate]. *)
Definition has_shell (data : json) : bool :=
  match data with
  | JObj d =>
      match get "metadata" d with
      | JObj m => forallb (fun k => match get k m with JStr s => str_truthy s | _ => false end) SHELL_FIELDS
      | _ => false
      end
      && match get "needs_review" d with JArr _ => true | _ => false end
  | _ => false
  end.

Definition file_mutate (A : Type) (k : LayerKey) (mutator : dict -> res (A * dict)) (fs : files)
  : res (A * files) :=
  path ← file_path k;
  _ ← raise_if (bool_decide (fs !! path = None)) (Storage LayerNotInitializedError);
  data ← load_unlocked path fs;
  _ ← raise_if (negb (has_shell data)) (Storage LayerNotInitializedError);
  '(result, data') ← mutator (match data with JObj d => d | _ => ∅ end);
  _ ← validate_layer data';
  Ok (result, store_unlocked path data' fs).

#[global] Instance file_backend : Backend files := {|
  opaque_layer_ids := false;
  b_load := file_load;
  b_initialize := file_initialize;
  b_store := file_store;
  b_mutate := file_mutate
|}.

(** ** Listing *)

(** [_is_layer] on a file's text. *)
Definition is_layer (text : string) : bool :=
  match loads text with Some (JObj d) => schema_accepts d | _ => false end.

(** The stem of a [*.json] entry directly in a directory. *)
Definition json_stem (dir path : string) : option string :=
  if startswith path (join_path dir "") && endswith (path_name path) ".json"
     && String.eqb path (join_path dir (path_name path))
  then Some (path_stem path) else None.

(** [list_layer_ids]: the sorted stems of the layers directly in the data
    directory. *)
Definition layer_stem (dir : string) (file : string * string) : option string :=
  stem ← json_stem dir file.1; if is_layer file.2 then Some stem else None.
Definition list_layer_ids (data_dir : option string) (fs : files) : list string :=
  match data_dir with
  | None => []
  | Some dir => merge_sort String.le (omap (layer_stem dir) (map_to_list fs))
  end.
Definition list_layer_refs (product_repo_id data_dir : option string) (fs : files)
  : list (string * option string) :=
  match product_repo_id with
  | Some _ => []
  | None => map (fun id => (id, None)) (list_layer_ids data_dir fs)
  end.

(** ** The interface *)

Definition file_view (path : string) (fs : files) : option dict :=
  match fs !! path with
  | Some text => match loads text with Some (JObj d) => Some d | _ => None end
  | None => None
  end.

Lemma file_view_store path data fs : file_view path (store_unlocked path data fs) = Some data.
Proof. unfold file_view, store_unlocked. by rewrite lookup_insert_eq loads_dumps. Qed.
Lemma file_view_store_ne path path' data fs : path' <> path ->
  file_view path' (store_unlocked path data fs) = file_view path' fs.
Proof. intros Hp. unfold file_view, store_unlocked. rewrite lookup_insert_ne; [congruence|done]. Qed.

Lemma file_mutate_inv A k (f : dict -> res (A * dict)) fs a fs' :
  file_mutate A k f fs = Ok (a, fs') ->
  exists p d d', k = FileKey p /\ file_view p fs = Some d /\ f d = Ok (a, d')
    /\ schema_accepts d' = true /\ fs' = store_unlocked p d' fs.
Proof.
  unfold file_mutate. destruct k as [|p]; cbn [file_path mbind result_bind]; [done|].
  unfold load_unlocked. destruct (fs !! p) as [text|] eqn:Hp; cbn [mbind result_bind raise_if bool_decide];
    [|done].
  rewrite bool_decide_false; [done|]. cbn [mbind result_bind raise_if].
  unfold file_parse. destruct (loads text) as [doc|] eqn:Hl; cbn [of_option mbind result_bind]; [|done].
  destruct (has_shell doc) eqn:Hs; cbn [negb raise_if mbind result_bind]; [|done].
  destruct doc as [| | | | |d]; try done.
  destruct (f d) as [[r d']|] eqn:Hf; cbn [mbind result_bind]; [|done].
  destruct (validate_layer d') as [u|] eqn:Hv; cbn [mbind result_bind]; [|done].
  intros [= <- <-]. exists p, d, d'.
  split; [done|]. split; [unfold file_view; by rewrite Hp Hl|]. split; [done|].
  split; [exact (validate_layer_ok _ _ Hv)|done].
Qed.

Definition file_slot (k : LayerKey) : string := match k with FileKey p => p | DbLayerKey i => i end.
Definition file_key_ok (k : LayerKey) : Prop := k = FileKey (file_slot k).
Definition files_good (fs : files) : Prop :=
  forall p text, fs !! p = Some text -> exists d, loads text = Some (JObj d).

Lemma files_good_store p d fs : files_good fs -> files_good (store_unlocked p d fs).
Proof.
  intros Hg q text. unfold store_unlocked. destruct (decide (q = p)) as [->|Hq].
  - rewrite lookup_insert_eq. intros [= <-]. exists d. apply loads_dumps.
  - rewrite lookup_insert_ne; [congruence|]. apply Hg.
Qed.

Lemma file_initialize_inv k d owner fs fs' : file_initialize k d owner fs = Ok fs' ->
  exists p, k = FileKey p /\ fs !! p = None /\ schema_accepts d = true /\ fs' = store_unlocked p d fs.
Proof.
  unfold file_initialize. destruct (validate_layer d) as [u|] eqn:Hv; cbn [mbind result_bind]; [|done].
  destruct k as [|p]; cbn [file_path mbind result_bind]; [done|].
  destruct (fs !! p) as [t|] eqn:Hp.
  { rewrite bool_decide_true //. }
  rewrite bool_decide_false; [by intros [? ?]|]. cbn [raise_if mbind result_bind].
  intros [= <-]. exists p. split; [done|]. split; [done|]. split; [|done]. exact (validate_layer_ok _ _ Hv).
Qed.

Lemma file_load_view p fs d : file_view p fs = Some d -> file_load (FileKey p) fs = Ok d.
Proof.
  unfold file_view, file_load, load_unlocked, file_parse. cbn [file_path mbind result_bind].
  destruct (fs !! p) as [text|]; [|done].
  destruct (loads text) as [[]|]; try done. by intros [= <-].
Qed.

#[global] Instance file_backend_laws : BackendLaws files.
Proof.
  refine {| slot := file_slot; key_ok := file_key_ok; stored := file_view; good := files_good |}.
  - intros A k f fs a fs' Hg Hm.
    apply file_mutate_inv in Hm as (p & d & d' & -> & Hd & Hf & Hs & ->).
    exists d, d'. split; [done|]. split; [done|]. split; [done|]. split; [apply file_view_store|].
    split; [by apply files_good_store|]. split; [done|]. intros i Hi. by apply file_view_store_ne.
  - intros k d owner fs fs' Hg Hi. apply file_initialize_inv in Hi as (p & -> & Hp & Hs & ->).
    split; [unfold file_view; cbn [file_slot]; by rewrite Hp|]. split; [done|].
    split; [apply file_view_store|]. split; [by apply files_good_store|]. split; [done|].
    intros i Hi. by apply file_view_store_ne.
  - intros k fs d Hg -> Hd _. by apply file_load_view.
Defined.
#[global] Instance file_store_laws : StoreLaws files.
Proof.
  refine {| store_checked := false |}; [|done]. intros [|p] d fs fs' Hg Hs; [done|]. cbn in Hs. injection Hs as <-. cbn.
  split; [apply file_view_store|]. split; [by apply files_good_store|]. intros i Hi. by apply file_view_store_ne.
Qed.
End File.
