(* ===== verification/DbBackend.v ===== *)
(** * The database backend

    [_internal/backends/db.py] over the schema of [_internal/migrations/schema.py].
    A database is its two tables.  The guards of the events table are the
    triggers and constraints of the schema: an inserted event has a non-empty id,
    unique in its layer, and takes the next sequence number; rows are never
    updated or deleted.  A transaction is one transition - it commits as a whole
    or raises and leaves the database as it was - and the lock on the layer makes
    the reads of a transaction those of its writes. *)

From S2P Require Import Prelude PyStr Json Errors Contracts Time Records Backend.
From stdpp Require Import options.

Record layer_row := { lrow_values : layer_values; lrow_owner : option string }.
Record database := { db_layers : gmap string layer_row; db_events : list event_row }.
Definition empty_database : database := {| db_layers := ∅; db_events := [] |}.

(** What the database has beside the ledger's tables: the product repositories
    registered in its storage schema, which is another package's, and the
    collation its text columns are ordered by. *)
Class StorageRegistry := {
  registered : string -> bool;
  collates : string -> string -> bool
}.

Inductive import_status := Skipped | WouldInsert | Inserted.
#[global] Instance import_status_eq_dec : EqDecision import_status.
Proof. solve_decision. Defined.

(** [_layer_id]. *)
Definition layer_id_of (k : LayerKey) : string :=
  match k with DbLayerKey id => id | FileKey p => path_stem p end.

Definition layer_rows (id : string) (db : database) : list event_row :=
  List.filter (fun r => bool_decide (row_layer_id r = id)) (db_events db).

Section Db.
Context `{Contracts} `{StorageRegistry}.

(** ** Reads *)

Definition has_layer (id : string) (db : database) : bool := bool_decide (is_Some (db_layers db !! id)).
Definition product_repo (id : string) (db : database) : option string :=
  row ← db_layers db !! id; lrow_owner row.
(** [_event_payloads]: ordered by sequence. *)
Definition db_event_payloads (id : string) (db : database) : list bytes :=
  map row_payload (sort_on row_seq (layer_rows id db)).

Definition db_load_row (id : string) (db : database) : res (option dict) :=
  match db_layers db !! id with
  | None => Ok None
  | Some row =>
      let v := lrow_values row in
      stored ← from_payloads (lv_metadata_payload v) (lv_needs_review_payload v)
                 (lv_extensions_payload v) (lv_root_keys_payload v);
      layer ← reconstruct stored (db_event_payloads id db);
      Ok (Some layer)
  end.

Definition load_layer_id (id : string) (db : database) : res dict :=
  layer ← db_load_row id db;
  match layer with
  | Some d => _ ← validate_layer d; Ok d
  | None => Ok EMPTY_LAYER
  end.
Definition db_load (k : LayerKey) (db : database) : res dict := load_layer_id (layer_id_of k) db.

(** [order_by(layers.c.layer_id)]. *)
Definition by_layer_id (a b : string * layer_row) : Prop := collates a.1 b.1 = true.
#[global] Instance by_layer_id_dec a b : Decision (by_layer_id a b).
Proof. unfold by_layer_id. apply _. Defined.
Definition ordered_layers (db : database) : list (string * layer_row) := merge_sort by_layer_id (items (db_layers db)).
Definition db_list_layer_ids (db : database) : list string := map fst (ordered_layers db).
Definition db_list_layer_refs (product_repo_id : option string) (db : database)
  : list (string * option string) :=
  List.filter (fun ref => match product_repo_id with
                          | Some o => bool_decide (ref.2 = Some o)
                          | None => true
                          end)
    (map (fun kv => (kv.1, lrow_owner kv.2)) (ordered_layers db)).

(** ** Writes *)

Definition owned (o : string) (db : database) : bool :=
  existsb (fun kv => bool_decide (lrow_owner kv.2 = Some o)) (items (db_layers db)).

(** [insert(layers)]: the owner is registered, and owns no other layer. *)
Definition insert_layer (id : string) (owner : option string) (v : layer_values) (db : database)
  : res database :=
  _ ← raise_if (has_layer id db) IntegrityError;
  _ ← raise_if (match owner with Some o => negb (registered o) || owned o db | None => false end)
        IntegrityError;
  Ok {| db_layers := <[id := {| lrow_values := v; lrow_owner := owner |}]> (db_layers db);
        db_events := db_events db |}.

(** [update(layers)]: every column but key and owner. *)
Definition update_layer (id : string) (v : layer_values) (db : database) : database :=
  {| db_layers := alter (fun row => {| lrow_values := v; lrow_owner := lrow_owner row |}) id (db_layers db);
     db_events := db_events db |}.

(** [insert(events)] under [events_validate_append] and the unique
    constraint. *)
Definition next_seq (id : string) (db : database) : Z :=
  fold_left (fun m r => Z.max m (row_seq r + 1)) (layer_rows id db) 0%Z.
Definition insert_event (db : database) (row : event_row) : res database :=
  _ ← raise_if (negb (str_truthy (row_event_id row))
                || negb (row_seq row =? next_seq (row_layer_id row) db)%Z) IntegrityError;
  _ ← raise_if (existsb (fun r => bool_decide (row_event_id r = row_event_id row))
                  (layer_rows (row_layer_id row) db)) IntegrityError;
  Ok {| db_layers := db_layers db; db_events := db_events db ++ [row] |}.

(** [_persist]. *)
Definition persist (id : string) (record : LayerRecord) (owner : option string) (db : database)
  : res database :=
  offset ← append_offset record (db_event_payloads id db);
  let values := layer_values_of record in
  db1 ← (if has_layer id db then Ok (update_layer id values db) else insert_layer id owner values db);
  foldM insert_event (new_event_values record id offset) db1.

Definition require_product_repo (owner : option string) : res unit :=
  raise_if (match owner with Some o => negb (str_truthy (strip o)) | None => true end)
    (Storage LayerStorageError).
Definition require_unowned (owner : option string) (db : database) : res unit :=
  raise_if (match owner with Some o => owned o db | None => false end) (Storage LayerConflictError).
(** [except IntegrityError: raise _ownership_conflict]. *)
Definition ownership_conflict {A} (r : res A) : res A :=
  match r with Err IntegrityError => Err (Storage LayerConflictError) | _ => r end.

Definition db_store (k : LayerKey) (data : dict) (db : database) : res database :=
  _ ← validate_layer data;
  let id := layer_id_of k in
  _ ← raise_if (negb (has_layer id db)) (Storage LayerNotInitializedError);
  record ← layer_from_document (JObj data);
  persist id record None db.

Definition db_mutate (A : Type) (k : LayerKey) (mutator : dict -> res (A * dict)) (db : database)
  : res (A * database) :=
  let id := layer_id_of k in
  layer ← db_load_row id db;
  data ← of_option layer (Storage LayerNotInitializedError);
  '(result, data') ← mutator data;
  _ ← validate_layer data';
  record ← layer_from_document (JObj data');
  db' ← persist id record None db;
  Ok (result, db').

Definition db_initialize (k : LayerKey) (data : dict) (owner : option string) (db : database)
  : res database :=
  _ ← require_product_repo owner;
  _ ← validate_layer data;
  let id := layer_id_of k in
  ownership_conflict (
    _ ← raise_if (has_layer id db) (Storage LayerConflictError);
    _ ← require_unowned owner db;
    record ← layer_from_document (JObj data);
    persist id record owner db).

Definition import_layer (id : string) (data : dict) (owner : option string) (dry_run : bool)
    (db : database) : res (import_status * database) :=
  _ ← require_product_repo owner;
  _ ← validate_layer data;
  record ← layer_from_document (JObj data);
  existing ← db_load_row id db;
  match existing with
  | Some e =>
      _ ← raise_if (py_neqb (JObj e) (JObj data)) (Storage LayerConflictError);
      _ ← raise_if (negb (bool_decide (product_repo id db = owner))) (Storage LayerConflictError);
      Ok (Skipped, db)
  | None =>
      _ ← require_unowned owner db;
      if dry_run then Ok (WouldInsert, db)
      else
        db' ← ownership_conflict (persist id record owner db);
        again ← db_load_row id db';
        match again with
        | Some d =>
            _ ← raise_if (py_neqb (JObj d) (JObj data)) RuntimeError;
            _ ← validate_layer d;
            Ok (Inserted, db')
        | None => Err RuntimeError
        end
  end.

#[global] Instance db_backend : Backend database := {|
  opaque_layer_ids := true;
  b_load := db_load;
  b_initialize := db_initialize;
  b_store := db_store;
  b_mutate := db_mutate
|}.
End Db.

(** ** Lemmas *)

Lemma event_from_document_inv i e r : event_from_document i e = Ok r ->
  e = JObj (er_document r) /\ er_sequence r = i
  /\ get "event_id" (er_document r) = JStr (er_event_id r) /\ str_truthy (er_event_id r) = true.
Proof.
  unfold event_from_document. destruct e as [| | | | |d]; try done. cbn [as_object mbind result_bind].
  destruct (get "event_id" d) as [| | |s| |] eqn:Hid; try done.
  destruct (str_truthy s) eqn:Hs; [|done]. by intros [= <-].
Qed.

(** The records of a document: numbered in order, each with its own id. *)
Lemma mapR_event_records es : forall i rs,
  mapR (fun iv => event_from_document iv.1 iv.2) (enumerate_from i es) = Ok rs ->
  map er_sequence rs = map (fun n => i + Z.of_nat n)%Z (seq 0 (length rs))
  /\ Forall (fun r => get "event_id" (er_document r) = JStr (er_event_id r)
                      /\ str_truthy (er_event_id r) = true) rs.
Proof.
  induction es as [|e es IH]; intros i rs; cbn [enumerate_from mapR fst snd].
  { intros [= <-]. by split. }
  destruct (event_from_document i e) as [r|] eqn:He; [|done]. cbn [mbind result_bind].
  apply event_from_document_inv in He as (_ & Hi & Hid & Hs).
  destruct (mapR _ _) as [rs'|] eqn:Hrs; [|done]. cbn [mbind result_bind]. intros [= <-].
  apply IH in Hrs as (Hq & Hall). cbn [map length seq].
  split; [|by constructor]. rewrite Hq Hi -seq_shift map_map. f_equal; [lia|].
  apply map_ext. intros. lia.
Qed.

Lemma layer_record_events doc r : layer_from_document doc = Ok r ->
  map er_sequence (lr_events r) = map Z.of_nat (seq 0 (length (lr_events r)))
  /\ Forall (fun e => get "event_id" (er_document e) = JStr (er_event_id e)
                      /\ str_truthy (er_event_id e) = true) (lr_events r).
Proof.
  unfold layer_from_document. intros Hr. inv_ok. cbn.
  match goal with Hm : mapR _ _ = Ok _ |- _ => apply mapR_event_records in Hm as (Hq & Hall) end.
  by split.
Qed.

Lemma cons_inj {A} (a b : A) l1 l2 : a :: l1 = b :: l2 -> a = b /\ l1 = l2.
Proof. by intros [= -> ->]. Qed.
(** Records with the same payloads and numbering are the same. *)
Definition record_ok (e : EventRecord) : Prop := get "event_id" (er_document e) = JStr (er_event_id e).
Lemma records_ext l1 : forall l2, Forall record_ok l1 -> Forall record_ok l2 ->
  map event_payload l1 = map event_payload l2 -> map er_sequence l1 = map er_sequence l2 -> l1 = l2.
Proof.
  induction l1 as [|a l1 IH]; intros [|b l2] H1 H2 Hp Hq; try done.
  apply Forall_cons in H1 as [Ha H1], H2 as [Hb H2]. cbn [map] in Hp, Hq. apply cons_inj in Hp as [Hpa Hp], Hq as [Hqa Hq].
  f_equal; [|by apply IH]. unfold event_payload in Hpa. apply (inj encode_json) in Hpa. apply (inj JObj) in Hpa.
  destruct a as [i d s], b as [i' d' s']. cbn in *. subst. unfold record_ok in *. cbn in *. congruence.
Qed.

Section DbLemmas.
Context `{HC : Contracts} `{HL : !ContractLaws} `{HS : StorageRegistry}.

(** Every layer is listed, once, in the order of the collation. *)
Lemma ordered_perm db : ordered_layers db ≡ₚ items (db_layers db).
Proof. apply merge_sort_Permutation. Qed.
Lemma ordered_lookup db id row : (id, row) ∈ ordered_layers db <-> db_layers db !! id = Some row.
Proof. rewrite ordered_perm. apply items_lookup. Qed.
Lemma ordered_sorted db : (forall a b, collates a b = true \/ collates b a = true) ->
  (forall a b c, collates a b = true -> collates b c = true -> collates a c = true) ->
  StronglySorted by_layer_id (ordered_layers db).
Proof.
  intros Htotal Htrans. assert (Total by_layer_id) as Ht by (intros [a ?] [b ?]; apply Htotal).
  assert (Transitive by_layer_id) as Htr by (intros [a ?] [b ?] [c ?]; apply Htrans). apply (StronglySorted_merge_sort _).
Qed.

(** A layer of the database is some schema-valid document, stored as its
    record; there are no events without a layer. *)
Definition holds (id : string) (d : dict) (db : database) : Prop :=
  exists r owner, schema_accepts d = true /\ layer_from_document (JObj d) = Ok r
    /\ db_layers db !! id = Some {| lrow_values := layer_values_of r; lrow_owner := owner |}
    /\ layer_rows id db = map (database_values id) (lr_events r).
Definition db_good (db : database) : Prop :=
  forall id, match db_layers db !! id with
             | Some _ => exists d, holds id d db
             | None => layer_rows id db = []
             end.

Lemma payloads_of_rows id rs : map er_sequence rs = map Z.of_nat (seq 0 (length rs)) ->
  map row_payload (sort_on row_seq (map (database_values id) rs)) = map event_payload rs.
Proof.
  intros Hq. rewrite sort_on_numbered.
  - rewrite map_map length_map. etrans; [|exact Hq]. by apply map_ext.
  - rewrite map_map. by apply map_ext.
Qed.

Lemma db_load_holds id d db : holds id d db -> db_load_row id db = Ok (Some d).
Proof using HL.
  intros (r & owner & Hs & Hr & Hrow & Hev). unfold db_load_row, db_event_payloads. rewrite Hrow Hev.
  cbn [lrow_values]. rewrite payloads_of_rows; [by apply layer_record_events in Hr as [? _]|].
  pose proof (read_back_shaped d r (schema_shape _ Hs) Hr) as Hb. unfold read_back in Hb.
  destruct (from_payloads _ _ _ _) as [s|]; [|done]. cbn [mbind result_bind] in *. by rewrite Hb.
Qed.

Definition db_stored (id : string) (db : database) : option dict :=
  match db_load_row id db with Ok o => o | Err _ => None end.
Lemma db_stored_holds id d db : db_good db -> db_stored id db = Some d <-> holds id d db.
Proof using HL.
  intros Hg. unfold db_stored. split.
  - specialize (Hg id). destruct (db_layers db !! id) eqn:Hl; [|by rewrite /db_load_row Hl].
    destruct Hg as [d' Hh]. rewrite (db_load_holds _ _ _ Hh). by intros [= <-].
  - intros Hh. by rewrite (db_load_holds _ _ _ Hh).
Qed.

Lemma insert_event_inv db row db' : insert_event db row = Ok db' ->
  db' = {| db_layers := db_layers db; db_events := db_events db ++ [row] |}.
Proof. unfold insert_event. destruct (_ || _); [done|]. destruct (existsb _ _); [done|]. by intros [= <-]. Qed.
Lemma foldM_insert_event rows : forall db db', foldM insert_event rows db = Ok db' ->
  db' = {| db_layers := db_layers db; db_events := db_events db ++ rows |}.
Proof.
  induction rows as [|row rows IH]; intros db db'; cbn [foldM].
  - intros [= <-]. rewrite app_nil_r. by destruct db.
  - destruct (insert_event db row) as [db1|] eqn:H1; [|done]. apply insert_event_inv in H1 as ->.
    cbn [mbind result_bind]. intros ->%IH. cbn. by rewrite -app_assoc.
Qed.

Lemma layer_rows_app id db rows layers :
  layer_rows id {| db_layers := layers; db_events := db_events db ++ rows |}
  = layer_rows id db ++ List.filter (fun r => bool_decide (row_layer_id r = id)) rows.
Proof. unfold layer_rows. cbn. apply List.filter_app. Qed.
Lemma filter_own_rows id rs :
  List.filter (fun r => bool_decide (row_layer_id r = id)) (map (database_values id) rs)
  = map (database_values id) rs.
Proof.
  apply filter_all. intros row (r & <- & _)%in_map_iff. by apply bool_decide_eq_true.
Qed.
Lemma filter_other_rows id id' rs : id' <> id ->
  List.filter (fun r => bool_decide (row_layer_id r = id')) (map (database_values id) rs) = [].
Proof.
  intros Hne. induction rs as [|r rs IH]; [done|]. cbn [map List.filter].
  rewrite bool_decide_false; [|done]. cbn. congruence.
Qed.

Lemma has_layer_row id db : has_layer id db = bool_decide (is_Some (db_layers db !! id)).
Proof. done. Qed.

(** What a write leaves: the layer is the document, every other is untouched,
    and the events table only grows. *)
Record written (id : string) (d : dict) (db db' : database) : Prop := {
  written_holds : holds id d db';
  written_others : forall i, i <> id -> db_layers db' !! i = db_layers db !! i
                                        /\ layer_rows i db' = layer_rows i db;
  written_grows : db_events db `prefix_of` db_events db'
}.

Lemma written_good id d db db' : db_good db -> written id d db db' -> db_good db'.
Proof.
  intros Hg [Hh Ho _] i. destruct (decide (i = id)) as [->|Hi].
  - destruct Hh as (r & owner & ? & ? & Hrow & ?). rewrite Hrow. exists d, r, owner. by split_and!.
  - destruct (Ho i Hi) as [Hl Hr]. specialize (Hg i). rewrite Hl Hr. destruct (db_layers db !! i) eqn:Hi'; [|done].
    destruct Hg as (d' & r & owner & ? & ? & ? & ?). exists d', r, owner. rewrite Hl Hr -Hi'. by split_and!.
Qed.

Lemma written_stored id d db db' : db_good db -> written id d db db' ->
  db_stored id db' = Some d /\ forall i, i <> id -> db_stored i db' = db_stored i db.
Proof using HL.
  intros Hg Hw. split.
  - apply db_stored_holds; [exact (written_good _ _ _ _ Hg Hw)|]. apply Hw.
  - intros i Hi. destruct (written_others _ _ _ _ Hw i Hi) as [Hl Hr].
    unfold db_stored, db_load_row, db_event_payloads. by rewrite Hl Hr.
Qed.

Lemma persist_rows id d r rold rows owner db layers :
  schema_accepts d = true -> layer_from_document (JObj d) = Ok r ->
  map er_sequence rold = map Z.of_nat (seq 0 (length rold)) -> Forall record_ok rold ->
  take (length rold) (event_payloads r) = map event_payload rold ->
  layer_rows id db = map (database_values id) rold ->
  layers !! id = Some {| lrow_values := layer_values_of r; lrow_owner := owner |} ->
  rows = new_event_values r id (length rold) ->
  holds id d {| db_layers := layers; db_events := db_events db ++ rows |}.
Proof.
  intros Hs Hr Hq Hok Hp Hrows Hl ->. exists r, owner. split; [done|]. split; [done|]. split; [done|].
  rewrite layer_rows_app Hrows. unfold new_event_values. rewrite filter_own_rows -map_app. f_equal.
  rewrite -{2}(take_drop (length rold) (lr_events r)). f_equal.
  pose proof (layer_record_events _ _ Hr) as [Hq' Hok'].
  unfold event_payloads in Hp. rewrite firstn_map in Hp. symmetry. apply records_ext; [| |done|].
  - apply Forall_take. eapply Forall_impl; [exact Hok'|]. by intros e [? _].
  - done.
  - assert (length rold <= length (lr_events r))%nat as Hle.
    { apply (f_equal length) in Hp. rewrite !length_map length_take in Hp. lia. }
    rewrite -firstn_map Hq' Hq firstn_map take_seq. f_equal. f_equal. lia.
Qed.

Lemma good_rows id db : db_good db -> exists rold,
  map er_sequence rold = map Z.of_nat (seq 0 (length rold)) /\ Forall record_ok rold
  /\ layer_rows id db = map (database_values id) rold.
Proof.
  intros Hg. specialize (Hg id). destruct (db_layers db !! id); [|by exists []].
  destruct Hg as (d & r & owner & _ & Hr & _ & Hev). exists (lr_events r).
  apply layer_record_events in Hr as [Hq Hok]. split; [done|]. split; [|done].
  eapply Forall_impl; [exact Hok|]. by intros e [? _].
Qed.

(** The layers table after [_persist]. *)
Definition persisted_layers (id : string) (v : layer_values) (owner : option string) (db : database)
  : gmap string layer_row :=
  <[id := {| lrow_values := v;
             lrow_owner := match db_layers db !! id with Some row => lrow_owner row | None => owner end |}]>
    (db_layers db).

Lemma persist_inv id r owner db db' : persist id r owner db = Ok db' ->
  exists n, append_offset r (db_event_payloads id db) = Ok n
    /\ db' = {| db_layers := persisted_layers id (layer_values_of r) owner db;
                db_events := db_events db ++ new_event_values r id n |}.
Proof.
  unfold persist. destruct (append_offset _ _) as [n|]; [|done]. cbn [mbind result_bind].
  intros Hp. exists n. split; [done|]. revert Hp. unfold has_layer, persisted_layers.
  destruct (db_layers db !! id) as [row|] eqn:Hl.
  - rewrite bool_decide_true; [done|]. cbn [mbind result_bind]. intros ->%foldM_insert_event. cbn. f_equal.
    apply map_eq. intros i. destruct (decide (i = id)) as [->|Hi].
    + by rewrite lookup_alter_eq Hl lookup_insert_eq.
    + rewrite lookup_alter_ne; [congruence|]. rewrite lookup_insert_ne; [congruence|done].
  - rewrite bool_decide_false; [by intros [? ?]|]. unfold insert_layer. 
    destruct (has_layer id db); [done|]. cbn [raise_if mbind result_bind].
    destruct (raise_if _ _); cbn [mbind result_bind]; [|done].
    by intros ->%foldM_insert_event.
Qed.

Lemma persist_written id d r owner db db' : db_good db ->
  schema_accepts d = true -> layer_from_document (JObj d) = Ok r ->
  persist id r owner db = Ok db' -> written id d db db'.
Proof.
  intros Hg Hs Hr (n & Hn & ->)%persist_inv. destruct (good_rows id db Hg) as (rold & Hq & Hok & Hrows).
  unfold db_event_payloads in Hn. rewrite Hrows payloads_of_rows // in Hn.
  apply append_offset_ok in Hn as [-> Ht]. rewrite length_map in Ht |- *. split.
  - eapply (persist_rows id d r rold); [eassumption..| |reflexivity]. apply lookup_insert_eq.
  - intros i Hi. split; [cbn; unfold persisted_layers; rewrite lookup_insert_ne; [congruence|done]|].
    rewrite layer_rows_app. unfold new_event_values. by rewrite filter_other_rows // app_nil_r.
  - cbn. by apply prefix_app_r.
Qed.

Lemma db_mutate_inv A k (f : dict -> res (A * dict)) db a db' : db_good db ->
  db_mutate A k f db = Ok (a, db') ->
  exists d d', holds (layer_id_of k) d db /\ f d = Ok (a, d') /\ schema_accepts d' = true
    /\ written (layer_id_of k) d' db db'.
Proof using HL.
  intros Hg. unfold db_mutate. pose proof (Hg (layer_id_of k)) as Hl.
  destruct (db_layers db !! layer_id_of k) eqn:Hrow; [|by rewrite /db_load_row Hrow].
  destruct Hl as [d Hh]. rewrite (db_load_holds _ _ _ Hh). cbn [of_option mbind result_bind].
  destruct (f d) as [[r d']|] eqn:Hf; [|done]. cbn [mbind result_bind].
  destruct (validate_layer d') as [u|] eqn:Hv; [|done]. cbn [mbind result_bind].
  destruct (layer_from_document _) as [rec|] eqn:Hr; [|done]. cbn [mbind result_bind].
  destruct (persist _ _ _ _) as [db1|] eqn:Hp; [|done]. cbn [mbind result_bind]. intros [= <- <-].
  apply validate_layer_ok in Hv as Hs.
  exists d, d'. split; [done|]. split; [done|]. split; [done|]. exact (persist_written _ _ _ _ _ _ Hg Hs Hr Hp).
Qed.

Lemma ownership_conflict_ok {A} (r : res A) a : ownership_conflict r = Ok a -> r = Ok a.
Proof. destruct r as [|[]]; cbn; try done; congruence. Qed.

Lemma db_initialize_inv k d owner db db' : db_initialize k d owner db = Ok db' ->
  exists r, schema_accepts d = true /\ layer_from_document (JObj d) = Ok r
    /\ db_layers db !! layer_id_of k = None /\ persist (layer_id_of k) r owner db = Ok db'.
Proof.
  unfold db_initialize. destruct (require_product_repo owner); cbn [mbind result_bind]; [|done].
  destruct (validate_layer d) as [u|] eqn:Hv; cbn [mbind result_bind]; [|done].
  intros Hi%ownership_conflict_ok. unfold has_layer in Hi.
  destruct (db_layers db !! layer_id_of k) eqn:Hl.
  { by rewrite bool_decide_true in Hi. }
  rewrite bool_decide_false in Hi; [by intros [? ?]|]. cbn [raise_if mbind result_bind] in Hi.
  destruct (require_unowned owner db); cbn [mbind result_bind] in Hi; [|done].
  destruct (layer_from_document _) as [r|]; cbn [mbind result_bind] in Hi; [|done].
  exists r. split; [exact (validate_layer_ok _ _ Hv)|]. by split_and!.
Qed.

(** The events of a layer document. *)
Definition events_doc (d : dict) : list json := match get "events" d with JArr l => l | _ => [] end.

Lemma holds_events lid d db : holds lid d db ->
  map row_payload (layer_rows lid db) = map encode_json (events_doc d).
Proof using HL.
  intros (r & owner & Hs & Hr & _ & Hrows). rewrite Hrows map_map.
  destruct (layer_record_shaped d (layer_shape_shaped d (schema_shape _ Hs))) as (r' & Hr' & _ & He & _).
  rewrite Hr in Hr'. injection Hr' as <-. unfold events_doc, get.
  rewrite (sh_events_of _ (layer_shape_shaped d (schema_shape d Hs))). cbn [default id]. rewrite -He !map_map.
  by apply map_ext.
Qed.

Lemma holds_shape lid d db : holds lid d db -> get "events" d = JArr (events_doc d).
Proof using HL.
  intros (r & owner & Hs & _). unfold events_doc, get.
  by rewrite (sh_events_of _ (layer_shape_shaped d (schema_shape d Hs))).
Qed.
Lemma written_prefix lid d d' db db' : holds lid d db -> written lid d' db db' ->
  exists new, events_doc d' = events_doc d ++ new.
Proof using HL.
  intros Hh [Hh' _ [rows Hgrow]]. exists (drop (length (events_doc d)) (events_doc d')).
  rewrite -{1}(take_drop (length (events_doc d)) (events_doc d')). f_equal.
  apply (map_inj_eq encode_json); [exact encode_json_inj|].
  rewrite -firstn_map -(holds_events _ _ _ Hh) -(holds_events _ _ _ Hh').
  unfold layer_rows at 1. rewrite Hgrow List.filter_app map_app.
  rewrite -(length_map encode_json) -(holds_events _ _ _ Hh) -/(layer_rows lid db).
  by rewrite take_app_length.
Qed.

#[global] Instance db_backend_laws : BackendLaws database.
Proof using HL HS.
  refine {| slot := layer_id_of; key_ok := fun _ => True; stored := db_stored; good := db_good |}.
  - intros A k f db a db' Hg Hm. apply db_mutate_inv in Hm as (d & d' & Hh & Hf & Hs & Hw); [|done].
    destruct (written_stored _ _ _ _ Hg Hw) as [Hst Ho].
    exists d, d'. split; [by apply db_stored_holds|]. split_and!; try done.
    exact (written_good _ _ _ _ Hg Hw).
  - intros k d owner db db' Hg (r & Hs & Hr & Hl & Hp)%db_initialize_inv.
    pose proof (persist_written _ _ _ _ _ _ Hg Hs Hr Hp) as Hw.
    destruct (written_stored _ _ _ _ Hg Hw) as [Hst Ho].
    split; [by rewrite /db_stored /db_load_row Hl|]. split_and!; try done.
    exact (written_good _ _ _ _ Hg Hw).
  - intros k db d Hg _ Hd Hs. cbn. unfold db_load, load_layer_id. apply db_stored_holds in Hd; [|done].
    rewrite (db_load_holds _ _ _ Hd). cbn [mbind result_bind]. unfold validate_layer. by rewrite Hs.
Defined.

Lemma db_store_inv k d db db' : db_store k d db = Ok db' ->
  exists r, schema_accepts d = true /\ layer_from_document (JObj d) = Ok r
    /\ persist (layer_id_of k) r None db = Ok db'.
Proof.
  unfold db_store. intros Hs. inv_bind Hs as [u|] Hv. inv_bind Hs. inv_bind Hs as [r|] Hr. exists r.
  split; [exact (validate_layer_ok _ _ Hv)|done].
Qed.
#[global] Instance db_store_laws : StoreLaws database.
Proof using HL HS.
  refine {| store_checked := true |}.
  - intros k d db db' Hg (r & Hs & Hr & Hp)%db_store_inv. pose proof (persist_written _ _ _ _ _ _ Hg Hs Hr Hp) as Hw.
    destruct (written_stored _ _ _ _ Hg Hw) as [Hst Ho]. split; [done|]. split; [exact (written_good _ _ _ _ Hg Hw)|done].
  - intros k d0 d es db db' _ Hg (r & Hs & Hr & Hp)%db_store_inv Hd0 Hes.
    pose proof (persist_written _ _ _ _ _ _ Hg Hs Hr Hp) as Hw. apply db_stored_holds in Hd0; [|done].
    destruct (written_prefix _ _ _ _ _ Hd0 Hw) as [new Hnew]. exists new.
    rewrite (holds_shape _ _ _ (written_holds _ _ _ _ Hw)) Hnew. f_equal. f_equal.
    rewrite (holds_shape _ _ _ Hd0) in Hes. by injection Hes.
Qed.
End DbLemmas.

(** ** Reachable databases *)

Section Reachable.
Context `{HC : Contracts} `{HL : !ContractLaws} `{HS : StorageRegistry}.

(** One committed transaction. *)
Inductive db_step (db : database) : database -> Prop :=
| step_initialize k d owner db' : db_initialize k d owner db = Ok db' -> db_step db db'
| step_store k d db' : db_store k d db = Ok db' -> db_step db db'
| step_mutate (A : Type) k (f : dict -> res (A * dict)) a db' :
    db_mutate A k f db = Ok (a, db') -> db_step db db'
| step_import id d owner dry st db' : import_layer id d owner dry db = Ok (st, db') -> db_step db db'.

(** Every step either leaves the database or persists one valid layer. *)
Lemma db_step_persist db db' : db_step db db' ->
  db' = db \/ exists id d r owner, schema_accepts d = true /\ layer_from_document (JObj d) = Ok r
    /\ persist id r owner db = Ok db'.
Proof.
  intros [k d owner db1 Hi|k d db1 Hs|A k f a db1 Hm|id d owner dry st db1 Hi].
  - right. apply db_initialize_inv in Hi as (r & Hs & Hr & _ & Hp). by exists (layer_id_of k), d, r, owner.
  - right. apply db_store_inv in Hs as (r & Hs & Hr & Hp). by exists (layer_id_of k), d, r, None.
  - right. unfold db_mutate in Hm. inv_bind Hm as [o|] Ho. inv_bind Hm as [d|] Hd. inv_bind Hm as [[r d']|] Hf.
    inv_bind Hm as [u|] Hv. inv_bind Hm as [rec|] Hr. inv_bind Hm as [db2|] Hp. injection Hm as _ <-.
    exists (layer_id_of k), d', rec, None. split; [exact (validate_layer_ok _ _ Hv)|done].
  - unfold import_layer in Hi. inv_bind Hi. inv_bind Hi as [u|] Hv. inv_bind Hi as [r|] Hr.
    inv_bind Hi as [o|] He. destruct o as [e|].
    + do 2 inv_bind Hi. injection Hi as _ <-. by left.
    + inv_bind Hi. destruct dry; [injection Hi as _ <-; by left|]. right.
      inv_bind Hi as [db2|] Hp. apply ownership_conflict_ok in Hp.
      inv_bind Hi as [o2|] Hl. destruct o2 as [d2|]; [|done]. do 2 inv_bind Hi. injection Hi as _ <-.
      exists id, d, r, owner. split; [exact (validate_layer_ok _ _ Hv)|done].
Qed.

(** Owners are registered and own one layer each; event ids are unique in
    their layer. *)
Definition owners_ok (db : database) : Prop :=
  forall i row o, db_layers db !! i = Some row -> lrow_owner row = Some o ->
    registered o = true /\ forall j row', db_layers db !! j = Some row' -> lrow_owner row' = Some o -> j = i.
Definition ids_unique (db : database) : Prop :=
  forall i, NoDup (map row_event_id (layer_rows i db)).

Lemma persisted_owner id r owner db db' : persist id r owner db = Ok db' ->
  match db_layers db !! id, owner with
  | None, Some o => registered o = true /\ owned o db = false
  | _, _ => True
  end.
Proof.
  unfold persist. intros Hp. inv_bind Hp as [n|] Hn. unfold has_layer in Hp.
  destruct (db_layers db !! id) eqn:Hl; [done|]. rewrite bool_decide_false in Hp; [by intros [? ?]|].
  unfold insert_layer in Hp. rewrite has_layer_row Hl in Hp. destruct owner as [o|]; [|done].
  destruct (registered o); [|done]. destruct (owned o db); [done|]. done.
Qed.

Lemma owned_false o db i row : owned o db = false -> db_layers db !! i = Some row -> lrow_owner row <> Some o.
Proof.
  unfold owned. intros Hf Hl Ho. apply not_true_iff_false in Hf. apply Hf. apply existsb_exists.
  exists (i, row). split; [|by apply bool_decide_eq_true].
  apply list_elem_of_In. unfold items. rewrite merge_sort_Permutation. by apply elem_of_map_to_list.
Qed.

Lemma persist_owners id r owner db db' : owners_ok db -> persist id r owner db = Ok db' -> owners_ok db'.
Proof.
  intros Hok Hp. pose proof (persisted_owner _ _ _ _ _ Hp) as Hnew.
  apply persist_inv in Hp as (n & _ & ->). unfold owners_ok, persisted_layers. cbn.
  intros i row o Hi Ho.
  assert (forall j row', <[id := {| lrow_values := layer_values_of r;
      lrow_owner := match db_layers db !! id with Some row => lrow_owner row | None => owner end |}]>
      (db_layers db) !! j = Some row' -> lrow_owner row' = Some o ->
    (exists row0, db_layers db !! j = Some row0 /\ lrow_owner row0 = Some o)
    \/ (j = id /\ db_layers db !! id = None /\ owner = Some o)) as Hcases.
  { intros j row' Hj Ho'. destruct (decide (j = id)) as [->|Hne].
    - rewrite lookup_insert_eq in Hj. injection Hj as <-. cbn in Ho'.
      destruct (db_layers db !! id) as [row0|]; [left; by exists row0|by right].
    - rewrite lookup_insert_ne in Hj; [congruence|]. left. by exists row'. }
  destruct (Hcases i row Hi Ho) as [(row0 & Hl & Ho0)|(-> & Hnone & ->)].
  - destruct (Hok i row0 o Hl Ho0) as [Hr Huniq]. split; [done|]. intros j row' Hj Ho'.
    destruct (Hcases j row' Hj Ho') as [(row1 & Hl1 & Ho1)|(-> & Hnone & ->)]; [exact (Huniq _ _ Hl1 Ho1)|].
    rewrite Hnone in Hnew. destruct Hnew as [_ Hf]. by destruct (owned_false _ _ _ _ Hf Hl).
  - rewrite Hnone in Hnew. destruct Hnew as [Hr Hf]. split; [done|]. intros j row' Hj Ho'.
    destruct (Hcases j row' Hj Ho') as [(row1 & Hl1 & Ho1)|(-> & _)]; [|done].
    by destruct (owned_false _ _ _ _ Hf Hl1).
Qed.

Lemma insert_event_ids db row db' : ids_unique db -> insert_event db row = Ok db' -> ids_unique db'.
Proof.
  intros Hu Hi. pose proof (insert_event_inv _ _ _ Hi) as ->. unfold insert_event in Hi.
  inv_bind Hi. inv_bind Hi as [u|] Hx. apply raise_if_ok in Hx. clear Hi. intros i. rewrite layer_rows_app.
  cbn [List.filter]. destruct (bool_decide_reflect (row_layer_id row = i)) as [<-|_]; [|by rewrite app_nil_r].
  rewrite map_app. apply NoDup_app. split; [apply Hu|]. split; [|apply NoDup_singleton].
  intros x Hx1 ->%list_elem_of_singleton. apply not_true_iff_false in Hx. apply Hx.
  apply list_elem_of_fmap in Hx1 as (r & Heq & Hr). apply existsb_exists. exists r.
  split; [by apply list_elem_of_In|by apply bool_decide_eq_true].
Qed.

Lemma persist_ids id r owner db db' : ids_unique db -> persist id r owner db = Ok db' -> ids_unique db'.
Proof.
  intros Hu Hp. unfold persist in Hp. inv_bind Hp as [n|] Hn. inv_bind Hp as [db1|] Hd.
  assert (ids_unique db1) as Hu1.
  { assert (db_events db1 = db_events db) as He.
    { destruct (has_layer id db); [by injection Hd as <-|]. unfold insert_layer in Hd.
      do 2 inv_bind Hd. by injection Hd as <-. }
    intros i. unfold layer_rows. rewrite He. apply Hu. }
  revert Hp. apply foldM_ind; [|done]. intros b x b' _. apply insert_event_ids.
Qed.

Lemma db_good_step db db' : db_good db -> db_step db db' -> db_good db'.
Proof.
  intros Hg [->|(id & d & r & owner & Hs & Hr & Hp)]%db_step_persist; [done|].
  exact (written_good _ _ _ _ Hg (persist_written _ _ _ _ _ _ Hg Hs Hr Hp)).
Qed.

(** What is read of a layer that is stored: its document, whose events are the
    rows in order. *)
Lemma holds_reads lid d db : holds lid d db ->
  load_layer_id lid db = Ok d
  /\ map row_seq (layer_rows lid db) = map Z.of_nat (seq 0 (length (layer_rows lid db))).
Proof using HL.
  intros Hh. pose proof (db_load_holds _ _ _ Hh) as Hl. destruct Hh as (r & owner & Hs & Hr & _ & Hrows). split.
  - unfold load_layer_id. rewrite Hl. cbn [mbind result_bind]. unfold validate_layer. by rewrite Hs.
  - rewrite Hrows map_map length_map. apply layer_record_events in Hr as [Hq _]. by etransitivity; [|exact Hq]; apply map_ext.
Qed.

Lemma reachable_invariants db : rtc db_step empty_database db -> db_good db /\ ids_unique db /\ owners_ok db.
Proof.
  enough (forall db0, rtc db_step db0 db -> db_good db0 /\ ids_unique db0 /\ owners_ok db0 ->
    db_good db /\ ids_unique db /\ owners_ok db) as Hgen.
  { intros Hr. apply (Hgen empty_database Hr). split; [|split].
    - intros id. cbn. by rewrite lookup_empty.
    - intros id. apply NoDup_nil_2.
    - intros i row o. cbn. by rewrite lookup_empty. }
  induction 1 as [|db1 db2 db3 Hstep _ IH]; [done|]. intros (Hg & Hu & Ho). apply IH.
  split; [exact (db_good_step _ _ Hg Hstep)|].
  apply db_step_persist in Hstep as [->|(id & d & r & owner & Hs & Hr & Hp)]; [done|].
  split; [exact (persist_ids _ _ _ _ _ Hu Hp)|exact (persist_owners _ _ _ _ _ Ho Hp)].
Qed.

(** C12: what holds of every database the operations can reach from an empty
    one.  Each layer is a schema-valid document: its row and its events' rows are
    the document's, the events numbered from zero without gaps and with unique
    ids, and loading the layer gives the document back.  There are no events
    without a layer, and every owner is registered and owns one layer. *)
Theorem reachable_database_sound db : rtc db_step empty_database db ->
  (forall lid row, db_layers db !! lid = Some row -> exists d, holds lid d db /\ load_layer_id lid db = Ok d
     /\ map row_payload (layer_rows lid db) = map encode_json (events_doc d)
     /\ map row_seq (layer_rows lid db) = map Z.of_nat (seq 0 (length (layer_rows lid db)))
     /\ NoDup (map row_event_id (layer_rows lid db)))
  /\ (forall lid, db_layers db !! lid = None -> layer_rows lid db = [])
  /\ forall lid row o, db_layers db !! lid = Some row -> lrow_owner row = Some o ->
       registered o = true
       /\ forall lid' row', db_layers db !! lid' = Some row' -> lrow_owner row' = Some o -> lid' = lid.
Proof using HL.
  intros (Hg & Hu & Ho)%reachable_invariants. split; [|split; [|exact Ho]].
  - intros lid row Hl. pose proof (Hg lid) as Hd. rewrite Hl in Hd. destruct Hd as [d Hd]. exists d.
    destruct (holds_reads _ _ _ Hd). split_and!; try done. exact (holds_events _ _ _ Hd).
  - intros lid Hl. specialize (Hg lid). by rewrite Hl in Hg.
Qed.

Lemma db_mutate_prefix A k (f : dict -> res (A * dict)) a db db' :
  db_good db -> db_mutate A k f db = Ok (a, db') ->
  exists d d' new, db_stored (layer_id_of k) db = Some d /\ db_stored (layer_id_of k) db' = Some d'
    /\ events_doc d' = events_doc d ++ new /\ db_events db `prefix_of` db_events db'
    /\ forall i, i <> layer_id_of k -> db_stored i db' = db_stored i db.
Proof using HL.
  intros Hg Hm. destruct (db_mutate_inv _ _ _ _ _ _ Hg Hm) as (d & d' & Hh & _ & _ & Hw).
  destruct (written_stored _ _ _ _ Hg Hw) as [Hs' Ho]. destruct (written_prefix _ _ _ _ _ Hh Hw) as [new Hnew].
  exists d, d', new. split; [by apply db_stored_holds|]. split; [done|]. split; [done|].
  split; [exact (written_grows _ _ _ _ Hw)|done].
Qed.

(** C13: no transaction rewrites history.  Whatever change a caller's function
    makes to a layer, if it is committed then the events stored before are,
    unchanged and in order, the first events stored after; no row of the events
    table is changed or removed; and every other layer is as it was. *)
Theorem committed_history_is_kept A k (f : dict -> res (A * dict)) a db db' :
  db_good db -> db_mutate A k f db = Ok (a, db') ->
  exists d d' new, db_stored (layer_id_of k) db = Some d /\ db_stored (layer_id_of k) db' = Some d'
    /\ events_doc d' = events_doc d ++ new /\ db_events db `prefix_of` db_events db'
    /\ forall i, i <> layer_id_of k -> db_stored i db' = db_stored i db.
Proof using HL. apply db_mutate_prefix. Qed.

Lemma unstored_row id db : db_good db -> db_load_row id db = Ok None -> db_layers db !! id = None.
Proof using HL.
  intros Hg Ho. specialize (Hg id). destruct (db_layers db !! id); [|done]. destruct Hg as [d0 Hh].
  by rewrite (db_load_holds _ _ _ Hh) in Ho.
Qed.

(** What an import that returns has done. *)
Lemma import_inv id d owner dry db st db' : db_good db -> import_layer id d owner dry db = Ok (st, db') ->
  match st with
  | Skipped => db' = db /\ exists d0, db_stored id db = Some d0 /\ py_eqb (JObj d0) (JObj d) = true
                                    /\ product_repo id db = owner
  | WouldInsert => db' = db /\ dry = true /\ db_stored id db = None
  | Inserted => dry = false /\ db_stored id db = None /\ holds id d db' /\ product_repo id db' = owner
                /\ db_good db' /\ forall i, i <> id -> db_stored i db' = db_stored i db
                                                     /\ product_repo i db' = product_repo i db
  end.
Proof using HL.
  intros Hg Hi. unfold import_layer in Hi. inv_bind Hi as [[]|] Hrp. inv_bind Hi as [[]|] Hv.
  inv_bind Hi as [r|] Hr. inv_bind Hi as [o|] Ho. destruct o as [e|].
  { inv_bind Hi as [[]|] Hne. inv_bind Hi as [[]|] Hrepo. injection Hi as <- <-. split; [done|]. exists e.
    apply raise_if_ok, negb_false_iff in Hne, Hrepo. apply bool_decide_eq_true in Hrepo.
    unfold db_stored. by rewrite Ho. }
  inv_bind Hi as [[]|] Hun. assert (db_stored id db = None) as Hnone by (unfold db_stored; by rewrite Ho).
  destruct dry; [by injection Hi as <- <-|].
  inv_bind Hi as [db1|] Hp. apply ownership_conflict_ok in Hp.
  pose proof (persist_written _ _ _ _ _ _ Hg (validate_layer_ok _ _ Hv) Hr Hp) as Hw.
  destruct (written_stored _ _ _ _ Hg Hw) as [Hst Hother].
  rewrite (db_load_holds _ _ _ (written_holds _ _ _ _ Hw)) in Hi. cbn [mbind result_bind] in Hi.
  inv_bind Hi. inv_bind Hi. injection Hi as <- <-.
  split; [done|]. split; [done|]. split; [apply Hw|]. split; [|split; [exact (written_good _ _ _ _ Hg Hw)|]].
  - apply persist_inv in Hp as (n & _ & ->). unfold product_repo, persisted_layers. cbn [db_layers].
    by rewrite lookup_insert_eq (unstored_row _ _ Hg Ho).
  - intros i Hne. split; [by apply Hother|]. destruct (written_others _ _ _ _ Hw i Hne) as [Hl _].
    unfold product_repo. by rewrite Hl.
Qed.

(** Imports are idempotent and exact.  After an import that inserted, the
    layer reads back as the imported document, and importing the same document
    for the same owner again changes nothing, dry run or not; a document that
    differs is refused. *)
Theorem import_idempotent id d owner db db' :
  db_good db -> import_layer id d owner false db = Ok (Inserted, db') ->
  db_stored id db' = Some d
  /\ (forall dry, import_layer id d owner dry db' = Ok (Skipped, db'))
  /\ forall d2 owner2 dry st db2, import_layer id d2 owner2 dry db' = Ok (st, db2) ->
       st = Skipped /\ db2 = db' /\ py_eqb (JObj d) (JObj d2) = true /\ product_repo id db' = owner2.
Proof using HL.
  intros Hg Hi. pose proof (import_inv _ _ _ _ _ _ _ Hg Hi) as (_ & _ & Hh & Hown & Hg' & _).
  pose proof (db_load_holds _ _ _ Hh) as Hl. unfold import_layer in Hi. inv_bind Hi as [[]|] Hrp.
  inv_bind Hi as [[]|] Hv. inv_bind Hi as [r|] Hr. clear Hi.
  split; [by apply db_stored_holds|]. split.
  - intros dry. unfold import_layer. rewrite Hrp Hv Hr Hl. cbn [mbind result_bind].
    unfold py_neqb. rewrite py_eqb_refl bool_decide_true //.
  - intros d2 owner2 dry st db2 Hi2. unfold import_layer in Hi2. do 3 inv_bind Hi2.
    rewrite Hl in Hi2. cbn [mbind result_bind] in Hi2. inv_bind Hi2 as [[]|] Hne. inv_bind Hi2 as [[]|] Hrepo.
    injection Hi2 as <- <-. apply raise_if_ok in Hne, Hrepo. apply negb_false_iff in Hne, Hrepo.
    apply bool_decide_eq_true in Hrepo. done.
Qed.
End Reachable.

(** ** Witnesses *)

#[local] Instance sample_registry : StorageRegistry := {| registered := fun o => bool_decide (o = "repo-1"); collates := String.leb |}.
Definition or_empty (r : res database) : database := match r with Ok db => db | Err _ => empty_database end.
Definition sample_db : database :=
  or_empty (db_initialize (DbLayerKey "L1") sample_stored_layer (Some "repo-1") empty_database).
Definition add_event (d : dict) : res (unit * dict) :=
  Ok (tt, <["events" := JArr (events_doc d ++ [JObj {["event_id" := JStr "E3"]}])]> d).

Lemma sample_db_step : rtc db_step empty_database sample_db.
Proof.
  eapply rtc_l; [|apply rtc_refl].
  apply (step_initialize _ (DbLayerKey "L1") sample_stored_layer (Some "repo-1")). vm_compute. reflexivity.
Qed.
Lemma empty_database_good : db_good empty_database.
Proof. intros id. cbn. by rewrite lookup_empty. Qed.
Lemma sample_db_good : db_good sample_db.
Proof.
  refine (rtc_ind_r (fun db => db_good db) empty_database empty_database_good _ _ sample_db_step).
  intros y z _ Hs Hg. exact (db_good_step _ _ Hg Hs).
Qed.

Lemma reachable_database_sound_witness :
  length (db_events sample_db) = 2 /\
  ((forall lid row, db_layers sample_db !! lid = Some row -> exists d, holds lid d sample_db /\ load_layer_id lid sample_db = Ok d
     /\ map row_payload (layer_rows lid sample_db) = map encode_json (events_doc d)
     /\ map row_seq (layer_rows lid sample_db) = map Z.of_nat (seq 0 (length (layer_rows lid sample_db)))
     /\ NoDup (map row_event_id (layer_rows lid sample_db)))
  /\ (forall lid, db_layers sample_db !! lid = None -> layer_rows lid sample_db = [])
  /\ forall lid row o, db_layers sample_db !! lid = Some row -> lrow_owner row = Some o ->
       registered o = true
       /\ forall lid' row', db_layers sample_db !! lid' = Some row' -> lrow_owner row' = Some o -> lid' = lid).
Proof. split; [vm_compute; reflexivity|]. apply (reachable_database_sound sample_db). exact sample_db_step. Defined.

Lemma committed_history_is_kept_witness :
  let db' := match db_mutate unit (DbLayerKey "L1") add_event sample_db with Ok (_, db') => db' | Err _ => sample_db end in
  length (db_events db') = 3 /\
  exists d d' new, db_stored "L1" sample_db = Some d /\ db_stored "L1" db' = Some d'
    /\ events_doc d' = events_doc d ++ new /\ db_events sample_db `prefix_of` db_events db'
    /\ forall i, i <> "L1" -> db_stored i db' = db_stored i sample_db.
Proof.
  split; [vm_compute; reflexivity|].
  apply (committed_history_is_kept unit (DbLayerKey "L1") add_event tt); [exact sample_db_good|].
  vm_compute. reflexivity.
Defined.

Lemma import_idempotent_witness :
  let db' := match import_layer "L1" sample_stored_layer (Some "repo-1") false empty_database with
             | Ok (_, db') => db' | Err _ => empty_database end in
  db_stored "L1" db' = Some sample_stored_layer
  /\ (forall dry, import_layer "L1" sample_stored_layer (Some "repo-1") dry db' = Ok (Skipped, db'))
  /\ forall d2 owner2 dry st db2, import_layer "L1" d2 owner2 dry db' = Ok (st, db2) ->
       st = Skipped /\ db2 = db' /\ py_eqb (JObj sample_stored_layer) (JObj d2) = true
       /\ product_repo "L1" db' = owner2.
Proof.
  apply (import_idempotent "L1" sample_stored_layer (Some "repo-1") empty_database);
    [exact empty_database_good|]. vm_compute. reflexivity.
Defined.
