(* ===== verification/Query.v ===== *)
(** * Layer listings

    [_internal/query.py] - the allowlist of filters, parsing and matching - and
    the [query_layers] of both backends with the [list_layers] route of
    [service/routes.py].  A listing is specified once ([listing]), over the
    layers as identifier, owner and document; the database pushes the column
    filters into the query and leaves short payloads out of the scan, the file
    backend walks the directory, and both are proved to be that listing. *)

From S2P Require Import Prelude PyStr Json Errors Contracts Time Records Backend FileBackend.
From S2P Require Import DbBackend.
From stdpp Require Import options.

(** ** The registry *)

(** [str], [int], [_parse_datetime]. *)
Inductive parser := ParseStr | ParseInt | ParseDatetime.
Inductive scalar := SStr (s : string) | SInt (z : Z) | STime (t : datetime).
Definition run_parser (p : parser) (raw : string) : res scalar :=
  match p with
  | ParseStr => Ok (SStr raw)
  | ParseInt => z ← of_option (int_of_str raw) ValueError; Ok (SInt z)
  | ParseDatetime =>
      t ← of_option (fromisoformat raw) ValueError;
      _ ← raise_if (negb (aware t)) ValueError;
      Ok (STime t)
  end.

Inductive FilterDef :=
| ColumnFilterDef (column : string) (ops : list string) (parse : parser)
| JsonItemFilterDef (payload item_field : string) (ops : list string) (parse : parser).
Definition def_ops (d : FilterDef) : list string :=
  match d with ColumnFilterDef _ ops _ | JsonItemFilterDef _ _ ops _ => ops end.
Definition def_parse (d : FilterDef) : parser :=
  match d with ColumnFilterDef _ _ p | JsonItemFilterDef _ _ _ p => p end.
Definition is_column (d : FilterDef) : bool := match d with ColumnFilterDef _ _ _ => true | _ => false end.

Definition FILTER_REGISTRY : gmap string FilterDef := {[
  "product_repo_id" := ColumnFilterDef "product_repo_id" ["eq"; "in"] ParseStr;
  "layer_id" := ColumnFilterDef "layer_id" ["eq"; "in"] ParseStr;
  "merkle_epoch" := ColumnFilterDef "merkle_epoch" ["gte"; "lte"] ParseInt;
  "updated_at" := ColumnFilterDef "updated_at" ["gte"; "lte"] ParseDatetime;
  "review_status" := JsonItemFilterDef "needs_review" "status" ["eq"; "in"] ParseStr;
  "review_queue_reason" := JsonItemFilterDef "needs_review" "queue_reason" ["eq"; "in"] ParseStr ]}.
Definition FILE_SUPPORTED_COLUMN_FILTERS : list string := ["layer_id"; "product_repo_id"].

(** A parsed value, or the members of an [in]. *)
Inductive filter_value := One (v : scalar) | Many (l : list scalar).
Record Filter := { f_key : string; f_op : string; f_value : filter_value }.
Record LayerEntry := {
  entry_layer_id : string; entry_product_repo_id : option string; entry_needs_review : option (list json)
}.

(** [FILTER_REGISTRY[key]]. *)
Definition registry_get (key : string) : res FilterDef := of_option (FILTER_REGISTRY !! key) KeyError.

Definition parse_filter (raw : string) : res Filter :=
  '(key, rest) ← of_option (partition ":"%char raw) ValueError;
  '(op, value) ← of_option (partition ":"%char rest) ValueError;
  definition ← of_option (FILTER_REGISTRY !! key) ValueError;
  _ ← raise_if (negb (bool_decide (op ∈ def_ops definition))) ValueError;
  parsed ← (if String.eqb op "in" then
              let members := List.filter str_truthy (split ","%char value) in
              _ ← raise_if (match members with [] => true | _ => false end) ValueError;
              vs ← mapR (run_parser (def_parse definition)) members;
              Ok (Many vs)
            else v ← run_parser (def_parse definition) value; Ok (One v));
  Ok {| f_key := key; f_op := op; f_value := parsed |}.
Definition parse_filters (raw : list string) : res (list Filter) := mapR parse_filter raw.

Definition filters_where (p : FilterDef -> bool) (filters : list Filter) : res (list Filter) :=
  filterR (fun f => d ← registry_get (f_key f); Ok (p d)) filters.
Definition column_filters : list Filter -> res (list Filter) := filters_where is_column.
Definition json_item_filters : list Filter -> res (list Filter) := filters_where (fun d => negb (is_column d)).

(** [actual == v] of a document value and a parsed one. *)
Definition equals (actual : json) (v : scalar) : bool :=
  match v with SStr s => py_eqb actual (JStr s) | SInt z => py_eqb actual (JInt z) | STime _ => false end.
(** [eq] and [in]; a filter pairs [eq] with one value and [in] with several. *)
Definition test_item (op : string) (actual : json) (v : filter_value) : res bool :=
  match v with
  | One s => if String.eqb op "eq" then Ok (equals actual s) else Err ValueError
  | Many l => if String.eqb op "in" then Ok (existsb (equals actual) l) else Err ValueError
  end.

(** [item_matches]: a [for] over the filters with an early [return False]. *)
Fixpoint item_matches_obj (filters : list Filter) (item : dict) : res bool :=
  match filters with
  | [] => Ok true
  | f :: rest =>
      d ← registry_get (f_key f);
      match d with
      | ColumnFilterDef _ _ _ => Err AssertionError
      | JsonItemFilterDef _ item_field _ _ =>
          b ← test_item (f_op f) (get item_field item) (f_value f);
          if b then item_matches_obj rest item else Ok false
      end
  end.
Definition item_matches (filters : list Filter) (item : json) : res bool :=
  match item with JObj d => item_matches_obj filters d | _ => Ok false end.

(** The queue items a listing shows: the objects, and of these the matching. *)
Definition shown_items (json_filters : list Filter) (queue : list json) : res (list json) :=
  let items := List.filter is_dict queue in
  match json_filters with [] => Ok items | _ => filterR (item_matches json_filters) items end.

Definition wants_reviews (include_reviews : bool) (json_filters : list Filter) : bool :=
  include_reviews || match json_filters with [] => false | _ => true end.

(** The entries that were appended. *)
Definition present (l : list (option LayerEntry)) : list LayerEntry := omap (fun o => o) l.

(** ** The file backend *)

Section File.
Context `{Contracts}.

Fixpoint column_filters_match (filters : list Filter) (layer_id : string) : bool :=
  match filters with
  | [] => true
  | f :: rest =>
      if String.eqb (f_key f) "layer_id" then
        match f_value f with
        | One v => if String.eqb (f_op f) "eq" && negb (equals (JStr layer_id) v) then false
                   else column_filters_match rest layer_id
        | Many l => if String.eqb (f_op f) "in" && negb (existsb (equals (JStr layer_id)) l) then false
                    else column_filters_match rest layer_id
        end
      else if String.eqb (f_key f) "product_repo_id" then false
      else column_filters_match rest layer_id
  end.

Definition require_file_filter (f : Filter) : res unit :=
  d ← registry_get (f_key f);
  raise_if (is_column d && negb (bool_decide (f_key f ∈ FILE_SUPPORTED_COLUMN_FILTERS)))
    (Storage LayerStorageError).

(** One turn of the listing loop. *)
Definition file_entry (dir : string) (filters json_filters : list Filter) (wants : bool) (fs : files)
    (layer_id : string) : res (option LayerEntry) :=
  if negb (column_filters_match filters layer_id) then Ok None
  else if negb wants then
    Ok (Some {| entry_layer_id := layer_id; entry_product_repo_id := None; entry_needs_review := None |})
  else
    layer ← file_load (FileKey (join_path dir (layer_id +:+ ".json"))) fs;
    queue ← get_list "needs_review" layer;
    items ← shown_items json_filters queue;
    Ok (match items with
        | [] => None
        | _ => Some {| entry_layer_id := layer_id; entry_product_repo_id := None;
                       entry_needs_review := Some items |}
        end).

(** With no data directory the list of identifiers is empty. *)
Definition file_query_layers (data_dir : option string) (filters : list Filter) (include_reviews : bool)
    (fs : files) : res (list LayerEntry) :=
  _ ← mapR require_file_filter filters;
  json_filters ← json_item_filters filters;
  let wants := wants_reviews include_reviews json_filters in
  entries ← mapR (file_entry (default "" data_dir) filters json_filters wants fs)
              (list_layer_ids data_dir fs);
  Ok (present entries).
End File.

(** ** The database backend *)

Section Db.
(** The column the engine sets to the time of each write. *)
Context `{StorageRegistry} (updated_at : string -> datetime).

Definition column_value (column : string) (kv : string * layer_row) : res (option scalar) :=
  if String.eqb column "layer_id" then Ok (Some (SStr kv.1))
  else if String.eqb column "product_repo_id" then Ok (SStr <$> lrow_owner kv.2)
  else if String.eqb column "merkle_epoch" then Ok (SInt <$> lv_merkle_epoch (lrow_values kv.2))
  else if String.eqb column "updated_at" then Ok (Some (STime (updated_at kv.1)))
  else Err AttributeError.

Definition scalar_eqb (a b : scalar) : bool :=
  match a, b with
  | SStr s, SStr t => String.eqb s t
  | SInt y, SInt z => (y =? z)%Z
  | STime t, STime u => (micros t =? micros u)%Z
  | _, _ => false
  end.
Definition scalar_leb (a b : scalar) : bool :=
  match a, b with
  | SInt y, SInt z => (y <=? z)%Z
  | STime t, STime u => (micros t <=? micros u)%Z
  | _, _ => false
  end.

(** [_COLUMN_COMPARATORS]; a comparison with NULL selects nothing. *)
Definition compare_column (op : string) (column : option scalar) (v : filter_value) : res bool :=
  match v with
  | One x =>
      if String.eqb op "eq" then Ok (from_option (fun c => scalar_eqb c x) false column)
      else if String.eqb op "gte" then Ok (from_option (fun c => scalar_leb x c) false column)
      else if String.eqb op "lte" then Ok (from_option (fun c => scalar_leb c x) false column)
      else Err KeyError
  | Many l =>
      if String.eqb op "in" then Ok (from_option (fun c => existsb (scalar_eqb c) l) false column)
      else Err KeyError
  end.

(** The [WHERE] clause. *)
Definition where_filter (kv : string * layer_row) (acc : bool) (f : Filter) : res bool :=
  d ← registry_get (f_key f);
  match d with
  | ColumnFilterDef column _ _ =>
      c ← column_value column kv; b ← compare_column (f_op f) c (f_value f); Ok (acc && b)
  | JsonItemFilterDef _ _ _ _ => Ok acc
  end.
Definition row_selected (filters : list Filter) (wants : bool) (kv : string * layer_row) : res bool :=
  b ← foldM (where_filter kv) filters true;
  Ok (b && (negb wants || (2 <? length (lv_needs_review_payload (lrow_values kv.2)))%nat)).

Definition db_entry (json_filters : list Filter) (wants : bool) (kv : string * layer_row)
  : res (option LayerEntry) :=
  if negb wants then
    Ok (Some {| entry_layer_id := kv.1; entry_product_repo_id := lrow_owner kv.2;
                entry_needs_review := None |})
  else
    v ← decode_json (lv_needs_review_payload (lrow_values kv.2));
    queue ← iterate_objects v;
    items ← shown_items json_filters queue;
    Ok (match items with
        | [] => None
        | _ => Some {| entry_layer_id := kv.1; entry_product_repo_id := lrow_owner kv.2;
                       entry_needs_review := Some items |}
        end).

Definition db_query_layers (filters : list Filter) (include_reviews : bool) (db : database)
  : res (list LayerEntry) :=
  json_filters ← json_item_filters filters;
  let wants := wants_reviews include_reviews json_filters in
  rows ← filterR (row_selected filters wants) (ordered_layers db);
  entries ← mapR (db_entry json_filters wants) rows;
  Ok (present entries).
End Db.

(** ** The route *)

(** [list_layers], over the [query_layers] of the backend. *)
Definition list_layers (query : list Filter -> bool -> res (list LayerEntry)) (product_repo_id : option string)
    (filter_args : list string) (include_reviews : bool) : res (list LayerEntry) :=
  parsed ← match parse_filters filter_args with
           | Err e => Err (if is_value_error e then Service ValidationError else e)
           | Ok fs => Ok fs
           end;
  let filters := match product_repo_id with
                 | Some o => parsed ++ [{| f_key := "product_repo_id"; f_op := "eq"; f_value := One (SStr o) |}]
                 | None => parsed
                 end in
  entries ← query filters include_reviews;
  _ ← raise_if (match product_repo_id, entries, filter_args with
                | Some _, [], [] => negb include_reviews
                | _, _, _ => false
                end) (Service ProductRepoLayerNotFoundError);
  Ok entries.

(** ** Filters that come from requests *)

Definition of_kind (p : parser) (v : scalar) : bool :=
  match p, v with
  | ParseStr, SStr _ | ParseInt, SInt _ => true
  | ParseDatetime, STime t => aware t
  | _, _ => false
  end.
Definition well_typed_value (op : string) (p : parser) (v : filter_value) : Prop :=
  match v with
  | One x => op <> "in" /\ of_kind p x = true
  | Many l => op = "in" /\ l <> [] /\ Forall (fun x => of_kind p x = true) l
  end.
(** The key is in the registry, the operator is one of its operators, and the
    value has the type of the key. *)
Definition well_typed (f : Filter) : Prop :=
  exists d, FILTER_REGISTRY !! f_key f = Some d /\ f_op f ∈ def_ops d
    /\ well_typed_value (f_op f) (def_parse d) (f_value f).

Lemma run_parser_kind p raw v : run_parser p raw = Ok v -> of_kind p v = true.
Proof.
  destruct p; cbn [run_parser].
  - by intros [= <-].
  - intros Hp. inv_bind Hp. by injection Hp as <-.
  - intros Hp. inv_bind Hp as [t|] Ht. inv_bind Hp as [[]|] Ha. injection Hp as <-. cbn [of_kind].
    apply raise_if_ok in Ha. by apply negb_false_iff.
Qed.

(** Every filter a request can express is well typed: an allowlisted key, one
    of its operators, and a value - for [in], a non-empty list of values - of the
    key's type. *)
Theorem parse_filter_well_typed raw f : parse_filter raw = Ok f -> well_typed f.
Proof.
  unfold parse_filter. intros Hf. inv_bind Hf as [[key rest]|] E1. inv_bind Hf as [[op value]|] E2.
  inv_bind Hf as [d|] Hd. inv_bind Hf as [[]|] Hop. inv_bind Hf as [v|] Hv. injection Hf as <-.
  destruct (FILTER_REGISTRY !! key) as [d'|] eqn:Hk; [|done]. injection Hd as ->.
  apply raise_if_ok, negb_false_iff, bool_decide_eq_true in Hop.
  exists d. cbn [f_key f_op f_value]. split; [done|]. split; [done|].
  destruct (String.eqb_spec op "in") as [->|Hne].
  - inv_bind Hv as [[]|] Hm. inv_bind Hv as [vs|] Hvs. injection Hv as <-. cbn [well_typed_value].
    split; [done|]. apply raise_if_ok in Hm. split.
    + intros ->. apply mapR_ok_length in Hvs. by destruct (List.filter _ _).
    + apply mapR_ok_Forall2 in Hvs. clear Hm. induction Hvs as [|m x ms xs Hx _ IH]; constructor; [|done].
      exact (run_parser_kind _ _ _ Hx).
  - inv_bind Hv as [x|] Hx. injection Hv as <-. cbn [well_typed_value]. split; [done|].
    exact (run_parser_kind _ _ _ Hx).
Qed.

(** ** The listing *)

(** What a listing needs of a layer. *)
Record view := {
  v_id : string; v_owner : option string; v_epoch : option Z; v_time : datetime; v_queue : list json
}.

Definition view_column (column : string) (v : view) : option scalar :=
  if String.eqb column "layer_id" then Some (SStr (v_id v))
  else if String.eqb column "product_repo_id" then SStr <$> v_owner v
  else if String.eqb column "merkle_epoch" then SInt <$> v_epoch v
  else if String.eqb column "updated_at" then Some (STime (v_time v))
  else None.
Definition holds_value (test : scalar -> scalar -> bool) (c : option scalar) (x : scalar) : bool :=
  match c with Some y => test y x | None => false end.
Definition column_test (op : string) (c : option scalar) (v : filter_value) : bool :=
  match v with
  | One x => if String.eqb op "eq" then holds_value scalar_eqb c x
             else if String.eqb op "gte" then holds_value (fun y z => scalar_leb z y) c x
             else holds_value scalar_leb c x
  | Many l => existsb (holds_value scalar_eqb c) l
  end.
Definition item_test (actual : json) (v : filter_value) : bool :=
  match v with One x => equals actual x | Many l => existsb (equals actual) l end.

Definition is_item_filter (f : Filter) : bool :=
  match FILTER_REGISTRY !! f_key f with Some d => negb (is_column d) | None => false end.
Definition column_holds (v : view) (f : Filter) : bool :=
  match FILTER_REGISTRY !! f_key f with
  | Some (ColumnFilterDef column _ _) => column_test (f_op f) (view_column column v) (f_value f)
  | _ => true
  end.
Definition item_holds (item : json) (f : Filter) : bool :=
  match FILTER_REGISTRY !! f_key f with
  | Some (JsonItemFilterDef _ field _ _) =>
      match item with JObj d => item_test (get field d) (f_value f) | _ => false end
  | _ => true
  end.

(** The layers that pass every column filter, each with the queue items that
    pass every item filter if items were asked for - and then only layers that
    have some. *)
Definition listed_items (filters : list Filter) (v : view) : list json :=
  List.filter (fun i => is_dict i && forallb (item_holds i) filters) (v_queue v).
Definition wants_items (filters : list Filter) (include_reviews : bool) : bool :=
  include_reviews || existsb is_item_filter filters.
Definition listed (filters : list Filter) (include_reviews : bool) (v : view) : option LayerEntry :=
  if negb (forallb (column_holds v) filters) then None
  else if negb (wants_items filters include_reviews) then
    Some {| entry_layer_id := v_id v; entry_product_repo_id := v_owner v; entry_needs_review := None |}
  else match listed_items filters v with
       | [] => None
       | items => Some {| entry_layer_id := v_id v; entry_product_repo_id := v_owner v;
                          entry_needs_review := Some items |}
       end.
Definition listing (filters : list Filter) (include_reviews : bool) (views : list view) : list LayerEntry :=
  omap (listed filters include_reviews) views.

(** ** The code computes the listing *)

(** Every entry of the registry has a property that each of them has. *)
Lemma registry_all (P : string -> FilterDef -> Prop) :
  P "product_repo_id" (ColumnFilterDef "product_repo_id" ["eq"; "in"] ParseStr) ->
  P "layer_id" (ColumnFilterDef "layer_id" ["eq"; "in"] ParseStr) ->
  P "merkle_epoch" (ColumnFilterDef "merkle_epoch" ["gte"; "lte"] ParseInt) ->
  P "updated_at" (ColumnFilterDef "updated_at" ["gte"; "lte"] ParseDatetime) ->
  P "review_status" (JsonItemFilterDef "needs_review" "status" ["eq"; "in"] ParseStr) ->
  P "review_queue_reason" (JsonItemFilterDef "needs_review" "queue_reason" ["eq"; "in"] ParseStr) ->
  forall key d, FILTER_REGISTRY !! key = Some d -> P key d.
Proof.
  intros H1 H2 H3 H4 H5 H6 key d Hd. unfold FILTER_REGISTRY in Hd.
  repeat (apply lookup_insert_Some in Hd as [[<- <-]|[_ Hd]]; [done|]).
  by apply lookup_singleton_Some in Hd as [<- <-].
Qed.

Lemma item_filter_inv key pl fld ops p :
  FILTER_REGISTRY !! key = Some (JsonItemFilterDef pl fld ops p) -> ops = ["eq"; "in"] /\ p = ParseStr.
Proof.
  intros Hd. by apply (registry_all (fun _ d => match d with
    | JsonItemFilterDef _ _ o q => o = ["eq"; "in"] /\ q = ParseStr | _ => True end)) in Hd.
Qed.

Lemma json_filters_pure filters : Forall well_typed filters ->
  json_item_filters filters = Ok (List.filter is_item_filter filters).
Proof.
  intros Hwt. apply filterR_pure. intros f Hf%list_elem_of_In.
  rewrite ->List.Forall_forall in Hwt. destruct (Hwt f Hf) as (d & Hd & _).
  unfold registry_get, is_item_filter. by rewrite Hd.
Qed.

Lemma test_item_pure f actual : f_op f ∈ ["eq"; "in"] -> well_typed_value (f_op f) ParseStr (f_value f) ->
  test_item (f_op f) actual (f_value f) = Ok (item_test actual (f_value f)).
Proof.
  intros Hop Hv. unfold test_item, item_test. destruct (f_value f) as [x|l]; cbn [well_typed_value] in Hv.
  - destruct Hv as [Hne _]. apply elem_of_cons in Hop as [->|[?|?%not_elem_of_nil]%elem_of_cons]; done.
  - by destruct Hv as [-> _].
Qed.

Lemma item_matches_pure filters item : Forall well_typed filters ->
  item_matches (List.filter is_item_filter filters) item
  = Ok (is_dict item && forallb (item_holds item) filters).
Proof.
  intros Hwt. destruct item as [| | | | |d]; try done. cbn [item_matches is_dict andb].
  induction Hwt as [|f fs Hf _ IH]; [done|]. cbn [List.filter forallb].
  destruct Hf as (def & Hd & Hop & Hv). unfold is_item_filter at 1, item_holds at 1. rewrite Hd.
  destruct def as [c ops p|pl fld ops p]; cbn [is_column negb andb]; [exact IH|].
  cbn [item_matches_obj]. unfold registry_get. rewrite Hd. cbn [of_option mbind result_bind].
  destruct (item_filter_inv _ _ _ _ _ Hd) as [-> ->]. rewrite test_item_pure //.
  cbn [mbind result_bind]. destruct (item_test _ _); cbn [andb]; [exact IH|done].
Qed.

Lemma item_filters_none filters item :
  List.filter is_item_filter filters = [] -> forallb (item_holds item) filters = true.
Proof.
  induction filters as [|f fs IH]; [done|]. cbn [List.filter forallb].
  unfold is_item_filter at 1, item_holds at 1.
  destruct (FILTER_REGISTRY !! f_key f) as [[]|]; cbn [is_column negb andb]; done.
Qed.

(** The items both backends show are those of the specification. *)
Lemma shown_items_pure filters v : Forall well_typed filters ->
  shown_items (List.filter is_item_filter filters) (v_queue v) = Ok (listed_items filters v).
Proof.
  intros Hwt. unfold shown_items, listed_items.
  rewrite -(filter_filter_and is_dict (fun i => forallb (item_holds i) filters)).
  destruct (List.filter is_item_filter filters) eqn:Hj.
  - f_equal. symmetry. apply filter_all. intros i _. by apply item_filters_none.
  - rewrite -Hj. erewrite filterR_pure; [|intros i _; by apply item_matches_pure]. f_equal.
    apply List.filter_ext_in. intros i [_ ->]%filter_In. done.
Qed.

Lemma wants_pure filters include_reviews :
  wants_reviews include_reviews (List.filter is_item_filter filters) = wants_items filters include_reviews.
Proof.
  unfold wants_reviews, wants_items. f_equal. induction filters as [|f fs IH]; [done|]. cbn [List.filter existsb].
  destruct (is_item_filter f); [done|exact IH].
Qed.

(** A queue payload of at most two bytes is the empty queue. *)
Lemma short_queue q : (2 <? length (encode_json (JArr q)))%nat = false -> q = [].
Proof.
  intros Hlen%Nat.ltb_ge. enough (JArr q = JArr []) as [= ->]; [done|]. apply (inj encode_json).
  unfold encode_json, utf8, dumps in *. rewrite !chars_of_chars in Hlen |- *. cbn [dump_chars] in *.
  unfold utf8_chars in *. cbn [flat_map] in *. rewrite flat_map_app in Hlen |- *.
  rewrite !length_app in Hlen. change (length (utf8_char _)) with 1 in Hlen.
  destruct (flat_map utf8_char (commas (dump_chars true <$> q))); [done|].
  cbn [length] in Hlen. lia.
Qed.

Lemma compare_column_pure key column ops p f c : FILTER_REGISTRY !! key = Some (ColumnFilterDef column ops p) ->
  f_op f ∈ ops -> well_typed_value (f_op f) p (f_value f) ->
  compare_column (f_op f) c (f_value f) = Ok (column_test (f_op f) c (f_value f)).
Proof.
  intros Hd Hop Hv.
  assert (f_op f ∈ ["eq"; "in"; "gte"; "lte"]) as Hops.
  { apply (registry_all (fun _ d => def_ops d ⊆ ["eq"; "in"; "gte"; "lte"])) in Hd; set_solver. }
  clear Hop. unfold compare_column, column_test. destruct (f_value f) as [x|l]; cbn [well_typed_value] in Hv.
  - destruct Hv as [Hne _]. rewrite !elem_of_cons elem_of_nil in Hops.
    destruct Hops as [Ho|[Ho|[Ho|[Ho|[]]]]]; [..|]; try done; rewrite Ho /holds_value /=; by destruct c.
  - destruct Hv as [-> _]. cbn. f_equal. destruct c; [done|]. cbn. by induction l.
Qed.

Section DbListing.
Context `{HC : Contracts} `{HL : !ContractLaws} `{HS : StorageRegistry}.
Context (updated_at : string -> datetime).

Definition row_queue (row : layer_row) : list json :=
  match decode_json (lv_needs_review_payload (lrow_values row)) with Ok (JArr l) => l | _ => [] end.
Definition db_view (kv : string * layer_row) : view :=
  {| v_id := kv.1; v_owner := lrow_owner kv.2; v_epoch := lv_merkle_epoch (lrow_values kv.2);
     v_time := updated_at kv.1; v_queue := row_queue kv.2 |}.
Definition db_views (db : database) : list view := map db_view (ordered_layers db).

Lemma where_pure filters kv acc : Forall well_typed filters ->
  foldM (where_filter updated_at kv) filters acc = Ok (acc && forallb (column_holds (db_view kv)) filters).
Proof.
  intros Hwt. revert acc. induction Hwt as [|f fs Hf _ IH]; intros acc; cbn [foldM forallb].
  { by rewrite andb_true_r. }
  destruct Hf as (d & Hd & Hop & Hv).
  assert (where_filter updated_at kv acc f = Ok (acc && column_holds (db_view kv) f)) as ->.
  { unfold where_filter, registry_get, column_holds. rewrite Hd. cbn [of_option mbind result_bind].
    destruct d as [column ops p|]; [|by rewrite andb_true_r].
    assert (column_value updated_at column kv = Ok (view_column column (db_view kv))) as ->.
    { by apply (registry_all (fun _ d => match d with ColumnFilterDef c _ _ =>
        column_value updated_at c kv = Ok (view_column c (db_view kv)) | _ => True end)) in Hd. }
    cbn [mbind result_bind]. by rewrite (compare_column_pure _ _ _ _ _ _ Hd Hop Hv). }
  cbn [mbind result_bind]. rewrite IH. by rewrite andb_assoc.
Qed.

(** Each row of a good database has its queue as an array. *)
Lemma row_queue_good db id row : db_good db -> db_layers db !! id = Some row ->
  lv_needs_review_payload (lrow_values row) = encode_json (JArr (row_queue row)).
Proof.
  intros Hg Hrow. specialize (Hg id). rewrite Hrow in Hg.
  destruct Hg as (d & r & owner & _ & _ & Hr & _). rewrite Hrow in Hr. injection Hr as ->.
  unfold row_queue. cbn [lrow_values layer_values_of lv_needs_review_payload]. by rewrite decode_encode.
Qed.

Lemma db_listing filters include_reviews db : db_good db -> Forall well_typed filters ->
  db_query_layers updated_at filters include_reviews db = Ok (listing filters include_reviews (db_views db)).
Proof.
  intros Hg Hwt. unfold db_query_layers. rewrite json_filters_pure //. cbn [mbind result_bind].
  rewrite wants_pure. set (wants := wants_items filters include_reviews).
  erewrite (filterR_pure _ (fun kv => forallb (column_holds (db_view kv)) filters
    && (negb wants || (2 <? length (lv_needs_review_payload (lrow_values kv.2)))%nat)));
    [|intros kv _; unfold row_selected; by rewrite where_pure]. cbn [mbind result_bind].
  set (entry v := if negb wants then
      Some {| entry_layer_id := v_id v; entry_product_repo_id := v_owner v; entry_needs_review := None |}
    else match listed_items filters v with
         | [] => None
         | its => Some {| entry_layer_id := v_id v; entry_product_repo_id := v_owner v;
                          entry_needs_review := Some its |} end).
  assert (forall kv, kv ∈ ordered_layers db ->
    db_entry (List.filter is_item_filter filters) wants kv = Ok (entry (db_view kv))) as He.
  { intros [id row] Hkv%ordered_lookup. unfold db_entry, entry. destruct (negb wants); [done|].
    cbn [fst snd]. rewrite (row_queue_good _ _ _ Hg Hkv) decode_encode. cbn [mbind result_bind iterate_objects].
    rewrite (shown_items_pure filters (db_view (id, row)) Hwt). cbn [mbind result_bind].
    by destruct (listed_items _ _). }
  erewrite (mapR_pure _ (fun kv => entry (db_view kv))).
  2:{ intros kv [Hkv _]%list_elem_of_In%filter_In. by apply He, list_elem_of_In. }
  cbn [mbind result_bind]. f_equal. unfold present, listing, db_views. rewrite !omap_map filter_omap.
  apply omap_ext_in. intros [id row] Hkv%ordered_lookup. unfold listed. fold wants.
  destruct (forallb _ filters); cbn [negb andb]; [|done]. unfold entry. destruct wants; cbn [negb orb]; [|done].
  destruct (2 <? _)%nat eqn:Hlen; [done|]. cbn [fst snd] in Hlen. rewrite (row_queue_good _ _ _ Hg Hkv) in Hlen.
  apply short_queue in Hlen. unfold listed_items. cbn [db_view v_queue snd]. by rewrite Hlen.
Qed.
End DbListing.

(** ** The file backend computes the same listing *)

Lemma prefix_app p : forall s, String.prefix p s = true -> exists t, s = p +:+ t.
Proof.
  induction p as [|c p IH]; intros [|c' s] Hp; cbn [String.prefix] in Hp; try done; [by exists ""|by exists (String c' s)|].
  destruct (ascii_dec c c') as [->|]; [|done]. destruct (IH _ Hp) as [t ->]. by exists t.
Qed.
Lemma endswith_app s p : endswith s p = true -> exists b, s = b +:+ p.
Proof.
  unfold endswith. intros [t Ht]%prefix_app. exists (of_chars (rev (chars t))).
  apply (f_equal (fun x => rev (chars x))) in Ht. rewrite chars_app !chars_of_chars rev_app_distr !rev_involutive in Ht.
  apply (inj (fun s : string => chars s)). by rewrite chars_app chars_of_chars.
Qed.

(** The stem of a directory entry names the entry, unless it is [.json]. *)
Lemma json_stem_path dir path stem : json_stem dir path = Some stem ->
  path = join_path dir ".json" \/ path = join_path dir (stem +:+ ".json").
Proof.
  unfold json_stem. destruct (startswith _ _ && _ && _) eqn:Hb; [|done].
  apply andb_true_iff in Hb as [[_ He]%andb_true_iff Hp%String.eqb_eq].
  intros [= <-]. apply endswith_app in He as [b Hn]. rewrite Hn in Hp.
  destruct (decide (b = "")) as [->|Hb]; [by left|right]. rewrite {1}Hp. do 2 f_equal.
  unfold path_stem. rewrite Hn chars_app rev_app_distr. cbn -[chars rev].
  destruct (rev (chars b)) as [|c l] eqn:Hr.
  - destruct Hb. apply (inj (fun s : string => chars s)). apply (f_equal (@rev _)) in Hr.
    by rewrite rev_involutive in Hr.
  - change (b = of_chars (rev (c :: l))). by rewrite -Hr rev_involutive of_chars_chars.
Qed.

Section FileListing.
Context `{HC : Contracts} `{HL : !ContractLaws}.
Context (dir : string) (fs : files) (Hnames : fs !! join_path dir ".json" = None).

Definition layer_path (id : string) : string := join_path dir (id +:+ ".json").
Definition listed_ids : list string := list_layer_ids (Some dir) fs.

Lemma stem_path p text id : fs !! p = Some text -> layer_stem dir (p, text) = Some id -> p = layer_path id.
Proof using Hnames.
  intros Hp. unfold layer_stem. cbn [fst snd]. destruct (json_stem dir p) as [stem|] eqn:Hj; [|done].
  cbn [mbind option_bind]. destruct (is_layer text); [|done]. intros [= ->].
  apply json_stem_path in Hj as [Hj|Hj]; [|done]. rewrite Hj in Hp. congruence.
Qed.

Lemma layer_stem_spec id : id ∈ listed_ids <->
  exists text, fs !! layer_path id = Some text /\ layer_stem dir (layer_path id, text) = Some id.
Proof using Hnames.
  unfold listed_ids, list_layer_ids. rewrite merge_sort_Permutation list_elem_of_omap. split.
  - intros ([p text] & Hp%elem_of_map_to_list & Hs). pose proof (stem_path _ _ _ Hp Hs) as ->. by exists text.
  - intros (text & Hp & Hs). exists (layer_path id, text). by rewrite elem_of_map_to_list.
Qed.

Lemma listed_ids_nodup : NoDup listed_ids.
Proof using Hnames.
  unfold listed_ids, list_layer_ids. rewrite merge_sort_Permutation.
  assert (forall l, NoDup l.*1 -> l ⊆ map_to_list fs -> NoDup (omap (layer_stem dir) l)) as Hgen.
  { induction l as [|[p t] l IH]; intros Hnd Hin; csimpl; [constructor|].
    apply NoDup_cons in Hnd as [Hp Hnd]. assert (NoDup (omap (layer_stem dir) l)) as Hl.
    { apply IH; [done|]. intros x Hx. apply Hin. by right. }
    destruct (layer_stem dir (p, t)) as [id|] eqn:Hs; [|done]. constructor; [|done].
    rewrite list_elem_of_omap. intros ([p' t'] & Hin' & Hs'). apply Hp.
    assert ((p, t) ∈ map_to_list fs) as H1%elem_of_map_to_list by (apply Hin; by left).
    assert ((p', t') ∈ map_to_list fs) as H2%elem_of_map_to_list by (apply Hin; by right).
    rewrite (stem_path _ _ _ H1 Hs) -(stem_path _ _ _ H2 Hs').
    apply list_elem_of_fmap. by exists (p', t'). }
  apply Hgen; [apply NoDup_fst_map_to_list|done].
Qed.

Lemma listed_ids_sorted : StronglySorted String.le listed_ids.
Proof. unfold listed_ids, list_layer_ids. apply (StronglySorted_merge_sort _). Qed.

(** A listed layer is a schema-valid document. *)
Lemma listed_document id : id ∈ listed_ids ->
  exists d, file_view (layer_path id) fs = Some d /\ schema_accepts d = true.
Proof using Hnames.
  intros (text & Hp & Hs)%layer_stem_spec. unfold layer_stem in Hs. cbn [fst snd] in Hs.
  destruct (json_stem _ _); [|done]. cbn [mbind option_bind] in Hs. unfold file_view. rewrite Hp.
  unfold is_layer in Hs. destruct (loads text) as [[]|]; try done. destruct (schema_accepts m) eqn:Hm; [|done].
  by exists m.
Qed.

Definition document_queue (d : dict) : list json :=
  match get "needs_review" d with JArr q => q | _ => [] end.
Definition file_listed (id : string) : view :=
  {| v_id := id; v_owner := None; v_epoch := None; v_time := DT 0 true;
     v_queue := from_option document_queue [] (file_view (layer_path id) fs) |}.

Definition file_filter (f : Filter) : Prop := f_key f <> "merkle_epoch" /\ f_key f <> "updated_at".

Lemma column_filters_match_pure filters id : Forall well_typed filters -> Forall file_filter filters ->
  column_filters_match filters id = forallb (column_holds (file_listed id)) filters.
Proof.
  intros Hwt. induction Hwt as [|f fls Hf _ IH]; intros Hff; [done|].
  apply Forall_cons in Hff as [[Hne1 Hne2] Hff]. cbn [column_filters_match forallb].
  destruct Hf as (d & Hd & Hop & Hv). unfold column_holds at 1. rewrite Hd. rewrite IH //.
  revert Hop Hv Hne1 Hne2. generalize (f_op f), (f_value f). intros op v. revert Hd.
  generalize (f_key f). intros key Hd. pattern key, d.
  revert key d Hd. apply registry_all; intros Hop Hv Hne1 Hne2; try done; cbn [String.eqb Ascii.eqb Bool.eqb].
  - assert (forall l, existsb (holds_value scalar_eqb None) l = false) as Hnone by (by induction l).
    change (view_column "product_repo_id" (file_listed id)) with (@None scalar). destruct v; cbn [column_test].
    + destruct (String.eqb op "eq"); [done|]. by destruct (String.eqb op "gte").
    + by rewrite Hnone.
  - destruct v as [x|l]; cbn [well_typed_value def_ops def_parse] in *.
    + destruct Hv as [Hin Hk]. apply elem_of_cons in Hop as [->|[?|?%not_elem_of_nil]%elem_of_cons]; [|done..].
      destruct x; try done. cbn. rewrite py_eqb_str. by destruct (String.eqb id s).
    + destruct Hv as (-> & _ & Hk). cbn [String.eqb Ascii.eqb Bool.eqb andb column_test].
      assert (existsb (equals (JStr id)) l
        = existsb (holds_value scalar_eqb (view_column "layer_id" (file_listed id))) l) as ->.
      { induction Hk as [|x l Hx _ IHl]; [done|]. cbn [existsb]. rewrite IHl. f_equal.
        destruct x; try done. cbn. by rewrite py_eqb_str. }
      by destruct (existsb _ _).
Qed.
Lemma get_list_shape d : schema_accepts d = true -> get_list "needs_review" d = Ok (document_queue d).
Proof using HL.
  intros Hs%schema_shape. unfold layer_shape in Hs. unfold get_list, document_queue.
  destruct (get "metadata" d), (get "events" d), (get "needs_review" d); done.
Qed.

Lemma require_file_filters filters : Forall well_typed filters -> Forall file_filter filters ->
  exists us, mapR require_file_filter filters = Ok us.
Proof.
  intros Hwt Hff. exists (map (fun _ => tt) filters). apply mapR_pure. intros f Hf.
  rewrite ->Forall_forall in Hwt, Hff. destruct (Hwt f Hf) as (d & Hd & _), (Hff f Hf) as [Hne1 Hne2].
  unfold require_file_filter, registry_get. rewrite Hd. cbn [of_option mbind result_bind].
  revert Hd Hne1 Hne2. generalize (f_key f). intros key Hd. pattern key, d. revert key d Hd.
  by apply registry_all; intros.
Qed.

Lemma file_listing filters include_reviews : Forall well_typed filters -> Forall file_filter filters ->
  file_query_layers (Some dir) filters include_reviews fs
  = Ok (listing filters include_reviews (map file_listed listed_ids)).
Proof using HL Hnames.
  intros Hwt Hff. unfold file_query_layers.
  destruct (require_file_filters filters Hwt Hff) as [us ->]. cbn [mbind result_bind].
  rewrite json_filters_pure //. cbn [mbind result_bind default]. rewrite wants_pure.
  rewrite (mapR_pure _ (fun id => listed filters include_reviews (file_listed id))).
  { intros id Hid. unfold file_entry, listed. rewrite column_filters_match_pure //.
    destruct (forallb _ filters); cbn [negb]; [|done]. destruct (wants_items _ _); cbn [negb]; [|done].
    destruct (listed_document id Hid) as (d & Hd & Hs). rewrite (file_load_view _ _ d Hd). cbn [mbind result_bind].
    rewrite get_list_shape //. cbn [mbind result_bind].
    replace (document_queue d) with (v_queue (file_listed id)) by (unfold file_listed; cbn; by rewrite Hd).
    rewrite shown_items_pure //. cbn [mbind result_bind]. by destruct (listed_items _ _). }
  cbn [mbind result_bind]. f_equal. unfold present, listing. by rewrite !omap_map.
Qed.
End FileListing.

(** ** Agreement of the backends *)

Section Agreement.
Context `{HC : Contracts} `{HL : !ContractLaws} `{HS : StorageRegistry}.

(** What a client reads of an entry, but for the owner. *)
Definition shown (e : LayerEntry) : string * option (list json) := (entry_layer_id e, entry_needs_review e).

(** A filter on the identifier or on queue items: not on a column that only the
    database keeps. *)
Definition portable (f : Filter) : Prop :=
  f_key f <> "merkle_epoch" /\ f_key f <> "updated_at" /\ f_key f <> "product_repo_id".

(** Listings of views that agree on identifier and queue show the same. *)
Lemma listed_shown filters include_reviews v w : Forall well_typed filters -> Forall portable filters ->
  v_id v = v_id w -> v_queue v = v_queue w ->
  shown <$> listed filters include_reviews v = shown <$> listed filters include_reviews w.
Proof.
  intros Hwt Hpo Hid Hq. unfold listed.
  assert (forallb (column_holds v) filters = forallb (column_holds w) filters) as ->.
  { clear Hq. induction Hwt as [|f fs (d & Hd & _) _ IH]; [done|]. apply Forall_cons in Hpo as [(H1 & H2 & H3) Hpo].
    cbn [forallb]. rewrite IH //. f_equal. unfold column_holds. rewrite Hd. revert Hd H1 H2 H3.
    generalize (f_key f). intros key Hd. pattern key, d. revert key d Hd. apply registry_all; try done.
    intros _ _ _. unfold view_column. cbn. by rewrite Hid. }
  destruct (negb (forallb _ _)); [done|]. destruct (negb _); [cbn; by rewrite Hid|].
  unfold listed_items. rewrite Hq. destruct (List.filter _ _); [done|]. cbn. by rewrite Hid.
Qed.

Lemma row_queue_document db id d row : db_layers db !! id = Some row -> holds id d db ->
  row_queue row = document_queue d.
Proof using HL.
  intros Hrow (r & owner & Hs & Hr & Hl & _). rewrite Hrow in Hl. injection Hl as ->.
  unfold row_queue. cbn [lrow_values layer_values_of lv_needs_review_payload]. rewrite decode_encode.
  pose proof (layer_shape_shaped d (schema_shape _ Hs)) as sh.
  destruct (layer_record_shaped d sh) as (r' & Hr' & _ & _ & _ & Hq & _). rewrite Hr in Hr'. injection Hr' as <-.
  rewrite Hq. unfold document_queue, get. by rewrite (sh_needs_review_of _ sh).
Qed.

(** The identifier of a listed entry is its view's; a listing keeps the order. *)
Lemma listed_id filters include_reviews v e : listed filters include_reviews v = Some e -> entry_layer_id e = v_id v.
Proof. unfold listed. repeat case_match; by intros [= <-]. Qed.
Lemma listing_sorted (R : string -> string -> Prop) filters include_reviews views :
  StronglySorted (fun v w => R (v_id v) (v_id w)) views ->
  StronglySorted (fun a b => R (entry_layer_id a) (entry_layer_id b)) (listing filters include_reviews views).
Proof.
  unfold listing. induction 1 as [|v views _ IH Hv]; csimpl; [constructor|].
  destruct (listed _ _ v) as [e|] eqn:He; [|done]. constructor; [done|]. apply Forall_forall.
  intros e' (w & Hw & He')%list_elem_of_omap. rewrite (listed_id _ _ _ _ He) (listed_id _ _ _ _ He').
  rewrite Forall_forall in Hv. by apply Hv.
Qed.

(** Both stores list the same identifiers. *)
Lemma same_ids dir fs db : db_good db -> fs !! join_path dir ".json" = None ->
  (forall id d, db_stored id db = Some d
    <-> id ∈ list_layer_ids (Some dir) fs /\ file_view (layer_path dir id) fs = Some d) ->
  listed_ids dir fs ≡ₚ (ordered_layers db).*1.
Proof using HL.
  intros Hg Hn Hsame. rewrite ordered_perm. apply NoDup_Permutation; [by apply listed_ids_nodup|apply items_nodup|]. intros id.
  transitivity (exists d, db_stored id db = Some d).
  - split; [intros Hid; destruct (listed_document dir fs Hn id Hid) as (d & Hd & _); exists d; by apply Hsame|].
    intros [d [Hid _]%Hsame]. done.
  - rewrite list_elem_of_fmap. split.
    + intros [d (r & o & _ & _ & Hrow & _)%db_stored_holds]; [|done].
      eexists (id, _). split; [done|]. apply items_lookup. exact Hrow.
    + intros ([id' row] & -> & Hrow%items_lookup). cbn. pose proof (Hg id') as Hid. rewrite Hrow in Hid.
      destruct Hid as [d Hd]. exists d. by apply db_stored_holds.
Qed.

End Agreement.

(** ** Witnesses *)

Lemma parse_filter_well_typed_witness :
  parse_filter "review_status:in:open,,parked"
    = Ok {| f_key := "review_status"; f_op := "in"; f_value := Many [SStr "open"; SStr "parked"] |}
  /\ well_typed {| f_key := "review_status"; f_op := "in"; f_value := Many [SStr "open"; SStr "parked"] |}.
Proof.
  split; [vm_compute; reflexivity|].
  apply (parse_filter_well_typed "review_status:in:open,,parked"). vm_compute. reflexivity.
Defined.

(** Only a registered key, operator and value type gets through. *)
Example rejected_filters :
  map parse_filter ["layer_id"; "layer_id:eq"; "secret:eq:x"; "layer_id:gte:x"; "merkle_epoch:gte:x";
    "updated_at:gte:2026-01-01T00:00:00"; "layer_id:in:,,"] = repeat (Err ValueError) 7.
Proof. vm_compute. reflexivity. Qed.

Definition queued_layer : dict := <["needs_review" := JArr [JObj {["status" := JStr "open"]};
  JObj {["status" := JStr "done"]}; JStr "stray"]]> sample_stored_layer.
#[local] Existing Instance sample_registry.
Definition listing_db : database :=
  match db_initialize (DbLayerKey "L1") queued_layer (Some "repo-1") empty_database with
  | Ok db => db | Err _ => empty_database end.
Definition listing_files : files := {["/data/L1.json" := dumps true (JObj queued_layer)]}.
Definition open_filter : Filter := {| f_key := "review_status"; f_op := "eq"; f_value := One (SStr "open") |}.

Lemma listing_db_good : db_good listing_db.
Proof.
  apply (db_good_step empty_database); [exact empty_database_good|].
  apply (step_initialize _ (DbLayerKey "L1") queued_layer (Some "repo-1")). vm_compute. reflexivity.
Qed.
Lemma listing_stores_agree id d : db_stored id listing_db = Some d
  <-> id ∈ list_layer_ids (Some "/data") listing_files /\ file_view (layer_path "/data" id) listing_files = Some d.
Proof.
  assert (list_layer_ids (Some "/data") listing_files = ["L1"]) as -> by (vm_compute; reflexivity).
  rewrite list_elem_of_singleton. destruct (decide (id = "L1")) as [->|Hne].
  - assert (db_stored "L1" listing_db = Some queued_layer) as -> by (vm_compute; reflexivity).
    assert (file_view (layer_path "/data" "L1") listing_files = Some queued_layer) as -> by (vm_compute; reflexivity).
    naive_solver.
  - split; [|by intros [? _]]. unfold db_stored, db_load_row.
    assert (db_layers listing_db !! id = None) as ->; [|done].
    assert (dom (db_layers listing_db) = {["L1"]}) as Hdom by (vm_compute; reflexivity).
    apply not_elem_of_dom. rewrite Hdom. set_solver.
Qed.

Example listings_agree_value :
  map shown <$> file_query_layers (Some "/data") [open_filter] false listing_files
  = Ok [("L1", Some [JObj {["status" := JStr "open"]}])].
Proof. vm_compute. reflexivity. Qed.
