(* ===== verification/Finalize.v ===== *)
(** * Finalizing, signing, stamping and verifying a layer

    [_internal/layer_finalize.py] and the handlers built on the integrity
    component: [handlers/sign_handler.py], [handlers/stamp_handler.py] and
    [handlers/verify_handler.py] (with its library twin [api/verify.py]).  A
    layer is passed by reference and changed in place; each definition returns
    the layer it leaves. *)

From S2P Require Import Prelude PyStr Json Sha256 Errors Merkle Restatements Signing Ledger Identity.
From S2P Require Import Contracts Events.
From stdpp Require Import options.

(** The fields of [ServiceConfig] the ledger reads. *)
Record ServiceConfig := {
  backend_type : string;
  database_url : option string;
  data_dir : string;
  signing_required : bool;
  signing_key_path : option string;
  signing_method : string;
  admin_identities : list string;
  restatement_min_approvers : Z;
  oidc_issuer_url : option string;
  config_oidc_client_id : option string;
  config_identity_provider : string;
  config_oidc_issuer : option string;
  oidc_audience : option string;
  oidc_jwks_url : option string;
  oidc_machine_claim : string;
  oidc_identity_claim : string;
  oidc_trust : string
}.

(** [ServiceConfig()], with the field defaults. *)
Definition default_config : ServiceConfig := {|
  backend_type := "file"; database_url := None; data_dir := "/var/lib/laas/data";
  signing_required := false; signing_key_path := None; signing_method := "cosign";
  admin_identities := []; restatement_min_approvers := 0;
  oidc_issuer_url := None; config_oidc_client_id := None;
  config_identity_provider := "oidc"; config_oidc_issuer := None; oidc_audience := None; oidc_jwks_url := None;
  oidc_machine_claim := "azp"; oidc_identity_claim := "email"; oidc_trust := "" |}.

Section Finalize.
Context `{HashFn} `{SigningTools}.

(** ** [layer_finalize.py] *)

Definition require_signing_configured (config : ServiceConfig) : res unit :=
  raise_if (signing_required config && negb (opt_truthy (signing_key_path config))
            && negb (String.eqb (signing_method config) "sigstore-oidc")
            && negb (String.eqb (signing_method config) "identity")) (Service SigningRequiredError).

Definition method_alias (m : string) : string :=
  if String.eqb m "cosign" then "keypair" else if String.eqb m "sigstore-oidc" then "identity" else m.

Definition signing_config (config : ServiceConfig) : SigningConfig := {|
  method := method_alias (signing_method config);
  key_path := opt_or (signing_key_path config) (key_path from_env);
  oidc_issuer := opt_or (oidc_issuer_url config) (oidc_issuer from_env);
  oidc_client_id := opt_or (config_oidc_client_id config) (oidc_client_id from_env);
  expected_identity := expected_identity from_env;
  oidc_token := oidc_token from_env;
  allow_interactive := allow_interactive from_env;
  ca_url := ca_url from_env;
  tlog_url := tlog_url from_env |}.

(** [str(root) if root else ""] of the metadata's root; metadata that is not an
    object gives the empty text. *)
Definition root_text (layer : dict) : res string :=
  match get "metadata" layer with
  | JObj m => if get_truthy "merkle_root" m then py_str (get "merkle_root" m) else Ok ""
  | _ => Ok ""
  end.

Definition finalize_layer (config : ServiceConfig) (layer : dict) : res (string * dict) :=
  '(dropped, layer) ← stamp_merkle_metadata layer;
  '(attempt, layer) ← sign_if_configured layer (Some (signing_config config)) false;
  let attempt := note_dropped dropped attempt in
  _ ← raise_if (signing_required config && negb (bool_decide (status attempt = SSigned)))
        (Service SigningFailedError);
  root ← root_text layer;
  Ok (root, layer).

(** ** [sign_handler.py] *)

Definition credentials_from_config (config : ServiceConfig) : SigningConfig := {|
  method := signing_method config;
  key_path := signing_key_path config;
  oidc_issuer := oidc_issuer_url config;
  oidc_client_id := config_oidc_client_id config;
  expected_identity := None; oidc_token := None; allow_interactive := false;
  ca_url := None; tlog_url := None |}.

(** The answer is the attempt's status and method. *)
Definition sign_layer (config : ServiceConfig) (rekor : bool) (credentials : option SigningConfig)
    (layer : dict) : res ((sign_status * option string) * dict) :=
  let resolved := match credentials with Some c => c | None => credentials_from_config config end in
  '(_, layer) ← stamp_merkle_metadata layer;
  '(attempt, layer) ← sign_if_configured layer (Some resolved) rekor;
  _ ← raise_if (bool_decide (status attempt = SFailed)) (Service SigningFailedError);
  Ok ((status attempt, attempt_method attempt), layer).

(** ** [stamp_handler.py] *)

(** [attach_identity] on each event, counting the ones stamped. *)
Definition attach_event (fingerprints : dict) (e : json) : res (bool * json) :=
  match e with
  | JObj d => '(b, d') ← attach_identity d fingerprints; Ok (b, JObj d')
  | _ => Err AttributeError
  end.
Definition count_true (l : list bool) : Z := Z.of_nat (length (List.filter id l)).
Definition stamp_event_identities (fingerprints : dict) (config : ServiceConfig) (layer : dict)
  : res ((string * Z) * dict) :=
  events ← events_of layer;
  stamped ← mapR (attach_event fingerprints) events;
  (** the events are changed where they are; no list is added to the layer *)
  let layer' := match events with
                | [] => layer
                | _ => <["events" := JArr (map snd stamped)]> layer
                end in
  '(root, layer'') ← finalize_layer config layer';
  Ok ((root, count_true (map fst stamped)), layer'').

(** ** [verify_handler.py] *)

Record verify_report := { passed : bool; report_findings : list IntegrityFinding }.
Definition verify_layer (check_signatures : bool) (layer : dict) : res verify_report :=
  integrity ← verify_merkle_integrity layer;
  sigs ← (if check_signatures then verify_merkle_signature layer None None else Ok []);
  let findings := integrity ++ sigs in
  Ok {| passed := (length findings =? 0)%nat; report_findings := findings |}.

(** ** Lemmas *)

(** Verification of the tree does not read the signature fields. *)
Lemma get_signed sig m meta k : k ∉ SIGNATURE_FIELDS -> get k (signed_metadata sig m meta) = get k meta.
Proof.
  unfold SIGNATURE_FIELDS, signed_metadata. rewrite !not_elem_of_cons. intros (?&?&?&_).
  by repeat (rewrite get_insert_ne; [congruence|]).
Qed.
Lemma lookup_signed sig m meta k : k ∉ SIGNATURE_FIELDS -> signed_metadata sig m meta !! k = meta !! k.
Proof.
  unfold SIGNATURE_FIELDS, signed_metadata. rewrite !not_elem_of_cons. intros (?&?&?&_).
  by repeat (rewrite lookup_insert_ne; [congruence|]).
Qed.
Ltac not_signature := apply (bool_decide_unpack _); vm_compute; exact I.

Lemma verify_restated_signed layer meta sig m : get_obj "metadata" layer = Ok meta ->
  verify_restated_metadata (with_metadata layer (signed_metadata sig m meta)) = verify_restated_metadata layer.
Proof.
  intros Hm. unfold verify_restated_metadata. rewrite get_obj_with_metadata events_of_with_metadata Hm.
  cbn [mbind result_bind]. destruct (events_of layer) as [events|]; [|done]. cbn [mbind result_bind].
  assert (forall f, f ∈ SIGNED_METADATA_FIELDS ->
    verify_restated_field (signed_metadata sig m meta) events f = verify_restated_field meta events f) as Heq.
  { intros f Hf. unfold verify_restated_field. rewrite get_signed; [|done].
    do 3 (apply elem_of_cons in Hf as [->|Hf]; [not_signature|]). by apply not_elem_of_nil in Hf. }
  assert (forall fs, fs ⊆ SIGNED_METADATA_FIELDS ->
    mapR (verify_restated_field (signed_metadata sig m meta) events) fs
    = mapR (verify_restated_field meta events) fs) as ->; [|done|done].
  induction fs as [|f fs IH]; intros Hin; [done|]. cbn [mapR]. rewrite IH; [set_solver|].
  rewrite Heq //. set_solver.
Qed.

Lemma verify_integrity_signed layer meta sig m : get_obj "metadata" layer = Ok meta ->
  verify_merkle_integrity (with_metadata layer (signed_metadata sig m meta)) = verify_merkle_integrity layer.
Proof.
  intros Hm. unfold verify_merkle_integrity.
  rewrite get_obj_with_metadata events_of_with_metadata verify_restated_signed // Hm.
  cbn [mbind result_bind]. unfold read_leaf_format, check_tree, check_checkpoint.
  rewrite (get_signed _ _ _ "merkle_root"); [not_signature|].
  rewrite (lookup_signed _ _ _ "merkle_epoch"); [not_signature|].
  rewrite (lookup_signed _ _ _ "leaf_format"); [not_signature|].
  rewrite (get_signed _ _ _ "merkle_size"); [not_signature|].
  rewrite (get_signed _ _ _ "pre_merkle_checkpoint"); [not_signature|]. done.
Qed.

(** Signing adds signature fields or nothing. *)
Lemma sign_frame layer config rekor attempt layer' :
  sign_if_configured layer (Some config) rekor = Ok (attempt, layer') ->
  (status attempt <> SSigned /\ layer' = layer)
  \/ (status attempt = SSigned /\ exists meta sig m, get_obj "metadata" layer = Ok meta
       /\ layer' = with_metadata layer (signed_metadata sig m meta)).
Proof.
  intros Hs. destruct (decide (status attempt = SSigned)) as [Hst|Hst].
  - right. split; [done|]. destruct (sign_inv _ _ _ _ _ Hs Hst) as (meta & b & r & Hm & _ & _ & _ & _ & ->).
    by exists meta, (signature r), (method_name b).
  - left. split; [done|]. revert Hs. unfold sign_if_configured.
    destruct (_ && _); [by intros [= _ <-]|]. destruct (_ && _); [by intros [= _ <-]|].
    destruct (get_obj "metadata" layer) as [meta|]; [|done]. cbn [mbind result_bind].
    destruct (negb _); [by intros [= _ <-]|].
    destruct (mbind _ (get_backend_from_config config)) as [[b r]|]; [|by intros [= _ <-]].
    destruct (negb (success r)); [by intros [= _ <-]|]. by intros [= <- _].
Qed.

(** What finalizing leaves: the layer's events and everything else outside the
    metadata, and metadata that describes those events. *)
Lemma finalize_inv config layer root layer' : finalize_layer config layer = Ok (root, layer') ->
  verify_merkle_integrity layer' = verify_restated_metadata layer'
  /\ (forall k, k <> "metadata" -> layer' !! k = layer !! k)
  /\ exists meta meta', setdefault_metadata layer = Ok meta /\ layer' !! "metadata" = Some (JObj meta')
     /\ meta' !! "merkle_root" = Some (JStr root)
     /\ (forall k, k ∉ SIGNATURE_FIELDS -> k ∉ STAMPED_FIELDS -> meta' !! k = meta !! k)
     /\ (signing_required config = true -> exists backend r,
          get_backend_from_config (signing_config config) = Ok backend
          /\ sign backend (merkle_signature_payload meta' SIGNATURE_FORMAT_CURRENT)
               (str_or (key_path (signing_config config)) "") false = Ok r
          /\ success r = true /\ meta' !! "merkle_root_signature" = Some (JStr (signature r))).
Proof.
  unfold finalize_layer. intros Hf. inv_bind Hf as [[dropped l1]|] Hstamp.
  inv_bind Hf as [[attempt l2]|] Hsign. inv_bind Hf as [u|] Hreq. inv_bind Hf as [txt|] Htxt.
  injection Hf as <- <-. apply raise_if_ok in Hreq.
  pose proof (verify_stamped _ _ _ Hstamp) as Hv. destruct (stamp_inv _ _ _ Hstamp)
    as [events meta epoch root size _ Hm _ _ _ _ Hl1].
  set (m1 := stamped_meta events epoch root size dropped meta) in *.
  assert (get_obj "metadata" l1 = Ok m1) as Hm1 by (rewrite Hl1; apply get_obj_with_metadata).
  assert (forall k, k ∉ SIGNATURE_FIELDS -> k ∉ STAMPED_FIELDS -> m1 !! k = meta !! k) as Hother
    by (intros; by apply stamped_other).
  assert (m1 !! "merkle_root" = Some (JStr root)) as Hroot by apply stamped_root.
  assert (forall m, m !! "merkle_root" = Some (JStr root) -> root_text (with_metadata l1 m) = Ok txt -> txt = root)
    as Htext.
  { intros m Hmr. unfold root_text, with_metadata. rewrite get_insert_eq. unfold get_truthy, get. rewrite Hmr.
    cbn [default truthy py_str]. destruct root; cbn; congruence. }
  assert (l1 = with_metadata l1 m1) as Hself by (rewrite Hl1; unfold with_metadata; by rewrite insert_insert_eq).
  assert (forall m k, k <> "metadata" -> with_metadata l1 m !! k = layer !! k) as Houter.
  { intros m k Hk. rewrite Hl1. unfold with_metadata. by repeat (rewrite lookup_insert_ne; [congruence|]). }
  destruct (sign_frame _ _ _ _ _ Hsign) as [[Hst ->]|[Hst (meta2 & sig & m & Hm2 & Hl2)]].
  - rewrite Hself in Htxt. apply Htext in Htxt as ->; [|done]. split; [done|].
    split; [intros k Hk; rewrite Hself; by apply Houter|].
    exists meta, m1. split; [done|]. split; [rewrite Hself; apply lookup_insert_eq|]. split; [done|].
    split; [done|]. intros Hr. rewrite Hr in Hreq. exfalso. revert Hreq. unfold note_dropped.
    destruct (dropped && _); cbn; by rewrite bool_decide_false.
  - destruct (sign_inv _ _ _ _ _ Hsign Hst) as (meta3 & b & r & Hm3 & _ & Hb & Hs & Hsucc & Hl3).
    rewrite Hm1 in Hm2, Hm3. injection Hm2 as <-. injection Hm3 as <-. rewrite Hl3 in Htxt |- *.
    set (m2 := signed_metadata (signature r) (method_name b) m1) in *.
    assert (m2 !! "merkle_root" = Some (JStr root)) as Hroot2.
    { unfold m2. rewrite lookup_signed; [not_signature|done]. }
    apply Htext in Htxt as ->; [|done]. rewrite /m2 verify_integrity_signed // verify_restated_signed // Hv -/m2.
    split; [done|]. split; [intros; by apply Houter|]. exists meta, m2. split; [done|].
    split; [apply lookup_insert_eq|]. split; [done|].
    split; [intros k Hk Hk'; unfold m2; rewrite lookup_signed; [done|by apply Hother]|].
    intros _. exists b, r. split; [done|]. split; [|split; [done|]].
    + rewrite -Hs. f_equal. unfold merkle_signature_payload, m2. by rewrite signed_metadata_doc.
    + unfold m2, signed_metadata. rewrite lookup_insert_ne; [done|]. rewrite lookup_insert_ne; [done|].
      apply lookup_insert_eq.
Qed.

(** Finalizing keeps the epoch, and writes a zero where there is none. *)
Lemma finalize_epoch config layer root layer' meta meta' : finalize_layer config layer = Ok (root, layer') ->
  setdefault_metadata layer = Ok meta -> layer' !! "metadata" = Some (JObj meta') ->
  meta' !! "merkle_epoch" = Some (default (JInt 0) (meta !! "merkle_epoch")).
Proof.
  unfold finalize_layer. intros Hf Hset Hm'. inv_bind Hf as [[dropped l1]|] Hstamp.
  inv_bind Hf as [[attempt l2]|] Hsign. inv_bind Hf as [u|] Hreq. inv_bind Hf as [txt|] Htxt. injection Hf as <- <-.
  destruct (stamp_inv _ _ _ Hstamp) as [events meta0 epoch root0 size _ Hm _ _ _ _ Hl1].
  rewrite Hset in Hm. injection Hm as <-. destruct (sign_frame _ _ _ _ _ Hsign) as [[_ ->]|(_ & m2 & sg & mt & Hm2 & ->)].
  - rewrite Hl1 /with_metadata lookup_insert_eq in Hm'. injection Hm' as <-. apply stamped_epoch.
  - rewrite Hl1 get_obj_with_metadata in Hm2. injection Hm2 as <-. rewrite /with_metadata lookup_insert_eq in Hm'.
    injection Hm' as <-. rewrite lookup_signed; [not_signature|]. apply stamped_epoch.
Qed.

(** ** The sign and verify handlers *)

(** Without explicit credentials [sign_layer] passes the configured method on as
    it is.  [sign_if_configured] knows the key-pair method as ["keypair"] only,
    so under any other name - the default ["cosign"] included - it looks for an
    identity token, which [credentials_from_config] never sets: the layer is
    stamped and not signed, whatever key is configured. *)
Theorem sign_layer_needs_alias config rekor layer st m layer' :
  str_truthy (signing_method config) = true -> signing_method config <> "keypair" ->
  sign_layer config rekor None layer = Ok ((st, m), layer') ->
  st = SUnconfigured /\ exists dropped, stamp_merkle_metadata layer = Ok (dropped, layer').
Proof.
  intros Ht Hne. unfold sign_layer. intros Hs. inv_bind Hs as [[dropped l1]|] Hst. revert Hs.
  unfold sign_if_configured, credentials_from_config. cbn [method key_path oidc_token]. rewrite Ht.
  destruct (String.eqb_spec (signing_method config) "keypair") as [|_]; [done|]. cbn.
  intros [= <- <- <-]. split; [done|]. by exists dropped.
Qed.

(** [verify_layer] has no public key to give: asked to check signatures, it
    reports a warning on every signed layer, so none of them passes. *)
Theorem signed_layer_never_passes layer meta report :
  get_obj "metadata" layer = Ok meta -> get_truthy "merkle_root_signature" meta = true ->
  verify_layer true layer = Ok report -> passed report = false.
Proof.
  intros Hm Hsig. unfold verify_layer. intros Hv. inv_bind Hv as [fs|] Hi. revert Hv.
  unfold verify_merkle_signature. rewrite Hm. cbn [mbind result_bind]. unfold get_truthy in Hsig. rewrite Hsig.
  cbn. intros [= <-]. cbn. rewrite length_app. cbn. by rewrite Nat.add_1_r.
Qed.

(** Stamping identities over a layer: each event is the one
    [attach_identity] makes of it. *)
Lemma stamp_identities_inv fps config layer root n layer' :
  stamp_event_identities fps config layer = Ok ((root, n), layer') ->
  exists events stamped, events_of layer = Ok events /\ mapR (attach_event fps) events = Ok stamped
    /\ n = count_true (map fst stamped) /\ events_of layer' = Ok (map snd stamped)
    /\ verify_merkle_integrity layer' = verify_restated_metadata layer'.
Proof.
  unfold stamp_event_identities. intros Hs. inv_bind Hs as [events|] He. inv_bind Hs as [stamped|] Hm.
  inv_bind Hs as [[r l2]|] Hf. injection Hs as <- <- <-. exists events, stamped.
  destruct (finalize_inv _ _ _ _ Hf) as (Hv & Hk & _). split; [done|]. split; [done|]. split; [done|].
  split; [|done]. unfold events_of, get_list, get. rewrite Hk; [done|].
  destruct events as [|e es].
  - injection Hm as <-. exact He.
  - by rewrite lookup_insert_eq.
Qed.
End Finalize.

(** ** Witnesses *)

#[local] Instance sample_world : SigningTools := sample_tools ∅ (dumps true sample_bundle).

Lemma sign_layer_needs_alias_witness :
  let key_config := {| backend_type := "file"; database_url := None; data_dir := "/d"; signing_required := false;
    signing_key_path := Some "/keys/cosign.key"; signing_method := "cosign"; admin_identities := [];
    restatement_min_approvers := 0; oidc_issuer_url := None; config_oidc_client_id := None;
  config_identity_provider := "oidc"; config_oidc_issuer := None; oidc_audience := None; oidc_jwks_url := None;
  oidc_machine_claim := "azp"; oidc_identity_claim := "email"; oidc_trust := "" |} in
  SUnconfigured = SUnconfigured /\ exists dropped, stamp_merkle_metadata sample_layer = Ok (dropped, sample_stamped).
Proof.
  intros key_config.
  apply (sign_layer_needs_alias key_config false sample_layer SUnconfigured (Some "cosign") sample_stamped);
    [reflexivity|done|vm_compute; reflexivity].
Defined.

Lemma signed_layer_never_passes_witness :
  passed {| passed := false; report_findings := [warn_finding NoPublicKey] |} = false.
Proof.
  apply (signed_layer_never_passes
    (with_metadata sample_stamped (signed_metadata "sig" "keypair"
      (match get "metadata" sample_stamped with JObj m => m | _ => ∅ end)))
    (signed_metadata "sig" "keypair" (match get "metadata" sample_stamped with JObj m => m | _ => ∅ end)));
    vm_compute; reflexivity.
Defined.
