(* ===== verification/Reads.v ===== *)
(** * Read handlers

    [api/findings.py]: the current disposition of every finding of a layer;
    [handlers/layer_handler.py], [handlers/findings_handler.py] and
    [handlers/events_handler.py]: loading a layer, its findings, the pages of
    its events, and the pages of all layers' findings. *)

From S2P Require Import Prelude PyStr Json Sha256 Errors Restatements Contracts Time Disposition Events.
From S2P Require Import Records Backend FileBackend DbBackend Finalize.
From stdpp Require Import options.

(** ** Findings of a layer *)

(** The [Disposition] model of the contracts package, built from keywords: the
    fields keep their values when the model accepts them. *)
Class DispositionModel := { disposition_accepts : dict -> bool }.

Record FindingDisposition := {
  fd_finding_ref : string;
  fd_disposition : dict;
  fd_event_count : nat;
  fd_fingerprint : option string;
  fd_orphan : option bool
}.
Record FindingsSummary := { by_validity : list (json * nat); by_resolution : list (json * nat) }.

(** [Counter(values)], in order of first occurrence, and [counts[v]]. *)
Fixpoint count_one (v : json) (counts : list (json * nat)) : list (json * nat) :=
  match counts with
  | [] => [(v, 1)]
  | (w, n) :: rest => if py_eqb v w then (w, S n) :: rest else (w, n) :: count_one v rest
  end.
Definition counter (values : list json) : list (json * nat) := fold_left (fun c v => count_one v c) values [].
Definition count_of (v : json) (counts : list (json * nat)) : nat :=
  from_option snd 0 (List.find (fun c => py_eqb v c.1) counts).

(** [layer.get("events", []) or []] as a sequence of events. *)
Definition stored_events (layer : dict) : res (list json) :=
  match layer !! "events" with
  | Some v => if truthy v then iterate_objects v else Ok []
  | None => Ok []
  end.

(** [dict(v or {})]; a truthy value that is no object is outside the schema. *)
Definition dict_or_empty (v : json) : res dict :=
  match v with JObj m => Ok m | _ => if truthy v then Err TypeError else Ok ∅ end.

(** [aliases.update(new)]. *)
Definition update_aliases (old : dict) (new : gmap string dict) : dict := (JObj <$> new) ∪ old.

(** The aliases of the metadata, updated by those the events record. *)
Definition layer_aliases (layer : dict) (events : list json) : res dict :=
  recorded ← get_in "metadata" "finding_aliases" layer;
  old ← dict_or_empty recorded;
  new ← aliases_from_events events;
  Ok (update_aliases old new).

(** [_resolve_ref].  Only a text can be a key of the aliases; an unhashable
    reference raises. *)
Definition resolve_ref (aliases : dict) (ref : json) : res json :=
  alias ← match ref with
          | JStr r => Ok (get r aliases)
          | JArr _ | JObj _ => Err TypeError
          | _ => Ok JNull
          end;
  if negb (truthy alias) then Ok ref
  else match alias with
       | JObj a => Ok (if get_truthy "confirmed" a then default ref (a !! "new_id") else ref)
       | _ => Err AttributeError
       end.

(** The finding an event is about, if any.  A truthy reference that is no text
    cannot be put in the response, which is a [ValueError] of the response
    model. *)
Definition event_ref (aliases : dict) (event : json) : res (option string) :=
  match event with
  | JObj e =>
      ref ← resolve_ref aliases (default (JStr "") (e !! "finding_ref"));
      match ref with
      | JStr r => Ok (if str_truthy r then Some r else None)
      | v => if truthy v then Err ValueError else Ok None
      end
  | _ => Ok None
  end.

(** The grouping loop: [by_finding.setdefault(ref, []).append(e)]. *)
Definition group_event (aliases : dict) (by_finding : gmap string (list json)) (event : json)
  : res (gmap string (list json)) :=
  ref ← event_ref aliases event;
  Ok (match ref with
      | Some r => <[r := default [] (by_finding !! r) ++ [event]]> by_finding
      | None => by_finding
      end).

(** [_latest_fingerprint]. *)
Definition has_fingerprint (e : json) : bool :=
  match e with JObj d => get_truthy "fingerprint" d | _ => false end.
Definition latest_fingerprint (events : list json) : res (option string) :=
  match last (List.filter has_fingerprint events) with
  | Some (JObj d) => s ← py_str (get "fingerprint" d); Ok (Some s)
  | _ => Ok None
  end.

(** [set(claim_hashes)], when it is an object. *)
Definition baseline_of (layer : dict) : res (option dict) :=
  v ← get_in "metadata" "claim_hashes" layer; Ok (as_dict v).

Section Findings.
Context `{Contracts} `{DispositionModel}.

Definition finding_of (baseline : option dict) (now : string) (group : string * list json)
  : res FindingDisposition :=
  let '(ref, events) := group in
  raw ← derive_disposition {["id" := JStr ref]} events now;
  _ ← raise_if (negb (disposition_accepts raw)) ValueError;
  fp ← latest_fingerprint events;
  Ok {| fd_finding_ref := ref; fd_disposition := raw; fd_event_count := length events;
        fd_fingerprint := fp;
        fd_orphan := (fun b : dict => bool_decide (b !! ref = None)) <$> baseline |}.

Definition summarize (findings : list FindingDisposition) : FindingsSummary :=
  {| by_validity := counter (map (fun f => get "validity" (fd_disposition f)) findings);
     by_resolution := counter (map (fun f => get "resolution" (fd_disposition f)) findings) |}.

Definition resolve_layer_findings (now : string) (layer : dict)
  : res (list FindingDisposition * FindingsSummary) :=
  raw ← stored_events layer;
  events ← apply_restatements raw;
  aliases ← layer_aliases layer events;
  by_finding ← foldM (group_event aliases) events ∅;
  baseline ← baseline_of layer;
  findings ← mapR (finding_of baseline now) (items by_finding);
  Ok (findings, summarize findings).
End Findings.

(** ** Handlers *)

(** The identifiers a backend lists, sorted. *)
Class Listing (S : Type) := { b_list_layer_ids : S -> list string }.

(** [l[a:b]] of Python, negative positions counting from the end. *)
Definition slice_index (len i : Z) : Z := (if i <? 0 then Z.max 0 (i + len) else Z.min i len)%Z.
Definition py_slice {A} (a b : Z) (l : list A) : list A :=
  let len := Z.of_nat (length l) in
  let lo := Z.to_nat (slice_index len a) in
  let hi := Z.to_nat (slice_index len b) in
  take (hi - lo) (drop lo l).

(** The response models; their own checks of field types are not modelled. *)
Record LayerFindings := {
  lf_layer_id : string; lf_merkle_root : json; lf_merkle_epoch : json;
  lf_findings : list FindingDisposition; lf_summary : FindingsSummary
}.
Record BulkFindingsResponse := {
  br_layers : list LayerFindings; br_total_findings : nat;
  br_next_cursor : option string; br_has_more : bool
}.
Record EventsResponse := { ev_events : list dict; ev_total : nat; ev_layer_id : string }.

Definition event_source_type (event : dict) : option string :=
  match get "source" event with JObj s => as_str (get "type" s) | _ => None end.
Definition event_selected (finding_ref source_type : option string) (event : dict) : bool :=
  match finding_ref with Some r => py_eqb (get "finding_ref" event) (JStr r) | None => true end
  && match source_type with Some t => bool_decide (event_source_type event = Some t) | None => true end.
Definition filter_events (finding_ref source_type : option string) (events : list json) : list dict :=
  List.filter (event_selected finding_ref source_type) (omap as_dict events).

Section Handlers.
Context {S : Type} `{Contracts} `{DispositionModel} `{Backend S} `{Listing S}.

Definition load_layer (layer_id : string) (config : ServiceConfig) (s : S) : res dict :=
  key ← layer_key opaque_layer_ids (data_dir config) layer_id;
  layer ← b_load key s;
  _ ← raise_if (py_eqb (JObj layer) (JObj EMPTY_LAYER)) (Service LayerNotFoundError);
  _ ← raise_if (negb (schema_accepts layer)) (Service ValidationError);
  Ok layer.

Definition query_layer_events (layer_id : string) (config : ServiceConfig) (finding_ref source_type : option string)
    (limit offset : Z) (s : S) : res EventsResponse :=
  layer ← load_layer layer_id config s;
  match get "events" layer with
  | JArr raw =>
      let filtered := filter_events finding_ref source_type raw in
      Ok {| ev_events := py_slice offset (offset + limit) filtered; ev_total := length filtered;
            ev_layer_id := layer_id |}
  | _ => Err (Service LayerNotFoundError)
  end.

Definition resolve_findings (now layer_id : string) (config : ServiceConfig) (s : S)
  : res (list FindingDisposition * FindingsSummary) :=
  layer ← load_layer layer_id config s; resolve_layer_findings now layer.

(** [_layer_has_events_since]. *)
Definition layer_has_events_since (layer : dict) (since_epoch : Z) : res bool :=
  meta ← get_obj "metadata" layer;
  let epoch := get "merkle_epoch" meta in
  if is_null epoch then Ok true else n ← py_int epoch; Ok (since_epoch <=? n)%Z.

(** One turn of the listing loop: the layer's entry, or [None] if the layer is
    unchanged since the epoch. *)
Definition visit_layer (now : string) (config : ServiceConfig) (since_epoch : option Z) (s : S)
    (layer_id : string) : res (option LayerFindings) :=
  key ← layer_key opaque_layer_ids (data_dir config) layer_id;
  layer ← b_load key s;
  changed ← match since_epoch with Some n => layer_has_events_since layer n | None => Ok true end;
  if negb changed then Ok None
  else
    '(findings, summary) ← resolve_layer_findings now layer;
    meta ← get_obj "metadata" layer;
    Ok (Some {| lf_layer_id := layer_id; lf_merkle_root := get "merkle_root" meta;
                lf_merkle_epoch := get "merkle_epoch" meta; lf_findings := findings; lf_summary := summary |}).

(** The loop, with [scanned] and the entries so far. *)
Fixpoint scan_layers (visit : string -> res (option LayerFindings)) (limit : Z) (ids : list string)
    (acc : list LayerFindings) : res (list LayerFindings) :=
  match ids with
  | [] => Ok acc
  | id :: rest =>
      if (limit <=? Z.of_nat (length acc))%Z then Ok acc
      else
        entry ← visit id;
        scan_layers visit limit rest (acc ++ option_list entry)
  end.

(** [all_ids[all_ids.index(cursor) + 1:]], from the start for an unknown cursor. *)
Fixpoint after_cursor (cursor : string) (ids : list string) : option (list string) :=
  match ids with
  | [] => None
  | id :: rest => if String.eqb id cursor then Some rest else after_cursor cursor rest
  end.
Definition resume_ids (cursor : option string) (ids : list string) : list string :=
  match cursor with
  | Some c => if str_truthy c then default ids (after_cursor c ids) else ids
  | None => ids
  end.

(** [scanned] is the number of entries. *)
Definition page_of (visit : string -> res (option LayerFindings)) (limit : Z) (all_ids : list string)
  : res BulkFindingsResponse :=
  layers ← scan_layers visit limit all_ids [];
  let scanned := length layers in
  let has_more := (Z.of_nat scanned =? limit)%Z && match drop scanned all_ids with [] => false | _ => true end in
  Ok {| br_layers := layers; br_total_findings := sum_list (map (fun l => length (lf_findings l)) layers);
        br_next_cursor := if has_more then lf_layer_id <$> last layers else None;
        br_has_more := has_more |}.

Definition resolve_all_findings (now : string) (config : ServiceConfig) (cursor : option string) (limit : Z)
    (since_epoch : option Z) (s : S) : res BulkFindingsResponse :=
  page_of (visit_layer now config since_epoch s) limit (resume_ids cursor (b_list_layer_ids s)).
End Handlers.

(** ** Grouping *)

Definition about_ref (aliases : dict) (ref : string) (e : json) : bool :=
  match event_ref aliases e with Ok (Some r) => String.eqb r ref | _ => false end.

Lemma group_events_lookup aliases events : forall m m', foldM (group_event aliases) events m = Ok m' ->
  forall ref, m' !! ref = match List.filter (about_ref aliases ref) events with
                          | [] => m !! ref
                          | mine => Some (default [] (m !! ref) ++ mine)
                          end.
Proof.
  induction events as [|e events IH]; intros m m'; cbn [foldM].
  { by intros [= <-]. }
  intros Hf ref. inv_bind Hf as [m1|] H1. rewrite (IH _ _ Hf ref). clear IH Hf.
  unfold group_event in H1. cbn [List.filter]. unfold about_ref at 2.
  destruct (event_ref aliases e) as [[r|]|]; cbn [mbind result_bind] in H1; [| |done]; injection H1 as <-; [|done].
  destruct (String.eqb_spec r ref) as [->|Hne].
  - rewrite lookup_insert_eq. destruct (List.filter _ events); [done|]. cbn. by rewrite -app_assoc.
  - rewrite lookup_insert_ne //.
Qed.

Lemma grouped_events aliases events groups : foldM (group_event aliases) events ∅ = Ok groups ->
  forall ref, groups !! ref = match List.filter (about_ref aliases ref) events with [] => None | mine => Some mine end.
Proof.
  intros Hg ref. rewrite (group_events_lookup _ _ _ _ Hg). destruct (List.filter _ _); by rewrite lookup_empty.
Qed.

Lemma count_one_spec v w counts :
  count_of v (count_one w counts) = (if py_eqb v w then 1 else 0) + count_of v counts.
Proof.
  unfold count_of. induction counts as [|[x n] counts IH]; cbn [count_one List.find fst].
  { by destruct (py_eqb v w). }
  destruct (py_eqb w x) eqn:Hwx; cbn [List.find fst]; destruct (py_eqb v x) eqn:Hvx; cbn [from_option snd].
  - assert (py_eqb v w = true) as -> by (rewrite py_eqb_sym in Hwx; exact (py_eqb_trans _ _ _ Hvx Hwx)). done.
  - destruct (py_eqb v w) eqn:Hvw; [|done]. by rewrite (py_eqb_trans _ _ _ Hvw Hwx) in Hvx.
  - destruct (py_eqb v w) eqn:Hvw; [|done]. rewrite py_eqb_sym in Hvw. by rewrite (py_eqb_trans _ _ _ Hvw Hvx) in Hwx.
  - exact IH.
Qed.
Lemma counter_spec v l : count_of v (counter l) = length (List.filter (py_eqb v) l).
Proof.
  enough (forall c, count_of v (fold_left (fun c v => count_one v c) l c)
    = length (List.filter (py_eqb v) l) + count_of v c) as Hgen.
  { unfold counter. rewrite Hgen. cbn. lia. }
  induction l as [|w l IH]; intros c; cbn [fold_left List.filter]; [done|].
  rewrite IH count_one_spec. destruct (py_eqb v w); cbn; lia.
Qed.

Section FindingsProperties.
Context `{HC : Contracts} `{HD : DispositionModel}.

Lemma finding_of_inv baseline now ref events f : finding_of baseline now (ref, events) = Ok f ->
  fd_finding_ref f = ref /\ fd_event_count f = length events
  /\ derive_disposition {["id" := JStr ref]} events now = Ok (fd_disposition f).
Proof.
  unfold finding_of. intros Hf. inv_bind Hf as [raw|] Hr. inv_bind Hf as [[]|] Ha. inv_bind Hf as [fp|] Hfp.
  by injection Hf as <-.
Qed.

Lemma findings_of_groups baseline now groups fs : mapR (finding_of baseline now) groups = Ok fs ->
  map fd_finding_ref fs = map fst groups.
Proof.
  intros Hfs%mapR_ok_Forall2. induction Hfs as [|[ref es] f gs fs Hf _ IH]; [done|]. cbn [map].
  rewrite IH. by destruct (finding_of_inv _ _ _ _ _ Hf) as (-> & _).
Qed.
Lemma findings_refs_nodup now layer fs summary : resolve_layer_findings now layer = Ok (fs, summary) ->
  NoDup (map fd_finding_ref fs).
Proof.
  unfold resolve_layer_findings. intros Hr. do 5 inv_bind Hr. inv_bind Hr as [fs'|] Hfs. injection Hr as <- _.
  rewrite (findings_of_groups _ _ _ _ Hfs). apply items_nodup.
Qed.

(** C20: what the findings of a layer are.  The findings are listed in order,
    once each: exactly the references that some event of the layer, other than
    a restatement, resolves to through the aliases.  Each counts all those events
    and carries the disposition they derive, in log order; the summary counts the
    findings by validity and by resolution. *)
Theorem findings_are_exact now layer findings summary :
  resolve_layer_findings now layer = Ok (findings, summary) ->
  exists raw evidence aliases,
    stored_events layer = Ok raw /\ apply_restatements raw = Ok evidence
    /\ layer_aliases layer evidence = Ok aliases
    /\ NoDup (map fd_finding_ref findings) /\ StronglySorted String.le (map fd_finding_ref findings)
    /\ (forall ref, ref ∈ map fd_finding_ref findings
         <-> exists e, e ∈ evidence /\ event_ref aliases e = Ok (Some ref))
    /\ (forall f, f ∈ findings ->
         let mine := List.filter (about_ref aliases (fd_finding_ref f)) evidence in
         fd_event_count f = length mine
         /\ derive_disposition {["id" := JStr (fd_finding_ref f)]} mine now = Ok (fd_disposition f))
    /\ (forall v, count_of v (by_validity summary)
           = length (List.filter (py_eqb v) (map (fun f => get "validity" (fd_disposition f)) findings)))
    /\ (forall v, count_of v (by_resolution summary)
           = length (List.filter (py_eqb v) (map (fun f => get "resolution" (fd_disposition f)) findings))).
Proof.
  unfold resolve_layer_findings. intros Hr. inv_bind Hr as [raw|] Hraw. inv_bind Hr as [evidence|] Hev.
  inv_bind Hr as [aliases|] Hal. inv_bind Hr as [groups|] Hgr. inv_bind Hr as [baseline|] Hb.
  inv_bind Hr as [fs|] Hfs. injection Hr as <- <-. exists raw, evidence, aliases.
  pose proof (grouped_events _ _ _ Hgr) as Hl.
  pose proof (findings_of_groups _ _ _ _ Hfs) as Hrefs. apply mapR_ok_Forall2 in Hfs.
  split_and!; try done; try (intros v; apply counter_spec).
  - rewrite Hrefs. apply items_nodup.
  - rewrite Hrefs. apply (StronglySorted_fmap fst key_le String.le); [by intros [] []|apply items_sorted].
  - intros ref. rewrite Hrefs. change (map fst ?l) with (l.*1). rewrite list_elem_of_fmap. split.
    + intros ([r es] & -> & Hin%items_lookup). rewrite Hl in Hin. cbn [fst].
      destruct (List.filter _ _) as [|e l] eqn:Hfil; [done|]. exists e.
      assert (In e (List.filter (about_ref aliases r) evidence)) as [Hin' Hab]%filter_In by (rewrite Hfil; by left).
      split; [by apply list_elem_of_In|]. unfold about_ref in Hab.
      destruct (event_ref aliases e) as [[r'|]|]; [|done..]. by apply String.eqb_eq in Hab as ->.
    + intros (e & Hin & He). destruct (groups !! ref) as [es|] eqn:Hg.
      { exists (ref, es). split; [done|]. by apply items_lookup. }
      rewrite Hl in Hg. assert (In e (List.filter (about_ref aliases ref) evidence)) as Hin'.
      { apply filter_In. split; [by apply list_elem_of_In|]. unfold about_ref. rewrite He. by apply String.eqb_eq. }
      by destruct (List.filter _ _).
  - intros f Hf. apply list_elem_of_lookup in Hf as [i Hi].
    destruct (Forall2_lookup_r _ _ _ _ _ Hfs Hi) as ([ref es] & Hg & Hf').
    apply finding_of_inv in Hf' as (-> & -> & Hdisp).
    apply list_elem_of_lookup_2, items_lookup in Hg. rewrite Hl in Hg. cbn zeta.
    destruct (List.filter _ _) as [|x l]; [done|]. by injection Hg as <-.
Qed.

Lemma restatement_no_evidence r : is_restatement r = Ok true -> is_evidence r = Ok false.
Proof. intros Hr. unfold is_evidence. destruct (is_dict r); [|done]. by rewrite Hr. Qed.

(** A restatement is no evidence.  Appending a restatement event to a layer's
    log leaves every finding, disposition and count as it was. *)
Theorem restatement_changes_no_finding now layer events r :
  layer !! "events" = Some (JArr events) -> is_restatement r = Ok true ->
  resolve_layer_findings now (<["events" := JArr (events ++ [r])]> layer) = resolve_layer_findings now layer.
Proof.
  intros Hev Hr. unfold resolve_layer_findings, stored_events. rewrite lookup_insert_eq Hev.
  assert (forall l, (if truthy (JArr l) then iterate_objects (JArr l) else Ok []) = Ok l) as Harr by (by intros []).
  rewrite !Harr. cbn [mbind result_bind]. unfold apply_restatements. rewrite filterR_app.
  assert (filterR is_evidence [r] = Ok []) as ->.
  { cbn [filterR]. by rewrite (restatement_no_evidence r Hr). }
  destruct (filterR is_evidence events) as [evidence|]; cbn [mbind result_bind]; [|done]. rewrite app_nil_r.
  unfold layer_aliases, baseline_of, get_in. by rewrite !get_insert_ne.
Qed.
End FindingsProperties.

(** ** Pages of findings *)

(** A client that follows the cursors. *)
Fixpoint walk_pages (page : option string -> res BulkFindingsResponse) (fuel : nat) (cursor : option string)
  : res (list BulkFindingsResponse) :=
  match fuel with
  | O => Err RuntimeError
  | S n =>
      p ← page cursor;
      if br_has_more p then rest ← walk_pages page n (br_next_cursor p); Ok (p :: rest) else Ok [p]
  end.

Definition visited (rs : list (option LayerFindings)) : list LayerFindings := omap (fun o => o) rs.
Lemma visited_app l1 l2 : visited (l1 ++ l2) = visited l1 ++ visited l2.
Proof. apply omap_app. Qed.
Lemma visited_length rs : length (visited rs) <= length rs.
Proof. unfold visited. induction rs as [|[x|] rs IH]; csimpl; lia. Qed.

Lemma after_cursor_split c l1 l2 : NoDup (l1 ++ c :: l2) -> after_cursor c (l1 ++ c :: l2) = Some l2.
Proof.
  induction l1 as [|x l1 IH]; cbn [app after_cursor]; [by rewrite String.eqb_refl|].
  intros [Hx Hnd]%NoDup_cons. destruct (String.eqb_spec x c) as [->|_]; [|by apply IH].
  destruct Hx. apply elem_of_app. right. by left.
Qed.

Section Paging.
Context (visit : string -> res (option LayerFindings)) (limit : Z).
Context (Hvisit : forall id e, visit id = Ok (Some e) -> lf_layer_id e = id).

(** Where the loop stops: after the last identifier, or right after the entry
    that filled the page. *)
Record stopped (ids : list string) (rs : list (option LayerFindings)) (acc result : list LayerFindings) : Prop :=
{ st_split : exists ids1 ids2 rs1 rs2, ids = ids1 ++ ids2 /\ rs = rs1 ++ rs2 /\ length ids1 = length rs1
    /\ result = acc ++ visited rs1
    /\ (ids2 = [] \/ Z.of_nat (length result) = limit)
    /\ (Z.of_nat (length acc) = limit -> ids1 = [])
    /\ (Z.of_nat (length result) = limit -> (Z.of_nat (length acc) < limit)%Z ->
        exists ids1' id e, ids1 = ids1' ++ [id] /\ last result = Some e /\ lf_layer_id e = id) }.

Lemma scan_stops ids : forall rs acc, mapR visit ids = Ok rs -> (Z.of_nat (length acc) <= limit)%Z ->
  exists result, scan_layers visit limit ids acc = Ok result /\ stopped ids rs acc result
    /\ (Z.of_nat (length result) <= limit)%Z.
Proof using Hvisit.
  induction ids as [|id ids IH]; intros rs acc Hrs Hacc; cbn [mapR scan_layers] in *.
  { injection Hrs as <-. exists acc. split; [done|]. split; [|done]. constructor.
    exists [], [], [], []. split_and!; try done; [by rewrite app_nil_r|by left|lia]. }
  inv_bind Hrs as [r|] Hr. inv_bind Hrs as [rs'|] Hrs'. injection Hrs as <-.
  destruct (Z.leb_spec limit (Z.of_nat (length acc))) as [Hfull|Hroom].
  { exists acc. split; [done|]. split; [|done]. constructor.
    exists [], (id :: ids), [], (r :: rs'). split_and!; try done; [by rewrite app_nil_r|right; lia|lia]. }
  cbn [mbind result_bind].
  destruct (IH rs' (acc ++ option_list r) eq_refl) as (result & Hscan & [Hst] & Hle).
  { rewrite length_app. destruct r; cbn; lia. }
  exists result. split; [done|]. split; [|done]. constructor.
  destruct Hst as (ids1 & ids2 & rs1 & rs2 & -> & -> & Hlen & Hres & Hend & Hfull & Hlast).
  exists (id :: ids1), ids2, (r :: rs1), rs2. split; [done|]. split; [done|]. split; [cbn; congruence|].
  split; [rewrite Hres -app_assoc; by destruct r|]. split; [done|]. split; [lia|].
  intros Hl _. destruct (decide (Z.of_nat (length (acc ++ option_list r)) = limit)) as [He|Hne].
  - rewrite (Hfull He) in Hlen |- *. destruct rs1; [|done]. exists [], id.
    destruct r as [e|]; cbn in He; [|rewrite app_nil_r in He; lia]. exists e. split; [done|].
    rewrite Hres. cbn. rewrite app_nil_r last_snoc. split; [done|]. by apply Hvisit.
  - destruct Hlast as (ids1' & id' & e & -> & ? & ?); [done|rewrite length_app in Hne |- *; destruct r; cbn in *; lia|].
    by exists (id :: ids1'), id', e.
Qed.

Lemma walk_from all fuel : forall pre ids rs cursor, (1 <= limit)%Z -> NoDup all -> Forall (fun i => str_truthy i = true) all ->
  all = pre ++ ids -> resume_ids cursor all = ids -> mapR visit ids = Ok rs -> length ids < fuel ->
  exists pages, walk_pages (fun c => page_of visit limit (resume_ids c all)) fuel cursor = Ok pages
    /\ concat (map br_layers pages) = visited rs
    /\ Forall (fun p => (Z.of_nat (length (br_layers p)) <= limit)%Z) pages.
Proof using Hvisit.
  induction fuel as [|fuel IH]; intros pre ids rs cursor Hlim Hnd Htr Hall Hcur Hrs Hfuel; [lia|].
  cbn [walk_pages]. rewrite Hcur. pose proof (eq_refl (page_of visit limit ids)) as Hpage. unfold page_of in Hpage at 2.
  destruct (scan_stops ids rs [] Hrs) as (result & Hscan & [Hst] & Hle); [cbn; lia|].
  rewrite Hscan in Hpage. rewrite Hpage. clear Hpage Hscan. cbn [mbind result_bind].
  destruct Hst as (ids1 & ids2 & rs1 & rs2 & Hids & -> & Hlen & Hres & Hend & _ & Hlast). cbn [app] in Hres.
  cbn [br_has_more br_next_cursor].
  destruct (Z.of_nat (length result) =? limit)%Z eqn:Hfull; [apply Z.eqb_eq in Hfull|apply Z.eqb_neq in Hfull]; cbn [andb].
  2:{ destruct Hend as [->|?]; [|done]. rewrite app_nil_r in Hids. eexists. split; [done|]. cbn [map concat br_layers].
      assert (rs2 = []) as ->.
      { apply mapR_ok_length in Hrs. rewrite length_app Hids Hlen in Hrs. destruct rs2; [done|]. cbn in Hrs. lia. }
      rewrite !app_nil_r. split; [done|]. by apply Forall_singleton. }
  destruct (drop (length result) ids) as [|x l] eqn:Hdrop.
  - assert (rs2 = []) as ->.
    { apply (f_equal length) in Hdrop. rewrite length_drop in Hdrop. cbn in Hdrop.
      apply mapR_ok_length in Hrs. rewrite length_app in Hrs. pose proof (visited_length rs1). rewrite Hres in Hdrop.
      destruct rs2; [done|]. cbn in Hrs. lia. }
    eexists. split; [done|]. cbn [map concat br_layers]. rewrite !app_nil_r. split; [done|].
    by apply Forall_singleton.
  - destruct Hlast as (ids1' & id & e & Hids1 & Hl & He); [done|cbn; lia|]. rewrite Hl. cbn [fmap option_fmap option_map].
    rewrite He. assert (all = (pre ++ ids1') ++ id :: ids2) as Hsplit.
    { rewrite Hall Hids Hids1 -!app_assoc. done. }
    destruct (IH (pre ++ ids1' ++ [id]) ids2 rs2 (Some id)) as (pages & -> & Hcat & Hsz); [done..| | | | |].
    + rewrite Hsplit -!app_assoc. done.
    + cbn [resume_ids]. rewrite ->Forall_forall in Htr. rewrite (Htr id).
      { rewrite Hsplit. apply elem_of_app. right. by left. }
      rewrite Hsplit in Hnd |- *. by rewrite after_cursor_split.
    + apply mapR_ok_Forall2 in Hrs. rewrite Hids in Hrs. apply Forall2_app_inv in Hrs as [_ Hrs]; [|done].
      by apply mapR_ok_Forall2.
    + rewrite Hids Hids1 !length_app in Hfuel. cbn in Hfuel. lia.
    + cbn [mbind result_bind]. eexists. split; [done|]. cbn [map concat br_layers].
      rewrite Hcat Hres visited_app. split; [done|]. constructor; [cbn; by rewrite -Hres|done].
Qed.
End Paging.

Section ReadProperties.
Context {S : Type} `{HC : Contracts} `{HD : DispositionModel} `{HB : Backend S} `{HLi : Listing S}.

Lemma visit_layer_id now config since_epoch s id e :
  visit_layer now config since_epoch s id = Ok (Some e) -> lf_layer_id e = id.
Proof.
  unfold visit_layer. intros Hv. inv_bind Hv as [key|] Hk. inv_bind Hv as [layer|] Hl. inv_bind Hv as [c|] Hc.
  destruct c; cbn [negb] in Hv; [|done]. inv_bind Hv as [[fs sm]|] Hf. inv_bind Hv as [m|] Hm. by injection Hv as <-.
Qed.
Lemma visit_layer_truthy now config since_epoch s id r :
  visit_layer now config since_epoch s id = Ok r -> str_truthy id = true.
Proof.
  unfold visit_layer, layer_key. by destruct (str_truthy id).
Qed.

(** C21: following the cursors reads everything, and ends.  When every listed layer
    can be read, a client that starts without a cursor and follows [next_cursor]
    stops after at most one page more than there are layers; the pages together
    hold each layer changed since the epoch exactly once, in listing order, and no
    page is larger than the limit. *)
Theorem findings_pages_cover now config limit since_epoch s rs :
  (1 <= limit)%Z -> NoDup (b_list_layer_ids s) ->
  mapR (visit_layer now config since_epoch s) (b_list_layer_ids s) = Ok rs ->
  exists pages,
    walk_pages (fun c => resolve_all_findings now config c limit since_epoch s)
      (length (b_list_layer_ids s) + 1) None = Ok pages
    /\ concat (map br_layers pages) = visited rs
    /\ Forall (fun p => (Z.of_nat (length (br_layers p)) <= limit)%Z) pages.
Proof.
  intros Hlim Hnd Hrs.
  apply (walk_from _ limit (visit_layer_id now config since_epoch s) (b_list_layer_ids s)
    _ [] (b_list_layer_ids s) rs None);
    try done; [|lia].
  apply mapR_ok_Forall2 in Hrs. clear Hnd. induction Hrs as [|id r ids rs Hr _ IH]; constructor; [|done].
  exact (visit_layer_truthy _ _ _ _ _ _ Hr).
Qed.

(** ** Pages of events *)

Definition pages_needed (limit : Z) (total : nat) : nat := Z.to_nat ((Z.of_nat total + limit - 1) / limit)%Z.
Definition page_at {A} (limit : nat) (k : nat) (l : list A) : list A := take limit (drop (k * limit) l).

Lemma slice_page {A} limit k (l : list A) : (1 <= limit)%Z ->
  py_slice (Z.of_nat k * limit) (Z.of_nat k * limit + limit) l = page_at (Z.to_nat limit) k l.
Proof.
  intros Hl. unfold py_slice, page_at, slice_index.
  destruct (Z.ltb_spec (Z.of_nat k * limit) 0); [nia|]. destruct (Z.ltb_spec (Z.of_nat k * limit + limit) 0); [nia|].
  set (n := Z.to_nat limit). replace limit with (Z.of_nat n) by lia.
  destruct (decide (k * n <= length l)) as [Hin|Hout].
  - replace (Z.to_nat (Z.min (Z.of_nat k * Z.of_nat n) (Z.of_nat (length l)))) with (k * n) by lia.
    destruct (decide (k * n + n <= length l)).
    + f_equal. lia.
    + rewrite !take_ge //; rewrite length_drop; lia.
  - rewrite !drop_ge; [lia..|]. by rewrite !take_nil.
Qed.

Lemma pages_concat {A} n k (l : list A) : 0 < n ->
  concat (map (fun i => page_at n i l) (seq 0 k)) = take (k * n) l.
Proof.
  intros Hn. induction k as [|k IH]; [done|]. rewrite seq_S map_app concat_app IH /= app_nil_r.
  unfold page_at. by rewrite (Nat.add_comm n) take_take_drop.
Qed.

(** C27: the pages of a layer's event log partition it.  Reading the pages one
    after the other, as many as the total asks for, gives every selected event
    exactly once and in log order; each page reports the same total and holds at
    most [limit] events. *)
Theorem event_pages_cover layer_id config finding_ref source_type limit s first :
  (1 <= limit)%Z ->
  query_layer_events layer_id config finding_ref source_type limit 0 s = Ok first ->
  exists layer raw pages,
    load_layer layer_id config s = Ok layer /\ get "events" layer = JArr raw
    /\ mapR (fun k => query_layer_events layer_id config finding_ref source_type limit (Z.of_nat k * limit) s)
         (seq 0 (pages_needed limit (ev_total first))) = Ok pages
    /\ concat (map ev_events pages) = filter_events finding_ref source_type raw
    /\ Forall (fun p => ev_total p = ev_total first /\ (Z.of_nat (length (ev_events p)) <= limit)%Z) pages.
Proof.
  intros Hlim. unfold query_layer_events. intros Hf. inv_bind Hf as [layer|] Hl.
  destruct (get "events" layer) as [| | | |raw|] eqn:He; try done. injection Hf as <-. cbn [ev_total].
  set (sel := filter_events finding_ref source_type raw).
  exists layer, raw. cbn [mbind result_bind]. eexists. split; [done|]. split; [done|].
  split; [apply (mapR_pure _ (fun k => {| ev_events := page_at (Z.to_nat limit) k sel; ev_total := length sel;
    ev_layer_id := layer_id |})); intros k _; cbv beta; by rewrite He slice_page|]. split.
  - rewrite map_map. cbn [ev_events]. rewrite pages_concat; [lia|]. apply take_ge. unfold pages_needed.
    assert (0 < limit)%Z as Hpos by lia.
    pose proof (Z.mul_succ_div_gt (Z.of_nat (length sel) + limit - 1) limit Hpos) as Hgt.
    assert (0 <= (Z.of_nat (length sel) + limit - 1) / limit)%Z by (apply Z.div_pos; lia).
    apply Nat2Z.inj_le. rewrite Nat2Z.inj_mul !Z2Nat.id; [lia..|].
    rewrite Z.mul_succ_r in Hgt. rewrite Z.mul_comm. fold sel. lia.
  - apply Forall_forall. intros p (k & -> & _)%list_elem_of_fmap. cbn. split; [done|].
    unfold page_at. rewrite length_take. lia.
Qed.
End ReadProperties.

(** ** Listings of the two backends *)

#[global] Instance db_listing_ids `{StorageRegistry} : Listing database := {| b_list_layer_ids := db_list_layer_ids |}.
Definition file_listing_ids `{Contracts} (dir : string) : Listing files :=
  {| b_list_layer_ids := list_layer_ids (Some dir) |}.

Lemma db_list_nodup `{StorageRegistry} db : NoDup (b_list_layer_ids db).
Proof. change (NoDup ((ordered_layers db).*1)). rewrite ordered_perm. apply items_nodup. Qed.

(** ** Witnesses *)

#[local] Instance accept_dispositions : DispositionModel := {| disposition_accepts := fun _ => true |}.

Definition read_event (id ref kind validity : string) : json :=
  JObj {["event_id" := JStr id; "finding_ref" := JStr ref; "recorded_at" := JStr "2026-01-01T00:00:00Z";
         "source" := JObj {["type" := JStr "manual"; "ref" := JStr id; "actor" := JObj {["kind" := JStr kind]}]};
         "disposition" := JObj {["validity" := JStr validity]}]}.
Definition read_restatement : json :=
  JObj {["event_id" := JStr "R1"; "source" := JObj {["type" := JStr "restatement"]};
         "restatement" := JObj {["target" := JStr "claim_hashes"]}]}.
Definition read_layer (n : string) : dict := {[
  "metadata" := JObj {["merkle_epoch" := JInt 0; "claim_hashes" := JObj {["F1" := JStr "aa"]}]};
  "events" := JArr [read_event (n +:+ "1") "F2" "machine" "confirmed"; read_event (n +:+ "2") "F1" "human" "confirmed";
                    read_event (n +:+ "3") "F2" "human" "false_positive"];
  "needs_review" := JArr [] ]}.

Definition read_files : files := {[
  "/data/A.json" := dumps true (JObj (read_layer "A")); "/data/B.json" := dumps true (JObj (read_layer "B"));
  "/data/C.json" := dumps true (JObj (read_layer "C")); "/data/note.json" := "{}" ]}.
Definition read_config : ServiceConfig := {|
  backend_type := "file"; database_url := None; data_dir := "/data";
  signing_required := false; signing_key_path := None; signing_method := "cosign";
  admin_identities := []; restatement_min_approvers := 0; oidc_issuer_url := None; config_oidc_client_id := None;
  config_identity_provider := "oidc"; config_oidc_issuer := None; oidc_audience := None; oidc_jwks_url := None;
  oidc_machine_claim := "azp"; oidc_identity_claim := "email"; oidc_trust := "" |}.
#[local] Instance read_listing : Listing files := file_listing_ids "/data".

Definition sample_findings : list FindingDisposition * FindingsSummary :=
  match resolve_layer_findings "2026-02-01T00:00:00Z" (read_layer "E") with
  | Ok r => r | Err _ => ([], {| by_validity := []; by_resolution := [] |}) end.
Example sample_findings_value :
  map (fun f => (fd_finding_ref f, fd_event_count f, get "validity" (fd_disposition f), fd_orphan f)) sample_findings.1
  = [("F1", 1, JStr "confirmed", Some false); ("F2", 2, JStr "false_positive", Some true)].
Proof. vm_compute. reflexivity. Qed.

Lemma findings_are_exact_witness :
  NoDup (map fd_finding_ref sample_findings.1) /\ "F2" ∈ map fd_finding_ref sample_findings.1.
Proof.
  destruct (findings_are_exact "2026-02-01T00:00:00Z" (read_layer "E") sample_findings.1 sample_findings.2)
    as (raw & evidence & aliases & _ & _ & _ & Hnd & _); [vm_compute; reflexivity|].
  split; [exact Hnd|]. apply (bool_decide_unpack _). vm_compute. exact I.
Defined.

Lemma restatement_changes_no_finding_witness :
  resolve_layer_findings "2026-02-01T00:00:00Z" (<["events" := JArr ([read_event "E1" "F1" "human" "confirmed"]
    ++ [read_restatement])]> {["events" := JArr [read_event "E1" "F1" "human" "confirmed"]]})
  = resolve_layer_findings "2026-02-01T00:00:00Z" {["events" := JArr [read_event "E1" "F1" "human" "confirmed"]]}.
Proof.
  apply (restatement_changes_no_finding "2026-02-01T00:00:00Z" {["events" := JArr [read_event "E1" "F1" "human" "confirmed"]]}
    [read_event "E1" "F1" "human" "confirmed"] read_restatement); vm_compute; reflexivity.
Defined.

Definition sample_visits : list (option LayerFindings) :=
  match mapR (visit_layer "2026-02-01T00:00:00Z" read_config None read_files) (b_list_layer_ids read_files) with
  | Ok rs => rs | Err _ => [] end.
Lemma findings_pages_cover_witness :
  map lf_layer_id (visited sample_visits) = ["A"; "B"; "C"] /\
  exists pages,
    walk_pages (fun c => resolve_all_findings "2026-02-01T00:00:00Z" read_config c 2 None read_files)
      (length (b_list_layer_ids read_files) + 1) None = Ok pages
    /\ concat (map br_layers pages) = visited sample_visits
    /\ Forall (fun p => (Z.of_nat (length (br_layers p)) <= 2)%Z) pages.
Proof.
  split; [vm_compute; reflexivity|].
  apply (findings_pages_cover "2026-02-01T00:00:00Z" read_config 2 None read_files sample_visits).
  - lia.
  - apply (bool_decide_unpack _). vm_compute. exact I.
  - vm_compute. reflexivity.
Defined.

Lemma event_pages_cover_witness : exists layer raw pages,
  load_layer "A" read_config read_files = Ok layer /\ get "events" layer = JArr raw
  /\ mapR (fun k => query_layer_events "A" read_config (Some "F2") None 1 (Z.of_nat k * 1) read_files)
       (seq 0 (pages_needed 1 2)) = Ok pages
  /\ concat (map ev_events pages) = filter_events (Some "F2") None raw
  /\ Forall (fun p => ev_total p = 2 /\ (Z.of_nat (length (ev_events p)) <= 1)%Z) pages.
Proof.
  pose (first := match query_layer_events "A" read_config (Some "F2") None 1 0 read_files with
                 | Ok r => r | Err _ => {| ev_events := []; ev_total := 0; ev_layer_id := "" |} end).
  assert (ev_total first = 2) as <- by (vm_compute; reflexivity).
  apply (event_pages_cover "A" read_config (Some "F2") None 1 read_files first); [lia|].
  vm_compute. reflexivity.
Defined.
