(* ===== verification/Projection.v ===== *)
(** * The materialized findings

    [_internal/projection.py] and [cli/materialize.py]: one row per finding of a
    layer in a table keyed by layer and finding, rebuilt layer by layer.  Each
    layer is one transaction: when a layer raises, the rows of the layers before
    it are committed and the command fails. *)

From S2P Require Import Prelude PyStr Json Sha256 Errors Restatements Contracts Time Disposition Events.
From S2P Require Import Backend FileBackend DbBackend Finalize Reads.
From stdpp Require Import options.

(** A row of [materialized_findings]. *)
Record finding_row := {
  fr_layer_id : string;
  fr_finding_ref : string;
  fr_fingerprint : option string;
  fr_orphan : option bool;
  fr_validity : string;
  fr_resolution : string;
  fr_assurance : option string;
  fr_event_count : nat;
  fr_conflict : bool;
  fr_fp_overridden : bool;
  fr_fp_reassertion_blocked : bool;
  fr_severity_override : json;
  fr_last_updated : json;
  fr_merkle_root : json;
  fr_merkle_epoch : json;
  fr_materialized_at : string
}.

Definition build_row (layer_id : string) (f : FindingDisposition) (merkle_root merkle_epoch : json) (now : string)
  : res finding_row :=
  let d := fd_disposition f in
  validity ← py_str (get "validity" d);
  resolution ← py_str (get "resolution" d);
  assurance ← (if get_truthy "assurance" d then a ← py_str (get "assurance" d); Ok (Some a) else Ok None);
  Ok {| fr_layer_id := layer_id; fr_finding_ref := fd_finding_ref f; fr_fingerprint := fd_fingerprint f;
        fr_orphan := fd_orphan f; fr_validity := validity; fr_resolution := resolution;
        fr_assurance := assurance; fr_event_count := fd_event_count f;
        fr_conflict := get_truthy "conflict" d; fr_fp_overridden := get_truthy "fp_overridden" d;
        fr_fp_reassertion_blocked := get_truthy "fp_reassertion_blocked" d;
        fr_severity_override := if get_truthy "severity_override" d then get "severity_override" d else JNull;
        fr_last_updated := get "last_updated" d; fr_merkle_root := merkle_root; fr_merkle_epoch := merkle_epoch;
        fr_materialized_at := now |}.

(** The table by its primary key. *)
Notation projection := (gmap (string * string) finding_row).

Definition row_key (row : finding_row) : string * string := (fr_layer_id row, fr_finding_ref row).

(** [UPDATE] of every column, or [INSERT]. *)
Definition upsert_row (t : projection) (row : finding_row) : projection :=
  match t !! row_key row with
  | Some _ => alter (fun _ => row) (row_key row) t
  | None => <[row_key row := row]> t
  end.

Definition upsert_layer (layer_id : string) (rows : list finding_row) (prune_empty : bool) (t : projection)
  : projection :=
  let current_refs := map fr_finding_ref rows in
  if match rows with [] => negb prune_empty | _ => false end then t
  else
    let kept := filter (fun kr : (string * string) * finding_row =>
                          ~ (kr.1.1 = layer_id /\ kr.1.2 ∉ current_refs)) t in
    fold_left upsert_row rows kept.

Section Materialize.
Context {S : Type} `{Contracts} `{DispositionModel} `{Backend S} `{Listing S}.

(** The rows of one layer. *)
Definition rows_of_layer (now layer_id : string) (layer : dict) : res (list finding_row) :=
  '(findings, _) ← resolve_layer_findings now layer;
  meta ← get_obj "metadata" layer;
  mapR (fun f => build_row layer_id f (get "merkle_root" meta) (get "merkle_epoch" meta) now) findings.

Definition layer_selected (layer_filter : option (list string)) (layer_id : string) : bool :=
  match layer_filter with Some ids => bool_decide (layer_id ∈ ids) | None => true end.

(** One turn: the layer is loaded even when it is then skipped. *)
Definition layer_turn (now data_dir : string) (layer_filter : option (list string)) (s : S) (layer_id : string)
  : res (option (list finding_row)) :=
  key ← layer_key opaque_layer_ids data_dir layer_id;
  layer ← b_load key s;
  if layer_selected layer_filter layer_id then rows ← rows_of_layer now layer_id layer; Ok (Some rows)
  else Ok None.

Record progress := { pr_table : projection; pr_layers : nat; pr_findings : nat }.

(** The loop over the layers; an exception ends it, after what is committed. *)
Fixpoint materialize_loop (turn : string -> res (option (list finding_row))) (prune_empty : bool)
    (ids : list string) (p : progress) : progress * option exn :=
  match ids with
  | [] => (p, None)
  | id :: rest =>
      match turn id with
      | Err e => (p, Some e)
      | Ok None => materialize_loop turn prune_empty rest p
      | Ok (Some rows) =>
          materialize_loop turn prune_empty rest
            {| pr_table := upsert_layer id rows prune_empty (pr_table p);
               pr_layers := pr_layers p + 1; pr_findings := pr_findings p + length rows |}
      end
  end.

(** The loop of [cmd_materialize] over every layer of the backend, on a table. *)
Definition materialize_layers (now data_dir : string) (layer_filter : option (list string)) (prune_empty : bool)
    (s : S) (t : projection) : progress * option exn :=
  materialize_loop (layer_turn now data_dir layer_filter s) prune_empty (b_list_layer_ids s)
    {| pr_table := t; pr_layers := 0; pr_findings := 0 |}.
End Materialize.

(** ** Lemmas *)

Lemma upsert_row_insert t row : upsert_row t row = <[row_key row := row]> t.
Proof.
  unfold upsert_row. destruct (t !! row_key row) eqn:Hr; [|done]. apply map_eq. intros k.
  destruct (decide (k = row_key row)) as [->|Hne].
  - by rewrite lookup_alter_eq Hr lookup_insert_eq.
  - rewrite lookup_alter_ne; [congruence|]. rewrite lookup_insert_ne; [congruence|done].
Qed.

Definition row_of (ref : string) (rows : list finding_row) : option finding_row :=
  List.find (fun r => String.eqb (fr_finding_ref r) ref) rows.

Lemma row_of_in ref rows : ref ∈ map fr_finding_ref rows <-> is_Some (row_of ref rows).
Proof.
  unfold row_of. induction rows as [|r rows IH]; cbn.
  { rewrite elem_of_nil. split; [done|by intros [? ?]]. }
  rewrite elem_of_cons. destruct (String.eqb_spec (fr_finding_ref r) ref) as [->|Hne].
  - split; [by eexists|by left].
  - rewrite -IH. split; [intros [?|?]; [congruence|done]|by right].
Qed.

Lemma upsert_rows_lookup id rows : Forall (fun r => fr_layer_id r = id) rows -> NoDup (map fr_finding_ref rows) ->
  forall t i ref, fold_left upsert_row rows t !! (i, ref)
    = if bool_decide (i = id) then match row_of ref rows with Some r => Some r | None => t !! (i, ref) end
      else t !! (i, ref).
Proof.
  intros Hid. induction Hid as [|r rows Hr _ IH]; intros Hnd t i ref; cbn [fold_left].
  { by case_bool_decide. }
  cbn [map] in Hnd. apply NoDup_cons in Hnd as [Hnr Hnd]. rewrite (IH Hnd) upsert_row_insert. clear IH.
  unfold row_of at 2. cbn [List.find]. fold (row_of ref rows). unfold row_key. rewrite Hr.
  case_bool_decide as Hi; [subst i|rewrite lookup_insert_ne; [congruence|done]].
  destruct (String.eqb_spec (fr_finding_ref r) ref) as [<-|Hne].
  - destruct (row_of (fr_finding_ref r) rows) eqn:Hro; [|by rewrite lookup_insert_eq].
    destruct Hnr. apply row_of_in. by rewrite Hro.
  - destruct (row_of ref rows); [done|]. rewrite lookup_insert_ne; [congruence|done].
Qed.

(** What one layer's transaction leaves. *)
Definition projected (rows : list finding_row) (prune_empty : bool) (ref : string) (old : option finding_row)
  : option finding_row :=
  match rows with [] => if prune_empty then None else old | _ => row_of ref rows end.

Lemma upsert_layer_lookup id rows prune t i ref :
  Forall (fun r => fr_layer_id r = id) rows -> NoDup (map fr_finding_ref rows) ->
  upsert_layer id rows prune t !! (i, ref)
  = if bool_decide (i = id) then projected rows prune ref (t !! (i, ref)) else t !! (i, ref).
Proof.
  intros Hid Hnd. unfold upsert_layer, projected.
  destruct (match rows with [] => negb prune | _ => false end) eqn:Hskip.
  { destruct rows; [|done]. apply negb_true_iff in Hskip as ->. by case_bool_decide. }
  rewrite (upsert_rows_lookup id) //. set (kept := filter _ t).
  assert (kept !! (i, ref) = if bool_decide (i = id /\ ref ∉ map fr_finding_ref rows) then None else t !! (i, ref)) as ->.
  { apply option_eq. intros x. unfold kept. rewrite map_lookup_filter_Some. cbn [fst snd].
    case_bool_decide; naive_solver. }
  case_bool_decide as Hi.
  - subst i. destruct (row_of ref rows) as [r|] eqn:Hr.
    + by destruct rows.
    + rewrite bool_decide_true.
      { split; [done|]. intros Hin%row_of_in. rewrite Hr in Hin. by destruct Hin. }
      destruct rows; [by destruct prune|done].
  - rewrite bool_decide_false; [tauto|done].
Qed.

Section Materialized.
Context `{HC : Contracts} `{HD : DispositionModel}.

Lemma build_row_key id f root epoch now row : build_row id f root epoch now = Ok row ->
  fr_layer_id row = id /\ fr_finding_ref row = fd_finding_ref f.
Proof.
  unfold build_row. intros Hb. inv_bind Hb. inv_bind Hb. inv_bind Hb. by injection Hb as <-.
Qed.

(** The rows of a layer: its own, one per finding. *)
Lemma rows_of_layer_keys now id layer rows : rows_of_layer now id layer = Ok rows ->
  Forall (fun r => fr_layer_id r = id) rows /\ NoDup (map fr_finding_ref rows).
Proof.
  unfold rows_of_layer. intros Hr. inv_bind Hr as [[fs sm]|] Hf. inv_bind Hr as [meta|] Hm.
  apply findings_refs_nodup in Hf. apply mapR_ok_Forall2 in Hr.
  assert (map fr_finding_ref rows = map fd_finding_ref fs) as ->.
  { clear Hf. induction Hr as [|f row fs rows Hb _ IH]; [done|]. cbn [map]. rewrite IH.
    by destruct (build_row_key _ _ _ _ _ _ Hb) as [_ ->]. }
  split; [|done]. clear Hf. induction Hr as [|f row fs rows Hb _ IH]; constructor; [|done].
  by destruct (build_row_key _ _ _ _ _ _ Hb).
Qed.
End Materialized.

Section Loop.
Context (turn : string -> res (option (list finding_row))) (prune : bool).
Context (Hturn : forall id rows, turn id = Ok (Some rows) ->
  Forall (fun r => fr_layer_id r = id) rows /\ NoDup (map fr_finding_ref rows)).

(** What the command means for one key of the table. *)
Definition target_row (ids : list string) (t : projection) (i ref : string) : option finding_row :=
  match turn i with
  | Ok (Some rows) => if bool_decide (i ∈ ids) then projected rows prune ref (t !! (i, ref)) else t !! (i, ref)
  | _ => t !! (i, ref)
  end.

Lemma materialize_loop_spec ids : NoDup ids -> forall p p', materialize_loop turn prune ids p = (p', None) ->
  (forall id, id ∈ ids -> is_ok (turn id) = true)
  /\ forall i ref, pr_table p' !! (i, ref) = target_row ids (pr_table p) i ref.
Proof using Hturn.
  induction 1 as [|id ids Hid Hnd IH]; intros p p'; cbn [materialize_loop].
  { intros [= <-]. split; [by intros id ?%not_elem_of_nil|]. intros i ref. unfold target_row.
    destruct (turn i) as [[rows|]|]; [|done..]. rewrite bool_decide_false //. apply not_elem_of_nil. }
  destruct (turn id) as [[rows|]|] eqn:Ht; [| |done]; intros [Hok Hl]%IH;
    (split; [intros j [->|Hj]%elem_of_cons; [by rewrite Ht|by apply Hok]|]); intros i ref; rewrite Hl; unfold target_row.
  - cbn [pr_table]. destruct (Hturn _ _ Ht) as [Hk Hn]. rewrite upsert_layer_lookup //.
    destruct (decide (i = id)) as [->|Hne].
    + rewrite Ht bool_decide_false // (bool_decide_true (id = id)) // bool_decide_true //. by left.
    + rewrite (bool_decide_false (i = id)) //. destruct (turn i) as [[]|]; [|done..].
      rewrite (bool_decide_ext (i ∈ id :: ids) (i ∈ ids)) //. set_solver.
  - destruct (decide (i = id)) as [->|Hne]; [by rewrite Ht|]. destruct (turn i) as [[]|]; [|done..].
    rewrite (bool_decide_ext (i ∈ id :: ids) (i ∈ ids)) //. set_solver.
Qed.

Lemma materialize_loop_total ids : (forall id, id ∈ ids -> is_ok (turn id) = true) ->
  forall p, exists p', materialize_loop turn prune ids p = (p', None).
Proof.
  induction ids as [|id ids IH]; intros Hok p; cbn [materialize_loop]; [by eexists|].
  pose proof (Hok id ltac:(by left)) as Hid.
  destruct (turn id) as [[rows|]|]; [| |done]; apply IH; intros j Hj; apply Hok; by right.
Qed.
(** What a run counts does not depend on the table. *)
Lemma materialize_loop_counts ids : forall p1 q1 p2 q2,
  materialize_loop turn prune ids p1 = (q1, None) -> materialize_loop turn prune ids p2 = (q2, None) ->
  pr_layers p1 = pr_layers p2 -> pr_findings p1 = pr_findings p2 ->
  pr_layers q1 = pr_layers q2 /\ pr_findings q1 = pr_findings q2.
Proof.
  induction ids as [|id ids IH]; intros p1 q1 p2 q2; cbn [materialize_loop].
  { by intros [= ->] [= ->]. }
  destruct (turn id) as [[rows|]|]; [| |done]; intros H1 H2 Hp Hf; apply (IH _ _ _ _ H1 H2); cbn; lia.
Qed.
(** The layers counted are those with a turn of their own. *)
Definition has_turn (id : string) : bool := match turn id with Ok (Some _) => true | _ => false end.
Lemma materialize_loop_layers ids : forall p p', materialize_loop turn prune ids p = (p', None) ->
  pr_layers p' = pr_layers p + length (List.filter has_turn ids).
Proof.
  induction ids as [|id ids IH]; intros p p'; cbn [materialize_loop List.filter]; [intros [= <-]; cbn; lia|].
  unfold has_turn at 1. destruct (turn id) as [[rows|]|]; [| |done]; intros ->%IH; cbn; lia.
Qed.
End Loop.

Section Command.
Context {S : Type} `{HC : Contracts} `{HD : DispositionModel} `{HB : Backend S} `{HLi : Listing S}.

Lemma layer_turn_keys now dir layer_filter s id rows : layer_turn now dir layer_filter s id = Ok (Some rows) ->
  Forall (fun r => fr_layer_id r = id) rows /\ NoDup (map fr_finding_ref rows).
Proof.
  unfold layer_turn. intros Ht. inv_bind Ht as [key|] Hk. inv_bind Ht as [layer|] Hl.
  destruct (layer_selected _ _); [|done]. inv_bind Ht as [rs|] Hr. injection Ht as <-.
  exact (rows_of_layer_keys _ _ _ _ Hr).
Qed.

(** After a run over every layer, the rows of a selected layer are exactly those of
    its current findings, except that a layer without findings keeps its last rows
    unless pruning was asked for; every other row is untouched.  A second run
    changes and counts the same. *)
Theorem materialized_exact now dir layer_filter prune s t p :
  NoDup (b_list_layer_ids s) ->
  materialize_layers now dir layer_filter prune s t = (p, None) ->
  (forall i ref, pr_table p !! (i, ref) = target_row (layer_turn now dir layer_filter s) prune (b_list_layer_ids s) t i ref)
  /\ materialize_layers now dir layer_filter prune s (pr_table p) = (p, None).
Proof.
  intros Hnd Hm. unfold materialize_layers in *. set (turn := layer_turn now dir layer_filter s) in *.
  pose proof (materialize_loop_spec turn prune (layer_turn_keys now dir layer_filter s) _ Hnd _ _ Hm) as [Hok Hl].
  cbn [pr_table] in Hl. split; [exact Hl|].
  destruct (materialize_loop_total turn prune _ Hok {| pr_table := pr_table p; pr_layers := 0; pr_findings := 0 |})
    as [p2 Hm2]. rewrite Hm2.
  pose proof (materialize_loop_spec turn prune (layer_turn_keys now dir layer_filter s) _ Hnd _ _ Hm2) as [_ Hl2].
  cbn [pr_table] in Hl2. destruct (materialize_loop_counts turn prune _ _ _ _ _ Hm Hm2 eq_refl eq_refl) as [Hn Hf].
  assert (pr_table p2 = pr_table p) as Ht.
  { apply map_eq. intros [i ref]. rewrite Hl2. unfold target_row. rewrite Hl. unfold target_row.
    destruct (turn i) as [[rows|]|]; [|done..]. destruct (bool_decide _); [|done].
    unfold projected. destruct rows; [by destruct prune|done]. }
  destruct p, p2. cbn in *. by subst.
Qed.
End Command.
