(* ===== verification/Migration.v ===== *)
(** * Historical migration

    [_internal/historical_migration.py]: selecting layer files by a manifest,
    reading a ledger database, validating each layer and importing it, one
    transaction per layer.  The file tree is a parameter: whether a path is a
    symbolic link, where it resolves to, what it holds. *)

From S2P Require Import Prelude PyStr Json Sha256 Errors Merkle Restatements Signing Ledger Identity.
From S2P Require Import Contracts Time Records Backend DbBackend.
From stdpp Require Import options.

Record SourceLayer := {
  sl_layer_id : string; sl_document : dict; sl_source : string;
  sl_error : option string; sl_product_repo_id : option string
}.

Inductive migration_status := Imported (s : import_status) | Conflict | Quarantined.
Record MigrationResult := {
  mr_layer_id : string; mr_status : migration_status; mr_source : string;
  mr_events : Z; mr_review_items : Z; mr_validation_warnings : nat
}.

(** ** The manifest *)

(** [Path(p).is_absolute()] and [Path(p).parts]: empty and [.] components
    vanish. *)
Definition is_absolute (p : string) : bool := startswith p "/".
Definition path_parts (p : string) : list string :=
  (if is_absolute p then ["/"] else [])
  ++ List.filter (fun part => str_truthy part && negb (String.eqb part ".")) (split "/"%char p).

Definition is_hex_lower (c : ascii) : bool := is_digit c || in_range 97 102 c.
Definition is_digest (s : string) : bool :=
  (String.length s =? 64)%nat && forallb is_hex_lower (chars s).

(** A relative path below the source directory. *)
Definition safe_relative (relative : string) : bool :=
  str_truthy relative && negb (is_absolute relative)
  && negb (bool_decide (".." ∈ path_parts relative))
  && negb (existsb (fun c => Ascii.eqb c "\"%char) (chars relative))
  && endswith relative ".json".

Definition owner_ok (v : json) : bool :=
  match v with JNull => true | JStr s => str_truthy (strip s) | _ => false end.

Record selection := {
  se_layer_id : string; se_relative : string; se_digest : string; se_owner : option string
}.

(** A record of the ledger's namespace that was selected or delegated. *)
Definition is_selected (record : dict) : bool :=
  py_eqb (get "namespace" record) (JStr "traust_ledger")
  && py_in (get "decision" record) [JStr "selected"; JStr "delegated"].

Definition read_selection (record : dict) : res selection :=
  match get "source_file" record, get "layer_id" record, get "source_digest" record with
  | JStr relative, JStr layer_id, JStr digest =>
      _ ← raise_if (py_neqb (get "format_version" record) (JInt 1) || py_neqb (get "artifact" record) (JStr "layer")
                    || negb (safe_relative relative) || negb (str_truthy layer_id) || negb (is_digest digest)
                    || negb (owner_ok (get "product_repo_id" record))) ValueError;
      Ok {| se_layer_id := layer_id; se_relative := relative; se_digest := digest;
            se_owner := as_str (get "product_repo_id" record) |}
  | _, _, _ => Err ValueError
  end.

(** One line: [in] a set of a list or an object is a [TypeError]. *)
Definition hashable (v : json) : bool := match v with JArr _ | JObj _ => false | _ => true end.
Definition select_line (selected : list selection) (line : string) : res (list selection) :=
  v ← of_option (loads line) ValueError;
  match v with
  | JObj record =>
      _ ← raise_if (py_eqb (get "namespace" record) (JStr "traust_ledger") && negb (hashable (get "decision" record)))
            TypeError;
      if negb (is_selected record) then Ok selected
      else
        s ← read_selection record;
        _ ← raise_if (existsb (fun t => String.eqb (se_layer_id t) (se_layer_id s)
                                        || String.eqb (se_relative t) (se_relative s)) selected) ValueError;
        Ok (selected ++ [s])
  | _ => Err ValueError
  end.

Definition select_manifest (lines : list string) : res (list selection) :=
  selected ← foldM select_line lines [];
  _ ← raise_if (match selected with [] => true | _ => false end) ValueError;
  Ok selected.

(** ** Reading the sources *)

Class SourceTree := {
  is_symlink : string -> bool;      (** [(root / p).is_symlink()] *)
  resolves_inside : string -> bool; (** [(root / p).resolve().is_relative_to(root)] *)
  read_bytes : string -> option bytes
}.

(** The prefixes of a path, one per part. *)
Definition path_prefixes (p : string) : list string :=
  let parts := path_parts p in map (fun i => join "/" (take i parts)) (seq 1 (length parts)).

Section Sources.
Context `{HashFn} `{SourceTree}.

Definition failed_source (s : selection) (error : string) : SourceLayer :=
  {| sl_layer_id := se_layer_id s; sl_document := ∅; sl_source := se_relative s; sl_error := Some error;
     sl_product_repo_id := None |}.

(** [_document]. *)
Definition document (payload : bytes) : res dict :=
  v ← decode_json payload;
  match v with JObj d => Ok d | _ => Err ValueError end.

Definition read_source (s : selection) : SourceLayer :=
  if existsb is_symlink (path_prefixes (se_relative s)) then failed_source s "symlink alias is not a source file"
  else if negb (resolves_inside (se_relative s)) then failed_source s "path escapes source directory"
  else match read_bytes (se_relative s) with
       | None => failed_source s "invalid layer document"
       | Some payload =>
           if negb (String.eqb (hexdigest payload) (se_digest s))
           then failed_source s "source digest changed since selection"
           else match document payload with
                | Err _ => failed_source s "invalid layer document"
                | Ok d => {| sl_layer_id := se_layer_id s; sl_document := d; sl_source := se_relative s;
                             sl_error := None; sl_product_repo_id := se_owner s |}
                end
       end.

Definition iter_manifest_layers (lines : list string) : res (list SourceLayer) :=
  selected ← select_manifest lines; Ok (map read_source selected).
End Sources.

(** ** Migrating *)

Section Migrate.
Context `{Contracts} `{StorageRegistry} `{HashFn} `{SigningTools}.

(** [iter_ledger_layers]. *)
Definition iter_ledger_layers (db : database) : res (list SourceLayer) :=
  mapR (fun id => d ← load_layer_id id db;
                  Ok {| sl_layer_id := id; sl_document := d; sl_source := "ledger:" +:+ id; sl_error := None;
                        sl_product_repo_id := product_repo id db |}) (db_list_layer_ids db).

Definition count_warnings (findings : list IntegrityFinding) : nat :=
  length (List.filter (fun f => match severity f with WARNING => true | _ => false end) findings).
Definition has_failures (findings : list IntegrityFinding) : bool :=
  existsb (fun f => match severity f with ERROR => true | _ => false end) findings.

(** [_validate]: the number of warnings. *)
Definition validate_source (layer : SourceLayer) (signature_key : option string) : res nat :=
  let doc := sl_document layer in
  _ ← raise_if (negb (schema_accepts doc)) ValueError;
  let metadata := if get_truthy "metadata" doc then get "metadata" doc else JObj ∅ in
  let metadata_claims := match metadata with JObj m => get "claim_hashes" m | _ => JNull end in
  let baseline_claims := get "baseline_claims" doc in
  let warnings := if negb (is_null baseline_claims) && py_neqb baseline_claims metadata_claims then 1 else 0 in
  match metadata with
  | JObj m =>
      if get_truthy "merkle_root" m then
        f1 ← verify_merkle_integrity doc;
        f2 ← verify_merkle_signature doc signature_key None;
        let findings := f1 ++ f2 in
        _ ← raise_if (has_failures findings) ValueError;
        Ok (warnings + count_warnings findings)
      else Ok warnings
  | _ => Ok warnings
  end.

(** [len(document.get(key) or [])]. *)
Definition count_of_key (key : string) (doc : dict) : res Z :=
  if get_truthy key doc then py_len (get key doc) else Ok 0%Z.

Definition migration_result (layer : SourceLayer) (status : migration_status) (warnings : nat)
  : res MigrationResult :=
  events ← count_of_key "events" (sl_document layer);
  items ← count_of_key "needs_review" (sl_document layer);
  Ok {| mr_layer_id := sl_layer_id layer; mr_status := status; mr_source := sl_source layer;
        mr_events := events; mr_review_items := items; mr_validation_warnings := warnings |}.

(** [except (LayerConflictError, ValueError, TypeError)]. *)
Definition caught (e : exn) : option migration_status :=
  match e with
  | Storage LayerConflictError => Some Conflict
  | TypeError => Some Quarantined
  | _ => if is_value_error e then Some Quarantined else None
  end.

(** One layer: the database it leaves, and its result or the exception that is
    not caught. *)
Definition migrate_layer (dry_run : bool) (signature_key : option string) (layer : SourceLayer) (db : database)
  : database * res MigrationResult :=
  match sl_error layer with
  | Some _ =>
      (db, Ok {| mr_layer_id := sl_layer_id layer; mr_status := Quarantined; mr_source := sl_source layer;
                 mr_events := 0; mr_review_items := 0; mr_validation_warnings := 0 |})
  | None =>
      match (warnings ← validate_source layer signature_key;
             '(status, db') ← import_layer (sl_layer_id layer) (sl_document layer) (sl_product_repo_id layer)
                                dry_run db;
             Ok (warnings, status, db')) with
      | Ok (warnings, status, db') => (db', migration_result layer (Imported status) warnings)
      | Err e => (db, match caught e with
                      | Some status => migration_result layer status 0
                      | None => Err e
                      end)
      end
  end.

Definition skips_layer (selected : option (list string)) (layer : SourceLayer) : bool :=
  match selected with Some ids => negb (bool_decide (sl_layer_id layer ∈ ids)) | None => false end.

(** The loop; an exception ends it after what is committed. *)
Fixpoint migrate (dry_run : bool) (selected : option (list string)) (signature_key : option string)
    (layers : list SourceLayer) (db : database) : list MigrationResult * database * option exn :=
  match layers with
  | [] => ([], db, None)
  | layer :: rest =>
      if skips_layer selected layer then migrate dry_run selected signature_key rest db
      else match migrate_layer dry_run signature_key layer db with
           | (db', Err e) => ([], db', Some e)
           | (db', Ok r) =>
               let '(rs, db'', err) := migrate dry_run selected signature_key rest db' in (r :: rs, db'', err)
           end
  end.
End Migrate.

(** ** What a manifest can select *)

(** Every selected record passed the checks. *)
Definition selection_safe (s : selection) : Prop :=
  safe_relative (se_relative s) = true /\ se_layer_id s <> "" /\ is_digest (se_digest s) = true
  /\ forall o, se_owner s = Some o -> strip o <> "".

Lemma read_selection_safe record s : read_selection record = Ok s -> selection_safe s.
Proof.
  unfold read_selection. destruct (get "source_file" record) as [| | |rel| |]; try done.
  destruct (get "layer_id" record) as [| | |id| |]; try done.
  destruct (get "source_digest" record) as [| | |dg| |]; try done. intros Hs.
  inv_bind Hs as [[]|] Hr. injection Hs as <-. apply raise_if_ok in Hr.
  repeat (apply orb_false_iff in Hr as [Hr ?]). unfold selection_safe. cbn.
  repeat match goal with Hn : negb _ = false |- _ => apply negb_false_iff in Hn end.
  split; [done|]. split; [by apply str_truthy_spec|]. split; [done|]. intros o Ho.
  destruct (get "product_repo_id" record); try done. injection Ho as ->. by apply str_truthy_spec.
Qed.

Definition distinct (l : list selection) : Prop := NoDup (map se_layer_id l) /\ NoDup (map se_relative l).

Lemma select_line_sound l line l' : select_line l line = Ok l' ->
  Forall selection_safe l /\ distinct l -> Forall selection_safe l' /\ distinct l'.
Proof.
  unfold select_line. intros Hs [Hsafe [Hid Hrel]]. inv_bind Hs as [v|] Hv. destruct v as [| | | | |record]; try done.
  inv_bind Hs. destruct (negb (is_selected record)); [by injection Hs as <-|].
  inv_bind Hs as [s|] Hr. inv_bind Hs as [[]|] Hdup. injection Hs as <-. apply raise_if_ok in Hdup.
  assert (forall t, t ∈ l -> se_layer_id t <> se_layer_id s /\ se_relative t <> se_relative s) as Hne.
  { intros t Ht. apply not_true_iff_false in Hdup. split; intros He; apply Hdup, existsb_exists; exists t;
      (split; [by apply list_elem_of_In|]); rewrite He String.eqb_refl //; by rewrite orb_true_r. }
  split; [apply Forall_app; split; [done|]; apply Forall_singleton; exact (read_selection_safe _ _ Hr)|].
  split; rewrite map_app; apply NoDup_app; (split; [done|]); (split; [|apply NoDup_singleton]);
    intros x (t & -> & Ht)%list_elem_of_fmap Hx%list_elem_of_singleton; by destruct (Hne t Ht).
Qed.

(** A manifest never selects a file outside the source directory, and never
    the same layer or path twice.  Whatever the manifest's text, the selection is
    not empty; each path in it is relative, has no [..] component and no
    backslash and ends in [.json], each digest is 64 hexadecimal digits, and no
    identifier or path occurs twice. *)
Theorem manifest_selection_safe lines l : select_manifest lines = Ok l ->
  l <> [] /\ distinct l /\ Forall selection_safe l
  /\ forall s, s ∈ l -> is_absolute (se_relative s) = false /\ ".." ∉ path_parts (se_relative s)
                        /\ "\"%char ∉ chars (se_relative s).
Proof.
  unfold select_manifest. intros Hl. inv_bind Hl as [l'|] Hf. inv_bind Hl as [[]|] Hne. injection Hl as <-.
  apply raise_if_ok in Hne. split; [by destruct l'|].
  assert (Forall selection_safe l' /\ distinct l') as [Hsafe Hd].
  { refine (foldM_ind select_line (fun l => Forall selection_safe l /\ distinct l) _ _ _ _ _ Hf).
    - intros b x b' _ Hb Hs. exact (select_line_sound _ _ _ Hs Hb).
    - split; [constructor|split; constructor]. }
  split; [done|]. split; [done|]. intros s Hs. rewrite ->Forall_forall in Hsafe.
  destruct (Hsafe s Hs) as [Hr _]. unfold safe_relative in Hr.
  apply andb_true_iff in Hr as [[[[_ Habs]%andb_true_iff Hdot]%andb_true_iff Hsl]%andb_true_iff _].
  apply negb_true_iff in Habs, Hdot, Hsl. apply bool_decide_eq_false in Hdot. split; [done|]. split; [done|].
  intros Hin. apply not_true_iff_false in Hsl. apply Hsl, existsb_exists. exists "\"%char.
  split; [by apply list_elem_of_In|apply Ascii.eqb_refl].
Qed.

(** ** What a migration does to the target *)

Section Migrated.
Context `{HC : Contracts} `{HL : !ContractLaws} `{HS : StorageRegistry} `{HH : HashFn} `{HT : SigningTools}.

(** A layer is in the database with its document and owner. *)
Definition has_source (layer : SourceLayer) (db : database) : Prop :=
  exists d, db_stored (sl_layer_id layer) db = Some d /\ py_eqb (JObj d) (JObj (sl_document layer)) = true
    /\ product_repo (sl_layer_id layer) db = sl_product_repo_id layer.
Definition settled (s : migration_status) : bool :=
  match s with Imported Inserted | Imported Skipped => true | _ => false end.

(** Nothing that was stored changes; what is new came from a layer. *)
Record extends (layers : list SourceLayer) (db db' : database) : Prop := {
  ex_good : db_good db';
  ex_kept : forall i d, db_stored i db = Some d -> db_stored i db' = Some d /\ product_repo i db' = product_repo i db;
  ex_new : forall i, db_stored i db' = db_stored i db \/ exists layer, layer ∈ layers /\ sl_layer_id layer = i
}.
Lemma extends_refl layers db : db_good db -> extends layers db db.
Proof. intros Hg. split; [done|done|]. intros i. by left. Qed.
Lemma extends_trans l1 l2 db1 db2 db3 : extends l1 db1 db2 -> extends l2 db2 db3 -> extends (l1 ++ l2) db1 db3.
Proof.
  intros [_ K1 N1] [G K2 N2]. split; [done| |].
  - intros i d Hd. destruct (K1 i d Hd) as [H1 O1], (K2 i d H1) as [H2 O2]. by rewrite O2 O1.
  - intros i. destruct (N2 i) as [H2|(l & Hl & Hi)]; [|right; exists l; split; [apply elem_of_app; by right|done]].
    destruct (N1 i) as [H1|(l & Hl & Hi)]; [left; congruence|right; exists l; split; [apply elem_of_app; by left|done]].
Qed.

Lemma migration_result_inv layer st w r : migration_result layer st w = Ok r ->
  mr_layer_id r = sl_layer_id layer /\ mr_status r = st.
Proof. unfold migration_result. intros Hr. inv_bind Hr. inv_bind Hr. by injection Hr as <-. Qed.

Lemma caught_not_settled e st : caught e = Some st -> settled st = false.
Proof.
  unfold caught. destruct e; repeat case_match; by intros [= <-].
Qed.

Lemma migrate_layer_effect dry key layer db db' r : db_good db -> migrate_layer dry key layer db = (db', r) ->
  extends [layer] db db' /\ (dry = true -> db' = db)
  /\ forall m, r = Ok m -> mr_layer_id m = sl_layer_id layer
     /\ (settled (mr_status m) = true -> has_source layer db' /\ sl_error layer = None
         /\ exists w, validate_source layer key = Ok w).
Proof using HL.
  intros Hg. unfold migrate_layer. destruct (sl_error layer) eqn:Herr.
  { intros [= <- <-]. split; [by apply extends_refl|]. split; [done|]. by intros m [= <-]. }
  destruct (validate_source layer key) as [w|e] eqn:Hv; cbn [mbind result_bind].
  2:{ intros [= <- <-]. split; [by apply extends_refl|]. split; [done|]. intros m Hm.
      destruct (caught e) as [st|] eqn:Hc; [|done]. apply migration_result_inv in Hm as [-> ->].
      by rewrite (caught_not_settled _ _ Hc). }
  destruct (import_layer _ _ _ _ _) as [[st db1]|e] eqn:Hi; cbn [mbind result_bind].
  2:{ intros [= <- <-]. split; [by apply extends_refl|]. split; [done|]. intros m Hm.
      destruct (caught e) as [st|] eqn:Hc; [|done]. apply migration_result_inv in Hm as [-> ->].
      by rewrite (caught_not_settled _ _ Hc). }
  intros [= <- <-]. apply import_inv in Hi; [|done].
  assert (extends [layer] db db1 /\ (dry = true -> db1 = db) /\ (settled (Imported st) = true -> has_source layer db1))
    as (Hex & Hdry & Hset).
  { destruct st.
    - destruct Hi as [-> (d0 & Hd0 & Heq & Ho)]. split; [by apply extends_refl|]. split; [done|]. intros _. by exists d0.
    - destruct Hi as (-> & _ & _). split; [by apply extends_refl|]. by split.
    - destruct Hi as (-> & Hnone & Hh & Ho & Hg1 & Hother). split; [|split; [done|]].
      + split; [done| |].
        * intros i d Hd. destruct (decide (i = sl_layer_id layer)) as [->|Hne]; [congruence|].
          by destruct (Hother i Hne) as [-> ->].
        * intros i. destruct (decide (i = sl_layer_id layer)) as [->|Hne]; [|left; by destruct (Hother i Hne)].
          right. exists layer. split; [by left|done].
      + intros _. exists (sl_document layer). split; [by apply db_stored_holds|]. by rewrite py_eqb_refl. }
  split; [done|]. split; [done|]. intros m [-> ->]%migration_result_inv. split; [done|]. intros Hs.
  split; [by apply Hset|]. split; [done|]. by exists w.
Qed.

(** A migration adds verified layers and changes nothing else.  Whatever the
    sources and whether or not an exception ends the run: every layer the target
    held stays as it was, document and owner; what is new was among the sources;
    a dry run changes nothing; and for every result that says inserted or skipped
    the target holds that source's document for its owner, and the source passed
    schema, integrity and signature validation. *)
Theorem migration_is_safe dry selected key layers : forall db results db' err,
  db_good db -> migrate dry selected key layers db = (results, db', err) ->
  extends layers db db' /\ (dry = true -> db' = db)
  /\ forall m, m ∈ results -> settled (mr_status m) = true ->
       exists layer w, layer ∈ layers /\ sl_layer_id layer = mr_layer_id m /\ sl_error layer = None
         /\ validate_source layer key = Ok w /\ has_source layer db'.
Proof using HL.
  induction layers as [|layer layers IH]; intros db results db' err Hg; cbn [migrate].
  { intros [= <- <- <-]. split; [by apply extends_refl|]. split; [done|]. by intros m ?%not_elem_of_nil. }
  assert (forall db db', extends layers db db' -> extends (layer :: layers) db db') as Hmono.
  { intros d1 d2 [G K N]. split; [done..|]. intros i. destruct (N i) as [?|(l & ? & ?)]; [by left|].
    right. exists l. split; [by right|done]. }
  destruct (skips_layer selected layer).
  { intros (Hex & Hdry & Hset)%IH; [|done]. split; [by apply Hmono|]. split; [done|].
    intros m Hm Hs. destruct (Hset m Hm Hs) as (l & w & Hl & ?). exists l, w. split; [by right|done]. }
  destruct (migrate_layer dry key layer db) as [db1 r] eqn:Hml.
  destruct (migrate_layer_effect _ _ _ _ _ _ Hg Hml) as (Hex1 & Hdry1 & Hres).
  destruct r as [m0|e].
  2:{ intros [= <- <- <-]. split; [|split; [done|by intros m ?%not_elem_of_nil]].
      pose proof (extends_trans [layer] layers _ _ _ Hex1 (extends_refl layers _ (ex_good _ _ _ Hex1))) as Hx. exact Hx. }
  destruct (migrate dry selected key layers db1) as [[rs db2] err2] eqn:Hmig. intros [= <- <- <-].
  apply IH in Hmig as (Hex2 & Hdry2 & Hset2); [|apply Hex1].
  split; [exact (extends_trans [layer] layers _ _ _ Hex1 Hex2)|].
  split; [intros Hd; rewrite (Hdry2 Hd); by apply Hdry1|].
  intros m [->|Hm]%elem_of_cons Hs.
  - destruct (Hres m0 eq_refl) as [Hid Hm0]. destruct (Hm0 Hs) as ((d & Hd & Heq & Ho) & He & w & Hw).
    exists layer, w. split; [by left|]. split; [done|]. split; [done|]. split; [done|].
    destruct (ex_kept _ _ _ Hex2 _ _ Hd) as [Hd2 Ho2]. exists d. by rewrite Ho2.
  - destruct (Hset2 m Hm Hs) as (l & w & Hl & ?). exists l, w. split; [by right|done].
Qed.
End Migrated.

(** ** Witnesses *)

Definition sample_digest : string := hexdigest (utf8 "{}").
Definition manifest_line (layer_id relative : string) : string :=
  dumps true (JObj {["namespace" := JStr "traust_ledger"; "decision" := JStr "selected"; "format_version" := JInt 1;
    "artifact" := JStr "layer"; "layer_id" := JStr layer_id; "source_file" := JStr relative;
    "source_digest" := JStr sample_digest]}).
Definition sample_selection : list selection :=
  match select_manifest [manifest_line "L1" "a/L1.json"; "{}"; manifest_line "L2" "b/L2.json"] with
  | Ok l => l | Err _ => [] end.
Lemma manifest_selection_safe_witness :
  map se_relative sample_selection = ["a/L1.json"; "b/L2.json"] /\ distinct sample_selection.
Proof.
  split; [vm_compute; reflexivity|].
  apply (manifest_selection_safe [manifest_line "L1" "a/L1.json"; "{}"; manifest_line "L2" "b/L2.json"]).
  vm_compute. reflexivity.
Defined.
Example manifest_rejections :
  map (fun rel => select_manifest [manifest_line "L1" rel]) ["../x.json"; "a/../x.json"; "/etc/x.json"; "x.txt"; "a\x.json"; ""]
  = repeat (Err ValueError) 6.
Proof. vm_compute. reflexivity. Qed.
(** Two spellings of one path are two paths to the duplicate test. *)
Example manifest_path_spellings :
  is_ok (select_manifest [manifest_line "L1" "a/x.json"; manifest_line "L2" "a//x.json"]) = true
  /\ path_parts "a/x.json" = path_parts "a//x.json"
  /\ select_manifest [manifest_line "L1" "a/x.json"; manifest_line "L2" "a/x.json"] = Err ValueError.
Proof. vm_compute. done. Qed.

#[local] Existing Instance sample_registry.
Definition sample_source (id : string) (d : dict) : SourceLayer :=
  {| sl_layer_id := id; sl_document := d; sl_source := id; sl_error := None; sl_product_repo_id := Some "repo-1" |}.
#[local] Instance migration_world : SigningTools := sample_tools ∅ (dumps true sample_bundle).
Definition migrated : list MigrationResult * database * option exn :=
  migrate false None None [sample_source "L1" sample_stored_layer; sample_source "L2" ∅;
    sample_source "L1" (<["x" := JNull]> sample_stored_layer)] empty_database.
Lemma migration_is_safe_witness :
  map mr_status migrated.1.1 = [Imported Inserted; Quarantined; Conflict] /\ migrated.2 = None
  /\ exists layer w, layer ∈ [sample_source "L1" sample_stored_layer; sample_source "L2" ∅;
       sample_source "L1" (<["x" := JNull]> sample_stored_layer)]
     /\ sl_layer_id layer = "L1" /\ sl_error layer = None /\ validate_source layer None = Ok w
     /\ has_source layer migrated.1.2.
Proof.
  split; [vm_compute; reflexivity|]. split; [vm_compute; reflexivity|].
  pose (first := match migrated.1.1 with m :: _ => m | [] =>
    {| mr_layer_id := "L1"; mr_status := Quarantined; mr_source := ""; mr_events := 0; mr_review_items := 0;
       mr_validation_warnings := 0 |} end).
  assert (mr_layer_id first = "L1") as <- by (vm_compute; reflexivity).
  apply (migration_is_safe false None None _ empty_database migrated.1.1 migrated.1.2 migrated.2);
    [exact empty_database_good|vm_compute; reflexivity| |vm_compute; reflexivity].
  assert (migrated.1.1 = first :: tail migrated.1.1) as -> by (vm_compute; reflexivity). by left.
Defined.
