(* ===== verification/Writer.v ===== *)
(** * The ledger writer

    [_internal/writer.py]: the one write path of the ledger.  [LedgerWriter]'s
    methods are a change of one layer, given to the backend's [mutate]; they are
    written against the backend interface and proved against its laws, so they
    hold of both backends.

    An event handed to the writer is changed in place (its id, its fingerprint
    algorithm): [prepare_event] returns the event it leaves. *)

From S2P Require Import Prelude PyStr Json Sha256 Errors Merkle Restatements Signing Ledger Identity.
From S2P Require Import Contracts Time Disposition Events Backend FileBackend Finalize.
From stdpp Require Import options.

(** ** The review queue *)

(** [review_item_key]: a tuple of four values. *)
Definition REVIEW_KEY_FIELDS : list string :=
  ["source_ref"; "suggested_finding_ref"; "queue_reason"; "quote"].
Definition review_item_key (item : dict) : list json := map (fun k => get k item) REVIEW_KEY_FIELDS.
Fixpoint keys_eqb (a b : list json) : bool :=
  match a, b with
  | [], [] => true
  | x :: a', y :: b' => py_eqb x y && keys_eqb a' b'
  | _, _ => false
  end.

Definition RESOLVED_STATUSES : list string := ["confirmed"; "rejected"].

(** The first element that passes a test, with what is around it. *)
Fixpoint split_first {A} (p : A -> bool) (queue : list A) : option (list A * A * list A) :=
  if queue is x :: rest then
    if p x then Some ([], x, rest)
    else if split_first p rest is Some (pre, y, post) then Some (x :: pre, y, post) else None
  else None.

Definition is_pending (item_key : list json) (item : json) : bool :=
  match item with
  | JObj d => py_eqb (get "status" d) (JStr "pending") && keys_eqb (review_item_key d) item_key
  | _ => false
  end.

(** [{e.get(key) for e in events if isinstance(e, dict)}]: a list or an object
    cannot be in a set. *)
Definition hashable (v : json) : res json :=
  match v with JArr _ | JObj _ => Err TypeError | _ => Ok v end.
Definition dicts_of (events : list json) : list dict := omap as_dict events.
Definition finding_refs (events : list json) : res (list json) :=
  mapR (fun d => hashable (get "finding_ref" d)) (dicts_of events).

Definition close_item (status : string) (resolution_note : option string) (actor : dict) (item : dict) : dict :=
  let item := <["status" := JStr status]> item in
  let item := match resolution_note with
              | Some n => if str_truthy n then <["resolution_note" := JStr n]> item else item
              | None => item
              end in
  if bool_decide (actor = ∅) then item else <["resolved_by" := JObj actor]> item.

(** [resolve_review_item]; [actor] is empty when none is given. *)
Definition resolve_review_item (item_key : list json) (status : string) (resolution_note : option string)
    (actor : dict) (layer : dict) : res (bool * dict) :=
  _ ← raise_if (negb (bool_decide (status ∈ RESOLVED_STATUSES))) ValueError;
  _ ← raise_if (String.eqb status "rejected" && negb (str_truthy (strip (default "" resolution_note)))) ValueError;
  queue ← get_list "needs_review" layer;
  match split_first (is_pending item_key) queue with
  | Some (pre, JObj target, post) =>
      _ ← (if String.eqb status "confirmed" then
             events ← events_of layer;
             refs ← finding_refs events;
             let ref := get "suggested_finding_ref" target in
             if negb (truthy ref) then Err ValueError
             else (r ← hashable ref; raise_if (negb (py_in r refs)) ValueError)
           else Ok tt);
      Ok (true, <["needs_review"
                  := JArr (pre ++ JObj (close_item status resolution_note actor target) :: post)]> layer)
  | _ => Ok (false, layer)
  end.

(** ** Preparing an event *)

Section Writer.
Context `{HashFn} `{SigningTools} `{Contracts}.

(** [(event.get(outer) or {}).get(inner, "")]. *)
Definition get_in_default (outer inner : string) (dflt : json) (d : dict) : res json :=
  o ← get_obj outer d; Ok (default dflt (o !! inner)).

Definition stamp_fingerprint_algo (event : dict) : dict :=
  if get_truthy "fingerprint" event && negb (get_truthy "fingerprint_algo" event)
  then <["fingerprint_algo" := JStr ALGO_VERSION]> event else event.

(** [_enforce_identity_rule]. *)
Definition enforce_identity_rule (event : dict) : res unit :=
  disp ← get_obj "disposition" event;
  src ← get_obj "source" event;
  actor ← get_obj "actor" src;
  raise_if (py_eqb (get "validity" disp) (JStr "false_positive") && py_eqb (get "kind" actor) (JStr "human")
            && negb (get_truthy "identity" actor && is_actor_verified actor)) InternalIdentityUnverifiedError.

(** The canonical id of an event document. *)
Definition canonical_id (event : dict) : res string :=
  source_ref ← get_in_default "source" "ref" (JStr "") event;
  let finding_ref := default (JStr "") (event !! "finding_ref") in
  disp ← get_obj "disposition" event;
  compute_event_id_json source_ref finding_ref (get "validity" disp) (get "resolution" disp).

(** [_prepare_event]. *)
Definition prepare_event (event : dict) : res (string * dict) :=
  r ← is_restatement (JObj event);
  _ ← raise_if (r && get_truthy "disposition" event) ValueError;
  id ← canonical_id event;
  let supplied := get "event_id" event in
  _ ← raise_if (truthy supplied && py_neqb supplied (JStr id))
        (InternalEventIdMismatchError (default "" (as_str supplied)) id);
  let event := stamp_fingerprint_algo (<["event_id" := JStr id]> event) in
  _ ← enforce_identity_rule event;
  Ok (id, event).

(** [{e.get("event_id") for e in existing_events}]. *)
Definition event_ids (events : list json) : res (list json) :=
  mapR (fun e => match e with JObj d => hashable (get "event_id" d) | _ => Err AttributeError end) events.

(** What [_get_schema] gives: nothing is configured, a schema - a test, the
    schema package's - or a file that cannot be read. *)
Context (get_schema : res (option (dict -> bool))).
Definition validate_schema (layer : dict) : res unit :=
  s ← get_schema;
  match s with None => Ok tt | Some ok => raise_if (negb (ok layer)) ValueError end.

(** [_append_one]. *)
Definition append_one (event : dict) (layer : dict) : res (string * dict) :=
  '(id, event) ← prepare_event event;
  existing ← events_of layer;
  ids ← event_ids existing;
  if py_in (JStr id) ids then Ok (id, layer)
  else
    let layer := <["events" := JArr (existing ++ [JObj event])]> layer in
    _ ← validate_schema layer;
    Ok (id, layer).

(** One turn of [_append_many]: the ids added, the events and their ids. *)
Definition append_turn (acc : list string * list json * list json) (event : dict)
  : res (list string * list json * list json) :=
  let '(added, events, ids) := acc in
  '(id, event) ← prepare_event event;
  if py_in (JStr id) ids then Ok acc
  else Ok (added ++ [id], events ++ [JObj event], ids ++ [JStr id]).
Definition append_many (new : list dict) (layer : dict) : res (list string * dict) :=
  existing ← events_of layer;
  ids ← event_ids existing;
  '(added, events, _) ← foldM append_turn new ([], existing, ids);
  let layer := <["events" := JArr events]> layer in
  _ ← validate_schema layer;
  Ok (added, layer).

(** ** Restatements *)

(** [require_restatements_cover_metadata]. *)
Definition covers_field (snapshot meta block : dict) (covered : json) (field : string) : res unit :=
  if negb (is_destructive_change (get field snapshot) (get field meta)) then Ok tt
  else
    _ ← raise_if (py_neqb (JStr field) covered) (Service (UnexplainedMetadataChangeError field));
    raise_if (py_neqb (get field meta) (merge_delta (get field snapshot) (get "after" block)))
      (Service (UnexplainedMetadataChangeError field)).
Definition require_restatements_cover_metadata (snapshot event layer : dict) : res unit :=
  meta ← get_obj "metadata" layer;
  block ← get_obj "restatement" event;
  r ← is_restatement (JObj event);
  let covered := if r then get "target" block else JNull in
  foldM (fun _ field => covers_field snapshot meta block covered field) SIGNED_METADATA_FIELDS tt.

(** The updates of [metadata_updates], a null removing its key. *)
Definition apply_updates (updates meta : dict) : dict := merge merge_entry updates meta.

(** [layer.setdefault("metadata", {})], read with [.get]. *)
Definition metadata_or_new (layer : dict) : res dict :=
  match layer !! "metadata" with
  | None => Ok ∅
  | Some (JObj m) => Ok m
  | Some _ => Err AttributeError
  end.

(** The hooks of the write methods: [before_append], called on the layer as it
    is in storage, and the finalizer.  The caller's hook shares the event object
    with the writer and may change it: it returns the event it leaves. *)
Definition run_before (before : option (dict -> dict -> res dict)) (event layer : dict) : res dict :=
  match before with Some f => f layer event | None => Ok event end.
Definition run_check (before : option (dict -> res unit)) (layer : dict) : res unit :=
  match before with Some f => f layer | None => Ok tt end.
Definition run_finalize (finalize : option (dict -> res (string * dict))) (layer : dict) : res (string * dict) :=
  match finalize with Some f => f layer | None => Ok ("", layer) end.

Definition restatement_step (event : dict) (metadata_updates : dict -> res dict)
    (finalize : option (dict -> res (string * dict))) (before : option (dict -> dict -> res dict)) (layer : dict)
  : res ((string * string) * dict) :=
  event ← run_before before event layer;
  snapshot ← metadata_or_new layer;
  let layer := with_metadata layer snapshot in
  (** [append_one] leaves the prepared event behind, which the cover check reads *)
  '(_, prepared) ← prepare_event event;
  '(id, layer) ← append_one event layer;
  updates ← metadata_updates layer;
  let layer := with_metadata layer (apply_updates updates snapshot) in
  _ ← require_restatements_cover_metadata snapshot prepared layer;
  '(root, layer) ← run_finalize finalize layer;
  Ok ((id, root), layer).

Definition append_step (event : dict) (finalize : option (dict -> res (string * dict)))
    (before : option (dict -> dict -> res dict)) (layer : dict) : res ((string * string) * dict) :=
  event ← run_before before event layer;
  '(id, layer) ← append_one event layer;
  '(root, layer) ← run_finalize finalize layer;
  Ok ((id, root), layer).

Definition batch_step (new : list dict) (finalize : option (dict -> res (string * dict)))
    (before : option (dict -> res unit)) (layer : dict) : res ((list string * string) * dict) :=
  _ ← run_check before layer;
  '(ids, layer) ← append_many new layer;
  '(root, layer) ← run_finalize finalize layer;
  Ok ((ids, root), layer).

(** ** The queue *)

Definition hashable_key (key : list json) : res (list json) := mapR hashable key.
Definition key_in (key : list json) (keys : list (list json)) : bool := existsb (keys_eqb key) keys.

Definition queue_turn (acc : Z * list json * list (list json)) (item : json)
  : res (Z * list json * list (list json)) :=
  let '(added, queue, keys) := acc in
  match item with
  | JObj d =>
      let d := match d !! "status" with Some _ => d | None => <["status" := JStr "pending"]> d end in
      key ← hashable_key (review_item_key d);
      if key_in key keys then Ok acc
      else Ok (added + 1, queue ++ [JObj d], keys ++ [key])%Z
  | _ => Ok acc
  end.
Definition queue_step (items : list json) (layer : dict) : res (Z * dict) :=
  queue ← get_list "needs_review" layer;
  keys ← mapR (fun d => hashable_key (review_item_key d)) (dicts_of queue);
  '(added, queue, _) ← foldM queue_turn items (0%Z, queue, keys);
  if (added =? 0)%Z then Ok (0%Z, layer)
  else
    let layer := <["needs_review" := JArr queue]> layer in
    _ ← validate_schema layer;
    Ok (added, layer).

Definition resolve_step (item_key : list json) (status : string) (note : option string) (actor layer : dict)
  : res (bool * dict) :=
  '(changed, layer) ← resolve_review_item item_key status note actor layer;
  _ ← (if changed then validate_schema layer else Ok tt);
  Ok (changed, layer).

(** ** The methods *)

Context {S : Type} `{Backend S}.

Definition append_restatement (k : LayerKey) event updates finalize before : S -> res ((string * string) * S) :=
  b_mutate k (restatement_step event updates finalize before).
Definition append_event_finalized (k : LayerKey) event finalize before : S -> res ((string * string) * S) :=
  b_mutate k (append_step event finalize before).
Definition append_event (k : LayerKey) event (s : S) : res (string * S) :=
  '((id, _), s) ← append_event_finalized k event None None s; Ok (id, s).
Definition append_events_finalized (k : LayerKey) new finalize before : S -> res ((list string * string) * S) :=
  b_mutate k (batch_step new finalize before).
Definition append_events (k : LayerKey) new (s : S) : res (list string * S) :=
  '((ids, _), s) ← append_events_finalized k new None None s; Ok (ids, s).
Definition append_needs_review (k : LayerKey) items : S -> res (Z * S) := b_mutate k (queue_step items).
Definition resolve_needs_review (k : LayerKey) item_key status note actor : S -> res (bool * S) :=
  b_mutate k (resolve_step item_key status note actor).
End Writer.

(** ** What the writer keeps *)

(** The events of a layer; a layer without a list of events has none. *)
Definition log (d : dict) : list json := match events_of d with Ok l => l | Err _ => [] end.
Definition id_of (e : json) : json := match e with JObj d => get "event_id" d | _ => JNull end.

Lemma log_events d es : events_of d = Ok es -> log d = es.
Proof. unfold log. by intros ->. Qed.
Lemma log_insert d k v : k <> "events" -> log (<[k := v]> d) = log d.
Proof. intros Hk. unfold log, events_of, get_list. by rewrite get_insert_ne. Qed.
Lemma log_insert_events d l : log (<["events" := JArr l]> d) = l.
Proof. unfold log, events_of, get_list. by rewrite get_insert_eq. Qed.
Lemma log_with_metadata d m : log (with_metadata d m) = log d.
Proof. by apply log_insert. Qed.

Section WriterLemmas.
Context `{HashFn} `{SigningTools} `{Contracts}.

(** The rules every appended event keeps: its id is the canonical one, a human
    false positive has a verified identity, and a restatement says nothing about
    a finding. *)
Record admissible (e : dict) : Prop := {
  adm_id : exists id, get "event_id" e = JStr id /\ canonical_id e = Ok id;
  adm_identity : enforce_identity_rule e = Ok tt;
  adm_neutral : is_restatement (JObj e) = Ok true -> get_truthy "disposition" e = false
}.

(** Reads that the preparation of an event does not touch. *)
Lemma get_prepared k e id : k <> "event_id" -> k <> "fingerprint_algo" ->
  get k (stamp_fingerprint_algo (<["event_id" := JStr id]> e)) = get k e.
Proof.
  intros H1' H2'. unfold stamp_fingerprint_algo. destruct (_ && _);
    by repeat (rewrite get_insert_ne; [congruence|]).
Qed.
Lemma lookup_prepared k e id : k <> "event_id" -> k <> "fingerprint_algo" ->
  stamp_fingerprint_algo (<["event_id" := JStr id]> e) !! k = e !! k.
Proof.
  intros H1' H2'. unfold stamp_fingerprint_algo. destruct (_ && _);
    by repeat (rewrite lookup_insert_ne; [congruence|]).
Qed.
Lemma get_prepared_id e id : get "event_id" (stamp_fingerprint_algo (<["event_id" := JStr id]> e)) = JStr id.
Proof.
  unfold stamp_fingerprint_algo. destruct (_ && _); [rewrite get_insert_ne; [done|]|]; apply get_insert_eq.
Qed.

Lemma prepare_event_inv e id e' : prepare_event e = Ok (id, e') ->
  get "event_id" e' = JStr id /\ canonical_id e = Ok id /\ admissible e'
  /\ (forall k, k <> "event_id" -> k <> "fingerprint_algo" -> get k e' = get k e).
Proof.
  unfold prepare_event. intros Hp. inv_bind Hp as [r|] Hr. inv_bind Hp as [u|] Hn. apply raise_if_ok in Hn.
  inv_bind Hp as [cid|] Hc. inv_bind Hp. inv_bind Hp as [[]|] Hi. injection Hp as <- <-.
  set (e' := stamp_fingerprint_algo _) in *.
  assert (forall k, k <> "event_id" -> k <> "fingerprint_algo" -> get k e' = get k e) as Hget
    by (intros; by apply get_prepared).
  assert (get "event_id" e' = JStr cid) as Hid by apply get_prepared_id.
  split; [done|]. split; [done|]. split; [|done]. split; [|done|].
  - exists cid. split; [done|]. rewrite -Hc. unfold canonical_id, get_in_default, get_obj.
    rewrite !Hget //. unfold e'. by rewrite lookup_prepared.
  - unfold is_restatement, get_in, get_truthy. rewrite !Hget //. intros Hr'.
    unfold is_restatement, get_in in Hr. rewrite Hr in Hr'. injection Hr' as ->. exact Hn.
Qed.

(** The log grows by admissible events with ids of their own. *)
Definition grows (d d' : dict) : Prop := exists new,
  log d' = log d ++ map JObj new /\ Forall admissible new /\ NoDup (map (get "event_id") new)
  /\ forall e, e ∈ new -> get "event_id" e ∉ map id_of (log d).

Lemma grows_same d d' : log d' = log d -> grows d d'.
Proof.
  intros Hl. exists []. rewrite Hl app_nil_r. split; [done|]. split; [done|]. split; [apply NoDup_nil_2|].
  by intros e ?%not_elem_of_nil.
Qed.
Lemma grows_trans d1 d2 d3 : grows d1 d2 -> grows d2 d3 -> grows d1 d3.
Proof.
  intros (n1 & L1 & A1 & N1 & F1) (n2 & L2 & A2 & N2 & F2). exists (n1 ++ n2).
  assert (forall e, e ∈ n2 -> get "event_id" e ∉ map id_of (log d1) /\ get "event_id" e ∉ map (get "event_id") n1) as Hf.
  { intros e He. specialize (F2 e He). rewrite L1 map_app map_map in F2.
    split; intros Hin; apply F2, elem_of_app; [by left|by right]. }
  rewrite L2 L1 !map_app app_assoc. split; [done|]. split; [by apply Forall_app|]. split.
  - apply NoDup_app. split; [done|]. split; [|done]. intros x Hx (e & -> & He)%list_elem_of_fmap.
    by destruct (Hf e He).
  - intros e [He|He]%elem_of_app; [by apply F1|by apply Hf].
Qed.

Lemma event_ids_in es ids id : event_ids es = Ok ids ->
  py_in (JStr id) ids = false -> JStr id ∉ map id_of es.
Proof.
  intros Hids Hn Hin. apply not_true_iff_false in Hn. apply Hn. clear Hn.
  apply mapR_ok_Forall2 in Hids. apply list_elem_of_fmap in Hin as (e & He & Hin).
  apply list_elem_of_lookup in Hin as [i Hi]. destruct (Forall2_lookup_l _ _ _ _ _ Hids Hi) as (v & Hv & Heq).
  apply existsb_exists. exists v. split; [exact (proj1 (list_elem_of_In _ _) (list_elem_of_lookup_2 _ _ _ Hv))|].
  destruct e as [| | | | |d]; try done. cbn [id_of] in He. rewrite -He in Heq. injection Heq as <-.
  apply py_eqb_refl.
Qed.

Context (get_schema : res (option (dict -> bool))).

(** Where the log of a layer stands after one append: the event is there
    already, or it is the last one. *)
Lemma append_one_inv event layer id layer' : append_one get_schema event layer = Ok (id, layer') ->
  exists event' es, prepare_event event = Ok (id, event') /\ events_of layer = Ok es
    /\ ((JStr id ∈ map id_of es /\ layer' = layer)
        \/ (JStr id ∉ map id_of es /\ layer' = <["events" := JArr (es ++ [JObj event'])]> layer)).
Proof.
  unfold append_one. intros Ha. inv_bind Ha as [[cid event']|] Hp. inv_bind Ha as [es|] He.
  inv_bind Ha as [ids|] Hids. destruct (py_in (JStr cid) ids) eqn:Hin.
  - injection Ha as <- <-. exists event', es. split; [done|]. split; [done|]. left. split; [|done].
    apply existsb_exists in Hin as (v & Hv%list_elem_of_In & ->%py_eqb_str_l).
    apply mapR_ok_Forall2 in Hids. apply list_elem_of_lookup in Hv as [i Hi].
    destruct (Forall2_lookup_r _ _ _ _ _ Hids Hi) as (e & He' & Heq).
    apply list_elem_of_fmap. exists e. split; [|exact (list_elem_of_lookup_2 _ _ _ He')].
    destruct e as [| | | | |d]; try done. revert Heq. cbn [id_of]. by destruct (get "event_id" d); intros [= ->].
  - inv_bind Ha. injection Ha as <- <-. exists event', es. split; [done|]. split; [done|]. right.
    split; [exact (event_ids_in _ _ _ Hids Hin)|done].
Qed.

Lemma append_one_grows event layer id layer' : append_one get_schema event layer = Ok (id, layer') ->
  grows layer layer' /\ JStr id ∈ map id_of (log layer').
Proof.
  intros (event' & es & Hp & He & [[Hin ->]|[Hn ->]])%append_one_inv; apply log_events in He as Hlog.
  - split; [by apply grows_same|by rewrite Hlog].
  - apply prepare_event_inv in Hp as (Hid & _ & Hadm & _). rewrite log_insert_events. split.
    + exists [event']. rewrite log_insert_events Hlog. split; [done|]. split; [by constructor|].
      split; [apply NoDup_singleton|]. intros e ->%list_elem_of_singleton. by rewrite Hid.
    + rewrite map_app. apply elem_of_app. right. cbn. rewrite Hid. by left.
Qed.

(** An event of the log that is one of the given ones, prepared. *)
Definition prepared_from (new : list dict) (e : dict) : Prop :=
  exists e0, e0 ∈ new /\ forall k, k <> "event_id" -> k <> "fingerprint_algo" -> get k e = get k e0.

(** One turn of a batch, seen as a growth of the accumulated list. *)
Lemma append_turns_grow new : forall added es ids added' es' ids',
  Forall2 (fun e i => i = id_of e) es ids ->
  foldM append_turn new (added, es, ids) = Ok (added', es', ids') ->
  exists evs, es' = es ++ map JObj evs /\ added' = added ++ map (fun e => default "" (as_str (get "event_id" e))) evs
    /\ Forall admissible evs /\ NoDup (map (get "event_id") evs)
    /\ (forall e, e ∈ evs -> get "event_id" e ∉ map id_of es)
    /\ (forall e, e ∈ new -> exists id, canonical_id e = Ok id /\ JStr id ∈ map id_of es')
    /\ (forall e, e ∈ evs -> prepared_from new e).
Proof.
  induction new as [|event new IH]; intros added es ids added' es' ids' Hids; cbn [foldM].
  { intros [= <- <- <-]. exists []. rewrite !app_nil_r. split_and!; try done; [apply NoDup_nil_2| | |];
      by intros e ?%not_elem_of_nil. }
  intros Hf. inv_bind Hf as [[[ad1 es1] ids1]|] Ht. unfold append_turn in Ht.
  inv_bind Ht as [[id event']|] Hp. apply prepare_event_inv in Hp as (Hid & Hc & Hadm & Hsame).
  assert (forall e, prepared_from new e -> prepared_from (event :: new) e) as Hmono
    by (intros e (e0 & Hin & He0); exists e0; split; [by right|done]).
  assert (ids = map id_of es) as Hmap.
  { clear -Hids. induction Hids as [|e i es ids -> _ IH]; [done|]. by rewrite IH. }
  destruct (py_in (JStr id) ids) eqn:Hin.
  - injection Ht as <- <- <-. destruct (IH _ _ _ _ _ _ Hids Hf) as (evs & -> & -> & HA & HN & HF & Hall & Hfrom).
    exists evs. split_and!; try done; [|by intros e He; apply Hmono, Hfrom].
    intros e [->|He]%elem_of_cons; [|by apply Hall]. exists id. split; [done|].
    rewrite map_app. apply elem_of_app. left. rewrite -Hmap.
    apply existsb_exists in Hin as (v & Hv%list_elem_of_In & ->%py_eqb_str_l). done.
  - injection Ht as <- <- <-.
    assert (JStr id ∉ map id_of es) as Hfresh.
    { rewrite -Hmap. intros Hm. apply not_true_iff_false in Hin. apply Hin. apply existsb_exists.
      exists (JStr id). split; [by apply list_elem_of_In|apply py_eqb_refl]. }
    assert (Forall2 (fun e i => i = id_of e) (es ++ [JObj event']) (ids ++ [JStr id])) as Hids1.
    { apply Forall2_app; [done|]. constructor; [by cbn; rewrite Hid|constructor]. }
    destruct (IH _ _ _ _ _ _ Hids1 Hf) as (evs & -> & -> & HA & HN & HF & Hall & Hfrom).
    exists (event' :: evs). cbn [map]. rewrite -app_assoc in Hall. rewrite Hid -!app_assoc. cbn [as_str default app].
    assert (forall e, e ∈ evs -> get "event_id" e ∉ map id_of es /\ get "event_id" e <> JStr id) as HF'.
    { intros e He. specialize (HF e He). rewrite map_app in HF. cbn in HF. rewrite Hid in HF. split.
      - intros Hm. apply HF, elem_of_app. by left.
      - intros Hm. apply HF, elem_of_app. right. rewrite Hm. by left. }
    split_and!; try done; [by constructor| | | |].
    + constructor; [|done]. intros (e & Heq & He)%list_elem_of_fmap. destruct (HF' e He). congruence.
    + intros e [->|He]%elem_of_cons; [by rewrite Hid|by apply HF'].
    + intros e [->|He]%elem_of_cons; [|by apply Hall]. exists id. split; [done|].
      rewrite map_app. apply elem_of_app. right. cbn. rewrite Hid. by left.
    + intros e [->|He]%elem_of_cons; [|by apply Hmono, Hfrom]. exists event. split; [by left|done].
Qed.

Lemma event_ids_pairs es ids : event_ids es = Ok ids -> Forall2 (fun e i => i = id_of e) es ids.
Proof.
  intros Hids%mapR_ok_Forall2. eapply Forall2_impl; [exact Hids|]. intros [| | | | |d] i; try done.
  cbn [id_of]. by destruct (get "event_id" d); intros [= <-].
Qed.

Lemma append_many_grows new layer ids layer' : append_many get_schema new layer = Ok (ids, layer') ->
  grows layer layer' /\ exists evs, log layer' = log layer ++ map JObj evs
    /\ map (get "event_id") evs = map JStr ids
    /\ (forall e, e ∈ new -> exists id, canonical_id e = Ok id /\ JStr id ∈ map id_of (log layer'))
    /\ forall e, e ∈ evs -> prepared_from new e.
Proof.
  unfold append_many. intros Ha. inv_bind Ha as [es|] He. apply log_events in He as Hlog.
  inv_bind Ha as [eids|] Hids. inv_bind Ha as [[[added es'] ids']|] Hf. inv_bind Ha.
  injection Ha as <- <-. apply event_ids_pairs in Hids.
  destruct (append_turns_grow _ _ _ _ _ _ _ Hids Hf) as (evs & -> & -> & HA & HN & HF & Hall & Hfrom).
  rewrite log_insert_events. split.
  - exists evs. by rewrite log_insert_events Hlog.
  - exists evs. rewrite Hlog. split; [done|]. split; [|by split]. rewrite map_map. apply map_ext_in.
    intros e Hin%list_elem_of_In. rewrite Forall_forall in HA. destruct (HA e Hin) as [(id & -> & _) _ _]. done.
Qed.

(** A finalizer that leaves the log alone. *)
Definition keeps_log (finalize : option (dict -> res (string * dict))) : Prop :=
  forall d r d', run_finalize finalize d = Ok (r, d') -> log d' = log d.

Lemma finalize_keeps_log config : keeps_log (Some (finalize_layer config)).
Proof.
  intros d r d' (_ & Hk & _)%finalize_inv. unfold log, events_of, get_list, get. by rewrite Hk.
Qed.
Lemma no_finalize_keeps_log : keeps_log None.
Proof. by intros d r d' [= <- <-]. Qed.

Lemma append_step_grows event fin before d id root d' : keeps_log fin ->
  append_step get_schema event fin before d = Ok ((id, root), d') ->
  grows d d' /\ JStr id ∈ map id_of (log d').
Proof.
  intros Hk. unfold append_step. intros Ha. inv_bind Ha. inv_bind Ha as [[i d1]|] H1'.
  inv_bind Ha as [[r d2]|] H2'. injection Ha as <- <- <-. apply append_one_grows in H1' as [Hg Hin].
  apply Hk in H2'. rewrite H2'. split; [|done]. eapply grows_trans; [exact Hg|by apply grows_same].
Qed.

Lemma batch_step_grows new fin before d ids root d' : keeps_log fin ->
  batch_step get_schema new fin before d = Ok ((ids, root), d') -> grows d d'.
Proof.
  intros Hk. unfold batch_step. intros Ha. inv_bind Ha. inv_bind Ha as [[i d1]|] H1'.
  inv_bind Ha as [[r d2]|] H2'. injection Ha as <- <- <-. apply append_many_grows in H1' as [Hg _].
  apply Hk in H2'. eapply grows_trans; [exact Hg|by apply grows_same].
Qed.

Lemma restatement_step_grows event upd fin before d id root d' : keeps_log fin ->
  restatement_step get_schema event upd fin before d = Ok ((id, root), d') -> grows d d'.
Proof.
  intros Hk. unfold restatement_step. intros Ha. inv_bind Ha. inv_bind Ha as [snap|] Hs.
  inv_bind Ha as [[i0 prep]|] Hp. inv_bind Ha as [[i d1]|] H1'. inv_bind Ha as [updates|] Hu. inv_bind Ha.
  inv_bind Ha as [[r d2]|] H2'. injection Ha as <- <- <-. apply append_one_grows in H1' as [Hg _].
  apply Hk in H2'. rewrite log_with_metadata in H2'.
  destruct Hg as (new & Hl & HA & HN & HF). rewrite log_with_metadata in Hl, HF. exists new.
  rewrite H2' Hl. by split_and!.
Qed.

Lemma queue_step_log items d n d' : queue_step get_schema items d = Ok (n, d') -> log d' = log d.
Proof.
  unfold queue_step. intros Hq. inv_bind Hq. inv_bind Hq. inv_bind Hq as [[[n' q] ks]|] Hf.
  destruct (n' =? 0)%Z; [by injection Hq as <- <-|]. inv_bind Hq. injection Hq as <- <-. by apply log_insert.
Qed.

Lemma resolve_review_item_inv key st note actor d changed d' :
  resolve_review_item key st note actor d = Ok (changed, d') ->
  (changed = false /\ d' = d)
  \/ (changed = true /\ exists pre target post,
       get_list "needs_review" d = Ok (pre ++ JObj target :: post)
       /\ split_first (is_pending key) (pre ++ JObj target :: post) = Some (pre, JObj target, post)
       /\ d' = <["needs_review" := JArr (pre ++ JObj (close_item st note actor target) :: post)]> d
       /\ st ∈ RESOLVED_STATUSES
       /\ (st = "rejected" -> str_truthy (strip (default "" note)) = true)
       /\ (st = "confirmed" -> exists es refs, events_of d = Ok es /\ finding_refs es = Ok refs
            /\ truthy (get "suggested_finding_ref" target) = true
            /\ py_in (get "suggested_finding_ref" target) refs = true)).
Proof.
  unfold resolve_review_item. intros Hr. inv_bind Hr as [u|] Hst. inv_bind Hr as [u2|] Hrej.
  inv_bind Hr as [queue|] Hq. apply raise_if_ok in Hst, Hrej. apply negb_false_iff, bool_decide_eq_true in Hst.
  destruct (split_first _ queue) as [[[pre [| | | | |target]] post]|] eqn:Hsp; try (injection Hr as <- <-; by left).
  right. inv_bind Hr as [u3|] Hconf. injection Hr as <- <-. split; [done|].
  assert (queue = pre ++ JObj target :: post) as Hqueue.
  { clear -Hsp. revert pre target post Hsp. induction queue as [|x queue IH]; intros pre target post; [done|].
    cbn [split_first]. destruct (is_pending key x); [by intros [= <- -> <-]|].
    destruct (split_first (is_pending key) queue) as [[[p y] q]|]; [|done]. intros [= <- -> <-].
    by rewrite (IH p target q eq_refl). }
  subst queue. exists pre, target, post. split; [reflexivity|]. split; [exact Hsp|]. split; [reflexivity|].
  split; [exact Hst|]. split.
  - intros ->. cbn in Hrej. by apply negb_false_iff in Hrej.
  - intros ->. cbn in Hconf. inv_bind Hconf as [es|] He. inv_bind Hconf as [refs|] Hrefs.
    exists es, refs. split; [done|]. split; [done|].
    destruct (truthy (get "suggested_finding_ref" target)) eqn:Ht; [|done]. cbn [negb] in Hconf. split; [done|].
    inv_bind Hconf as [r|] Hh. apply raise_if_ok, negb_false_iff in Hconf.
    by destruct (get "suggested_finding_ref" target); try done; injection Hh as <-.
Qed.

Lemma resolve_step_log key st note actor d changed d' :
  resolve_step get_schema key st note actor d = Ok (changed, d') -> log d' = log d.
Proof.
  unfold resolve_step. intros Hr. inv_bind Hr as [[c d1]|] H1'. inv_bind Hr. injection Hr as <- <-.
  apply resolve_review_item_inv in H1' as [[_ ->]|(_ & pre & t & post & _ & _ & -> & _)]; [done|].
  by apply log_insert.
Qed.
End WriterLemmas.

(** ** Properties, over any backend that keeps its promises *)

Section WriterProperties.
Context `{HF : HashFn} `{HT : SigningTools} `{HC : Contracts}.
Context {S : Type} `{HB : !Backend S} `{HBL : !BackendLaws S}.
Context (get_schema : res (option (dict -> bool))).

(** One successful call of a writer method; the finalizer, when there is one, is
    the service's. *)
Inductive writer_step (s s' : S) : Prop :=
| ws_append k event config before r :
    append_event_finalized get_schema k event (finalize_layer <$> config) before s = Ok (r, s') -> writer_step s s'
| ws_batch k new config before r :
    append_events_finalized get_schema k new (finalize_layer <$> config) before s = Ok (r, s') -> writer_step s s'
| ws_restate k event updates config before r :
    append_restatement get_schema k event updates (finalize_layer <$> config) before s = Ok (r, s') ->
    writer_step s s'
| ws_queue k items n : append_needs_review get_schema k items s = Ok (n, s') -> writer_step s s'
| ws_resolve k key st note actor b :
    resolve_needs_review get_schema k key st note actor s = Ok (b, s') -> writer_step s s'.

Lemma service_finalizer_keeps_log (config : option ServiceConfig) : keeps_log (finalize_layer <$> config).
Proof. destruct config; [apply finalize_keeps_log|apply no_finalize_keeps_log]. Qed.

(** A change of one layer that lets its log grow, through any backend. *)
Lemma mutate_grows A k (f : dict -> res (A * dict)) s a s' : good s ->
  (forall d a d', f d = Ok (a, d') -> grows d d') -> b_mutate k f s = Ok (a, s') ->
  good s' /\ forall i d, stored i s = Some d -> exists d', stored i s' = Some d' /\ grows d d'.
Proof using HBL.
  intros Hg Hf Hm. destruct (mutate_promise _ _ _ _ _ _ Hg Hm) as (d & d' & Hd & Hfd & _ & Hd' & Hg' & _ & Ho).
  split; [done|]. intros i d0 Hi. destruct (decide (i = slot k)) as [->|Hne].
  - rewrite Hd in Hi. injection Hi as <-. exists d'. split; [done|exact (Hf _ _ _ Hfd)].
  - exists d0. rewrite Ho //. split; [done|by apply grows_same].
Qed.

Lemma writer_step_grows s s' : good s -> writer_step s s' ->
  good s' /\ forall i d, stored i s = Some d -> exists d', stored i s' = Some d' /\ grows d d'.
Proof using HBL.
  intros Hg [k event config before r Hm|k new config before r Hm|k event upd config before r Hm|k items n Hm
    |k key st note actor b Hm]; refine (mutate_grows _ _ _ _ _ _ Hg _ Hm); clear Hm; intros d a d' Hs.
  - destruct a as [id root].
    by destruct (append_step_grows _ _ _ _ _ _ _ _ (service_finalizer_keeps_log config) Hs).
  - destruct a as [ids root]. exact (batch_step_grows _ _ _ _ _ _ _ _ (service_finalizer_keeps_log config) Hs).
  - destruct a as [id root].
    exact (restatement_step_grows _ _ _ _ _ _ _ _ _ (service_finalizer_keeps_log config) Hs).
  - apply grows_same. exact (queue_step_log _ _ _ _ _ Hs).
  - apply grows_same. exact (resolve_step_log _ _ _ _ _ _ _ _ Hs).
Qed.

(** C5: the writer implements an append-only log.  Through any sequence of
    successful writes to any backend that keeps its promises, every layer that
    was there is still there, and its events are those it had, unchanged and in
    order, followed by new ones; each new event has the canonical id of its
    content, which no other event of the layer has, a human false positive among
    them has a verified identity, and a restatement among them carries no
    disposition. *)
Theorem writer_refines_log s s' i d :
  good s -> rtc writer_step s s' -> stored i s = Some d ->
  exists d', stored i s' = Some d' /\ grows d d'.
Proof using HBL.
  intros Hg Hsteps Hd. revert d Hg Hd. induction Hsteps as [s|s1 s2 s3 H12 _ IH]; intros d Hg Hd.
  - exists d. split; [done|by apply grows_same].
  - destruct (writer_step_grows _ _ Hg H12) as [Hg2 Hall]. destruct (Hall i d Hd) as (d2 & Hd2 & Hgr).
    destruct (IH d2 Hg2 Hd2) as (d3 & Hd3 & Hgr3). exists d3. split; [done|exact (grows_trans _ _ _ Hgr Hgr3)].
Qed.

(** C6: what a finalized append leaves in storage.  The caller's hook ran on
    what storage held; the event it left, with its canonical id, is the last of the
    layer or was in it already; the layer that is read back passes integrity
    verification, but for the restatement check, under the returned root; no
    other layer changed. *)
Theorem finalized_append_stored k event config before s id root s' :
  good s -> append_event_finalized get_schema k event (Some (finalize_layer config)) before s
            = Ok ((id, root), s') ->
  exists d d' ev event', stored (slot k) s = Some d /\ run_before before event d = Ok ev
    /\ prepare_event ev = Ok (id, event') /\ b_load k s' = Ok d' /\ stored (slot k) s' = Some d'
    /\ ((JStr id ∈ map id_of (log d) /\ log d' = log d)
        \/ (JStr id ∉ map id_of (log d) /\ log d' = log d ++ [JObj event']))
    /\ verify_merkle_integrity d' = verify_restated_metadata d'
    /\ (exists meta, d' !! "metadata" = Some (JObj meta) /\ meta !! "merkle_root" = Some (JStr root))
    /\ forall i, i <> slot k -> stored i s' = stored i s.
Proof using HBL.
  intros Hg Hm. destruct (mutate_promise _ _ _ _ _ _ Hg Hm) as (d & d' & Hd & Hfd & Hs & Hd' & Hg' & Hk & Ho).
  unfold append_step in Hfd. inv_bind Hfd as [ev|] Hb. inv_bind Hfd as [[i1 d1]|] H1'.
  inv_bind Hfd as [[r d2]|] H2'. injection Hfd as <- <- <-.
  apply append_one_inv in H1' as (event' & es & Hp & He & Hcase). apply log_events in He as Hlog.
  pose proof (finalize_keeps_log config _ _ _ H2') as Hkeep.
  destruct (finalize_inv _ _ _ _ H2') as (Hv & _ & meta & meta' & _ & Hmeta & Hroot & _).
  exists d, d2, ev, event'. split; [done|]. split; [done|]. split; [done|].
  split; [exact (load_promise k s' d2 Hg' Hk Hd' Hs)|]. split; [done|].
  split; [|split; [done|split; [by exists meta'|done]]]. rewrite Hkeep Hlog.
  destruct Hcase as [[Hin ->]|[Hn ->]]; [left; by rewrite Hlog|right; by rewrite log_insert_events].
Qed.

(** Appends are idempotent.  Appending an event again, right after a
    successful append of the same event, gives the same id and leaves the events
    as they were - whatever the hooks do to the event, as long as they leave the
    fields its id is made of. *)
Theorem append_twice k event config before1 before2 s id1 root1 s1 id2 root2 s2 d1 :
  good s ->
  (forall before d ev, before = before1 \/ before = before2 ->
     run_before before event d = Ok ev -> canonical_id ev = canonical_id event) ->
  append_event_finalized get_schema k event (Some (finalize_layer config)) before1 s = Ok ((id1, root1), s1) ->
  append_event_finalized get_schema k event (Some (finalize_layer config)) before2 s1 = Ok ((id2, root2), s2) ->
  stored (slot k) s1 = Some d1 ->
  id2 = id1 /\ exists d2, stored (slot k) s2 = Some d2 /\ log d2 = log d1.
Proof using HBL.
  intros Hg Hkeep Hm1 Hm2 Hd1.
  destruct (mutate_promise _ _ _ _ _ _ Hg Hm1) as (d & d' & _ & Hf1 & _ & Hd' & Hg1 & _).
  rewrite Hd1 in Hd'. injection Hd' as <-.
  destruct (append_step_grows _ _ _ _ _ _ _ _ (finalize_keeps_log config) Hf1) as [_ Hin].
  destruct (mutate_promise _ _ _ _ _ _ Hg1 Hm2) as (d1' & d2 & Hd1' & Hf2 & _ & Hd2 & _).
  rewrite Hd1 in Hd1'. injection Hd1' as <-.
  unfold append_step in Hf1, Hf2. inv_bind Hf1 as [ev1|] Hb1. inv_bind Hf1 as [[i1 e1]|] Ha1. inv_bind Hf1 as [[r1 x1]|] Hx1.
  injection Hf1 as <- <- <-. inv_bind Hf2 as [ev2|] Hb2. inv_bind Hf2 as [[i2 e2]|] Ha2. inv_bind Hf2 as [[r2 x2]|] Hx2.
  injection Hf2 as <- <- <-.
  apply append_one_inv in Ha1 as (p1 & es1 & Hp1 & _). apply append_one_inv in Ha2 as (p2 & es2 & Hp2 & He2 & Hcase).
  apply prepare_event_inv in Hp1 as (_ & Hc1 & _). apply prepare_event_inv in Hp2 as (_ & Hc2 & _).
  rewrite (Hkeep before1 _ _ (or_introl eq_refl) Hb1) in Hc1.
  rewrite (Hkeep before2 _ _ (or_intror eq_refl) Hb2) Hc1 in Hc2. injection Hc2 as <-.
  split; [done|]. exists x2. split; [done|].
  rewrite (finalize_keeps_log config _ _ _ Hx2). apply log_events in He2 as Hlog.
  destruct Hcase as [[_ ->]|[Hn _]]; [done|]. by rewrite Hlog in Hin.
Qed.

Lemma covers_field_ok snapshot meta block covered f u : covers_field snapshot meta block covered f = Ok u ->
  is_destructive_change (get f snapshot) (get f meta) = true ->
  covered = JStr f /\ py_eqb (get f meta) (merge_delta (get f snapshot) (get "after" block)) = true.
Proof.
  unfold covers_field. intros Hc Hd. rewrite Hd in Hc. cbn [negb] in Hc. inv_bind Hc as [u1|] H1'.
  apply raise_if_ok, negb_false_iff in H1', Hc. split; [exact (py_eqb_str_l _ _ H1')|done].
Qed.
Lemma foldM_unit {A} (f : A -> res unit) l u : foldM (fun _ x => f x) l u = Ok tt -> forall x, x ∈ l -> f x = Ok tt.
Proof.
  revert u. induction l as [|a l IH]; intros u Hl x Hx; [by apply not_elem_of_nil in Hx|].
  cbn [foldM] in Hl. inv_bind Hl as [[]|] Ha. apply elem_of_cons in Hx as [->|Hx]; [done|]. exact (IH _ Hl x Hx).
Qed.

(** What passed [is_restatement]. *)
Lemma restated_shape e : is_restatement (JObj e) = Ok true ->
  exists src b, get "source" e = JObj src /\ get "type" src = JStr "restatement" /\ get "restatement" e = JObj b.
Proof.
  unfold is_restatement. destruct (get "restatement" e) as [| | | | |b]; try done. intros Hr. inv_bind Hr as [t|] Ht.
  unfold get_in in Ht. destruct (get "source" e) as [|[]|z|t'|[|]|src]; try done; try (by injection Ht as <-).
  - destruct (truthy (JInt z)); [done|by injection Ht as <-].
  - destruct (truthy (JStr t')); [done|by injection Ht as <-].
  - injection Ht as <-. injection Hr as Hr. exists src, b. split; [done|]. split; [|done]. rewrite py_eqb_str_r in Hr. by apply bool_decide_eq_true in Hr.
Qed.


Lemma split_first_spec {A} (p : A -> bool) l pre x post : split_first p l = Some (pre, x, post) ->
  p x = true /\ forall y, y ∈ pre -> p y = false.
Proof.
  revert pre. induction l as [|y l IH]; intros pre; cbn [split_first]; [done|]. destruct (p y) eqn:Hy.
  - intros [= <- <- <-]. split; [done|]. by intros z ?%not_elem_of_nil.
  - destruct (split_first p l) as [[[pre' x'] post']|]; [|done]. intros [= <- <- <-].
    destruct (IH pre' eq_refl) as [Hx Hpre]. split; [done|]. intros z [->|Hz]%elem_of_cons; [done|by apply Hpre].
Qed.

(** Closing a review item changes that item and nothing else.  The item
    closed is the first pending one with the key; it ends in the given status;
    every other item, every event and the metadata are as they were.  A rejection
    has a note that is not blank, and a confirmation has an event in the layer
    about the finding the item suggests.  When no pending item has the key,
    nothing changes. *)
Theorem review_item_closed k key st note actor s b s' :
  good s -> resolve_needs_review get_schema k key st note actor s = Ok (b, s') ->
  exists d d', stored (slot k) s = Some d /\ stored (slot k) s' = Some d'
    /\ match b with
       | false => d' = d
       | true => exists pre target post, get_list "needs_review" d = Ok (pre ++ JObj target :: post)
           /\ is_pending key (JObj target) = true /\ (forall y, y ∈ pre -> is_pending key y = false)
           /\ d' = <["needs_review" := JArr (pre ++ JObj (close_item st note actor target) :: post)]> d
           /\ st ∈ RESOLVED_STATUSES /\ get "status" (close_item st note actor target) = JStr st
           /\ (st = "rejected" -> str_truthy (strip (default "" note)) = true)
           /\ (st = "confirmed" -> exists e, JObj e ∈ log d
                /\ py_eqb (get "suggested_finding_ref" target) (get "finding_ref" e) = true)
       end.
Proof using HBL.
  intros Hg Hm. destruct (mutate_promise _ _ _ _ _ _ Hg Hm) as (d & d' & Hd & Hf & _ & Hd' & _).
  exists d, d'. split; [done|]. split; [done|]. unfold resolve_step in Hf. inv_bind Hf as [[c d1]|] H1'.
  inv_bind Hf. injection Hf as <- <-. apply resolve_review_item_inv in H1'
    as [[-> ->]|(-> & pre & t & post & Hq & Hsp & -> & Hst & Hrej & Hconf)]; [done|].
  apply split_first_spec in Hsp as [Hpend Hpre]. exists pre, t, post. split; [done|]. split; [done|]. split; [done|].
  split; [done|]. split; [done|]. split; [|split; [done|]].
  - unfold close_item. destruct (bool_decide _); [|rewrite get_insert_ne; [done|]];
      (destruct note as [n|]; [destruct (str_truthy n)|]; [rewrite get_insert_ne; [done|]| |]; apply get_insert_eq).
  - intros (es & refs & He & Hrefs & _ & Hpy)%Hconf. apply existsb_exists in Hpy as (v & Hv%list_elem_of_In & Heq).
    apply mapR_ok_Forall2 in Hrefs. apply list_elem_of_lookup in Hv as [i Hi].
    destruct (Forall2_lookup_r _ _ _ _ _ Hrefs Hi) as (e & Hei & Hh). exists e. split.
    + apply log_events in He as ->. apply list_elem_of_lookup_2 in Hei.
      apply list_elem_of_omap in Hei as (j & Hj & Hje). by destruct j; try done; injection Hje as <-.
    + by destruct (get "finding_ref" e); try done; injection Hh as <-.
Qed.
End WriterProperties.

(** ** Witnesses: the file backend, on real digests *)

#[local] Instance writer_world : SigningTools := sample_tools ∅ (dumps true sample_bundle).

Definition sample_review : dict := {[
  "source_ref" := JStr "scan:1"; "suggested_finding_ref" := JStr "F1"; "queue_reason" := JStr "ambiguous";
  "quote" := JStr "q"; "status" := JStr "pending" ]}.
Definition sample_shell : dict := {[
  "metadata" := JObj {["audit_report" := JStr "r.md"; "repository" := JStr "h/r"; "created" := JStr "2026-01-01";
                       "harness_version" := JStr "1"; "claim_hashes" := JObj {["F1" := JStr "h1"]}]};
  "events" := JArr [];
  "needs_review" := JArr [JObj sample_review] ]}.
Definition sample_files : files := {["/d/L.json" := dumps true (JObj sample_shell)]}.
Definition sample_key_L : LayerKey := FileKey "/d/L.json".
Definition sample_doc : dict := {[
  "finding_ref" := JStr "F1"; "recorded_at" := JStr "2026-01-02T00:00:00Z";
  "source" := JObj {["type" := JStr "interactive"; "ref" := JStr "interactive:1";
                     "actor" := JObj {["kind" := JStr "human"; "identity" := JStr "ann";
                                       "identity_verified" := JBool true]}]};
  "disposition" := JObj {["validity" := JStr "false_positive"]} ]}.
(** A restatement of a claim hash. *)
Definition restate_doc : dict := {[
  "finding_ref" := JStr LAYER_SCOPE_REF; "recorded_at" := JStr "2026-01-03T00:00:00Z";
  "source" := JObj {["type" := JStr "restatement"; "ref" := JStr "restatement:1"]};
  "disposition" := JObj ∅;
  "restatement" := JObj {["target" := JStr "claim_hashes"; "before" := JObj {["F1" := JStr "h1"]};
                          "after" := JObj {["F1" := JStr "h2"]}]} ]}.
Definition restate_updates (_ : dict) : res dict := Ok {["claim_hashes" := JObj {["F1" := JStr "h2"]}]}.

Definition no_schema : res (option (dict -> bool)) := Ok None.
Definition after_write {A S : Type} (dflt : S) (r : res (A * S)) : S := match r with Ok (_, s) => s | Err _ => dflt end.
Definition sample_append : res ((string * string) * files) :=
  append_event_finalized no_schema sample_key_L sample_doc (Some (finalize_layer default_config)) None sample_files.
Definition sample_appended : files := Eval vm_compute in after_write sample_files sample_append.
Definition sample_append_result : string * string :=
  Eval vm_compute in match sample_append with Ok (r, _) => r | Err _ => ("", "") end.

Lemma sample_files_good : good sample_files.
Proof.
  intros p text. unfold sample_files. rewrite lookup_singleton_Some. intros [_ <-]. exists sample_shell.
  apply loads_dumps.
Qed.
Lemma sample_append_ok : sample_append = Ok (sample_append_result, sample_appended).
Proof. vm_compute. reflexivity. Qed.
Lemma sample_append_step : writer_step no_schema sample_files sample_appended.
Proof.
  apply (ws_append no_schema sample_files sample_appended sample_key_L sample_doc (Some default_config) None
    sample_append_result).
  exact sample_append_ok.
Qed.
Lemma sample_files_stored : stored (slot sample_key_L) sample_files = Some sample_shell.
Proof.
  change (file_view "/d/L.json" sample_files = Some sample_shell).
  unfold file_view, sample_files. by rewrite lookup_singleton_eq loads_dumps.
Qed.

Lemma writer_refines_log_witness :
  exists d', stored (slot sample_key_L) sample_appended = Some d' /\ grows sample_shell d'.
Proof.
  apply (writer_refines_log no_schema sample_files sample_appended).
  - exact sample_files_good.
  - eapply rtc_l; [exact sample_append_step|apply rtc_refl].
  - exact sample_files_stored.
Defined.

Lemma finalized_append_stored_witness :
  exists d d' ev event', stored (slot sample_key_L) sample_files = Some d /\ run_before None sample_doc d = Ok ev
    /\ prepare_event ev = Ok (sample_append_result.1, event')
    /\ b_load sample_key_L sample_appended = Ok d' /\ stored (slot sample_key_L) sample_appended = Some d'
    /\ ((JStr sample_append_result.1 ∈ map id_of (log d) /\ log d' = log d)
        \/ (JStr sample_append_result.1 ∉ map id_of (log d) /\ log d' = log d ++ [JObj event']))
    /\ verify_merkle_integrity d' = verify_restated_metadata d'
    /\ (exists meta, d' !! "metadata" = Some (JObj meta)
         /\ meta !! "merkle_root" = Some (JStr sample_append_result.2))
    /\ forall i, i <> slot sample_key_L -> stored i sample_appended = stored i sample_files.
Proof.
  apply (finalized_append_stored no_schema sample_key_L sample_doc default_config None sample_files
    sample_append_result.1 sample_append_result.2 sample_appended).
  - exact sample_files_good.
  - exact sample_append_ok.
Defined.

Definition sample_layer_after (fs : files) : dict := default ∅ (file_view "/d/L.json" fs).

Lemma append_twice_witness :
  sample_append_result.1 = sample_append_result.1
  /\ exists d2, stored (slot sample_key_L) sample_appended = Some d2 /\ log d2 = log (sample_layer_after sample_appended).
Proof.
  apply (append_twice no_schema sample_key_L sample_doc default_config None None sample_files
    sample_append_result.1 sample_append_result.2 sample_appended
    sample_append_result.1 sample_append_result.2 sample_appended).
  - exact sample_files_good.
  - intros before d ev [-> | ->] [= <-]; reflexivity.
  - exact sample_append_ok.
  - vm_compute. reflexivity.
  - vm_compute. reflexivity.
Defined.

Definition sample_restate : res ((string * string) * files) :=
  append_restatement no_schema sample_key_L restate_doc restate_updates (Some (finalize_layer default_config)) None
    sample_files.
Definition sample_restate_result : string * string :=
  Eval vm_compute in match sample_restate with Ok (r, _) => r | Err _ => ("", "") end.
Definition sample_restated : files := Eval vm_compute in after_write sample_files sample_restate.


Definition sample_closed : files :=
  Eval vm_compute in after_write sample_appended
    (resolve_needs_review no_schema sample_key_L (review_item_key sample_review) "confirmed" None ∅ sample_appended).
Lemma sample_appended_good : good sample_appended.
Proof. exact (proj1 (writer_step_grows no_schema _ _ sample_files_good sample_append_step)). Qed.

Lemma review_item_closed_witness :
  exists d d', stored (slot sample_key_L) sample_appended = Some d /\ stored (slot sample_key_L) sample_closed = Some d'
    /\ exists pre target post, get_list "needs_review" d = Ok (pre ++ JObj target :: post)
           /\ is_pending (review_item_key sample_review) (JObj target) = true
           /\ (forall y, y ∈ pre -> is_pending (review_item_key sample_review) y = false)
           /\ d' = <["needs_review" := JArr (pre ++ JObj (close_item "confirmed" None ∅ target) :: post)]> d
           /\ "confirmed" ∈ RESOLVED_STATUSES /\ get "status" (close_item "confirmed" None ∅ target) = JStr "confirmed"
           /\ ("confirmed" = "rejected" -> str_truthy (strip (default "" None)) = true)
           /\ ("confirmed" = "confirmed" -> exists e, JObj e ∈ log d
                /\ py_eqb (get "suggested_finding_ref" target) (get "finding_ref" e) = true).
Proof.
  apply (review_item_closed no_schema sample_key_L (review_item_key sample_review) "confirmed" None ∅
    sample_appended true sample_closed); [exact sample_appended_good|]. vm_compute. reflexivity.
Defined.

(** ** A restatement that is not recorded

    The cover check reads the event that was handed in, not the log: an event
    whose id is already there is dropped by [append_one], and the metadata
    changes all the same.  Below the log already holds an event with the id of
    [restate_doc] - same source and finding references - that restates nothing;
    the claim hash is replaced, and no restatement of it is in the log: the second
    case of [restatement_explains_metadata]. *)
Definition decoy_doc : dict := delete "restatement" restate_doc.
Definition sample_swallowed : res (list bool * json) :=
  '(_, fs) ← append_event_finalized no_schema sample_key_L decoy_doc (Some (finalize_layer default_config)) None
              sample_files;
  '(_, fs) ← append_restatement no_schema sample_key_L restate_doc restate_updates
              (Some (finalize_layer default_config)) None fs;
  d ← b_load sample_key_L fs;
  rs ← mapR is_restatement (log d);
  m ← get_obj "metadata" d;
  Ok (rs, get "claim_hashes" m).
Example restatement_can_be_swallowed : sample_swallowed = Ok ([false], JObj {["F1" := JStr "h2"]}).
Proof. vm_compute. reflexivity. Qed.
