(* ===== verification/Reports.v ===== *)
(** * Report digests

    [_internal/reports.py]: the digest of the report a layer annotates and of
    the artifacts beside it, recorded in the metadata and checked later.  A
    directory is the map from file names to contents.  The texts of the messages
    are not modelled, only which file they are about and why. *)

From S2P Require Import Prelude PyStr Json Sha256 Errors Merkle Restatements Signing Ledger Identity.
From S2P Require Import Contracts Time Disposition Events Records Backend FileBackend Finalize Writer.
From stdpp Require Import options.

Definition LAYER_SUFFIX : string := "-findings-layer.json".

Inductive artifact_issue := Unrecorded (name : string) | Mismatch (name : string) | MissingFile (name : string).

Section Reports.
Context `{HashFn}.

Definition report_sha256 (report : bytes) : string := hexdigest report.

(** [_drop_signature_now_stale]. *)
Definition drop_signature_now_stale (meta : dict) : res dict :=
  format ← (if get_truthy "merkle_signature_format" meta then py_int (get "merkle_signature_format" meta) else Ok 0%Z);
  if (format <? 3)%Z then Ok meta
  else if negb (get_truthy "merkle_root_signature" meta) then Ok meta
  else Ok (delete "merkle_signature_format" (delete "merkle_signing_method" (delete "merkle_root_signature" meta))).

(** [stamp_report_reference]: whether something changed, and the layer. *)
Definition stamp_report_reference (layer : dict) (report : bytes) (ref : option string) : res (bool * dict) :=
  meta ← metadata_or_new layer;
  let digest := JStr (report_sha256 report) in
  let changed := py_neqb (get "audit_report_sha256" meta) digest in
  let meta1 := <["audit_report_sha256" := digest]> meta in
  let '(changed2, meta2) :=
    match ref with
    | Some r => if py_neqb (get "audit_report_ref" meta1) (JStr r)
                then (true, <["audit_report_ref" := JStr r]> meta1) else (changed, meta1)
    | None => (changed, meta1)
    end in
  meta3 ← (if changed2 then drop_signature_now_stale meta2 else Ok meta2);
  Ok (changed2, with_metadata layer meta3).

(** [check_report_digest]: whether there is a message.  The message cuts both
    digests, which only a sequence allows. *)
Definition sliceable (v : json) : bool := match v with JStr _ | JArr _ => true | _ => false end.
Definition check_report_digest (layer : dict) (report : bytes) : res bool :=
  recorded ← get_in "metadata" "audit_report_sha256" layer;
  if negb (truthy recorded) then Ok false
  else if py_eqb (JStr (report_sha256 report)) recorded then Ok false
  else if sliceable recorded then Ok true else Err TypeError.

(** [sibling_artifacts], with the contents of each file, in order of names. *)
Definition sibling_artifacts (layer_name : string) (directory : gmap string bytes) : list (string * bytes) :=
  if negb (endswith layer_name LAYER_SUFFIX) then []
  else
    let base := str_take (String.length layer_name - String.length LAYER_SUFFIX) layer_name in
    List.filter (fun f => startswith f.1 (base +:+ "-") && negb (endswith f.1 LAYER_SUFFIX)) (items directory).

(** [{p.name: report_sha256(p) for p in sibling_artifacts(layer_path)}]. *)
Definition fresh_digests (layer_name : string) (directory : gmap string bytes) : dict :=
  list_to_map (map (fun f => (f.1, JStr (report_sha256 f.2))) (sibling_artifacts layer_name directory)).

Definition stamp_artifact_digests (layer : dict) (layer_name : string) (directory : gmap string bytes)
  : res (bool * dict) :=
  meta ← metadata_or_new layer;
  let fresh := fresh_digests layer_name directory in
  if py_eqb (get "artifact_digests" meta) (JObj fresh) then Ok (false, with_metadata layer meta)
  else if truthy (JObj fresh)
       then Ok (true, with_metadata layer (<["artifact_digests" := JObj fresh]> meta))
       else Ok (true, with_metadata layer (delete "artifact_digests" meta)).

(** One file against the recorded map. *)
Definition check_artifact (recorded : dict) (file : string * bytes) : res (list artifact_issue) :=
  let want := get file.1 recorded in
  if is_null want then Ok [Unrecorded file.1]
  else if py_eqb (JStr (report_sha256 file.2)) want then Ok []
  else if sliceable want then Ok [Mismatch file.1] else Err TypeError.

Definition check_artifact_digests (layer : dict) (layer_name : string) (directory : gmap string bytes)
  : res (list artifact_issue) :=
  v ← get_in "metadata" "artifact_digests" layer;
  if negb (truthy v) then Ok []
  else match v with
       | JObj recorded =>
           let files := sibling_artifacts layer_name directory in
           out ← mapR (check_artifact recorded) files;
           Ok (concat out ++ map (fun kv => MissingFile kv.1)
                 (List.filter (fun kv => negb (bool_decide (kv.1 ∈ map fst files))) (items recorded)))
       | _ => Err AttributeError
       end.

(** ** Properties *)

Lemma siblings_nodup name dir : NoDup (map fst (sibling_artifacts name dir)).
Proof.
  unfold sibling_artifacts. destruct (negb _); [constructor|].
  apply (sublist_NoDup _ (map fst (items dir))); [apply items_nodup|].
  induction (items dir) as [|f l IH]; [constructor|]. cbn [List.filter map].
  destruct (_ && _); cbn [map]; [by apply sublist_skip|by apply sublist_cons].
Qed.

Lemma fresh_lookup name dir k : fresh_digests name dir !! k
  = (fun b => JStr (report_sha256 b)) <$> list_to_map (M := gmap string bytes) (sibling_artifacts name dir) !! k.
Proof.
  unfold fresh_digests. induction (sibling_artifacts name dir) as [|[n b] l IH]; [done|].
  cbn [map list_to_map foldr fst snd]. destruct (decide (k = n)) as [->|Hne]; [by rewrite !lookup_insert_eq|].
  rewrite !lookup_insert_ne; [congruence..|]. exact IH.
Qed.

(** The verdict on one file, for a record of texts. *)
Definition file_verdict (recorded : dict) (f : string * bytes) : list artifact_issue :=
  if bool_decide (recorded !! f.1 = Some (JStr (report_sha256 f.2))) then []
  else [if bool_decide (recorded !! f.1 = None) then Unrecorded f.1 else Mismatch f.1].
Definition of_texts (recorded : dict) : Prop := forall k v, recorded !! k = Some v -> exists s, v = JStr s.

Lemma check_artifact_verdict recorded f : of_texts recorded ->
  check_artifact recorded f = Ok (file_verdict recorded f).
Proof.
  intros Htext. unfold check_artifact, file_verdict, get.
  destruct (recorded !! f.1) as [v|] eqn:Hv; cbn [default id is_null]; [|done].
  destruct (Htext _ _ Hv) as [s ->]. cbn [is_null sliceable]. rewrite py_eqb_str.
  destruct (String.eqb_spec (report_sha256 f.2) s) as [->|Hs]; [by rewrite bool_decide_true|].
  rewrite bool_decide_false //. congruence.
Qed.

Lemma no_verdict recorded files : concat (map (file_verdict recorded) files) = []
  <-> forall f, f ∈ files -> recorded !! f.1 = Some (JStr (report_sha256 f.2)).
Proof.
  unfold file_verdict. induction files as [|f files IH]; cbn [map concat].
  { split; [|done]. by intros _ f ?%not_elem_of_nil. }
  case_bool_decide as Hf; cbn [app]; [|split; [done|intros Hall; destruct Hf; apply Hall; by left]].
  rewrite IH. split; [intros Hall g [->|Hg]%elem_of_cons; [done|by apply Hall]|intros Hall g Hg; apply Hall; by right].
Qed.

Definition missing_files (recorded : dict) (files : list (string * bytes)) : list artifact_issue :=
  map (fun kv => MissingFile kv.1)
    (List.filter (fun kv => negb (bool_decide (kv.1 ∈ map fst files))) (items recorded)).
Lemma no_missing recorded files : missing_files recorded files = []
  <-> forall k v, recorded !! k = Some v -> k ∈ map fst files.
Proof.
  unfold missing_files. split.
  - intros Hm%map_eq_nil k v Hkv. apply dec_stable. intros Hk.
    assert (In (k, v) (List.filter (fun kv => negb (bool_decide (kv.1 ∈ map fst files))) (items recorded))) as Hin.
    { apply filter_In. split; [by apply list_elem_of_In, items_lookup|]. apply negb_true_iff. by apply bool_decide_false. }
    by rewrite Hm in Hin.
  - intros Hall. destruct (List.filter _ _) as [|[k v] l] eqn:Hf; [done|]. exfalso.
    assert (In (k, v) (List.filter (fun kv => negb (bool_decide (kv.1 ∈ map fst files))) (items recorded)))
      as [Hin Hb]%filter_In by (rewrite Hf; by left).
    apply list_elem_of_In, items_lookup in Hin. apply negb_true_iff, bool_decide_eq_false in Hb.
    by apply Hb, (Hall _ v).
Qed.

(** A recorded map of digests is checked exactly.  When the metadata records
    digests as texts, the check reports nothing if and only if the record is, name
    for name and digest for digest, what the files beside the layer hash to. *)
Theorem artifact_check_exact layer name dir meta recorded :
  layer !! "metadata" = Some (JObj meta) -> meta !! "artifact_digests" = Some (JObj recorded) ->
  recorded <> ∅ -> of_texts recorded ->
  check_artifact_digests layer name dir = Ok [] <-> recorded = fresh_digests name dir.
Proof.
  intros Hmeta Hrec Hne Htext. unfold check_artifact_digests, get_in, get. rewrite Hmeta. cbn [default id].
  rewrite Hrec. cbn [default id mbind result_bind truthy]. rewrite bool_decide_true //. cbn [negb].
  pose proof (siblings_nodup name dir) as Hnd. pose proof (fresh_lookup name dir) as Hfresh.
  set (files := sibling_artifacts name dir) in *.
  rewrite (mapR_pure _ _ _ (fun f _ => check_artifact_verdict recorded f Htext)). cbn [mbind result_bind].
  change (map _ (List.filter _ _)) with (missing_files recorded files).
  transitivity (concat (map (file_verdict recorded) files) = [] /\ missing_files recorded files = []).
  { split; [intros [= Hout]; by apply app_eq_nil in Hout|by intros [-> ->]]. }
  rewrite no_verdict no_missing. split.
  - intros [Hfiles Hmiss]. apply map_eq. intros k. rewrite Hfresh.
    destruct (list_to_map files !! k) as [b|] eqn:Hk; cbn.
    + apply elem_of_list_to_map in Hk; [|done]. exact (Hfiles _ Hk).
    + destruct (recorded !! k) as [v|] eqn:Hv; [|done]. apply not_elem_of_list_to_map in Hk.
      destruct Hk. exact (Hmiss _ _ Hv).
  - intros ->. split.
    + intros [n b] Hin. rewrite Hfresh. by rewrite (elem_of_list_to_map_1 files n b).
    + intros k v Hkv. rewrite Hfresh in Hkv. destruct (list_to_map files !! k) as [b|] eqn:Hk; [|done].
      apply elem_of_list_to_map in Hk; [|done]. by apply (list_elem_of_fmap_2 fst) in Hk.
Qed.

Lemma stamp_report_metadata layer report ref changed layer' :
  stamp_report_reference layer report ref = Ok (changed, layer') ->
  exists meta meta', metadata_or_new layer = Ok meta /\ layer' = with_metadata layer meta'
    /\ get "audit_report_sha256" meta' = JStr (report_sha256 report)
    /\ if changed then exists meta2, drop_signature_now_stale meta2 = Ok meta' else meta' = meta.
Proof.
  unfold stamp_report_reference. intros Hs. inv_bind Hs as [meta|] Hm.
  set (meta1 := <["audit_report_sha256" := JStr (report_sha256 report)]> meta) in *.
  assert (forall meta2 meta', get "audit_report_sha256" meta2 = JStr (report_sha256 report) ->
    drop_signature_now_stale meta2 = Ok meta' -> get "audit_report_sha256" meta' = JStr (report_sha256 report)) as Hdrop.
  { unfold drop_signature_now_stale. intros meta2 meta' Hd Hmeta. inv_bind Hmeta. destruct (_ <? 3)%Z; [by injection Hmeta as <-|].
    destruct (negb _); injection Hmeta as <-; [done|]. by rewrite !get_delete_ne. }
  assert (get "audit_report_sha256" meta1 = JStr (report_sha256 report)) as H1 by apply get_insert_eq.
  assert (py_neqb (get "audit_report_sha256" meta) (JStr (report_sha256 report)) = false -> meta1 = meta) as Hsame.
  { unfold py_neqb. rewrite py_eqb_str_r. intros Hb%negb_false_iff%bool_decide_eq_true.
    apply insert_id. by apply get_lookup_some. }
  assert (exists c m2, (match ref with
    | Some r => if py_neqb (get "audit_report_ref" meta1) (JStr r)
                then (true, <["audit_report_ref" := JStr r]> meta1)
                else (py_neqb (get "audit_report_sha256" meta) (JStr (report_sha256 report)), meta1)
    | None => (py_neqb (get "audit_report_sha256" meta) (JStr (report_sha256 report)), meta1) end) = (c, m2)
    /\ get "audit_report_sha256" m2 = JStr (report_sha256 report) /\ (c = false -> m2 = meta)) as (c & m2 & Hpair & Hd & Hc).
  { destruct ref as [r|]; [|by eexists _, _].
    destruct (py_neqb (get "audit_report_ref" meta1) (JStr r)); [|by eexists _, _].
    eexists _, _. split; [done|]. split; [by rewrite get_insert_ne|done]. }
  rewrite Hpair in Hs. inv_bind Hs as [meta3|] H3. injection Hs as <- <-. exists meta, meta3.
  split; [done|]. split; [done|]. destruct c.
  - split; [exact (Hdrop _ _ Hd H3)|by exists m2].
  - injection H3 as <-. split; [done|]. by apply Hc.
Qed.

Lemma drop_leaves_none meta2 meta' fmt : drop_signature_now_stale meta2 = Ok meta' ->
  get "merkle_signature_format" meta' = JInt fmt -> (3 <= fmt)%Z -> get_truthy "merkle_root_signature" meta' = false.
Proof.
  unfold drop_signature_now_stale. intros Hd Hf Hge. inv_bind Hd as [f|] Hfm.
  destruct (Z.ltb_spec f 3) as [Hlt|_].
  - injection Hd as <-. unfold get_truthy at 1 in Hfm. rewrite Hf in Hfm. cbn [truthy py_int] in Hfm.
    destruct (Z.eqb_spec fmt 0); [lia|]. injection Hfm as <-. lia.
  - destruct (get_truthy "merkle_root_signature" meta2) eqn:Hsig; cbn [negb] in Hd; injection Hd as <-; [|done].
    unfold get_truthy. rewrite get_delete_ne // get_delete_ne //. by rewrite get_delete_eq.
Qed.

(** C28: a signature outlives a change of the report digest only if it does not
    cover it.  After a report is recorded the check has nothing to say about it;
    and a signature that is still there, of a format that covers the digest,
    signs the payload it signed before. *)
Theorem report_stamp_keeps_signatures_honest layer report ref changed layer' :
  stamp_report_reference layer report ref = Ok (changed, layer') ->
  check_report_digest layer' report = Ok false
  /\ exists meta meta', metadata_or_new layer = Ok meta /\ layer' = with_metadata layer meta'
     /\ forall fmt, get_truthy "merkle_root_signature" meta' = true ->
          get "merkle_signature_format" meta' = JInt fmt -> (3 <= fmt)%Z ->
          forall f, merkle_signature_payload meta' f = merkle_signature_payload meta f.
Proof.
  intros (meta & meta' & Hm & -> & Hd & Hc)%stamp_report_metadata. split.
  - unfold check_report_digest, get_in, with_metadata. rewrite get_insert_eq. cbn [mbind result_bind]. rewrite Hd.
    destruct (negb _); [done|]. by rewrite py_eqb_refl.
  - exists meta, meta'. split; [done|]. split; [done|]. intros fmt Hsig Hfmt Hge f.
    destruct changed; [|by rewrite Hc]. destruct Hc as [meta2 Hdrop].
    by rewrite (drop_leaves_none _ _ _ Hdrop Hfmt Hge) in Hsig.
Qed.
End Reports.

(** ** Witnesses *)

Definition artifact_dir : gmap string bytes := {[
  "r-audit.json" := utf8 "report"; "r-triage.json" := utf8 "triage"; "r-findings-layer.json" := utf8 "{}";
  "other-audit.json" := utf8 "x" ]}.
Definition artifact_layer : dict :=
  {["metadata" := JObj {["artifact_digests" := JObj (fresh_digests "r-findings-layer.json" artifact_dir)]}]}.
Lemma artifact_check_exact_witness :
  map fst (items (fresh_digests "r-findings-layer.json" artifact_dir)) = ["r-audit.json"; "r-triage.json"]
  /\ (check_artifact_digests artifact_layer "r-findings-layer.json" artifact_dir = Ok []
      <-> fresh_digests "r-findings-layer.json" artifact_dir = fresh_digests "r-findings-layer.json" artifact_dir).
Proof.
  split; [vm_compute; reflexivity|].
  apply (artifact_check_exact artifact_layer "r-findings-layer.json" artifact_dir
    {["artifact_digests" := JObj (fresh_digests "r-findings-layer.json" artifact_dir)]}).
  - reflexivity.
  - apply lookup_singleton_eq.
  - intros Hempty. apply (f_equal (lookup "r-audit.json")) in Hempty. revert Hempty. vm_compute. discriminate.
  - intros k v Hk. rewrite fresh_lookup in Hk. destruct (list_to_map _ !! k); [|discriminate Hk].
    injection Hk as <-. eexists. reflexivity.
Defined.
(** A changed and a missing file are reported. *)
Example artifact_issues :
  check_artifact_digests artifact_layer "r-findings-layer.json"
    {["r-audit.json" := utf8 "changed"; "r-new.json" := utf8 "n"]}
  = Ok [Mismatch "r-audit.json"; Unrecorded "r-new.json"; MissingFile "r-triage.json"].
Proof. vm_compute. reflexivity. Qed.

Definition signed_layer3 : dict := {["metadata" := JObj {["merkle_root_signature" := JStr "sig";
  "merkle_signature_format" := JInt 3; "merkle_signing_method" := JStr "keypair"]}]}.
Definition stamped3 : bool * dict :=
  match stamp_report_reference signed_layer3 (utf8 "report") None with Ok r => r | Err _ => (false, ∅) end.
Lemma report_stamp_keeps_signatures_honest_witness :
  stamped3.1 = true /\ check_report_digest stamped3.2 (utf8 "report") = Ok false.
Proof.
  split; [vm_compute; reflexivity|].
  apply (report_stamp_keeps_signatures_honest signed_layer3 (utf8 "report") None stamped3.1 stamped3.2).
  vm_compute. reflexivity.
Defined.
