(* ===== verification/Handlers.v ===== *)
(** * The write handlers

    [handlers/event_handler.py], [submit_handler.py], [restatement_handler.py],
    [resolve_handler.py] and [initialize_handler.py], and the sign, stamp and
    restate routes of [service/routes.py] that write through the backend.  A
    handler is a function of the store: it returns its response with the new
    store, or raises and leaves none.  Logging is not modelled; the clock is a
    parameter. *)

From S2P Require Import Prelude PyStr Json Sha256 Errors Merkle Restatements Signing Ledger Identity.
From S2P Require Import Contracts Time Disposition Events Gates Backend FileBackend Finalize Writer.
From stdpp Require Import options.

Record SubmitResponse := {
  response_id : string;
  event_count : Z;
  response_root : option string;
  response_event_ids : list string;
  queue_added : Z
}.

Definition ALLOWED_DECISIONS : list string := ["keep_open"; "false_positive"; "override_false_positive"].

(** [x or None] of a text. *)
Definition text_or_none (s : string) : option string := if str_truthy s then Some s else None.

(** The [except] clauses of the submit handlers. *)
Definition as_service_error {A} (r : res A) : res A :=
  match r with
  | Err (InternalEventIdMismatchError supplied canonical) =>
      Err (Service (EventIdMismatchError supplied canonical))
  | Err (Storage _) => Err (Service ValidationError)
  | _ => r
  end.

(** ** Reading a client's event *)

Definition finding_ref_of (event : dict) : res string :=
  ref ← event_text event "finding_ref";
  if str_truthy ref then Ok ref else event_text event "finding_fingerprint".

Definition decision_from_verdict (verdict : string) : string :=
  if String.eqb verdict "false_positive" then "false_positive"
  else if String.eqb verdict "true_positive" then "keep_open" else verdict.

Definition resolve_decision (event : dict) : res string :=
  raw_decision ← event_text event "decision";
  raw_verdict ← event_text event "verdict";
  _ ← raise_if (str_truthy raw_decision && str_truthy raw_verdict
                && negb (String.eqb raw_decision (decision_from_verdict raw_verdict)))
        (Service DecisionVerdictConflictError);
  decision ← (if str_truthy raw_decision then Ok raw_decision
              else if str_truthy raw_verdict then Ok (decision_from_verdict raw_verdict)
              else Err (Service MissingDecisionOrVerdictError));
  _ ← raise_if (negb (bool_decide (decision ∈ ALLOWED_DECISIONS))) (Service (UnknownDecisionError decision));
  Ok decision.

Definition rationale_of (event : dict) : res string :=
  text ← event_text event "rationale";
  if str_truthy text then Ok text else event_text event "justification".

Definition require_recorded_at (event : dict) : res string :=
  let value := get "recorded_at" event in
  _ ← raise_if (is_null value) (Service MissingRecordedAtEventError);
  text ← py_str value;
  _ ← raise_if (negb (str_truthy (strip text))) (Service MissingRecordedAtEventError);
  Ok text.

Definition require_layer_id (event : dict) : res string :=
  id ← event_text event "layer_id";
  _ ← raise_if (negb (str_truthy id)) (Service MissingLayerIdError);
  Ok id.

Definition require_finding_ref (event : dict) : res string :=
  ref ← finding_ref_of event;
  _ ← raise_if (negb (str_truthy ref)) (Service MissingFindingRefError);
  Ok ref.

Definition parse_event_kind (raw : string) : res EventKind :=
  of_option (event_kind_of raw) (Service ValidationError).

Section Handlers.
Context `{HashFn} `{SigningTools} `{Contracts}.

(** ** Single events *)

Definition stamp_actor_on_event (event : dict) (actor : LayerActor) : dict :=
  match get "source" event with
  | JObj source => <["source" := JObj (<["actor" := JObj (actor_to_dict actor)]> source)]> event
  | _ => event
  end.

(** The last fingerprint recorded for each reference; an index is a list of
    pairs, later ones first. *)
Definition fingerprint_pairs (existing : list json) : res (list (json * json)) :=
  mapR (fun d => ref ← hashable (get "finding_ref" d); Ok (ref, get "fingerprint" d))
    (List.filter (fun d => get_truthy "finding_ref" d && get_truthy "fingerprint" d) (dicts_of existing)).
Definition pairs_get (pairs : list (json * json)) (ref : json) : res json :=
  r ← hashable ref;
  Ok (match last (List.filter (fun p => py_eqb p.1 r) pairs) with Some p => p.2 | None => JNull end).

Definition resolve_fingerprint_from_layer (event layer : dict) : res dict :=
  match get "events" layer with
  | JArr existing =>
      pairs ← fingerprint_pairs existing;
      match pairs with
      | [] => Ok event
      | _ => '(_, event) ← attach_with (pairs_get pairs) event; Ok event
      end
  | _ => Ok event
  end.

(** The event a submission stands for and the validity it asserts, if any. *)
Definition build_payload (event_kind : EventKind) (raw_event : dict) (finding_ref rationale recorded_at : string)
    (actor : LayerActor) : res (dict * string) :=
  if bool_decide (event_kind ∈ BIRTH_EVENT_KINDS)
  then Ok (delete "layer_id" (stamp_actor_on_event raw_event actor), "")
  else if bool_decide (event_kind = SEVERITY) then
    level ← event_text raw_event "severity";
    _ ← raise_if (negb (str_truthy level)) (Service MissingSeverityError);
    let built := build_severity_event finding_ref level rationale actor recorded_at in
    Ok (event_to_dict built, str_or (validity (disposition built)) "")
  else
    decision ← resolve_decision raw_event;
    built ← build_human_event finding_ref decision rationale actor recorded_at;
    _ ← raise_if (negb (opt_truthy (validity (disposition built)))) (Service ValidationError);
    Ok (event_to_dict built, str_or (validity (disposition built)) "").

(** [_before_append]: the gates under the layer's lock; the event is completed
    with a fingerprint the layer knows. *)
Definition before_append (event_kind : EventKind) (finding_ref actor_identity incoming_validity : string)
    (layer event : dict) : res dict :=
  _ ← require_valid_epoch layer;
  _ ← (if bool_decide (event_kind = COUNTERSIGN)
       then require_two_person layer finding_ref actor_identity incoming_validity else Ok tt);
  resolve_fingerprint_from_layer event layer.

Context (get_schema : res (option (dict -> bool))) (now : Z).
Context {S : Type} `{Backend S}.

(** The gates on the actor, before anything is read from the event. *)
Definition actor_gates (event_kind : EventKind) (raw_event : dict) (actor : LayerActor) : res unit :=
  let birth := bool_decide (event_kind ∈ BIRTH_EVENT_KINDS) in
  _ ← (if birth then Ok tt
       else reject_machine_disposition (client_actor raw_event) (client_disposition raw_event));
  _ ← require_human_identity actor event_kind;
  _ ← reject_machine_human_lane actor event_kind;
  if birth then Ok tt
  else reject_machine_disposition (actor_to_dict actor) (client_disposition raw_event).

Definition submit_event (envelope : EventEnvelope) (actor : LayerActor) (config : ServiceConfig) (s : S)
  : res (SubmitResponse * S) :=
  _ ← require_signing_configured config;
  event_kind ← parse_event_kind (envelope_kind envelope);
  let raw_event := envelope_event envelope in
  '((event_id, root), s) ← as_service_error (
    _ ← actor_gates event_kind raw_event actor;
    layer_id ← require_layer_id raw_event;
    finding_ref ← require_finding_ref raw_event;
    rationale ← rationale_of raw_event;
    recorded_at ← require_recorded_at raw_event;
    _ ← require_rationale_length rationale;
    _ ← require_timestamp_bounds now recorded_at;
    '(payload, incoming_validity) ← build_payload event_kind raw_event finding_ref rationale recorded_at actor;
    _ ← (if str_truthy incoming_validity then require_verified_for_false_positive actor incoming_validity
         else Ok tt);
    key ← layer_key opaque_layer_ids (data_dir config) layer_id;
    append_event_finalized get_schema key payload (Some (finalize_layer config))
      (Some (before_append event_kind finding_ref (str_or (identity actor) "") incoming_validity)) s);
  let id := if str_truthy event_id then event_id else submission_id_for_event envelope in
  Ok ({| response_id := id; event_count := 1; response_root := text_or_none root;
         response_event_ids := []; queue_added := 0 |}, s).

(** ** Batches *)

Record BatchSubmitRequest := {
  batch_source_ref : string;
  batch_recorded_at : string;
  batch_events : list dict;
  batch_needs_review : list dict
}.

Definition stamp_batch_actor (actor : LayerActor) (event : dict) : dict :=
  let source := match get "source" event with JObj s => s | _ => ∅ end in
  <["source" := JObj (<["actor" := JObj (actor_to_dict actor)]> source)]> event.

(** [item.setdefault(key, v)]. *)
Definition setdefault (key : string) (v : json) (d : dict) : dict :=
  match d !! key with Some _ => d | None => <[key := v]> d end.
Definition stamp_item (body : BatchSubmitRequest) (actor : LayerActor) (item : dict) : dict :=
  setdefault "queued_at" (JStr (batch_recorded_at body))
    (setdefault "source_ref" (JStr (batch_source_ref body))
      (setdefault "submitted_by" (JObj (actor_to_dict actor)) item)).

(** [_submit_atomic]: events, queue items and finalization in one change. *)
Definition atomic_step (events : list dict) (items : list json) (config : ServiceConfig) (layer : dict)
  : res ((list string * string * Z) * dict) :=
  '(ids, layer) ← append_many get_schema events layer;
  '(added, layer) ← queue_step get_schema items layer;
  '(root, layer) ← finalize_layer config layer;
  Ok ((ids, root, added), layer).

Definition submit_batch (layer_id : string) (body : BatchSubmitRequest) (actor : LayerActor)
    (config : ServiceConfig) (s : S) : res (SubmitResponse * S) :=
  _ ← require_signing_configured config;
  _ ← raise_if (negb (str_truthy layer_id)) (Service MissingLayerIdError);
  key ← layer_key opaque_layer_ids (data_dir config) layer_id;
  let events := map (fun e => stamp_fingerprint_algo (stamp_batch_actor actor e)) (batch_events body) in
  let items := map (fun i => JObj (stamp_item body actor i)) (batch_needs_review body) in
  '((ids, root, added), s) ← (
    match events, items with
    | _ :: _, _ :: _ => as_service_error (b_mutate key (atomic_step events items config) s)
    | _ :: _, [] =>
        '((ids, root), s) ← as_service_error (
           append_events_finalized get_schema key events (Some (finalize_layer config)) None s);
        Ok ((ids, root, 0%Z), s)
    | [], _ :: _ =>
        '(added, s) ← as_service_error (append_needs_review get_schema key items s);
        Ok (([], "", added), s)
    | [], [] => Ok (([], "", 0%Z), s)
    end);
  Ok ({| response_id := "batch:" +:+ layer_id +:+ ":" +:+ batch_source_ref body;
         event_count := Z.of_nat (length ids) + added; response_root := text_or_none root;
         response_event_ids := ids; queue_added := added |}, s).

(** ** Restatements *)

(** The members of the contracts' [RestatementTarget] enumeration. *)
Context (RestatementTarget : list string).

Record RestatementResponse := { rr_event_id : string; rr_layer_id : string; rr_target : string; rr_root : option string }.

Definition restatement_before (target : string) (block : dict) (layer event : dict) : res dict :=
  _ ← require_valid_epoch layer;
  meta ← get_obj "metadata" layer;
  let actual := get target meta in
  _ ← require_something_to_restate block actual;
  _ ← require_fresh_restatement block actual;
  events ← events_of layer;
  _ ← require_monotonic_restatement block events;
  Ok event.

Definition restatement_updates (target : string) (block : dict) (layer : dict) : res dict :=
  meta ← get_obj "metadata" layer;
  Ok {[target := merge_delta (get target meta) (get "after" block)]}.

Definition apply_restatement (layer_id : string) (block : dict) (rationale : string) (actor : LayerActor)
    (recorded_at : json) (config : ServiceConfig) (s : S) : res (RestatementResponse * S) :=
  _ ← require_signing_configured config;
  _ ← require_verified_human actor;
  _ ← require_rationale_length rationale;
  recorded_at ← of_option (as_str recorded_at) TypeError;
  _ ← require_timestamp_bounds now recorded_at;
  _ ← require_restatement_authority block;
  target ← (t ← hashable (get "target" block);
            match t with
            | JStr t => if bool_decide (t ∈ RestatementTarget) then Ok t else Err (Service ValidationError)
            | _ => Err (Service ValidationError)
            end);
  (** a reference that is not a text does not pass the event model *)
  finding_ref ← (if get_truthy "finding_ref" block then of_option (as_str (get "finding_ref" block)) ValueError
                 else Ok LAYER_SCOPE_REF);
  let block := delete "finding_ref" block in
  built ← build_restatement_event block rationale actor recorded_at finding_ref;
  let event := event_to_dict built in
  key ← layer_key opaque_layer_ids (data_dir config) layer_id;
  '((event_id, root), s) ← append_restatement get_schema key event (restatement_updates target block)
      (Some (finalize_layer config)) (Some (restatement_before target block)) s;
  Ok ({| rr_event_id := event_id; rr_layer_id := layer_id; rr_target := target;
         rr_root := text_or_none root |}, s).

(** [service.auth.authorize_restatement] and the route over both. *)
Definition authorize_restatement (actor : LayerActor) (block : dict) (config : ServiceConfig) : res unit :=
  _ ← require_admin actor (admin_identities config);
  require_restatement_approvers block actor (restatement_min_approvers config).
Definition post_restatement (layer_id : string) (restatement : dict) (rationale : string)
    (recorded_at finding_ref : option string) (now_text : string) (actor : LayerActor)
    (config : ServiceConfig) (s : S) : res (RestatementResponse * S) :=
  _ ← authorize_restatement actor restatement config;
  let block := match finding_ref with
               | Some r => if str_truthy r then <["finding_ref" := JStr r]> restatement else restatement
               | None => restatement
               end in
  apply_restatement layer_id block rationale actor (JStr (str_or recorded_at now_text)) config s.

(** *** The bulk form *)

Definition ITEM_KEYS : list string := ["layer"; "layer_id"; "rationale"; "recorded_at"].
Definition item_layer (item : dict) : json :=
  if get_truthy "layer" item then get "layer" item else get "layer_id" item.
Definition split_item (item : dict) : res (string * string * dict * json) :=
  let layer_id := item_layer item in
  _ ← raise_if (negb (truthy layer_id)) (Service ValidationError);
  let rationale := get "rationale" item in
  _ ← raise_if (negb (truthy rationale)) (Service ValidationError);
  id ← py_str layer_id;
  text ← py_str rationale;
  Ok (id, text, filter (fun kv => kv.1 ∉ ITEM_KEYS) item, get "recorded_at" item).

(** Is the exception recorded for its item, and the run goes on? *)
Definition is_item_failure (e : exn) : bool :=
  match e with Service _ | OSError => true | _ => is_value_error e end.

Definition apply_item (now_text : string) (actor : LayerActor) (config : ServiceConfig) (item : dict) (s : S)
  : res (RestatementResponse * S) :=
  '(layer_id, rationale, block, recorded_at) ← split_item item;
  apply_restatement layer_id block rationale actor (if truthy recorded_at then recorded_at else JStr now_text) config s.

(** One turn: what was applied, what failed (by index) and the store. *)
Definition batch_turn (now_text : string) (actor : LayerActor) (config : ServiceConfig)
    (acc : list RestatementResponse * list (Z * json * exn) * Z * S) (item : dict)
  : res (list RestatementResponse * list (Z * json * exn) * Z * S) :=
  let '(applied, failed, index, s) := acc in
  match apply_item now_text actor config item s with
  | Ok (r, s') => Ok (applied ++ [r], failed, index + 1, s')%Z
  | Err e =>
      if is_item_failure e then Ok (applied, failed ++ [(index, item_layer item, e)], index + 1, s)%Z
      else Err e
  end.
Definition apply_restatement_batch (now_text : string) (items : list dict) (actor : LayerActor)
    (config : ServiceConfig) (s : S)
  : res (list RestatementResponse * list (Z * json * exn) * S) :=
  _ ← raise_if (match items with [] => true | _ => false end) (Service ValidationError);
  '(applied, failed, _, s) ← foldM (batch_turn now_text actor config) items ([], [], 0%Z, s);
  Ok (applied, failed, s).

(** ** Resolving review items *)

Definition parse_item_key (key : string) : res (list json) :=
  parsed ← of_option (loads key) (Service ValidationError);
  match parsed with
  | JArr [a; b; c; d] => Ok [a; b; c; d]
  | _ => Err (Service ValidationError)
  end.

(** [except ValueError]. *)
Definition value_error_as_validation {A} (r : res A) : res A :=
  match r with
  | Err e => if is_value_error e then Err (Service ValidationError) else Err e
  | Ok a => Ok a
  end.

(** [resolve_handler.resolve_review_item]. *)
Definition resolve_item (layer_id key decision note : string) (config : ServiceConfig) (s : S) : res S :=
  _ ← require_signing_configured config;
  _ ← raise_if (negb (bool_decide (decision ∈ RESOLVED_STATUSES))) (Service ValidationError);
  item_key ← parse_item_key key;
  path ← layer_key opaque_layer_ids (data_dir config) layer_id;
  '(changed, s) ← value_error_as_validation (
     resolve_needs_review get_schema path item_key decision (text_or_none note) ∅ s);
  _ ← raise_if (negb changed) (Service NotFoundError);
  Ok s.

(** ** Creating a layer *)

Definition initialize_layer (layer_id : string) (shell : dict) (config : ServiceConfig)
    (product_repo_id : option string) (s : S) : res S :=
  value_error_as_validation (
    _ ← validate_layer shell;
    events ← of_option (shell !! "events") KeyError;
    _ ← (if truthy events then Err (Service ValidationError)
         else (queue ← of_option (shell !! "needs_review") KeyError;
               raise_if (truthy queue) (Service ValidationError)));
    key ← layer_key opaque_layer_ids (data_dir config) layer_id;
    b_initialize key shell product_repo_id s).

(** ** The sign and stamp routes *)

Definition not_initialized_as_not_found {A} (r : res A) : res A :=
  match r with
  | Err (Storage LayerNotInitializedError) => Err (Service LayerNotFoundError)
  | _ => r
  end.
Definition sign_layer_endpoint (layer_id : string) (rekor : bool) (config : ServiceConfig) (s : S)
  : res ((sign_status * option string) * S) :=
  path ← layer_key opaque_layer_ids (data_dir config) layer_id;
  not_initialized_as_not_found (b_mutate path (fun layer =>
    _ ← validate_layer layer; sign_layer config rekor None layer) s).
Definition stamp_layer_endpoint (layer_id : string) (fingerprints : gmap string string) (config : ServiceConfig)
    (s : S) : res ((string * Z) * S) :=
  path ← layer_key opaque_layer_ids (data_dir config) layer_id;
  not_initialized_as_not_found (b_mutate path (fun layer =>
    _ ← validate_layer layer; stamp_event_identities (JStr <$> fingerprints) config layer) s).
End Handlers.
