(* ===== verification/Service.v ===== *)
(** * What the service guarantees

    The write handlers of [Handlers.v] over any backend that keeps its promises:
    who may countersign a finding, what an applied restatement leaves, and what no
    sequence of requests can do to a layer's history. *)

From S2P Require Import Prelude PyStr Json Sha256 Errors Merkle Restatements Signing Ledger Identity.
From S2P Require Import Contracts Time Disposition Events Gates Records Backend FileBackend.
From S2P Require Import DbBackend Finalize Writer Handlers.
From stdpp Require Import options.

Lemma as_service_error_ok {A} (r : res A) a : as_service_error r = Ok a -> r = Ok a.
Proof. destruct r as [|[]]; cbn; congruence. Qed.
Lemma value_error_ok {A} (r : res A) a : value_error_as_validation r = Ok a -> r = Ok a.
Proof. destruct r as [|e]; cbn; [done|]. by destruct (is_value_error e). Qed.
Lemma not_found_ok {A} (r : res A) a : not_initialized_as_not_found r = Ok a -> r = Ok a.
Proof. unfold not_initialized_as_not_found. repeat case_match; congruence. Qed.

Section Service.
Context `{HF : HashFn} `{HT : SigningTools} `{HC : Contracts} `{HL : !ContractLaws}.
Context {S : Type} `{HB : !Backend S} `{HBL : !BackendLaws S}.
Context (get_schema : res (option (dict -> bool))) (now : Z).

(** ** Single events *)

(** What the hook leaves of an event: everything but its fingerprint. *)
Lemma before_append_frame kd ref who v layer event event' :
  before_append kd ref who v layer event = Ok event' ->
  require_valid_epoch layer = Ok tt
  /\ (kd = COUNTERSIGN -> require_two_person layer ref who v = Ok tt)
  /\ forall k, k <> "fingerprint" -> k <> "fingerprint_algo" -> get k event' = get k event.
Proof.
  unfold before_append. intros Hb. inv_bind Hb as [[]|] Hep. inv_bind Hb as [[]|] Htwo.
  split; [done|]. split; [intros ->; by rewrite bool_decide_true in Htwo|].
  unfold resolve_fingerprint_from_layer in Hb. destruct (get "events" layer); try (by injection Hb as <-).
  inv_bind Hb as [pairs|] Hp. destruct pairs; [by injection Hb as <-|].
  inv_bind Hb as [[b e]|] Ha. injection Hb as <-. apply attach_with_frame in Ha as (_ & _ & _ & Hk).
  intros k H1' H2'. unfold get. by rewrite Hk.
Qed.

Lemma submit_event_inv envelope actor config s r s' :
  submit_event get_schema now envelope actor config s = Ok (r, s') ->
  exists kd lid ref rationale at_text payload v key id root,
    event_kind_of (envelope_kind envelope) = Some kd
    /\ require_layer_id (envelope_event envelope) = Ok lid
    /\ layer_key opaque_layer_ids (data_dir config) lid = Ok key
    /\ actor_gates kd (envelope_event envelope) actor = Ok tt
    /\ require_finding_ref (envelope_event envelope) = Ok ref
    /\ build_payload kd (envelope_event envelope) ref rationale at_text actor = Ok (payload, v)
    /\ (str_truthy v = true -> require_verified_for_false_positive actor v = Ok tt)
    /\ append_event_finalized get_schema key payload (Some (finalize_layer config))
         (Some (before_append kd ref (str_or (identity actor) "") v)) s = Ok ((id, root), s').
Proof.
  unfold submit_event. intros Hs. inv_bind Hs. inv_bind Hs as [kd|] Hk. inv_bind Hs as [[[id root] s1]|] Ha.
  injection Hs as _ <-. apply as_service_error_ok in Ha. inv_bind Ha as [[]|] Hg. inv_bind Ha as [lid|] Hlid.
  inv_bind Ha as [ref|] Href. inv_bind Ha as [rat|] Hrat. inv_bind Ha as [at_text|] Hat. do 2 inv_bind Ha.
  inv_bind Ha as [[payload v]|] Hp. inv_bind Ha as [[]|] Hv. inv_bind Ha as [key|] Hkey.
  exists kd, lid, ref, rat, at_text, payload, v, key, id, root. unfold parse_event_kind in Hk.
  destruct (event_kind_of _) as [kd'|]; [|done]. injection Hk as ->.
  split; [done|]. split; [done|]. split; [done|]. split; [done|]. split; [done|]. split; [done|]. split; [|done].
  intros Ht. by rewrite Ht in Hv.
Qed.

(** A human-lane payload carries the given actor and decision. *)
Lemma build_human_payload ref decision rationale actor at_text built :
  build_human_event ref decision rationale actor at_text = Ok built ->
  opt_truthy (identity actor) = true
  /\ validity (disposition built) = Some (validity_for_decision decision)
  /\ event_to_dict built !! "finding_ref" = Some (JStr ref)
  /\ (exists src, event_to_dict built !! "source" = Some (JObj src)
       /\ src !! "actor" = Some (JObj (actor_to_dict actor)))
  /\ exists disp, event_to_dict built !! "disposition" = Some (JObj disp)
       /\ get "validity" disp = JStr (validity_for_decision decision).
Proof using HL.
  unfold build_human_event. intros Hb. inv_bind Hb as [[]|] Hid. apply raise_if_ok, negb_false_iff in Hid.
  injection Hb as <-. split; [done|]. split; [done|]. split; [by rewrite to_dict_finding_ref|]. split.
  - match goal with |- context [event_to_dict ?e] => destruct (to_dict_source e) as (src & Hs & _ & _ & Ha) end.
    by exists src.
  - match goal with |- context [event_to_dict ?e] => destruct (to_dict_disposition e) as (disp & Hs & Hv & _) end.
    by exists disp.
Qed.

Lemma log_shape layer : get "events" layer = JArr (log layer) \/ log layer = [].
Proof.
  unfold log, events_of, get_list. destruct (get "events" layer) as [| | | |es|]; [..|by left|];
    (destruct (truthy _); by right).
Qed.
(** An event of the log that can be read and is about the finding: by its
    reference or by its fingerprint. *)
Definition logged_about (events : list json) (ref : string) (e : LayerEvent) : Prop :=
  exists m, JObj m ∈ events /\ event_model_validate m = Some e
    /\ (finding_ref e = ref \/ (fingerprint_of e = Some ref /\ ref <> "")).
Lemma matching_logged events ref e : e ∈ matching_events events ref <-> logged_about events ref e.
Proof.
  unfold matching_events, logged_about, matches_finding. rewrite list_elem_of_In filter_In -list_elem_of_In.
  rewrite list_elem_of_omap orb_true_iff String.eqb_eq andb_true_iff bool_decide_eq_true. split.
  - intros [(raw & Hin & Hp) Hm]. unfold parse_event in Hp. destruct raw as [| | | | |m]; try done. exists m.
    destruct (event_model_validate m); [|done]. injection Hp as ->. split; [done|]. split; [done|].
    destruct Hm as [Hm|[Ht Hm]]; [by left|right]. split; [done|]. rewrite Hm in Ht. by apply str_truthy_spec in Ht.
  - intros (m & Hin & Hv & Hm). split; [exists (JObj m); split; [done|]; cbn; by rewrite Hv|].
    destruct Hm as [Hm|[Hm Hne]]; [by left|right]. rewrite Hm. split; [by apply str_truthy_spec|done].
Qed.

(** The two-person rule, over a log: everything in it can be read; and if an
    execution source has confirmed the finding, no verified human with the identity
    has already called it a false positive. *)
Definition two_person_rule (events : list json) (ref : string) (who : option string) : Prop :=
  (forall m, JObj m ∈ events -> event_model_validate m <> None)
  /\ ((exists e, logged_about events ref e /\ source_type (source e) ∈ ["validation_report"; "verification_report"]
        /\ validity (disposition e) = Some "confirmed") ->
      forall e, logged_about events ref e -> validity (disposition e) = Some "false_positive" ->
        kind (Contracts.actor (source e)) = "human" -> actor_verified e = true ->
        opt_truthy (identity (Contracts.actor (source e))) = true ->
        identity (Contracts.actor (source e)) <> who).
Lemma two_person_log layer ref who : require_two_person layer ref who "false_positive" = Ok tt ->
  two_person_rule (log layer) ref (Some who).
Proof.
  intros Hgate. destruct (log_shape layer) as [Hev|Hnil].
  2: { rewrite Hnil. split; [by intros m ?%not_elem_of_nil|]. intros (e & (m & ?%not_elem_of_nil & _) & _). done. }
  assert (has_unparseable (log layer) = false) as Hread.
  { unfold require_two_person in Hgate. rewrite Hev in Hgate. cbn in Hgate.
    destruct (has_unparseable (log layer)); [|done]. rewrite andb_false_r in Hgate. done. }
  split.
  - intros m Hm Hv. apply not_true_iff_false in Hread. apply Hread, existsb_exists. exists (JObj m).
    split; [by apply list_elem_of_In|]. cbn. by rewrite Hv.
  - intros (proof & Hin & Hty & Hval) e He Hfp Hh Hver Hid. apply matching_logged in Hin, He.
    destruct (two_person_ok layer (log layer) ref who proof Hev Hin) as [_ Hsig]; [|done|].
    + unfold exec_confirmed, has_validity. rewrite !bool_decide_true //.
    + apply (Hsig e He). unfold signed_fp, has_validity, is_human. rewrite bool_decide_true // Hver Hid Hh. done.
Qed.

(** What a countersign request asks for: its layer, the finding, by reference or
    fingerprint, and one of the decisions, named itself or by a verdict. *)
Definition requested (raw : dict) (layer_id ref decision : string) : Prop :=
  event_text raw "layer_id" = Ok layer_id
  /\ ref <> ""
  /\ (event_text raw "finding_ref" = Ok ref
       \/ (event_text raw "finding_ref" = Ok "" /\ event_text raw "finding_fingerprint" = Ok ref))
  /\ decision ∈ ["keep_open"; "false_positive"; "override_false_positive"]
  /\ (event_text raw "decision" = Ok decision
       \/ (event_text raw "decision" = Ok "" /\ exists verdict, event_text raw "verdict" = Ok verdict
            /\ decision = if String.eqb verdict "true_positive" then "keep_open" else verdict)).
Lemma requested_ref raw ref : require_finding_ref raw = Ok ref -> ref <> ""
  /\ (event_text raw "finding_ref" = Ok ref
       \/ (event_text raw "finding_ref" = Ok "" /\ event_text raw "finding_fingerprint" = Ok ref)).
Proof.
  unfold require_finding_ref, finding_ref_of. intros Hr. inv_bind Hr as [r|] Hf. inv_bind Hr as [[]|] Hne.
  injection Hr as ->. apply raise_if_ok, negb_false_iff, str_truthy_spec in Hne. split; [done|].
  inv_bind Hf as [t|] Ht. destruct (str_truthy t) eqn:E; [injection Hf as ->; by left|right].
  split; [|done]. by destruct t.
Qed.
Lemma requested_decision raw decision : resolve_decision raw = Ok decision ->
  decision ∈ ALLOWED_DECISIONS
  /\ (event_text raw "decision" = Ok decision
       \/ (event_text raw "decision" = Ok "" /\ exists verdict, event_text raw "verdict" = Ok verdict
            /\ decision = if String.eqb verdict "true_positive" then "keep_open" else verdict)).
Proof.
  unfold resolve_decision. intros Hr. inv_bind Hr as [rd|] Hd. inv_bind Hr as [rv|] Hv. inv_bind Hr.
  inv_bind Hr as [d|] Hc. inv_bind Hr as [[]|] Hin. injection Hr as ->.
  apply raise_if_ok, negb_false_iff, bool_decide_eq_true in Hin. split; [done|].
  destruct (str_truthy rd) eqn:Hrd; [injection Hc as ->; by left|]. right. split; [by destruct rd|].
  destruct (str_truthy rv); [|done]. injection Hc as <-. exists rv. split; [done|]. unfold decision_from_verdict.
  destruct (String.eqb_spec rv "false_positive") as [->|]; [done|]. done.
Qed.

(** What an accepted countersign request leaves: in the place of the layer it
    names, the log gained the event, or had one with its id; the actor is no machine
    and has an identity; the recorded event is about the finding and carries the
    actor, and the validity of the decision.  Where the decision makes the finding
    a false positive, a human actor is verified and the two-person rule holds. *)
Definition countersigned (config : ServiceConfig) (raw : dict) (actor : LayerActor) (s s' : S) : Prop :=
  exists layer_id ref decision key d d' event src disp,
    requested raw layer_id ref decision /\ layer_key opaque_layer_ids (data_dir config) layer_id = Ok key
    /\ stored (slot key) s = Some d /\ stored (slot key) s' = Some d'
    /\ (log d' = log d ++ [JObj event] \/ (log d' = log d /\ get "event_id" event ∈ map id_of (log d)))
    /\ kind actor <> "machine" /\ opt_truthy (identity actor) = true
    /\ get "finding_ref" event = JStr ref
    /\ get "source" event = JObj src /\ get "actor" src = JObj (actor_to_dict actor)
    /\ get "disposition" event = JObj disp
    /\ (decision = "keep_open" -> get "validity" disp = JStr "confirmed")
    /\ (decision <> "keep_open" -> get "validity" disp = JStr "false_positive"
         /\ (kind actor = "human" -> is_verified actor = true)
         /\ two_person_rule (log d) ref (identity actor)).

(** Who may countersign: the event is recorded as the actor the handler was
    given, not as the request says. *)
Theorem countersign_authority envelope actor config s r s' :
  good s -> envelope_kind envelope = "countersign" ->
  submit_event get_schema now envelope actor config s = Ok (r, s') ->
  countersigned config (envelope_event envelope) actor s s'.
Proof using HL HBL.
  intros Hg Hkind Hs. apply submit_event_inv in Hs
    as (kd & lid & ref & rat & at_text & payload & v & key & id & root & Hk & Hlid & Hkey & Hgates & Href & Hp & Hv & Ha).
  rewrite Hkind in Hk. injection Hk as <-.
  destruct (mutate_promise _ _ _ _ _ _ Hg Ha) as (d & d' & Hd & Hstep & _ & Hd' & _).
  unfold append_step in Hstep. inv_bind Hstep as [ev|] Hb. cbn [run_before] in Hb.
  inv_bind Hstep as [[i1 d1]|] H1'. inv_bind Hstep as [[r2 d2]|] H2'. injection Hstep as <- <- <-.
  destruct (before_append_frame _ _ _ _ _ _ _ Hb) as (_ & Htwo & Hframe). specialize (Htwo eq_refl).
  unfold build_payload in Hp.
  replace (bool_decide (COUNTERSIGN ∈ BIRTH_EVENT_KINDS)) with false in Hp by reflexivity.
  replace (bool_decide (COUNTERSIGN = SEVERITY)) with false in Hp by reflexivity. inv_bind Hp as [decision|] Hdec.
  inv_bind Hp as [built|] Hbuilt. inv_bind Hp. injection Hp as <- <-.
  destruct (build_human_payload _ _ _ _ _ _ Hbuilt) as (Hid & Hval & Hfref & (src & Hsrc & Hact) & (disp & Hdisp & Hvd)).
  apply append_one_inv in H1' as (event & es & Hprep & He & Hcase). apply log_events in He as Hlog.
  apply prepare_event_inv in Hprep as (Hevid & _ & _ & Hget).
  assert (log d2 = log d1) as Hkeep by exact (finalize_keeps_log config _ _ _ H2').
  assert (kind actor <> "machine") as Hnm.
  { unfold actor_gates in Hgates. inv_bind Hgates. inv_bind Hgates. inv_bind Hgates as [[]|] Hm.
    apply reject_ok in Hm. cbn in Hm. by apply String.eqb_neq in Hm. }
  apply requested_ref in Href as [Hne Href]. apply requested_decision in Hdec as [Hall Hdec].
  unfold require_layer_id in Hlid. inv_bind Hlid as [l0|] Hl0. inv_bind Hlid. injection Hlid as ->.
  exists lid, ref, decision, key, d, d2, event, src, disp.
  split; [by split_and!|]. split; [done|]. split; [done|]. split; [done|]. split.
  { rewrite Hkeep. destruct Hcase as [[Hin ->]|[_ ->]]; [right; by rewrite Hlog Hevid|left].
    by rewrite log_insert_events Hlog. }
  split; [done|]. split; [done|]. split; [rewrite Hget // Hframe //; unfold get; by rewrite Hfref|].
  split; [rewrite Hget // Hframe //; unfold get; by rewrite Hsrc|]. split; [unfold get; by rewrite Hact|].
  split; [rewrite Hget // Hframe //; unfold get; by rewrite Hdisp|]. split.
  { intros ->. by rewrite Hvd. }
  intros Hfp. assert (validity_for_decision decision = "false_positive") as Hvfp.
  { do 3 (apply elem_of_cons in Hall as [->|Hall]; [done|]). by apply not_elem_of_nil in Hall. }
  split; [by rewrite Hvd Hvfp|]. rewrite Hval Hvfp in Hv, Htwo. cbn in Hv, Htwo. split.
  - intros Hh. specialize (Hv eq_refl). unfold require_verified_for_false_positive in Hv. apply reject_ok in Hv.
    rewrite Hh Hid /= in Hv. by apply negb_false_iff in Hv.
  - apply two_person_log in Htwo. destruct (identity actor) as [w|]; [|done]. by destruct w.
Qed.

(** ** Batches *)

(** What the two batch changes of a layer have in common. *)
Definition batch_effect (new : list dict) (ids : list string) (d d' : dict) : Prop :=
  exists evs, log d' = log d ++ map JObj evs /\ map (get "event_id") evs = map JStr ids
    /\ (forall e, e ∈ new -> exists id, canonical_id e = Ok id /\ JStr id ∈ map id_of (log d'))
    /\ forall e, e ∈ evs -> prepared_from new e.

Lemma batch_effect_of new d ids d1 d2 : append_many get_schema new d = Ok (ids, d1) -> log d2 = log d1 ->
  batch_effect new ids d d2.
Proof. intros [_ Hex]%append_many_grows Hl. unfold batch_effect. by rewrite Hl. Qed.

Lemma submit_batch_effect layer_id body actor config s r s' e es :
  good s -> batch_events body = e :: es ->
  submit_batch get_schema layer_id body actor config s = Ok (r, s') ->
  event_count r = (Z.of_nat (length (response_event_ids r)) + queue_added r)%Z
  /\ exists key d d', stored (slot key) s = Some d /\ stored (slot key) s' = Some d'
     /\ batch_effect (map (fun e => stamp_fingerprint_algo (stamp_batch_actor actor e)) (batch_events body))
          (response_event_ids r) d d'
     /\ verify_merkle_integrity d' = verify_restated_metadata d'.
Proof using HBL.
  intros Hg Hev. unfold submit_batch. intros Hs. do 2 inv_bind Hs. inv_bind Hs as [key|] Hkey.
  inv_bind Hs as [[[[ids root] added] s1]|] Hm. injection Hs as <- <-. cbn [response_event_ids event_count queue_added].
  split; [done|]. exists key. set (events := map _ (batch_events body)) in *.
  assert (exists e' es', events = e' :: es') as (e' & es' & Hcons) by (unfold events; rewrite Hev; by eexists _, _).
  rewrite Hcons in Hm. destruct (map _ (batch_needs_review body)) as [|it its].
  - inv_bind Hm as [[[i2 r2] s2]|] Hq. injection Hm as <- _ _ <-. apply as_service_error_ok in Hq.
    destruct (mutate_promise _ _ _ _ _ _ Hg Hq) as (d & d' & Hd & Hf & _ & Hd' & _). exists d, d'.
    split; [done|]. split; [done|]. unfold batch_step in Hf. inv_bind Hf. inv_bind Hf as [[i d1]|] H1'.
    inv_bind Hf as [[r3 d2]|] H2'. injection Hf as <- <- <-. rewrite -Hcons in H1'.
    split; [exact (batch_effect_of _ _ _ _ _ H1' (finalize_keeps_log config _ _ _ H2'))|].
    by destruct (finalize_inv _ _ _ _ H2') as (Hv & _).
  - apply as_service_error_ok in Hm. destruct (mutate_promise _ _ _ _ _ _ Hg Hm) as (d & d' & Hd & Hf & _ & Hd' & _).
    exists d, d'. split; [done|]. split; [done|]. unfold atomic_step in Hf. inv_bind Hf as [[i d1]|] H1'.
    inv_bind Hf as [[n d2]|] H2'. inv_bind Hf as [[r3 d3]|] H3'. injection Hf as <- <- <- <-. rewrite -Hcons in H1'.
    apply queue_step_log in H2'. pose proof (finalize_keeps_log config _ _ _ H3') as Hk.
    split; [apply (batch_effect_of _ _ _ _ _ H1'); congruence|]. by destruct (finalize_inv _ _ _ _ H3') as (Hv & _).
Qed.

(** C29: what a batch leaves.  When a batch with events is accepted, the events it
    appended are exactly those whose ids the response lists, after the ones the
    layer had; each carries the caller as authenticated, whatever actor the
    request named; every submitted event is in the log, appended now or there
    before; and the layer passes integrity verification, but for the restatement
    check. *)
Theorem batch_is_attributed layer_id body actor config s r s' e es :
  good s -> batch_events body = e :: es ->
  submit_batch get_schema layer_id body actor config s = Ok (r, s') ->
  exists key d d' evs, stored (slot key) s = Some d /\ stored (slot key) s' = Some d'
    /\ log d' = log d ++ map JObj evs /\ map (get "event_id") evs = map JStr (response_event_ids r)
    /\ (forall ev, ev ∈ evs -> exists src, get "source" ev = JObj src /\ get "actor" src = JObj (actor_to_dict actor))
    /\ (forall e0, e0 ∈ batch_events body -> exists id, canonical_id (stamp_batch_actor actor e0) = Ok id
          /\ JStr id ∈ map id_of (log d'))
    /\ verify_merkle_integrity d' = verify_restated_metadata d'.
Proof using HBL.
  intros Hg Hev Hs. destruct (submit_batch_effect _ _ _ _ _ _ _ _ _ Hg Hev Hs)
    as (_ & key & d & d' & Hd & Hd' & (evs & Hl & Hids & Hall & Hfrom) & Hv).
  assert (forall k e0, k <> "fingerprint_algo" -> stamp_fingerprint_algo (stamp_batch_actor actor e0) !! k
    = stamp_batch_actor actor e0 !! k) as Hstamp.
  { intros k e0 Hk. unfold stamp_fingerprint_algo. destruct (_ && _); [|done]. rewrite lookup_insert_ne; [congruence|done]. }
  exists key, d, d', evs. split; [done|]. split; [done|]. split; [done|]. split; [done|]. split; [|split; [|done]].
  - intros ev (e0 & Hin & Hget)%Hfrom. apply list_elem_of_fmap in Hin as (e1 & -> & _). rewrite Hget //.
    unfold get at 1. rewrite Hstamp // /stamp_batch_actor lookup_insert_eq.
    eexists. split; [reflexivity|]. by rewrite get_insert_eq.
  - intros e0 Hin. destruct (Hall (stamp_fingerprint_algo (stamp_batch_actor actor e0))) as (id & Hc & Hlog).
    { apply list_elem_of_fmap. by exists e0. }
    exists id. split; [|done]. rewrite -Hc. unfold canonical_id, get_in_default, get_obj, get. by rewrite !Hstamp.
Qed.

(** ** Restatements *)

Lemma metadata_or_new_obj d m : metadata_or_new d = Ok m -> get_obj "metadata" d = Ok m.
Proof.
  unfold metadata_or_new, get_obj, get. destruct (d !! "metadata") as [[]|]; try done; intros [= ->]; done.
Qed.

Lemma restatement_before_inv target block layer event event' :
  restatement_before target block layer event = Ok event' ->
  event' = event /\ exists m events, get_obj "metadata" layer = Ok m /\ events_of layer = Ok events
    /\ require_fresh_restatement block (get target m) = Ok tt /\ require_monotonic_restatement block events = Ok tt.
Proof.
  unfold restatement_before. intros Hb. inv_bind Hb. inv_bind Hb as [m|] Hm. inv_bind Hb. inv_bind Hb as [[]|] Hf.
  inv_bind Hb as [es|] He. inv_bind Hb as [[]|] Hmono. injection Hb as <-. split; [done|]. by exists m, es.
Qed.

(** What [require_fresh_restatement] says: the entries the block names as what it
    replaces are what storage holds. *)
Definition fresh (before actual : json) : Prop :=
  match before, actual with
  | JObj b, JObj a => forall k v, b !! k = Some v -> py_eqb (get k a) v = true
  | _, _ => py_eqb before actual = true
  end.
Lemma require_fresh_ok block actual : require_fresh_restatement block actual = Ok tt -> fresh (get "before" block) actual.
Proof.
  unfold require_fresh_restatement, fresh. destruct (get "before" block), actual; rewrite reject_ok;
    try (by intros ?%negb_false_iff). rewrite existsb_items_false. intros Hall k v Hk.
  specialize (Hall k v Hk). by apply negb_false_iff in Hall.
Qed.

Lemma get_updated target w (m : dict) :
  get target (apply_updates {[target := w]} m) = w
  /\ forall k, k <> target -> apply_updates {[target := w]} m !! k = m !! k.
Proof.
  split.
  - unfold get, apply_updates. rewrite lookup_merge lookup_singleton_eq. by destruct w, (m !! target).
  - intros k Hk. unfold apply_updates. rewrite lookup_merge lookup_singleton_ne; [congruence|].
    by destruct (m !! k).
Qed.

Lemma signed_field_kept (m m' : dict) f : f ∈ SIGNED_METADATA_FIELDS ->
  (forall k, k ∉ SIGNATURE_FIELDS -> k ∉ STAMPED_FIELDS -> m' !! k = m !! k) -> get f m' = get f m.
Proof.
  intros Hin Hk. unfold get. rewrite Hk; [| |done]; do 3 (apply elem_of_cons in Hin as [->|Hin];
    [apply (bool_decide_unpack _); vm_compute; exact I|]); by apply not_elem_of_nil in Hin.
Qed.

Context (RestatementTarget : list string).

(** One write of a restatement: the metadata it finds and leaves. *)
Lemma restatement_write_inv target block event config d res d' : target ∈ SIGNED_METADATA_FIELDS ->
  restatement_step get_schema event (restatement_updates target block) (Some (finalize_layer config))
    (Some (restatement_before target block)) d = Ok (res, d') ->
  exists m m' events, metadata_or_new d = Ok m /\ d' !! "metadata" = Some (JObj m') /\ events_of d = Ok events
    /\ require_fresh_restatement block (get target m) = Ok tt /\ require_monotonic_restatement block events = Ok tt
    /\ get target m' = merge_delta (get target m) (get "after" block)
    /\ forall f, f ∈ SIGNED_METADATA_FIELDS -> f <> target -> get f m' = get f m.
Proof.
  intros Hin. unfold restatement_step. intros Hs. inv_bind Hs as [ev|] Hb. cbn [run_before] in Hb.
  apply restatement_before_inv in Hb as (-> & m0 & es & Hm0 & He & Hfresh & Hmono).
  inv_bind Hs as [m|] Hm. apply metadata_or_new_obj in Hm as Hm'. rewrite Hm0 in Hm'. injection Hm' as ->.
  inv_bind Hs. destruct a as [i0 prep]. inv_bind Hs as [[i1 d1]|] H1'. inv_bind Hs as [upd|] Hu. inv_bind Hs.
  inv_bind Hs as [[root d2]|] Hf. injection Hs as _ <-. cbn [run_finalize] in Hf.
  assert (get_obj "metadata" d1 = Ok m) as Hd1.
  { apply append_one_inv in H1' as (e' & es' & _ & _ & [[_ ->]|[_ ->]]); [apply get_obj_with_metadata|].
    unfold get_obj. rewrite get_insert_ne; [done|]. unfold with_metadata. by rewrite get_insert_eq. }
  unfold restatement_updates in Hu. rewrite Hd1 in Hu. injection Hu as <-.
  destruct (finalize_inv _ _ _ _ Hf) as (_ & _ & meta & m' & Hset & Hmeta & _ & Hkept & _).
  rewrite setdefault_with_metadata in Hset. injection Hset as <-.
  destruct (get_updated target (merge_delta (get target m) (get "after" block)) m) as [Ht Ho].
  exists m, m', es. split_and!; try done.
  - by rewrite (signed_field_kept _ _ target Hin Hkept).
  - intros f Hf' Hne. rewrite (signed_field_kept _ _ f Hf' Hkept). unfold get. by rewrite Ho.
Qed.

(** C4: what an applied restatement means, end to end.  The author is a verified
    human and the block names a ticket; the entries it claims to replace are what
    storage held when it was written; its new values, entry
    by entry where they are a map and as a whole where they are not, are ones no
    earlier restatement of the field has moved from or to; and afterwards the field is the
    old value with the block's delta merged in, while every other signed field of
    the metadata is as it was. *)
Theorem applied_restatement layer_id block rationale actor recorded_at config s r s' :
  good s -> RestatementTarget ⊆ SIGNED_METADATA_FIELDS ->
  apply_restatement get_schema now RestatementTarget layer_id block rationale actor recorded_at config s = Ok (r, s') ->
  kind actor = "human" /\ is_verified actor = true
  /\ (exists ticket, authority_field "ticket" block = JStr ticket /\ strip ticket <> "")
  /\ exists key target d d' m m', get "target" block = JStr target
     /\ stored (slot key) s = Some d /\ stored (slot key) s' = Some d'
     /\ metadata_or_new d = Ok m /\ d' !! "metadata" = Some (JObj m')
     /\ fresh (get "before" block) (get target m)
     /\ (forall b mm k v after v', earlier_restatement (log d) target b ->
           get "before" b = JObj mm \/ get "after" b = JObj mm -> mm !! k = Some v ->
           get "after" block = JObj after -> after !! k = Some v' -> py_eqb v' v = false)
     /\ (forall b v, earlier_restatement (log d) target b ->
           (forall after, get "after" block <> JObj after) -> v = get "before" b \/ v = get "after" b ->
           py_eqb (get "after" block) v = false)
     /\ delta_applied (get target m) (get "after" block) (get target m')
     /\ forall f, f ∈ SIGNED_METADATA_FIELDS -> f <> target -> get f m' = get f m.
Proof using HBL.
  intros Hg Hsub. unfold apply_restatement. intros Ha. inv_bind Ha. inv_bind Ha as [[]|] Hhum. inv_bind Ha.
  inv_bind Ha as [at_text|] Hat. inv_bind Ha. inv_bind Ha as [[]|] Hauth. inv_bind Ha as [target|] Ht.
  inv_bind Ha as [fr|] Hfr. inv_bind Ha as [built|] Hbuilt. inv_bind Ha as [key|] Hkey.
  inv_bind Ha as [[[id root] s1]|] Happ. injection Ha as _ <-.
  apply require_verified_human_ok in Hhum as (Hk & _ & Hver). split; [done|]. split; [done|]. split.
  { unfold require_restatement_authority in Hauth. apply bind_unit_ok in Hauth as [_ Hauth].
    apply bind_unit_ok in Hauth as [Htick _]. apply reject_ok in Htick.
    destruct (authority_field "ticket" block) as [| | |t| |]; try done. exists t. split; [done|].
    apply negb_false_iff, str_truthy_spec in Htick. done. }
  inv_bind Ht as [t|] Hh. assert (get "target" block = JStr target /\ target ∈ RestatementTarget) as [Htg Htin].
  { destruct t as [| | |t'| |]; try done. destruct (bool_decide_reflect (t' ∈ RestatementTarget)); [|done].
    injection Ht as <-. split; [|done]. by destruct (get "target" block); try done; injection Hh as <-. }
  apply Hsub in Htin. destruct (mutate_promise _ _ _ _ _ _ Hg Happ) as (d & d' & Hd & Hstep & _ & Hd' & _).
  apply restatement_write_inv in Hstep as (m & m' & es & Hm & Hm' & He & Hfresh & Hmono & Htv & Ho); [|done].
  set (blk := delete "finding_ref" block) in *.
  assert (forall k, k <> "finding_ref" -> get k blk = get k block) as Hblk
    by (intros k Hne; unfold blk; apply get_delete_ne; congruence).
  exists key, target, d, d', m, m'. apply require_fresh_ok in Hfresh. rewrite Hblk // in Hfresh.
  rewrite Hblk // in Htv. apply log_events in He as Hlog. split_and!; try done.
  - intros b mm k v after v' Hb Hmm Hkv Hafter Hkv'. rewrite Hlog in Hb.
    apply not_true_iff_false. intros Heq. refine (no_rollback blk es target b k v v' mm after _ Hb Hmm Hkv _ Hkv' Heq Hmono);
      by rewrite Hblk.
  - intros b v Hb Hno Hv. rewrite Hlog in Hb. apply not_true_iff_false. rewrite -(Hblk "after") // in Hno |- *.
    intros Heq. refine (no_rollback_value blk es target b v _ Hb Hv Hno Heq Hmono). by rewrite Hblk.
  - rewrite Htv. apply merge_delta_applied.
Qed.

(** ** Any sequence of requests *)

(** An event as it was, but that it may have been given the fingerprint it
    lacked. *)
Definition same_event (e e' : json) : Prop :=
  e' = e \/ exists a b, e = JObj a /\ e' = JObj b /\ get_truthy "fingerprint" a = false
    /\ forall k, k <> "fingerprint" -> k <> "fingerprint_algo" -> b !! k = a !! k.
Definition history_kept (d d' : dict) : Prop :=
  exists old new, log d' = old ++ new /\ Forall2 same_event (log d) old.

#[global] Instance same_event_trans : Transitive same_event.
Proof.
  intros e1 e2 e3 [->|(a & b & -> & -> & Hf & Hk)]; [done|]. intros [->|(b' & c & [= <-] & -> & _ & Hk')]; right.
  - by exists a, b.
  - exists a, c. split_and!; try done. intros k H1' H2'. rewrite Hk' // Hk //.
Qed.
Lemma history_refl d d' : log d' = log d -> history_kept d d'.
Proof.
  intros Hl. exists (log d), []. rewrite Hl app_nil_r. split; [done|]. apply Forall_Forall2_diag, Forall_forall.
  intros; by left.
Qed.
Lemma history_trans d1 d2 d3 : history_kept d1 d2 -> history_kept d2 d3 -> history_kept d1 d3.
Proof.
  intros (o1 & n1 & L1 & F1) (o2 & n2 & L2 & F2). rewrite L1 in F2.
  apply Forall2_app_inv_l in F2 as (p & q & Fp & Fq & ->). exists p, (q ++ n2). rewrite L2 app_assoc.
  split; [done|]. etrans; [exact F1|exact Fp].
Qed.
Lemma grows_history d d' : grows d d' -> history_kept d d'.
Proof.
  intros (new & Hl & _). exists (log d), (map JObj new). split; [done|]. apply Forall_Forall2_diag, Forall_forall.
  intros; by left.
Qed.

Lemma stamp_history fps config d r d' : stamp_event_identities fps config d = Ok (r, d') -> history_kept d d'.
Proof.
  destruct r as [root n]. intros (es & stamped & He & Hm & _ & He' & _)%stamp_identities_inv.
  apply log_events in He, He'. exists (map snd stamped), []. rewrite app_nil_r He. split; [done|].
  apply mapR_ok_Forall2 in Hm. clear He He'. induction Hm as [|e [b e'] es stamped Ha _ IH]; constructor; [|exact IH].
  unfold attach_event in Ha. destruct e as [| | | | |a]; try done. inv_bind Ha as [[b1 a1]|] Hat.
  injection Ha as _ <-. cbn. unfold attach_identity in Hat. apply attach_with_frame in Hat as (Hfp & Hf & _ & Hk).
  destruct b1; [|left; by rewrite (Hf eq_refl)]. right. exists a, a1. split_and!; try done.
  destruct (get_truthy "fingerprint" a); [|done]. by specialize (Hfp eq_refl).
Qed.

Lemma sign_layer_log config rekor cred d r d' : sign_layer config rekor cred d = Ok (r, d') -> log d' = log d.
Proof.
  unfold sign_layer. intros Hs. inv_bind Hs as [[dr d1]|] Hst. inv_bind Hs as [[at_ d2]|] Hsg. inv_bind Hs.
  injection Hs as _ <-. destruct (stamp_inv _ _ _ Hst) as [? ? ? ? ? _ _ _ _ _ _ Hl1].
  assert (log d1 = log d) as <- by (rewrite Hl1; apply log_with_metadata).
  destruct (sign_frame _ _ _ _ _ Hsg) as [[_ ->]|(_ & meta & sg & m & _ & ->)]; [done|]. apply log_with_metadata.
Qed.

Lemma atomic_step_grows events items config d r d' :
  atomic_step get_schema events items config d = Ok (r, d') -> grows d d'.
Proof.
  unfold atomic_step. intros Ha. inv_bind Ha as [[ids d1]|] H1'. inv_bind Ha as [[n d2]|] H2'.
  inv_bind Ha as [[root d3]|] H3'. injection Ha as _ <-. apply append_many_grows in H1' as [Hg _].
  apply queue_step_log in H2'. apply (finalize_keeps_log config) in H3'.
  eapply grows_trans; [exact Hg|]. apply grows_same. congruence.
Qed.

(** One request that changed the store. *)
Inductive service_step (s s' : S) : Prop :=
| post_event envelope actor config r :
    submit_event get_schema now envelope actor config s = Ok (r, s') -> service_step s s'
| post_submit layer_id body actor config r :
    submit_batch get_schema layer_id body actor config s = Ok (r, s') -> service_step s s'
| post_restate layer_id block rationale recorded_at fref now_text actor config r :
    post_restatement get_schema now RestatementTarget layer_id block rationale recorded_at fref now_text actor config s
    = Ok (r, s') -> service_step s s'
| post_resolve layer_id key decision note config :
    resolve_item get_schema layer_id key decision note config s = Ok s' -> service_step s s'
| post_initialize layer_id shell config owner :
    initialize_layer layer_id shell config owner s = Ok s' -> service_step s s'
| post_sign layer_id rekor config r : sign_layer_endpoint layer_id rekor config s = Ok (r, s') -> service_step s s'
| post_stamp layer_id fps config r : stamp_layer_endpoint layer_id fps config s = Ok (r, s') -> service_step s s'.

Definition keeps_history (s s' : S) : Prop :=
  good s' /\ forall i d, stored i s = Some d -> exists d', stored i s' = Some d' /\ history_kept d d'.

Lemma mutate_history A k (f : dict -> res (A * dict)) s a s' : good s ->
  (forall d a d', f d = Ok (a, d') -> history_kept d d') -> b_mutate k f s = Ok (a, s') -> keeps_history s s'.
Proof using HBL.
  intros Hg Hf Hm. destruct (mutate_promise _ _ _ _ _ _ Hg Hm) as (d & d' & Hd & Hfd & _ & Hd' & Hg' & _ & Ho).
  split; [done|]. intros i d0 Hi. destruct (decide (i = slot k)) as [->|Hne].
  - rewrite Hd in Hi. injection Hi as <-. exists d'. split; [done|exact (Hf _ _ _ Hfd)].
  - exists d0. rewrite Ho //. split; [done|by apply history_refl].
Qed.
Lemma writer_history s s' : good s -> writer_step get_schema s s' -> keeps_history s s'.
Proof using HBL.
  intros Hg Hw. destruct (writer_step_grows get_schema _ _ Hg Hw) as [Hg' Hall]. split; [done|].
  intros i d Hd. destruct (Hall i d Hd) as (d' & Hd' & Hgr). exists d'. split; [done|by apply grows_history].
Qed.
Lemma keeps_history_refl s : good s -> keeps_history s s.
Proof. intros Hg. split; [done|]. intros i d Hd. exists d. split; [done|by apply history_refl]. Qed.

Lemma apply_restatement_step layer_id block rationale actor recorded_at config s r s' :
  apply_restatement get_schema now RestatementTarget layer_id block rationale actor recorded_at config s = Ok (r, s') ->
  writer_step get_schema s s'.
Proof.
  unfold apply_restatement. intros Ha. do 3 inv_bind Ha. inv_bind Ha. do 2 inv_bind Ha. inv_bind Ha as [target|] Ht.
  inv_bind Ha. inv_bind Ha as [built|] Hbuilt. inv_bind Ha as [key|] Hkey.
  inv_bind Ha as [[[id root] s1]|] Happ. injection Ha as _ <-.
  exact (ws_restate get_schema s s1 key (event_to_dict built) _ (Some config) _ (id, root) Happ).
Qed.

Lemma submit_batch_history layer_id body actor config s r s' : good s ->
  submit_batch get_schema layer_id body actor config s = Ok (r, s') -> keeps_history s s'.
Proof using HBL.
  intros Hg. unfold submit_batch. intros Hs. do 2 inv_bind Hs. inv_bind Hs as [key|] Hkey.
  set (events := map _ (batch_events body)) in *. set (items := map _ (batch_needs_review body)) in *.
  inv_bind Hs as [[[[ids root] added] s1]|] Hm. injection Hs as _ <-.
  destruct events as [|e es], items as [|it its].
  - injection Hm as <- <- <- <-. by apply keeps_history_refl.
  - inv_bind Hm as [[n s2]|] Hq. injection Hm as _ _ _ <-. apply as_service_error_ok in Hq.
    exact (writer_history _ _ Hg (ws_queue get_schema _ _ key _ n Hq)).
  - inv_bind Hm as [[[i2 r2] s2]|] Hq. injection Hm as _ _ _ <-. apply as_service_error_ok in Hq.
    exact (writer_history _ _ Hg (ws_batch get_schema _ _ key _ (Some config) None (i2, r2) Hq)).
  - apply as_service_error_ok in Hm. refine (mutate_history _ _ _ _ _ _ Hg _ Hm). intros d res0 d' Ha.
    exact (grows_history _ _ (atomic_step_grows _ _ _ _ _ _ Ha)).
Qed.

Lemma service_step_history s s' : good s -> service_step s s' -> keeps_history s s'.
Proof using HBL.
  intros Hg [env actor config r Hs|lid body actor config r Hs|lid blk rat at_ fref nt actor config r Hs
    |lid key dec note config Hs|lid shell config owner Hs|lid rekor config r Hs|lid fps config r Hs].
  - apply submit_event_inv in Hs as (kd & lid & ref & rat & at_ & payload & v & key & id & root & _ & _ & _ & _ & _ & _ & _ & Ha).
    exact (writer_history _ _ Hg (ws_append get_schema _ _ key payload (Some config) _ (id, root) Ha)).
  - exact (submit_batch_history _ _ _ _ _ _ _ Hg Hs).
  - unfold post_restatement in Hs. inv_bind Hs. exact (writer_history _ _ Hg (apply_restatement_step _ _ _ _ _ _ _ _ _ Hs)).
  - unfold resolve_item in Hs. do 2 inv_bind Hs. inv_bind Hs as [ik|] Hik. inv_bind Hs as [path|] Hp.
    inv_bind Hs as [[c s1]|] Hr. inv_bind Hs. injection Hs as <-. apply value_error_ok in Hr.
    exact (writer_history _ _ Hg (ws_resolve get_schema _ _ path _ _ _ _ c Hr)).
  - unfold initialize_layer in Hs. apply value_error_ok in Hs. do 3 inv_bind Hs. inv_bind Hs as [key|] Hk.
    destruct (initialize_promise _ _ _ _ _ Hg Hs) as (Hnone & _ & _ & Hg' & _ & Ho). split; [done|].
    intros i d Hd. exists d. rewrite Ho; [|split; [done|by apply history_refl]]. intros ->. by rewrite Hnone in Hd.
  - unfold sign_layer_endpoint in Hs. inv_bind Hs as [path|] Hp. apply not_found_ok in Hs.
    refine (mutate_history _ _ _ _ _ _ Hg _ Hs). intros d a d' Ha. inv_bind Ha.
    apply history_refl. exact (sign_layer_log _ _ _ _ _ _ Ha).
  - unfold stamp_layer_endpoint in Hs. inv_bind Hs as [path|] Hp. apply not_found_ok in Hs.
    refine (mutate_history _ _ _ _ _ _ Hg _ Hs). intros d a d' Ha. inv_bind Ha. exact (stamp_history _ _ _ _ _ Ha).
Qed.

(** No request rewrites history.  After any sequence of requests that change
    the store - events, batches, restatements, review decisions, new layers,
    signatures and identity stamps, by any callers under any configurations -
    every layer that was there is still there, and its events are the first of
    its events now, in the same order, each as it was but that it may have been
    given the fingerprint it lacked. *)
Theorem service_keeps_history s s' i d :
  good s -> rtc service_step s s' -> stored i s = Some d ->
  exists d', stored i s' = Some d' /\ history_kept d d'.
Proof using HBL.
  intros Hg Hsteps. revert d Hg. induction Hsteps as [s|s1 s2 s3 H12 _ IH]; intros d Hg Hd.
  - exists d. split; [done|by apply history_refl].
  - destruct (service_step_history _ _ Hg H12) as [Hg2 Hall]. destruct (Hall i d Hd) as (d2 & Hd2 & Hk).
    destruct (IH d2 Hg2 Hd2) as (d3 & Hd3 & Hk3). exists d3. split; [done|exact (history_trans _ _ _ Hk Hk3)].
Qed.

(** ** Bulk restatements *)

(** The items of a bulk run are applied in order, each one write; a refused item
    is recorded and leaves the store as it was. *)
Theorem bulk_restatements_account now_text items actor config s applied failed s' :
  apply_restatement_batch get_schema now RestatementTarget now_text items actor config s = Ok (applied, failed, s') ->
  length applied + length failed = length items /\ nsteps (writer_step get_schema) (length applied) s s'.
Proof.
  unfold apply_restatement_batch. intros Hb. inv_bind Hb. inv_bind Hb as [[[[ap fl] ix] s1]|] Hf.
  injection Hb as <- <- <-.
  enough (forall ap0 fl0 ix0 s0 s2, nsteps (writer_step get_schema) (length ap0) s2 s0 ->
    foldM (batch_turn get_schema now RestatementTarget now_text actor config) items (ap0, fl0, ix0, s0)
      = Ok (ap, fl, ix, s1) ->
    length ap + length fl = length ap0 + length fl0 + length items
    /\ nsteps (writer_step get_schema) (length ap) s2 s1) as Hgen.
  { destruct (Hgen [] [] 0%Z s s) as [Hn Hs]; [apply nsteps_O|exact Hf|]. cbn in Hn. split; [lia|done]. }
  clear Hf E. induction items as [|item items IH]; intros ap0 fl0 ix0 s0 s2 Hst Hf; cbn [foldM] in Hf.
  - injection Hf as <- <- <- <-. cbn. split; [lia|done].
  - inv_bind Hf as [[[[ap1 fl1] ix1] sx]|] Ht. unfold batch_turn in Ht.
    destruct (apply_item _ _ _ _ _ _ _ _) as [[r sy]|er] eqn:Ha.
    + injection Ht as <- <- <- <-. unfold apply_item in Ha. inv_bind Ha as [[[[lid rat] blk] ra]|] Hsp.
      apply apply_restatement_step in Ha.
      assert (nsteps (writer_step get_schema) (length (ap0 ++ [r])) s2 sy) as Hst'
        by (rewrite length_app Nat.add_1_r; exact (nsteps_r _ _ _ _ Hst Ha)).
      destruct (IH _ _ _ _ s2 Hst' Hf) as [Hn Hs]. rewrite length_app in Hn. cbn in Hn |- *. split; [lia|done].
    + destruct (is_item_failure er); [|done]. injection Ht as <- <- <- <-.
      destruct (IH _ _ _ _ s2 Hst Hf) as [Hn Hs]. rewrite length_app in Hn. cbn in Hn |- *. split; [lia|done].
Qed.
End Service.

(** ** Identity stamps on the database backend *)

Section DbStamp.
Context `{HF : HashFn} `{HT : SigningTools} `{HC : Contracts} `{HL : !ContractLaws} `{HR : StorageRegistry}.

Lemma attach_changes fps e b e' : attach_event fps e = Ok (b, e') -> e' = e -> b = false.
Proof.
  unfold attach_event. destruct e as [| | | | |a]; try done. intros Ha. inv_bind Ha as [[b1 a1]|] Hat.
  injection Ha as <- <-. intros [= ->]. unfold attach_identity in Hat.
  apply attach_with_frame in Hat as (Hfp & _ & Ht & _). destruct b1; [|done]. destruct (Ht eq_refl) as [Hset _].
  by specialize (Hfp Hset).
Qed.

(** The database accepts no change of a stored event, and a stamp is one: whatever
    the fingerprints, a stamp request that succeeds on a database-backed layer
    has stamped nothing. *)
Theorem db_stamps_nothing layer_id fps config db root n db' : db_good db ->
  stamp_layer_endpoint layer_id fps config db = Ok ((root, n), db') -> n = 0%Z.
Proof using HL.
  intros Hg. unfold stamp_layer_endpoint. intros Hs. inv_bind Hs as [path|] Hp. apply not_found_ok in Hs.
  destruct (db_mutate_prefix _ _ _ _ _ _ Hg Hs) as (d & d' & new & Hd & Hd' & Hpre & _).
  destruct (db_mutate_inv _ _ _ _ _ _ Hg Hs) as (d0 & d0' & Hh & Hf & _ & Hw).
  destruct (written_stored _ _ _ _ Hg Hw) as [Hst _]. rewrite Hd' in Hst. injection Hst as <-.
  apply (db_stored_holds _ _ _ Hg) in Hh. rewrite Hd in Hh. injection Hh as <-. inv_bind Hf.
  destruct (stamp_identities_inv _ _ _ _ _ _ Hf) as (es & stamped & He & Hm & -> & He' & _).
  assert (forall x l, events_of x = Ok l -> events_doc x = l) as Hdoc.
  { intros x l. unfold events_of, get_list, events_doc. destruct (get "events" x); try (destruct (truthy _); congruence).
    by intros [= ->]. }
  apply Hdoc in He, He'. rewrite He He' in Hpre. apply mapR_ok_Forall2 in Hm.
  assert (new = []) as ->.
  { apply (f_equal length) in Hpre. rewrite length_map length_app in Hpre. apply Forall2_length in Hm.
    destruct new; [done|]. cbn in Hpre. lia. }
  rewrite app_nil_r in Hpre. clear -Hm Hpre. unfold count_true.
  enough (List.filter id (map fst stamped) = []) as -> by done. revert Hpre.
  induction Hm as [|e [b e'] es stamped Ha _ IH]; [done|]. cbn [map fst snd].
  intros [He Hr]%cons_inj. cbn [List.filter]. rewrite (attach_changes _ _ _ _ Ha He). by apply IH.
Qed.
End DbStamp.

(** ** Witnesses: the file backend, on real digests *)

#[local] Instance service_world : SigningTools := sample_tools ∅ (dumps true sample_bundle).
#[local] Instance service_registry : StorageRegistry := {| registered := fun o => bool_decide (o = "repo-1"); collates := String.leb |}.

Definition sample_config : ServiceConfig := {|
  backend_type := "file"; database_url := None; data_dir := "/d"; signing_required := false;
  signing_key_path := None; signing_method := "cosign"; admin_identities := ["ann"];
  restatement_min_approvers := 0; oidc_issuer_url := None; config_oidc_client_id := None;
  config_identity_provider := "oidc"; config_oidc_issuer := None; oidc_audience := None; oidc_jwks_url := None;
  oidc_machine_claim := "azp"; oidc_identity_claim := "email"; oidc_trust := "" |}.
Definition ann : LayerActor := sample_actor "human" (Some "ann") (Some true).
(** An instant after every date below. *)
Definition sample_now : Z := 63902908800000000.
Definition sample_envelope : EventEnvelope := {|
  envelope_kind := "countersign";
  envelope_event := {["layer_id" := JStr "L"; "finding_ref" := JStr "F1"; "decision" := JStr "false_positive";
                      "rationale" := JStr "not reachable here"; "recorded_at" := JStr "2026-01-02T00:00:00Z";
                      "actor" := JObj {["kind" := JStr "human"; "identity" := JStr "mallory"]}]} |}.
Definition sample_submit : res (SubmitResponse * files) :=
  submit_event no_schema sample_now sample_envelope ann sample_config sample_files.
Definition no_response : SubmitResponse :=
  {| response_id := ""; event_count := 0; response_root := None; response_event_ids := []; queue_added := 0 |}.
Definition answer {A S : Type} (dflt : A) (r : res (A * S)) : A := match r with Ok (a, _) => a | Err _ => dflt end.
Definition sample_submitted : files := Eval vm_compute in after_write ∅ sample_submit.
Definition sample_response : SubmitResponse := Eval vm_compute in answer no_response sample_submit.
Lemma sample_submit_ok : sample_submit = Ok (sample_response, sample_submitted).
Proof. vm_compute. reflexivity. Qed.

Definition sample_targets : list string := SIGNED_METADATA_FIELDS.
Definition restate_block : dict := {[
  "target" := JStr "claim_hashes"; "before" := JObj {["F1" := JStr "h1"]}; "after" := JObj {["F1" := JStr "h2"]};
  "authority" := JObj {["ticket" := JStr "SEC-1"]} ]}.
Definition sample_restating : res (RestatementResponse * files) :=
  apply_restatement no_schema sample_now sample_targets "L" restate_block "the claim was corrected" ann
    (JStr "2026-01-03T00:00:00Z") sample_config sample_files.
Definition no_restatement : RestatementResponse :=
  {| rr_event_id := ""; rr_layer_id := ""; rr_target := ""; rr_root := None |}.
Definition sample_restated_files : files := Eval vm_compute in after_write ∅ sample_restating.

Lemma applied_restatement_witness :
  kind ann = "human" /\ is_verified ann = true
  /\ (exists ticket, authority_field "ticket" restate_block = JStr ticket /\ strip ticket <> "")
  /\ exists key target d d' m m', get "target" restate_block = JStr target
     /\ stored (slot key) sample_files = Some d /\ stored (slot key) sample_restated_files = Some d'
     /\ metadata_or_new d = Ok m /\ d' !! "metadata" = Some (JObj m')
     /\ fresh (get "before" restate_block) (get target m)
     /\ (forall b mm k v after v', earlier_restatement (log d) target b ->
           get "before" b = JObj mm \/ get "after" b = JObj mm -> mm !! k = Some v ->
           get "after" restate_block = JObj after -> after !! k = Some v' -> py_eqb v' v = false)
     /\ (forall b v, earlier_restatement (log d) target b ->
           (forall after, get "after" restate_block <> JObj after) -> v = get "before" b \/ v = get "after" b ->
           py_eqb (get "after" restate_block) v = false)
     /\ delta_applied (get target m) (get "after" restate_block) (get target m')
     /\ forall f, f ∈ SIGNED_METADATA_FIELDS -> f <> target -> get f m' = get f m.
Proof.
  apply (applied_restatement no_schema sample_now sample_targets "L" restate_block "the claim was corrected" ann
    (JStr "2026-01-03T00:00:00Z") sample_config sample_files (answer no_restatement sample_restating)
    sample_restated_files); [exact sample_files_good|done|vm_compute; reflexivity].
Defined.

Lemma service_keeps_history_witness :
  exists d', stored (slot sample_key_L) sample_submitted = Some d' /\ history_kept sample_shell d'.
Proof.
  apply (service_keeps_history no_schema sample_now sample_targets sample_files sample_submitted).
  - exact sample_files_good.
  - eapply rtc_l; [|apply rtc_refl].
    exact (post_event no_schema sample_now sample_targets sample_files sample_submitted sample_envelope ann
      sample_config sample_response sample_submit_ok).
  - exact sample_files_stored.
Defined.

Definition sample_batch : BatchSubmitRequest := {|
  batch_source_ref := "scan:2"; batch_recorded_at := "2026-01-04T00:00:00Z";
  batch_events := [{["finding_ref" := JStr "F2"; "source" := JObj {["type" := JStr "scan"; "ref" := JStr "scan:2"]};
                     "disposition" := JObj {["validity" := JStr "confirmed"]}]}; sample_doc];
  batch_needs_review := [{["suggested_finding_ref" := JStr "F3"; "queue_reason" := JStr "new"]}] |}.
Definition sample_batching : res (SubmitResponse * files) :=
  submit_batch no_schema "L" sample_batch ann sample_config sample_files.
Definition sample_batched : files := Eval vm_compute in after_write ∅ sample_batching.
Definition sample_batch_response : SubmitResponse := Eval vm_compute in answer no_response sample_batching.

Lemma batch_is_attributed_witness :
  length (response_event_ids sample_batch_response) = 2 /\
  exists key d d' evs, stored (slot key) sample_files = Some d /\ stored (slot key) sample_batched = Some d'
    /\ log d' = log d ++ map JObj evs /\ map (get "event_id") evs = map JStr (response_event_ids sample_batch_response)
    /\ (forall ev, ev ∈ evs -> exists src, get "source" ev = JObj src /\ get "actor" src = JObj (actor_to_dict ann))
    /\ (forall e0, e0 ∈ batch_events sample_batch -> exists id, canonical_id (stamp_batch_actor ann e0) = Ok id
          /\ JStr id ∈ map id_of (log d'))
    /\ verify_merkle_integrity d' = verify_restated_metadata d'.
Proof.
  split; [reflexivity|].
  apply (batch_is_attributed no_schema "L" sample_batch ann sample_config sample_files sample_batch_response
    sample_batched (hd ∅ (batch_events sample_batch)) [sample_doc]);
    [exact sample_files_good|reflexivity|vm_compute; reflexivity].
Defined.

(** A batch that asserts a false positive for an unverified human raises the
    writer's internal error, which is no service error: the answer is a server
    error. *)
Definition unverified : LayerActor := sample_actor "human" (Some "bob") None.
Example unverified_batch_is_server_error :
  exists e, submit_batch no_schema "L" sample_batch unverified sample_config sample_files = Err e
    /\ status_code e = 500%Z.
Proof. exists InternalIdentityUnverifiedError. split; vm_compute; reflexivity. Qed.

(** So does a time that is not one. *)
Definition bad_time_envelope : EventEnvelope := {|
  envelope_kind := "countersign";
  envelope_event := <["recorded_at" := JStr "yesterday"]> (envelope_event sample_envelope) |}.
Example bad_time_is_server_error :
  exists e, submit_event no_schema sample_now bad_time_envelope ann sample_config sample_files = Err e
    /\ status_code e = 500%Z.
Proof. exists ValueError. split; vm_compute; reflexivity. Qed.

(** The restate route refuses a caller who is not an administrator; a batch takes
    a restatement event from anyone. *)
Definition bob : LayerActor := sample_actor "human" (Some "bob") (Some true).
Definition restating_batch : BatchSubmitRequest := {|
  batch_source_ref := "b"; batch_recorded_at := "2026-01-04T00:00:00Z"; batch_events := [restate_doc];
  batch_needs_review := [] |}.
Example batch_is_a_weaker_door :
  post_restatement no_schema sample_now sample_targets "L" restate_block "the claim was corrected" None None
    "2026-01-03T00:00:00Z" bob sample_config sample_files = Err (Service NotAnAdminError)
  /\ is_ok (submit_batch no_schema "L" restating_batch bob sample_config sample_files) = true.
Proof. split; vm_compute; reflexivity. Qed.

Definition stamped_db : database :=
  match db_initialize (DbLayerKey "L1") sample_stored_layer (Some "repo-1") empty_database with
  | Ok db => db | Err _ => empty_database end.
Definition db_stamp : res ((string * Z) * database) := stamp_layer_endpoint "L1" {["F9" := "fp"]} sample_config stamped_db.
Lemma db_stamps_nothing_witness : (answer ("", 1%Z) db_stamp).2 = 0%Z.
Proof.
  apply (db_stamps_nothing "L1" {["F9" := "fp"]} sample_config stamped_db (answer ("", 1%Z) db_stamp).1 _
    (after_write stamped_db db_stamp)); [|vm_compute; reflexivity].
  refine (written_good "L1" sample_stored_layer empty_database stamped_db empty_database_good _).
  eapply (persist_written "L1" sample_stored_layer _ (Some "repo-1")); [exact empty_database_good|reflexivity
    |vm_compute; reflexivity|vm_compute; reflexivity].
Defined.
