(* ===== verification/Auth.v ===== *)
(** * Tokens, keys and the employee directory

    [auth/claims.py], [auth/verifier.py], [auth/local.py] and
    [auth/directory.py]: from a bearer token to the actor an event is attributed
    to.  PyJWT, the cryptography package, the disk's permissions and the
    directory's command are not part of the repository: they are the fields of
    [AuthTools], and [AuthLaws] states what their documentation promises.  Texts
    of errors and logging are not modelled. *)

From S2P Require Import Prelude PyStr Json Errors Sha256 Signing Contracts.
From stdpp Require Import options.

(** ** The outside world *)

(** The PyJWT exceptions the verifier tells apart. *)
Inductive jwt_error := ExpiredSignatureError | InvalidIssuerError | InvalidTokenError | PyJWKClientError.

(** What [load_pem_private_key] makes of a file. *)
Inductive pem (K : Type) := PemCorrupt | PemNotEc | PemEc (k : K).
Arguments PemCorrupt {K}.
Arguments PemNotEc {K}.
Arguments PemEc {K} _.

Class AuthTools := {
  jwk : Type;
  private_key : Type;
  (** [PyJWK(k)] and its [key_id] *)
  py_jwk : json -> res jwk;
  jwk_id : jwk -> json;
  (** [PyJWKClient(url).get_signing_key_from_jwt(token).key] *)
  fetch_key : json -> string -> result jwt_error jwk;
  get_unverified_header : string -> result jwt_error dict;
  (** [jwt.decode] without and with verification; the last two arguments are
      the expected issuer and audience, [JNull] where none is asked for *)
  decode_unverified : string -> option dict;
  jwt_decode : jwk -> string -> json -> json -> result jwt_error dict;
  (** [jwt.encode(payload, key, algorithm="ES256", headers={"kid": ...})] *)
  jwt_encode : dict -> private_key -> string -> string;
  generated_key : private_key;
  private_pem : private_key -> string;
  load_pem : string -> pem private_key;
  (** [ECAlgorithm.to_jwk] of the public key *)
  to_jwk : private_key -> dict;
  (** the signature of a token verifies under a key *)
  signed_by : jwk -> string -> bool;
  (** [str] of a list or an object *)
  repr : json -> string;
  (** [time.time()], in whole seconds *)
  clock : Z;
  readable : string -> bool;
  writable : string -> bool;
  (** [subprocess.run] of the directory's command line *)
  run_command : list string -> run string;
  (** [shutil.which(p)] and [Path(p).is_file()] *)
  which : string -> bool;
  program_file : string -> bool
}.

(** ** The disk: a state monad with exceptions *)

(** The text files, by path.  A call that raises keeps what it wrote before. *)
Definition disk := gmap string string.
Definition io (A : Type) : Type := disk -> res A * disk.
#[global] Instance io_ret : MRet io := fun A a d => (Ok a, d).
#[global] Instance io_bind : MBind io := fun A B f m d =>
  match m d with
  | (Ok a, d') => f a d'
  | (Err e, d') => (Err e, d')
  end.
Definition lift {A} (r : res A) : io A := fun d => (r, d).
Definition is_file (path : string) (d : disk) : bool := bool_decide (is_Some (d !! path)).

(** [for x in v]. *)
Definition json_iter (v : json) : res (list json) :=
  match v with
  | JArr l => Ok l
  | JObj m => Ok (JStr <$> (items m).*1)
  | JStr s => Ok ((fun c => JStr (of_chars [c])) <$> chars s)
  | _ => Err TypeError
  end.

Definition LOCAL_ISSUER : string := "local".
Definition TRUST_LOCAL_IDENTITY_ENV : string := "LEDGER_TRUST_LOCAL_IDENTITY".
Definition LOCAL_KEY_FILE : string := "local-key.pem".
Definition LOCAL_JWKS_FILE : string := "local-jwks.json".
Definition LOCAL_KID : string := "local-1".
Definition TOKEN_LIFETIME_SECONDS : Z := 7 * 24 * 3600.

(** [directory / name]. *)
Definition under (dir name : string) : string := dir +:+ "/" +:+ name.

Record VerifierConfig := {
  jwks_url : json;
  jwks_path : option string;
  vc_issuer : json;
  vc_audience : json;
  machine_claim : string;
  identity_claim : string
}.
(** [VerifierConfig(jwks_path=path, issuer=LOCAL_ISSUER)]. *)
Definition local_verifier_config (path : string) : VerifierConfig := {|
  jwks_url := JNull; jwks_path := Some path; vc_issuer := JStr LOCAL_ISSUER; vc_audience := JNull;
  machine_claim := "azp"; identity_claim := "email" |}.

Section Auth.
Context `{SigningTools} `{AuthTools}.

Definition read_text (path : string) : io string := fun d =>
  (if readable path then of_option (d !! path) OSError else Err OSError, d).
Definition write_text (path text : string) : io unit := fun d =>
  if writable path then (Ok tt, <[path := text]> d) else (Err OSError, d).

(** ** [claims.py] *)

(** [os.environ.get(TRUST_LOCAL_IDENTITY_ENV, "").strip() == "1"]. *)
Definition local_identity_trusted : bool :=
  String.eqb (strip (default "" (environ !! TRUST_LOCAL_IDENTITY_ENV))) "1".

(** [str(v)]. *)
Definition claim_text (v : json) : string := match py_str v with Ok s => s | Err _ => repr v end.

(** The kind and the identity the claims carry, by their shape. *)
Definition claimed_identity (claims : dict) (machine_claim identity_claim : string) : res (string * string) :=
  let machine_value := get machine_claim claims in
  let identity_value := get identity_claim claims in
  if truthy machine_value && negb (truthy identity_value) then Ok ("machine", claim_text machine_value)
  else if truthy identity_value then
    let stripped := strip (lower (claim_text identity_value)) in
    _ ← raise_if (negb (str_truthy stripped)) TokenVerificationError;
    Ok ("human", stripped)
  else if get_truthy "sub" claims then Ok ("machine", claim_text (get "sub" claims))
  else Err TokenVerificationError.

Definition claims_to_actor (claims : dict) (machine_claim identity_claim : string) (issuer_fallback : json)
  : res LayerActor :=
  '(kind, identity) ← claimed_identity claims machine_claim identity_claim;
  let issuer := claim_text (if get_truthy "iss" claims then get "iss" claims else issuer_fallback) in
  let is_local := String.eqb issuer LOCAL_ISSUER in
  Ok {| kind := kind; identity := Some identity; ldap_verified := None;
        identity_verified := Some (if is_local then local_identity_trusted else true);
        identity_provider := Some (if is_local then "local" else "oidc");
        identity_issuer := Some issuer;
        identity_subject := Some (if get_truthy "sub" claims then claim_text (get "sub" claims) else "");
        employee_status := None; display_name := None |}.

(** ** [verifier.py] *)

Record TokenVerifier := {
  tv_config : VerifierConfig;
  tv_local_keys : option (list jwk);
  tv_client : option json
}.

(** The keys of a local key set; a file that does not parse counts as none. *)
Definition load_local_keys (path : string) : io (option (list jwk)) := fun d =>
  match (text ← read_text path;
         data ← lift (of_option (loads text) ValueError);
         keys ← lift (match data with
                      | JObj m => Ok (default (JArr []) (m !! "keys"))
                      | _ => Err AttributeError
                      end);
         ks ← lift (json_iter keys);
         lift (mapR py_jwk ks)) d with
  | (Ok ks, d) => (Ok (Some ks), d)
  | (Err e, d) => if is_value_error e || bool_decide (e = KeyError) then (Ok None, d) else (Err e, d)
  end.

Definition token_verifier (config : VerifierConfig) : io TokenVerifier := fun d =>
  (local_keys ← (match jwks_path config with
                 | Some path => if is_file path d then load_local_keys path else mret None
                 | None => mret None
                 end);
   let client := if truthy (jwks_url config) then Some (jwks_url config) else None in
   _ ← lift (raise_if (match local_keys, client with Some (_ :: _), Some _ => true | _, _ => false end)
               ValueError);
   mret {| tv_config := config; tv_local_keys := local_keys; tv_client := client |}) d.

(** The [except] clauses of [verify]: a PyJWT error is a refusal. *)
Definition of_jwt {A} (r : result jwt_error A) : res A :=
  match r with Ok a => Ok a | Err _ => Err TokenVerificationError end.

Definition local_key_for (first : jwk) (keys : list jwk) (token : string) : result jwt_error jwk :=
  header ← get_unverified_header token;
  let kid := get "kid" header in
  Ok (default first (List.find (fun k => truthy kid && py_eqb (jwk_id k) kid) keys)).

Definition resolve_signing_key (v : TokenVerifier) (token : string) : res jwk :=
  match tv_local_keys v, tv_client v with
  | Some (first :: rest), _ => of_jwt (local_key_for first (first :: rest) token)
  | _, Some url => of_jwt (fetch_key url token)
  | _, None => Err TokenVerificationError
  end.

(** [x if x else None]. *)
Definition truthy_or_null (v : json) : json := if truthy v then v else JNull.

Definition verify (v : TokenVerifier) (token : string) : res LayerActor :=
  let config := tv_config v in
  signing_key ← resolve_signing_key v token;
  claims ← of_jwt (jwt_decode signing_key token (truthy_or_null (vc_issuer config))
                     (truthy_or_null (vc_audience config)));
  claims_to_actor claims (machine_claim config) (identity_claim config)
    (if truthy (vc_issuer config) then vc_issuer config else JStr "").

(** ** [local.py] *)

Definition jwks_document (k : private_key) : json :=
  JObj {["keys" := JArr [JObj (<["kid" := JStr LOCAL_KID]> (<["use" := JStr "sig"]> (to_jwk k)))]]}.
(** The indentation of the file is not modelled. *)
Definition write_jwks (path : string) (k : private_key) : io unit :=
  write_text path (dumps true (jwks_document k)).

Definition ensure_local_keypair (config_dir : string) : io private_key := fun d =>
  let key_path := under config_dir LOCAL_KEY_FILE in
  let jwks_path := under config_dir LOCAL_JWKS_FILE in
  (if is_file key_path d then
     key_data ← read_text key_path;
     key ← lift (match load_pem key_data with
                 | PemCorrupt => Err RuntimeError
                 | PemNotEc => Err TypeError
                 | PemEc k => Ok k
                 end);
     _ ← (if is_file jwks_path d then mret tt else write_jwks jwks_path key);
     mret key
   else
     _ ← write_text key_path (private_pem generated_key);
     _ ← write_jwks jwks_path generated_key;
     mret generated_key) d.

Definition local_claims (identity : string) (machine : bool) : dict :=
  <[if machine then "azp" else "email" := JStr identity]>
    {["sub" := JStr identity; "iss" := JStr LOCAL_ISSUER; "iat" := JInt clock;
      "exp" := JInt (clock + TOKEN_LIFETIME_SECONDS)]}.
Definition mint_local_token (identity : string) (k : private_key) (machine : bool) : res string :=
  _ ← raise_if (negb (str_truthy (strip identity))) ValueError;
  Ok (jwt_encode (local_claims identity machine) k LOCAL_KID).

Definition local_jwks_path (config_dir : string) (d : disk) : option string :=
  let p := under config_dir LOCAL_JWKS_FILE in if is_file p d then Some p else None.

End Auth.

(** ** What the libraries document *)

Class AuthLaws `{AuthTools} := {
  (** verification only adds checks to decoding *)
  decode_same k t iss aud c : jwt_decode k t iss aud = Ok c -> decode_unverified t = Some c;
  decode_signed k t iss aud c : jwt_decode k t iss aud = Ok c -> signed_by k t = true;
  decode_issuer k t i aud c : jwt_decode k t (JStr i) aud = Ok c -> get "iss" c = JStr i;
  (** a key written as a JWK reads back, keeps its id and verifies what it
      signed, while the token is current *)
  jwk_reads_back p : exists k,
    py_jwk (JObj (<["kid" := JStr LOCAL_KID]> (<["use" := JStr "sig"]> (to_jwk p)))) = Ok k
    /\ jwk_id k = JStr LOCAL_KID
    /\ forall c i sub iat exp, get "iss" c = JStr i -> get "sub" c = JStr sub ->
         get "iat" c = JInt iat -> get "exp" c = JInt exp -> (iat <= clock < exp)%Z ->
         jwt_decode k (jwt_encode c p LOCAL_KID) (JStr i) JNull = Ok c;
  header_keeps_kid c p kid : exists h,
    get_unverified_header (jwt_encode c p kid) = Ok h /\ get "kid" h = JStr kid;
  jwt_nonempty c p kid : jwt_encode c p kid <> ""
}.

(** ** Lemmas *)

Lemma is_space_lower c : is_space (lower_char c) = is_space c.
Proof. by destruct c as [[] [] [] [] [] [] [] []]. Qed.
Lemma lstrip_lower l : lstrip_by is_space (map lower_char l) = map lower_char (lstrip_by is_space l).
Proof. induction l as [|c l IH]; simpl; [done|]. rewrite is_space_lower. by destruct (is_space c). Qed.
(** Folding commutes with stripping. *)
Lemma strip_lower s : strip (lower s) = lower (strip s).
Proof.
  unfold strip, lower, rstrip_by. rewrite !chars_of_chars. f_equal.
  by rewrite lstrip_lower -map_rev lstrip_lower map_rev.
Qed.
Lemma lower_nonempty s : s <> "" -> lower s <> "".
Proof. destruct s; [done|]. by unfold lower. Qed.

Lemma io_bind_ok {A B} (m : io A) (f : A -> io B) d b d' : (x ← m; f x) d = (Ok b, d') ->
  exists a d1, m d = (Ok a, d1) /\ f a d1 = (Ok b, d').
Proof. unfold mbind, io_bind. destruct (m d) as [[a|e] d1]; [by exists a, d1|done]. Qed.

Section Laws.
Context `{HT : SigningTools} `{HA : AuthTools} `{HAL : !AuthLaws}.
Set Default Proof Using "Type".

(** What the claims make of an actor. *)
Lemma claims_actor_inv claims mc ic fb a : claims_to_actor claims mc ic fb = Ok a ->
  ((kind a = "human" /\ get_truthy ic claims = true
    /\ identity a = Some (strip (lower (claim_text (get ic claims))))
    /\ strip (lower (claim_text (get ic claims))) <> "")
   \/ (kind a = "machine" /\ get_truthy ic claims = false))
  /\ is_Some (identity_verified a)
  /\ identity_issuer a = Some (claim_text (if get_truthy "iss" claims then get "iss" claims else fb))
  /\ (identity_verified a = Some true -> identity_issuer a = Some LOCAL_ISSUER -> local_identity_trusted = true).
Proof.
  unfold claims_to_actor. intros Ha. inv_bind Ha as [[kd id]|] Hid. injection Ha as <-. cbn.
  split; [|split; [done|split; [done|]]].
  - unfold claimed_identity in Hid. destruct (truthy (get mc claims) && _) eqn:Hm.
    + injection Hid as <- <-. right. split; [done|]. apply andb_true_iff in Hm as [_ Hm].
      by apply negb_true_iff in Hm.
    + destruct (truthy (get ic claims)) eqn:Ht.
      * inv_bind Hid as [[]|] Hne. injection Hid as <- <-. left.
        apply raise_if_ok, negb_false_iff, str_truthy_spec in Hne. by repeat split.
      * right. destruct (get_truthy "sub" claims); [|done]. injection Hid as <- <-. by split.
  - intros [= Hv] [= Hi]. by rewrite Hi in Hv.
Qed.

(** An accepted token: who signed it, what it says, and the actor it makes. *)
Lemma verify_inv v token a : verify v token = Ok a ->
  exists key claims, resolve_signing_key v token = Ok key /\ signed_by key token = true
    /\ decode_unverified token = Some claims
    /\ (forall i, vc_issuer (tv_config v) = JStr i -> i <> "" -> get "iss" claims = JStr i)
    /\ claims_to_actor claims (machine_claim (tv_config v)) (identity_claim (tv_config v))
         (if truthy (vc_issuer (tv_config v)) then vc_issuer (tv_config v) else JStr "") = Ok a.
Proof using HAL.
  unfold verify. intros Hv. inv_bind Hv as [key|] Hk. inv_bind Hv as [claims|] Hc.
  unfold of_jwt in Hc. destruct (jwt_decode _ _ _ _) as [c|] eqn:Hd; [|done]. injection Hc as ->.
  exists key, claims. split; [done|]. split; [exact (decode_signed _ _ _ _ _ Hd)|]. split; [exact (decode_same _ _ _ _ _ Hd)|].
  split; [|done]. intros i Hi Hne%str_truthy_spec. rewrite Hi in Hd. unfold truthy_or_null in Hd.
  cbn [truthy] in Hd. rewrite Hne in Hd. exact (decode_issuer _ _ _ _ _ Hd).
Qed.

(** *** Local identities *)

Lemma write_text_ok path text d u d' : write_text path text d = (Ok u, d') -> d' = <[path := text]> d.
Proof. unfold write_text. destruct (writable path); congruence. Qed.

(** The key set on the disk, if there is one with a key, is that key's. *)
Definition key_set_matches (dir : string) (d : disk) : Prop :=
  forall text key, d !! under dir LOCAL_KEY_FILE = Some text -> load_pem text = PemEc key ->
    is_file (under dir LOCAL_JWKS_FILE) d = true -> d !! under dir LOCAL_JWKS_FILE = Some (dumps true (jwks_document key)).

Lemma read_text_ok path d text d' : read_text path d = (Ok text, d') -> d !! path = Some text /\ d' = d.
Proof.
  unfold read_text. destruct (readable path); [|done]. destruct (d !! path) as [t|]; [|done].
  by intros [= -> ->].
Qed.
(** The key pair the machine has or makes has its key set on the disk. *)
Lemma keypair_key_set dir d key d' : key_set_matches dir d -> ensure_local_keypair dir d = (Ok key, d') ->
  d' !! under dir LOCAL_JWKS_FILE = Some (dumps true (jwks_document key)).
Proof.
  unfold ensure_local_keypair. intros Hm He. destruct (is_file (under dir LOCAL_KEY_FILE) d).
  - apply io_bind_ok in He as (text & d1 & [Ht ->]%read_text_ok & He). apply io_bind_ok in He as (k & d2 & Hk & He).
    apply io_bind_ok in He as (u & d3 & Hw & He). injection He as <- <-.
    unfold lift in Hk. injection Hk as Hk <-. destruct (load_pem text) as [| |k'] eqn:Hp; try done. injection Hk as ->.
    destruct (is_file (under dir LOCAL_JWKS_FILE) d) eqn:Hj; [injection Hw as _ <-; exact (Hm _ _ Ht Hp Hj)|].
    apply write_text_ok in Hw. subst d3. by rewrite lookup_insert_eq.
  - apply io_bind_ok in He as (u & d1 & _ & He). apply io_bind_ok in He as (u' & d2 & Hw%write_text_ok & He).
    injection He as <- <-. subst d2. by rewrite lookup_insert_eq.
Qed.
(** It writes no other file. *)
Lemma keypair_frame dir d p : p <> under dir LOCAL_KEY_FILE -> p <> under dir LOCAL_JWKS_FILE ->
  (ensure_local_keypair dir d).2 !! p = d !! p.
Proof.
  intros Hk Hj. unfold ensure_local_keypair, write_jwks, write_text, read_text, mbind, io_bind, mret, io_ret, lift.
  repeat case_match; simplify_eq/=; rewrite ?lookup_insert_ne //; congruence.
Qed.

(** The verifier of a written key set holds its one key. *)
Lemma local_verifier_of path key d :
  readable path = true -> d !! path = Some (dumps true (jwks_document key)) ->
  exists k, token_verifier (local_verifier_config path) d
      = (Ok {| tv_config := local_verifier_config path; tv_local_keys := Some [k]; tv_client := None |}, d)
    /\ jwk_id k = JStr LOCAL_KID
    /\ forall c i sub iat exp, get "iss" c = JStr i -> get "sub" c = JStr sub ->
         get "iat" c = JInt iat -> get "exp" c = JInt exp -> (iat <= clock < exp)%Z ->
         jwt_decode k (jwt_encode c key LOCAL_KID) (JStr i) JNull = Ok c.
Proof using HAL.
  intros Hr Hd. destruct (jwk_reads_back key) as (k & Hk & Hid & Hdec). exists k. split; [|done].
  unfold token_verifier. cbn [jwks_path local_verifier_config]. unfold is_file.
  rewrite bool_decide_true; [by rewrite Hd|].
  assert (load_local_keys path d = (Ok (Some [k]), d)) as Hl.
  { unfold load_local_keys, mbind, io_bind, read_text, lift. rewrite Hr Hd. cbn [of_option].
    rewrite loads_dumps. unfold jwks_document. cbn [of_option].
    replace (({["keys" := _]} : dict) !! "keys") with
      (Some (JArr [JObj (<["kid" := JStr LOCAL_KID]> (<["use" := JStr "sig"]> (to_jwk key)))])) by done.
    cbn [default from_option id json_iter mapR]. by rewrite Hk. }
  unfold mbind, io_bind. by rewrite Hl.
Qed.

Lemma local_claim_lookups identity machine : 
  get "iss" (local_claims identity machine) = JStr LOCAL_ISSUER
  /\ get "sub" (local_claims identity machine) = JStr identity
  /\ get "iat" (local_claims identity machine) = JInt clock
  /\ get "exp" (local_claims identity machine) = JInt (clock + TOKEN_LIFETIME_SECONDS)
  /\ get "azp" (local_claims identity machine) = (if machine then JStr identity else JNull)
  /\ get "email" (local_claims identity machine) = (if machine then JNull else JStr identity).
Proof. by destruct machine. Qed.

(** The actor of a locally minted token. *)
Definition local_actor (identity : string) (machine : bool) : LayerActor := {|
  kind := if machine then "machine" else "human";
  Contracts.identity := Some (if machine then identity else strip (lower identity));
  ldap_verified := None; identity_verified := Some local_identity_trusted;
  identity_provider := Some "local"; identity_issuer := Some LOCAL_ISSUER; identity_subject := Some identity;
  employee_status := None; display_name := None |}.

Lemma local_claims_actor identity machine fb : strip identity <> "" ->
  claims_to_actor (local_claims identity machine) "azp" "email" fb = Ok (local_actor identity machine).
Proof.
  intros Hne. destruct (local_claim_lookups identity machine) as (Hi & Hs & _ & _ & Ha & He).
  assert (str_truthy identity = true) as Ht by (apply str_truthy_spec; by intros ->).
  assert (str_truthy (strip (lower identity)) = true) as Hst.
  { apply str_truthy_spec. rewrite strip_lower. by apply lower_nonempty. }
  unfold claims_to_actor, claimed_identity, get_truthy. rewrite Ha He Hi Hs.
  destruct machine; cbn [truthy negb andb claim_text py_str]; rewrite ?Ht ?Hst; cbn; by rewrite ?Ht ?Hst.
Qed.

(** A token minted with a key verifies under the key's own key set. *)
Lemma minted_token_verifies dir d key identity machine token :
  readable (under dir LOCAL_JWKS_FILE) = true ->
  d !! under dir LOCAL_JWKS_FILE = Some (dumps true (jwks_document key)) ->
  mint_local_token identity key machine = Ok token ->
  exists v, local_jwks_path dir d = Some (under dir LOCAL_JWKS_FILE)
    /\ token_verifier (local_verifier_config (under dir LOCAL_JWKS_FILE)) d = (Ok v, d)
    /\ verify v token = Ok (local_actor identity machine).
Proof using HAL.
  intros Hr Hset Hm. destruct (local_verifier_of _ _ _ Hr Hset) as (k & Hv & Hid & Hdec).
  unfold mint_local_token in Hm. inv_bind Hm as [[]|] Hne. injection Hm as <-.
  apply raise_if_ok, negb_false_iff, str_truthy_spec in Hne. eexists. split.
  { unfold local_jwks_path, is_file. by rewrite Hset. }
  split; [exact Hv|]. destruct (local_claim_lookups identity machine) as (Hi & Hs & Hia & Hex & _).
  unfold verify, resolve_signing_key, local_key_for. cbn [tv_local_keys tv_config].
  destruct (header_keeps_kid (local_claims identity machine) key LOCAL_KID) as (h & -> & Hk).
  cbn [mbind result_bind of_jwt]. rewrite Hk. cbn [List.find]. rewrite Hid. cbn [of_jwt default].
  change (default k _) with k. cbn [mbind result_bind]. change (truthy_or_null _) with (JStr LOCAL_ISSUER) at 1.
  change (truthy_or_null _) with JNull. rewrite (Hdec _ _ _ _ _ Hi Hs Hia Hex); [unfold TOKEN_LIFETIME_SECONDS; lia|].
  by apply local_claims_actor.
Qed.

(** Minting with the machine's key pair and verifying with its key set is a
    round trip: a token for an identity, human or machine, verifies as that
    identity with that kind, provided by [local]; it counts as verified only
    where the deployment opted in. *)
Theorem local_token_round_trip dir d key d' identity machine token :
  key_set_matches dir d -> readable (under dir LOCAL_JWKS_FILE) = true ->
  ensure_local_keypair dir d = (Ok key, d') -> mint_local_token identity key machine = Ok token ->
  exists path v, local_jwks_path dir d' = Some path
    /\ token_verifier (local_verifier_config path) d' = (Ok v, d')
    /\ verify v token = Ok (local_actor identity machine).
Proof using HAL.
  intros Hnew Hr He Hm.
  destruct (minted_token_verifies _ _ _ _ _ _ Hr (keypair_key_set _ _ _ _ Hnew He) Hm) as (v & Hv).
  by exists (under dir LOCAL_JWKS_FILE), v.
Qed.
End Laws.

(** ** A concrete world, for witnesses *)

(** Tokens that name their key, with one key; every key of a set is that key. *)
Definition sample_parts (t : string) : option (string * dict) :=
  match loads t with Some (JArr [JStr kid; JObj c]) => Some (kid, c) | _ => None end.
Definition sample_current (c : dict) : bool :=
  match get "exp" c with JInt e => (0 <? e)%Z | _ => true end.
Definition sample_auth (run_cmd : list string -> run string) : AuthTools := {|
  jwk := unit; private_key := unit;
  py_jwk := fun k => match k with JObj _ => Ok tt | _ => Err ValueError end;
  jwk_id := fun _ => JStr LOCAL_KID;
  fetch_key := fun url t => match sample_parts t with Some _ => Ok tt | None => Err PyJWKClientError end;
  get_unverified_header := fun t =>
    match sample_parts t with Some (kid, _) => Ok {["kid" := JStr kid]} | None => Err InvalidTokenError end;
  decode_unverified := fun t => snd <$> sample_parts t;
  jwt_decode := fun _ t iss _ =>
    match sample_parts t with
    | Some (_, c) =>
        if negb (sample_current c) then Err ExpiredSignatureError
        else if is_null iss || bool_decide (get "iss" c = iss) then Ok c else Err InvalidIssuerError
    | None => Err InvalidTokenError
    end;
  jwt_encode := fun c _ kid => dumps true (JArr [JStr kid; JObj c]);
  generated_key := tt; private_pem := fun _ => "PEM";
  load_pem := fun s => if String.eqb s "PEM" then PemEc tt else PemCorrupt;
  to_jwk := fun _ => {["kty" := JStr "EC"]};
  signed_by := fun _ t => match sample_parts t with Some _ => true | None => false end;
  repr := dumps true; clock := 0; readable := fun _ => true; writable := fun _ => true;
  run_command := run_cmd; which := fun p => String.eqb p "python3"; program_file := fun _ => true |}.

Lemma sample_auth_laws cmd : @AuthLaws (sample_auth cmd).
Proof.
  split; cbn -[dumps loads].
  - intros _ t iss _ c. destruct (sample_parts t) as [[kid c']|]; [|done]. destruct (negb _); [done|].
    destruct (_ || _); [|done]. by intros [= ->].
  - intros _ t iss _ c. by destruct (sample_parts t) as [[kid c']|].
  - intros _ t i _ c. destruct (sample_parts t) as [[kid c']|]; [|done]. destruct (negb _); [done|].
    destruct (bool_decide _) eqn:E; [|done]. apply bool_decide_eq_true in E. by intros [= <-].
  - intros _. exists tt. split; [done|]. split; [done|]. intros c i sub iat exp Hi _ _ He Hr.
    unfold sample_parts. rewrite loads_dumps. unfold sample_current. rewrite He.
    replace (0 <? exp)%Z with true by lia. cbn. by rewrite bool_decide_true.
  - intros c _ kid. unfold sample_parts. rewrite loads_dumps. by eexists.
  - intros c _ kid He. pose proof (loads_dumps true (JArr [JStr kid; JObj c])) as Hl. rewrite He in Hl. discriminate Hl.
Qed.

#[local] Instance plain_env : SigningTools := sample_tools ∅ "".
#[local] Instance plain_auth : AuthTools := sample_auth (fun _ => RunError).
#[local] Instance plain_auth_laws : AuthLaws := sample_auth_laws _.
Definition minted_disk : disk := Eval vm_compute in (ensure_local_keypair "/cfg" ∅).2.
Definition minted_token : string := Eval vm_compute in
  jwt_encode (local_claims "Ann@Example.com" false) generated_key LOCAL_KID.

Lemma local_token_round_trip_witness :
  exists path v, local_jwks_path "/cfg" minted_disk = Some path
    /\ token_verifier (local_verifier_config path) minted_disk = (Ok v, minted_disk)
    /\ verify v minted_token = Ok (local_actor "Ann@Example.com" false).
Proof.
  apply (local_token_round_trip "/cfg" ∅ generated_key minted_disk);
    [intros ? ? ?; discriminate|reflexivity|vm_compute; reflexivity|vm_compute; reflexivity].
Defined.
