(* ===== verification/Directory.v ===== *)
(** * The employee directory

    [auth/directory.py]: a deployment's command is asked whether a verified
    person is a current member.  The command line is split as [shlex.split]
    does, and its answer is the first RESULT line for the identity. *)

From S2P Require Import Prelude PyStr Json Errors Sha256 Signing Contracts Auth.
From stdpp Require Import options.

Definition DIRECTORY_COMMAND_ENV : string := "LEDGER_DIRECTORY_COMMAND".
Definition DIRECTORY_TIMEOUT_ENV : string := "LEDGER_DIRECTORY_TIMEOUT".
Definition STATUS_ACTIVE : string := "active".
Definition STATUS_UNAVAILABLE : string := "unavailable".

(** ** [shlex.split] *)

Inductive lex := Between | Word | Quoted (q : ascii) | Escaped (q : option ascii).
Definition double_quote : ascii := ascii_of_nat 34.
Definition single_quote : ascii := ascii_of_nat 39.
Definition backslash : ascii := ascii_of_nat 92.
Definition is_quote (c : ascii) : bool := bool_decide (c = double_quote \/ c = single_quote).
Definition lex_space (c : ascii) : bool := (code c =? 32)%Z || (code c =? 9)%Z || (code c =? 10)%Z || (code c =? 13)%Z.

(** The words, in POSIX mode, splitting at white space only; [tok] is the word
    being read, reversed.  [None] is a quotation or an escape left open. *)
Fixpoint lex_words (st : lex) (tok l : list ascii) : option (list string) :=
  let word := of_chars (rev tok) in
  match l, st with
  | [], Between => Some []
  | [], Word => Some [word]
  | [], _ => None
  | c :: l', (Between | Word) =>
      if lex_space c then
        match st with
        | Word => ws ← lex_words Between [] l'; Some (word :: ws)
        | _ => lex_words Between [] l'
        end
      else if bool_decide (c = backslash) then lex_words (Escaped None) tok l'
      else if is_quote c then lex_words (Quoted c) tok l'
      else lex_words Word (c :: tok) l'
  | c :: l', Quoted q =>
      if bool_decide (c = q) then lex_words Word tok l'
      else if bool_decide (c = backslash) && bool_decide (q = double_quote) then lex_words (Escaped (Some q)) tok l'
      else lex_words (Quoted q) (c :: tok) l'
  | c :: l', Escaped None => lex_words Word (c :: tok) l'
  | c :: l', Escaped (Some q) =>
      if bool_decide (c = backslash) || bool_decide (c = q) then lex_words (Quoted q) (c :: tok) l'
      else lex_words (Quoted q) (c :: backslash :: tok) l'
  end.
Definition shlex_split (s : string) : option (list string) := lex_words Between [] (chars s).

(** ** [float(s)]: is the text a number? *)

(** Digits with single underscores between them; the rest. *)
Fixpoint float_digits (after_digit : bool) (l : list ascii) : option (list ascii) :=
  match l with
  | c :: l' =>
      if is_digit c then float_digits true l'
      else if (code c =? 95)%Z && after_digit then
        match l' with d :: _ => if is_digit d then float_digits false l' else None | [] => None end
      else if after_digit then Some l else None
  | [] => if after_digit then Some [] else None
  end.
Definition skip_sign (l : list ascii) : list ascii :=
  match l with c :: l' => if (code c =? 43)%Z || (code c =? 45)%Z then l' else l | [] => [] end.
Definition float_exponent (l : list ascii) : bool :=
  match l with
  | [] => true
  | e :: l' => ((code e =? 101)%Z || (code e =? 69)%Z) && bool_decide (float_digits false (skip_sign l') = Some [])
  end.
(** What follows the integer part; [whole] tells whether there was one. *)
Definition float_fraction (whole : bool) (l : list ascii) : bool :=
  match l with
  | c :: l' =>
      if (code c =? 46)%Z then
        match float_digits false l' with
        | Some rest => float_exponent rest
        | None => whole && match l' with c' :: _ => negb (is_digit c') && float_exponent l' | [] => true end
        end
      else whole && float_exponent l
  | [] => whole
  end.
Definition is_float (s : string) : bool :=
  let l := skip_sign (chars (strip s)) in
  bool_decide (lower (of_chars l) ∈ ["inf"; "infinity"; "nan"])
  || match float_digits false l with
     | Some rest => float_fraction true rest
     | None => float_fraction false l
     end.

(** ** The RESULT line *)

(** [prefix] and then a non-empty text without white space. *)
Definition field (prefix s : string) : option string :=
  rest ← strip_prefix (chars prefix) (chars s);
  if bool_decide (rest <> []) && negb (existsb is_space rest) then Some (of_chars rest) else None.
(** [RESULT_LINE] on one line: the uid and the status. *)
Definition result_line (line : string) : option (string * string) :=
  match split " "%char line with
  | [head; u; s] => if String.eqb head "RESULT" then uid ← field "uid=" u; st ← field "status=" s; Some (uid, st) else None
  | [head; u; s; a] =>
      if String.eqb head "RESULT" then
        uid ← field "uid=" u; st ← field "status=" s; _ ← field "auth=" a; Some (uid, st)
      else None
  | _ => None
  end.
(** [RESULT_LINE.finditer(stdout)]. *)
Definition result_lines (stdout : string) : list (string * string) :=
  omap result_line (split (ascii_of_nat 10) stdout).

(** ** The directory *)

(** [EmployeeDirectory.is_active]. *)
Definition EmployeeDirectory := string -> string.

Section Directory.
Context `{SigningTools} `{AuthTools}.

(** [ScriptDirectory(command).is_active(identity)]. *)
Definition script_is_active (command : list string) : EmployeeDirectory := fun identity =>
  let identity := strip identity in
  if negb (str_truthy identity) || existsb is_space (chars identity) then "not_found"
  else match run_command (command ++ [identity]) with
       | RunError => STATUS_UNAVAILABLE
       | Exited code out =>
           if negb (code =? 0)%Z then STATUS_UNAVAILABLE
           else match List.find (fun m => String.eqb m.1 identity) (result_lines out) with
                | Some m => m.2
                | None => STATUS_UNAVAILABLE
                end
       end.

(** [load_directory()]: the command, if one is configured. *)
Definition load_directory : res (option (list string)) :=
  let raw := strip (default "" (environ !! DIRECTORY_COMMAND_ENV)) in
  if negb (str_truthy raw) then Ok None
  else
    argv ← of_option (shlex_split raw) (Service DirectoryUnavailableError);
    match argv with
    | [] => Ok None
    | prog :: args =>
        _ ← raise_if (negb (which prog || program_file prog)) (Service DirectoryUnavailableError);
        _ ← raise_if (match args with
                      | script :: _ => endswith script ".py" && negb (program_file script)
                      | [] => false
                      end) (Service DirectoryUnavailableError);
        let timeout := strip (default "" (environ !! DIRECTORY_TIMEOUT_ENV)) in
        _ ← raise_if (str_truthy timeout && negb (is_float timeout)) ValueError;
        Ok (Some argv)
    end.

Definition with_status (actor : LayerActor) (status : string) : LayerActor := {|
  kind := kind actor; identity := identity actor; ldap_verified := ldap_verified actor;
  identity_verified := identity_verified actor; identity_provider := identity_provider actor;
  identity_issuer := identity_issuer actor; identity_subject := identity_subject actor;
  employee_status := Some status; display_name := display_name actor |}.

Definition apply_directory (actor : LayerActor) (directory : option EmployeeDirectory) : res LayerActor :=
  match directory with
  | None => Ok actor
  | Some is_active =>
      if negb (String.eqb (kind actor) "human") then Ok actor
      else
        let identity := default "" (identity actor) in
        if negb (str_truthy identity) then Ok actor
        else
          let status := is_active identity in
          _ ← raise_if (negb (String.eqb status STATUS_ACTIVE)) (Service DirectoryRefusedError);
          Ok (with_status actor status)
  end.
End Directory.

(** ** Lemmas *)

Lemma lstrip_suffix f l : exists z, l = z ++ lstrip_by f l.
Proof.
  induction l as [|c l [z IH]]; simpl; [by exists []|]. destruct (f c); [|by exists []].
  exists (c :: z). simpl. by rewrite -IH.
Qed.
Lemma rstrip_prefix f l : exists z, l = rstrip_by f l ++ z.
Proof.
  destruct (lstrip_suffix f (rev l)) as [z Hz]. exists (rev z). unfold rstrip_by.
  by rewrite -rev_app_distr -Hz rev_involutive.
Qed.
Lemma lstrip_head f l c l' : lstrip_by f l = c :: l' -> f c = false.
Proof.
  induction l as [|a l IH]; simpl; [done|]. destruct (f a) eqn:E; [exact IH|]. by intros [= <- _].
Qed.
(** A stripped text does not start with white space. *)
Lemma strip_head s c l : chars (strip s) = c :: l -> is_space c = false.
Proof.
  unfold strip. rewrite chars_of_chars. intros Hr.
  destruct (rstrip_prefix is_space (lstrip_by is_space (chars s))) as [z Hz]. rewrite Hr in Hz.
  exact (lstrip_head _ _ _ _ Hz).
Qed.
Lemma lex_space_is_space c : lex_space c = true -> is_space c = true.
Proof. destruct c as [[] [] [] [] [] [] [] []]; vm_compute; congruence. Qed.

(** A word that was begun is in the result. *)
Lemma lex_words_begun st tok l : st <> Between -> lex_words st tok l <> Some [].
Proof.
  revert st tok. induction l as [|c l IH]; intros st tok Hst; destruct st as [| |q|[q|]]; cbn [lex_words]; try done.
  - destruct (lex_space c); [by destruct (lex_words Between [] l)|].
    destruct (bool_decide _); [by apply IH|]. destruct (is_quote c); by apply IH.
  - destruct (bool_decide _); [by apply IH|]. destruct (_ && _); by apply IH.
  - destruct (_ || _); by apply IH.
  - by apply IH.
Qed.
(** A text with something in it splits into words. *)
Lemma shlex_split_strip s : strip s <> "" -> shlex_split (strip s) <> Some [].
Proof.
  unfold shlex_split. intros Hne. destruct (chars (strip s)) as [|c l] eqn:E.
  - destruct Hne. by rewrite -(of_chars_chars (strip s)) E.
  - apply strip_head in E. cbn [lex_words]. destruct (lex_space c) eqn:Es.
    + apply lex_space_is_space in Es. congruence.
    + destruct (bool_decide _); [by apply lex_words_begun|]. destruct (is_quote c); by apply lex_words_begun.
Qed.

Lemma find_first {A} (p : A -> bool) l x : List.find p l = Some x ->
  exists pre post, l = pre ++ x :: post /\ p x = true /\ Forall (fun y => p y = false) pre.
Proof.
  induction l as [|y l IH]; simpl; [done|]. destruct (p y) eqn:E.
  - intros [= ->]. exists [], l. by repeat split.
  - intros (pre & post & -> & Hx & Hp)%IH. exists (y :: pre), post. repeat split; [done|]. by constructor.
Qed.

Section Properties.
Context `{HT : SigningTools} `{HA : AuthTools}.
Set Default Proof Using "Type".

Lemma apply_directory_person a is_active a' id :
  apply_directory a (Some is_active) = Ok a' -> kind a = "human" -> identity a = Some id -> id <> "" ->
  is_active id = STATUS_ACTIVE /\ a' = with_status a STATUS_ACTIVE.
Proof.
  unfold apply_directory. intros Ha Hk Hi Hne%str_truthy_spec. rewrite Hk Hi in Ha.
  cbn [negb String.eqb Ascii.eqb Bool.eqb default from_option Datatypes.id] in Ha. rewrite Hne in Ha. cbn [negb] in Ha.
  inv_bind Ha as [[]|] Hs. apply raise_if_ok, negb_false_iff, String.eqb_eq in Hs. injection Ha as <-.
  by rewrite Hs.
Qed.
Lemma apply_directory_keeps a dir a' : apply_directory a dir = Ok a' ->
  kind a' = kind a /\ identity a' = identity a /\ identity_verified a' = identity_verified a
  /\ ldap_verified a' = ldap_verified a /\ identity_issuer a' = identity_issuer a
  /\ identity_subject a' = identity_subject a.
Proof.
  unfold apply_directory. destruct dir as [f|]; [|by intros [= ->]]. destruct (negb _); [by intros [= ->]|].
  destruct (negb _); [by intros [= ->]|]. intros Ha. inv_bind Ha. by injection Ha as <-.
Qed.

(** A command's answer counts only if it ran, exited with zero and its first
    RESULT line for the identity says so. *)
Lemma script_answer command id st : script_is_active command id = st ->
  st <> STATUS_UNAVAILABLE -> st <> "not_found" ->
  exists out pre post, run_command (command ++ [strip id]) = Exited 0 out
    /\ result_lines out = pre ++ (strip id, st) :: post
    /\ Forall (fun m => m.1 <> strip id) pre.
Proof.
  unfold script_is_active. destruct (_ || _); [congruence|].
  destruct (run_command _) as [|code out] eqn:Hrun; [congruence|].
  destruct (Z.eqb_spec code 0) as [->|]; [|cbn; congruence]. cbn [negb].
  destruct (List.find _ _) as [[u s]|] eqn:Hf; [|congruence]. cbn. intros <- _ _.
  apply find_first in Hf as (pre & post & Hl & Hu%String.eqb_eq & Hp). cbn in Hu. subst u.
  exists out, pre, post. split; [done|]. split; [done|]. eapply Forall_impl; [exact Hp|].
  intros m Hm. by apply String.eqb_neq.
Qed.

(** C35: The directory fails closed. Where a deployment names a command, either
    start-up is refused or that command line is what runs, it is never skipped;
    and a person passes only if the command ran for the person's identity,
    exited with zero and its first RESULT line for that identity says
    [active]. *)
Theorem directory_fails_closed a command a' id :
  strip (default "" (environ !! DIRECTORY_COMMAND_ENV)) <> "" -> load_directory = Ok command ->
  apply_directory a (script_is_active <$> command) = Ok a' ->
  kind a = "human" -> identity a = Some id -> id <> "" ->
  exists argv out pre post, command = Some argv
    /\ shlex_split (strip (default "" (environ !! DIRECTORY_COMMAND_ENV))) = Some argv
    /\ run_command (argv ++ [strip id]) = Exited 0 out
    /\ result_lines out = pre ++ (strip id, STATUS_ACTIVE) :: post
    /\ Forall (fun m => m.1 <> strip id) pre
    /\ a' = with_status a STATUS_ACTIVE.
Proof.
  intros Hne Hl Ha Hk Hi Hid. unfold load_directory in Hl.
  set (raw := strip (default "" (environ !! DIRECTORY_COMMAND_ENV))) in *.
  rewrite (proj2 (str_truthy_spec raw) Hne) in Hl. cbn [negb] in Hl. inv_bind Hl as [argv|] Hs.
  destruct (shlex_split raw) as [words|] eqn:Hw; [|done]. injection Hs as ->.
  destruct argv as [|prog args]; [by destruct (shlex_split_strip _ Hne Hw)|].
  inv_bind Hl. inv_bind Hl. inv_bind Hl. injection Hl as <-.
  apply (apply_directory_person _ _ _ id) in Ha as [Hact ->]; [|done..].
  destruct (script_answer _ _ _ Hact) as (out & pre & post & Hrun & Hlines & Hpre); [done..|].
  by exists (prog :: args), out, pre, post.
Qed.
End Properties.

(** ** Witnesses *)

Definition checking_env : SigningTools :=
  sample_tools {[DIRECTORY_COMMAND_ENV := "python3 'check employee.py'"]} "".
Definition checking_auth : AuthTools := sample_auth (fun argv =>
  if bool_decide (argv = ["python3"; "check employee.py"; "ann"])
  then Exited 0 ("looking up" +:+ of_chars [ascii_of_nat 10] +:+ "RESULT uid=ann status=active auth=ldap") else Exited 1 "").
Definition ann_actor : LayerActor := @local_actor checking_env "ann" false.

Lemma directory_fails_closed_witness :
  exists argv out pre post,
    @load_directory checking_env checking_auth = Ok (Some argv)
    /\ @run_command checking_auth (argv ++ ["ann"]) = Exited 0 out
    /\ result_lines out = pre ++ ("ann", STATUS_ACTIVE) :: post.
Proof.
  destruct (@directory_fails_closed checking_env checking_auth ann_actor
    (Some ["python3"; "check employee.py"]) (with_status ann_actor STATUS_ACTIVE) "ann")
    as (argv & out & pre & post & Hc & _ & Hrun & Hl & _);
    [discriminate|vm_compute; reflexivity|vm_compute; reflexivity|reflexivity|reflexivity|discriminate|].
  exists argv, out, pre, post. injection Hc as <-. split; [vm_compute; reflexivity|]. split; [exact Hrun|exact Hl].
Defined.
