(* ===== verification/Credentials.v ===== *)
(** * Credentials of the command line and the SDK

    [cli/identity/config.py], [auth/config.py], [auth/discovery.py] and
    [cli/identity/actor.py]: where a token comes from, the verifier it is paired
    with, and the stored credentials of each server.  The home directory, the
    HTTP client and whether the [cli] extra is installed are fields of
    [HostTools]. *)

From S2P Require Import Prelude PyStr Json Errors Sha256 Signing Contracts Auth Directory.
From stdpp Require Import options.

Class HostTools := {
  home : string;
  (** the configuration directory exists or can be made *)
  home_writable : bool;
  cli_installed : bool;
  (** [client.get(url)], [raise_for_status], [json()] *)
  http_json : string -> res json
}.

(** ** [discovery.py] *)

Record OIDCMetadata := { md_issuer : json; jwks_uri : json; token_endpoint : json; device_endpoint : json }.

(** A token with the verifier that was built for it. *)
Record ResolvedCredential `{AuthTools} := { rc_token : string; rc_verifier : TokenVerifier; rc_source : string }.

(** [CredentialStore]: its credentials ([JNull] is none) and its directory. *)
Record CredentialStore := { st_credentials : io json; st_config_dir : res string }.

Section Credentials.
Context `{SigningTools} `{AuthTools} `{HostTools}.

Definition discover_oidc (issuer : string) : res OIDCMetadata :=
  let base := of_chars (rstrip_by (fun c => (code c =? 47)%Z) (chars issuer)) in
  metadata ← http_json (base +:+ "/.well-known/openid-configuration");
  match metadata with
  | JObj m =>
      _ ← raise_if (negb (get_truthy "jwks_uri" m)) RuntimeError;
      _ ← raise_if (negb (get_truthy "token_endpoint" m)) RuntimeError;
      Ok {| md_issuer := default (JStr issuer) (m !! "issuer"); jwks_uri := get "jwks_uri" m;
            token_endpoint := get "token_endpoint" m;
            device_endpoint := get "device_authorization_endpoint" m |}
  | _ => Err AttributeError
  end.

(** ** [cli/identity/config.py] *)

Definition CONFIG_FILE : string := "config.json".
Definition CREDENTIALS_FILE : string := "credentials.json".

Definition config_dir : res string :=
  if home_writable then Ok (home +:+ "/.config/traust-ledger") else Err OSError.

(** A temporary file and a rename: the new text or the old file. *)
Definition atomic_write (path content : string) : io unit := write_text path content.

Definition read_json_file (path : string) : io (option dict) := fun d =>
  if is_file path d then
    (text ← read_text path;
     mret (match loads text with Some (JObj m) => Some m | _ => None end)) d
  else (Ok None, d).

Definition load_config : io dict :=
  dir ← lift config_dir;
  data ← read_json_file (under dir CONFIG_FILE);
  mret (default ∅ data).
Definition save_config (data : dict) : io unit :=
  dir ← lift config_dir;
  atomic_write (under dir CONFIG_FILE) (dumps true (JObj data)).

(** [os.environ.get(name)] as a value. *)
Definition env_json (name : string) : json := from_option JStr JNull (environ !! name).

Definition active_host : io json :=
  config ← load_config;
  mret (if truthy (env_json "LEDGER_SERVER_URL") then env_json "LEDGER_SERVER_URL"
        else if get_truthy "active_server" config then get "active_server" config
        else get "server_url" config).

Definition load_all_credentials : io dict :=
  dir ← lift config_dir;
  data ← read_json_file (under dir CREDENTIALS_FILE);
  mret (default ∅ data).

(** [all_creds.get(host)]: the keys of a JSON object are texts. *)
Definition host_entry (host : json) (all_creds : dict) : res json :=
  match host with
  | JStr h => Ok (get h all_creds)
  | JArr _ | JObj _ => Err TypeError
  | _ => Ok JNull
  end.
Definition load_credentials : io json :=
  host ← active_host;
  if negb (truthy host) then mret JNull
  else all_creds ← load_all_credentials; lift (host_entry host all_creds).

(** [host or active_host()], a text. *)
Definition host_or_active (host : option string) : io string :=
  if opt_truthy host then mret (default "" host)
  else
    active ← active_host;
    _ ← lift (raise_if (negb (truthy active)) RuntimeError);
    lift (of_option (as_str active) TypeError).
Definition save_credentials (data : json) (host : option string) : io unit :=
  h ← host_or_active host;
  all_creds ← load_all_credentials;
  dir ← lift config_dir;
  atomic_write (under dir CREDENTIALS_FILE) (dumps true (JObj (<[h := data]> all_creds))).

(** [path.unlink(missing_ok=True)]. *)
Definition unlink (path : string) : io unit := fun d =>
  if is_file path d && negb (writable path) then (Err OSError, d) else (Ok tt, delete path d).
Definition clear_credentials (host : option string) : io unit :=
  match host with
  | None => dir ← lift config_dir; unlink (under dir CREDENTIALS_FILE)
  | Some h =>
      all_creds ← load_all_credentials;
      let rest := delete h all_creds in
      dir ← lift config_dir;
      if bool_decide (rest <> ∅) then atomic_write (under dir CREDENTIALS_FILE) (dumps true (JObj rest))
      else unlink (under dir CREDENTIALS_FILE)
  end.
Definition list_hosts : io (list string) := all_creds ← load_all_credentials; mret (items all_creds).*1.

(** [time.time() >= v]. *)
Definition passed_by (v : json) : res bool :=
  match v with
  | JInt z => Ok (z <=? clock)%Z
  | JBool b => Ok ((if b then 1 else 0) <=? clock)%Z
  | _ => Err TypeError
  end.

(** [os.environ.get(name, "").strip()]. *)
Definition env_text (name : string) : string := strip (default "" (environ !! name)).

(** The kind [ledger auth local --machine] remembered for the identity. *)
Definition remembered_machine (config : dict) (identity : string) : bool :=
  py_eqb (get "local_identity_kind" config) (JStr "machine")
  && String.eqb
       (lower (if get_truthy "local_identity" config then claim_text (get "local_identity" config) else ""))
       (lower identity).
Definition auto_mint_local_token : io (option string) :=
  let identity := env_text "LEDGER_LOCAL_IDENTITY" in
  if negb (str_truthy identity) then mret None
  else
    machine ← (if bool_decide (lower (env_text "LEDGER_LOCAL_MACHINE") ∈ ["1"; "true"; "yes"]) then mret true
               else config ← load_config; mret (remembered_machine config identity));
    dir ← lift config_dir;
    key ← ensure_local_keypair dir;
    token ← lift (mint_local_token identity key machine);
    mret (Some token).

(** ** [auth/config.py] *)

(** [except OSError: return None], and the like. *)
Definition catching {A} (caught : exn) (fallback : A) (m : io A) : io A := fun d =>
  match m d with
  | (Err e, d') => if bool_decide (e = caught) then (Ok fallback, d') else (Err e, d')
  | r => r
  end.

Definition default_store : option CredentialStore :=
  if cli_installed
  then Some {| st_credentials := catching OSError JNull load_credentials; st_config_dir := config_dir |}
  else None.

(** The directory a store, or the command line, keeps its keys in. *)
Definition local_dir (store : option CredentialStore) : io (option string) :=
  match store with
  | Some st => catching OSError None (dir ← lift (st_config_dir st); mret (Some dir))
  | None => if cli_installed then catching OSError None (dir ← lift config_dir; mret (Some dir)) else mret None
  end.
Definition local_fallback (store : option CredentialStore) : io (option VerifierConfig) := fun d =>
  (dir ← local_dir store;
   mret (dir ← dir; path ← local_jwks_path dir d; Some (local_verifier_config path))) d.

Definition build_local_verifier (store : option CredentialStore) : io TokenVerifier :=
  vc ← local_fallback store;
  match vc with
  | Some config => token_verifier config
  | None => lift (Err AuthResolutionError)
  end.

(** [a or b]. *)
Definition json_or (a b : json) : json := if truthy a then a else b.

Definition build_oidc_verifier (trusted_issuer : json) : io TokenVerifier :=
  let jwks_url := env_json "LEDGER_OIDC_JWKS_URL" in
  let oidc_issuer := json_or trusted_issuer (env_json "LEDGER_OIDC_ISSUER") in
  url ← lift (if negb (truthy jwks_url) && truthy oidc_issuer then
                issuer ← of_option (as_str oidc_issuer) AttributeError;
                metadata ← discover_oidc issuer;
                Ok (jwks_uri metadata)
              else Ok jwks_url);
  _ ← lift (raise_if (negb (truthy url)) AuthResolutionError);
  token_verifier {| jwks_url := url; jwks_path := None; vc_issuer := oidc_issuer;
                    vc_audience := env_json "LEDGER_OIDC_AUDIENCE";
                    machine_claim := "azp"; identity_claim := "email" |}.

(** The unverified [iss] of a token says it is local. *)
Definition claims_local (token : string) : bool :=
  match decode_unverified token with
  | Some claims => py_eqb (get "iss" claims) (JStr LOCAL_ISSUER)
  | None => false
  end.
Definition verifier_for_token (token : string) : io TokenVerifier :=
  if claims_local token then build_local_verifier None else build_oidc_verifier JNull.
Definition verifier_for_issuer (issuer : json) : io TokenVerifier :=
  if py_eqb issuer (JStr LOCAL_ISSUER) then build_local_verifier None else build_oidc_verifier issuer.

(** The explicit builder of REST callers. *)
Definition build_verifier_config (url issuer audience : option string) (machine_claim identity_claim : string)
  : io (option VerifierConfig) :=
  let jwks_url := opt_or url (environ !! "LEDGER_OIDC_JWKS_URL") in
  let issuer := opt_or issuer (environ !! "LEDGER_OIDC_ISSUER") in
  let audience := opt_or audience (environ !! "LEDGER_OIDC_AUDIENCE") in
  if negb (opt_truthy issuer) && negb (opt_truthy jwks_url) then local_fallback None
  else
    url ← lift (if negb (opt_truthy jwks_url) && opt_truthy issuer
                then metadata ← discover_oidc (default "" issuer); Ok (jwks_uri metadata)
                else Ok (from_option JStr JNull jwks_url));
    mret (Some {| jwks_url := url; jwks_path := None; vc_issuer := from_option JStr JNull issuer;
                  vc_audience := from_option JStr JNull audience;
                  machine_claim := machine_claim; identity_claim := identity_claim |}).

(** A stored token is a text: the commands write nothing else. *)
Definition try_stored_credential (store : option CredentialStore) : io (option ResolvedCredential) :=
  match store with
  | None => mret None
  | Some st =>
      creds ← st_credentials st;
      if negb (truthy creds) then mret None
      else
        creds ← lift (of_option (as_dict creds) AttributeError);
        if negb (get_truthy "access_token" creds) then mret None
        else
          expired ← lift (if is_null (get "expires_at" creds) then Ok false else passed_by (get "expires_at" creds));
          if (expired : bool) then mret None
          else
            token ← lift (of_option (as_str (get "access_token" creds)) TypeError);
            catching AuthResolutionError None (
              v ← verifier_for_issuer (get "issuer" creds);
              mret (Some {| rc_token := token; rc_verifier := v; rc_source := "stored" |}))
  end.

Definition try_auto_mint (store : option CredentialStore) : io (option ResolvedCredential) :=
  if negb (str_truthy (env_text "LEDGER_LOCAL_IDENTITY")) || negb cli_installed then mret None
  else
    token ← catching OSError None auto_mint_local_token;
    match token with
    | Some token =>
        if negb (str_truthy token) then mret None
        else catching AuthResolutionError None (
               v ← build_local_verifier store;
               mret (Some {| rc_token := token; rc_verifier := v; rc_source := "auto-mint" |}))
    | None => mret None
    end.

(** A token from the environment, paired with its verifier. *)
Definition from_token (token source : string) : io ResolvedCredential :=
  v ← verifier_for_token token; mret {| rc_token := token; rc_verifier := v; rc_source := source |}.

(** The text of LEDGER_TOKEN_PATH's file; the empty text where it is not set. *)
Definition token_file_text : io string :=
  let path := default "" (environ !! "LEDGER_TOKEN_PATH") in
  if str_truthy path then
    text ← catching OSError None (text ← read_text path; mret (Some text));
    lift (strip <$> of_option text AuthResolutionError)
  else mret "".

Definition resolve_auth (store : option CredentialStore) : io ResolvedCredential :=
  if str_truthy (env_text "LAAS_TOKEN") then from_token (env_text "LAAS_TOKEN") "env:LAAS_TOKEN"
  else
    text ← token_file_text;
    if str_truthy text then from_token text "env:LEDGER_TOKEN_PATH"
    else if str_truthy (env_text "LEDGER_TOKEN") then from_token (env_text "LEDGER_TOKEN") "env:LEDGER_TOKEN"
    else
      let store := match store with Some st => Some st | None => default_store end in
      stored ← try_stored_credential store;
      match stored with
      | Some c => mret c
      | None =>
          minted ← try_auto_mint store;
          lift (of_option minted AuthResolutionError)
      end.

(** [cli/identity/actor.py]: [None] is a refusal with a message. *)
Definition require_verified_actor : io (option LayerActor) :=
  catching AuthResolutionError None (cred ← resolve_auth None; mret (Some cred)) ≫= fun cred =>
  match cred with
  | None => mret None
  | Some c => catching TokenVerificationError None (actor ← lift (verify (rc_verifier c) (rc_token c)); mret (Some actor))
  end.
End Credentials.

(** ** Lemmas *)

Lemma lift_ok {A} (r : res A) d a d' : lift r d = (Ok a, d') -> r = Ok a /\ d' = d.
Proof. unfold lift. by intros [= -> ->]. Qed.
Lemma catching_some {A} e (m : io (option A)) d a d' :
  catching e None m d = (Ok (Some a), d') -> m d = (Ok (Some a), d').
Proof.
  unfold catching. destruct (m d) as [[o|e'] d1]; [done|]. by destruct (bool_decide _).
Qed.
(** Through a successful chain of disk operations. *)
Tactic Notation "inv_io" hyp(H) "as" simple_intropattern(p) ident(d) ident(E) :=
  apply io_bind_ok in H as (p & d & E & H).

Section Properties.
Context `{HT : SigningTools} `{HA : AuthTools} `{HAL : !AuthLaws} `{HH : HostTools}.
Set Default Proof Using "Type".

Lemma token_verifier_inv config d v d' : token_verifier config d = (Ok v, d') ->
  tv_config v = config /\ tv_client v = (if truthy (jwks_url config) then Some (jwks_url config) else None)
  /\ (jwks_path config = None -> tv_local_keys v = None).
Proof.
  unfold token_verifier. intros Hv. inv_io Hv as keys d1 Hk. inv_io Hv as u d2 Hu.
  injection Hv as <- <-. cbn. split; [done|]. split; [done|]. intros Hp. rewrite Hp in Hk. by injection Hk as <- <-.
Qed.

(** *** Where a token and its key come from *)

(** No earlier variable gave a token. *)
Definition not_given (names : list string) : Prop := Forall (fun n => env_text n = "") names.

(** The token of the command line and the issuer recorded with it ([JNull]
    where none is): the first of LAAS_TOKEN, the file of LEDGER_TOKEN_PATH and
    LEDGER_TOKEN that gives one, or the entry the active server has in the
    credentials file while it is current, or a token the machine's key pair
    signs for LEDGER_LOCAL_IDENTITY. *)
Inductive token_origin (d d' : disk) : string -> json -> Prop :=
  | given_directly t : environ !! "LAAS_TOKEN" = Some t -> strip t <> "" -> token_origin d d' (strip t) JNull
  | given_as_file path t : not_given ["LAAS_TOKEN"] -> environ !! "LEDGER_TOKEN_PATH" = Some path -> path <> "" ->
      d !! path = Some t -> strip t <> "" -> token_origin d d' (strip t) JNull
  | given_by_client t : not_given ["LAAS_TOKEN"] -> environ !! "LEDGER_TOKEN" = Some t -> strip t <> "" ->
      token_origin d d' (strip t) JNull
  | stored_for_server creds token : not_given ["LAAS_TOKEN"; "LEDGER_TOKEN"] ->
      load_credentials d = (Ok (JObj creds), d) -> get "access_token" creds = JStr token -> token <> "" ->
      (forall z, get "expires_at" creds = JInt z -> (clock < z)%Z) -> token_origin d d' token (get "issuer" creds)
  | signed_here identity dir key machine : not_given ["LAAS_TOKEN"; "LEDGER_TOKEN"] ->
      environ !! "LEDGER_LOCAL_IDENTITY" = Some identity -> strip identity <> "" ->
      config_dir = Ok dir -> ensure_local_keypair dir d = (Ok key, d') ->
      token_origin d d' (jwt_encode (local_claims (strip identity) machine) key LOCAL_KID) JNull.

(** The key a token is checked with, and the issuer and the audience asked of
    it ([JNull] asks for none): a key of the key set in the machine's
    configuration directory, and the issuer [local]; or the key fetched for
    the token from the configured endpoint or the one its issuer publishes,
    where the issuer is the recorded one or else the configured one. *)
Inductive key_origin (d : disk) (token : string) (recorded : json) : jwk -> json -> json -> Prop :=
  | machine_key dir text m l j key : config_dir = Ok dir ->
      d !! under dir LOCAL_JWKS_FILE = Some text -> loads text = Some (JObj m) ->
      json_iter (default (JArr []) (m !! "keys")) = Ok l -> j ∈ l -> py_jwk j = Ok key ->
      key_origin d token recorded key (JStr LOCAL_ISSUER) JNull
  | provider_key issuer url key :
      issuer = json_or recorded (env_json "LEDGER_OIDC_ISSUER") ->
      (url = env_json "LEDGER_OIDC_JWKS_URL"
       \/ exists i metadata, issuer = JStr i /\ discover_oidc i = Ok metadata /\ url = jwks_uri metadata) ->
      fetch_key url token = Ok key ->
      key_origin d token recorded key (truthy_or_null issuer) (truthy_or_null (env_json "LEDGER_OIDC_AUDIENCE")).

(** The actor claims speak for: a human by the folded e-mail address, a machine
    by its client or subject; the issuer and subject are the claims', and a
    local one counts as verified only where the deployment opted in. *)
Definition spoken_for (claims : dict) (a : LayerActor) : Prop :=
  ((kind a = "human" /\ identity a = Some (strip (lower (claim_text (get "email" claims))))
    /\ identity a <> Some "" /\ get_truthy "email" claims = true)
   \/ (kind a = "machine" /\ get_truthy "email" claims = false
       /\ ((get_truthy "azp" claims = true /\ identity a = Some (claim_text (get "azp" claims)))
           \/ (get_truthy "azp" claims = false /\ get_truthy "sub" claims = true
               /\ identity a = Some (claim_text (get "sub" claims))))))
  /\ (get_truthy "iss" claims = true -> identity_issuer a = Some (claim_text (get "iss" claims)))
  /\ (get_truthy "sub" claims = true -> identity_subject a = Some (claim_text (get "sub" claims)))
  /\ (identity_issuer a = Some "local" /\ identity_provider a = Some "local"
      /\ (identity_verified a = Some true <-> env_text "LEDGER_TRUST_LOCAL_IDENTITY" = "1")
      \/ identity_issuer a <> Some "local" /\ identity_provider a = Some "oidc" /\ identity_verified a = Some true).

Lemma claims_spoken_for claims fb a : claims_to_actor claims "azp" "email" fb = Ok a -> spoken_for claims a.
Proof.
  unfold claims_to_actor. intros Ha. inv_bind Ha as [[kd id]|] Hid. injection Ha as <-. unfold spoken_for. cbn.
  split; [|split; [|split]].
  - unfold claimed_identity in Hid. unfold get_truthy.
    destruct (truthy (get "azp" claims)) eqn:Hm, (truthy (get "email" claims)) eqn:He; cbn [negb andb] in Hid.
    2: { injection Hid as <- <-. right. auto. }
    1,2: inv_bind Hid as [[]|] Hne; injection Hid as <- <-;
      apply raise_if_ok, negb_false_iff, str_truthy_spec in Hne; left; split; [done|]; split; [done|];
      split; [by intros [= ?]|done].
    unfold get_truthy in Hid. destruct (truthy (get "sub" claims)) eqn:Hs; [|done].
    injection Hid as <- <-. right. auto 6.
  - by intros ->.
  - by intros ->.
  - set (issuer := claim_text _). destruct (String.eqb_spec issuer LOCAL_ISSUER) as [->|Hne].
    + left. split; [done|]. split; [done|]. unfold local_identity_trusted.
      change (strip _) with (env_text "LEDGER_TRUST_LOCAL_IDENTITY").
      destruct (String.eqb_spec (env_text "LEDGER_TRUST_LOCAL_IDENTITY") "1"); split; congruence.
    + right. split; [|done]. by intros [= ?].
Qed.

(** *** Operations that leave the disk alone *)

Definition reads_only {A} (m : io A) : Prop := forall d, (m d).2 = d.
Lemma reads_only_lift {A} (r : res A) : reads_only (lift r).
Proof. done. Qed.
Lemma reads_only_ret {A} (a : A) : reads_only (mret a).
Proof. done. Qed.
Lemma reads_only_read path : reads_only (read_text path).
Proof. done. Qed.
Lemma reads_only_bind {A B} (m : io A) (f : A -> io B) :
  reads_only m -> (forall a, reads_only (f a)) -> reads_only (x ← m; f x).
Proof.
  intros Hm Hf d. unfold mbind, io_bind. specialize (Hm d). destruct (m d) as [[a|e] d1]; cbn in Hm; subst; [apply Hf|done].
Qed.
Lemma reads_only_catching {A} e (a : A) (m : io A) : reads_only m -> reads_only (catching e a m).
Proof.
  intros Hm d. unfold catching. specialize (Hm d). destruct (m d) as [[x|x] d1]; [done|]. by destruct (bool_decide _).
Qed.
Lemma reads_only_ok {A} (m : io A) d a d' : reads_only m -> m d = (Ok a, d') -> d' = d.
Proof. intros Hm Hd. specialize (Hm d). by rewrite Hd in Hm. Qed.
#[local] Hint Resolve reads_only_lift reads_only_ret reads_only_read reads_only_bind reads_only_catching : disk.

Lemma reads_only_json path : reads_only (read_json_file path).
Proof. intros d. unfold read_json_file. destruct (is_file path d); [|done]. by apply reads_only_bind. Qed.
#[local] Hint Resolve reads_only_json : disk.
Lemma reads_only_active : reads_only active_host.
Proof. unfold active_host, load_config. eauto 8 with disk. Qed.
#[local] Hint Resolve reads_only_active : disk.
Lemma reads_only_credentials : reads_only load_credentials.
Proof.
  unfold load_credentials, load_all_credentials. apply reads_only_bind; [auto with disk|]. intros h.
  destruct (negb _); eauto 8 with disk.
Qed.
Lemma reads_only_token_file : reads_only token_file_text.
Proof. unfold token_file_text. destruct (str_truthy _); [|done]. eauto 8 with disk. Qed.
Lemma reads_only_keys path : reads_only (load_local_keys path).
Proof.
  intros d. unfold load_local_keys. set (m := mbind _ _).
  assert (reads_only m) as Hm by (subst m; eauto 12 with disk). specialize (Hm d).
  destruct (m d) as [[x|x] d1]; [done|]. by destruct (_ || _).
Qed.
Lemma reads_only_verifier config : reads_only (token_verifier config).
Proof.
  intros d. unfold token_verifier. apply reads_only_bind; [|eauto with disk].
  destruct (jwks_path config) as [p|]; [|done]. destruct (is_file p d); [|done]. apply reads_only_keys.
Qed.
Lemma reads_only_local_dir store : reads_only (local_dir store).
Proof. unfold local_dir. destruct store, cli_installed; eauto 8 with disk. Qed.
#[local] Hint Resolve reads_only_credentials reads_only_token_file reads_only_verifier reads_only_local_dir : disk.
Lemma reads_only_local store : reads_only (build_local_verifier store).
Proof.
  unfold build_local_verifier. apply reads_only_bind; [|intros []; auto with disk].
  intros d. unfold local_fallback. by apply reads_only_bind; [apply reads_only_local_dir|].
Qed.
Lemma reads_only_oidc trusted : reads_only (build_oidc_verifier trusted).
Proof. unfold build_oidc_verifier. eauto 8 with disk. Qed.
#[local] Hint Resolve reads_only_local reads_only_oidc : disk.
Lemma reads_only_for_token token : reads_only (verifier_for_token token).
Proof. unfold verifier_for_token. destruct (claims_local token); auto with disk. Qed.
Lemma reads_only_for_issuer issuer : reads_only (verifier_for_issuer issuer).
Proof. unfold verifier_for_issuer. destruct (py_eqb _ _); auto with disk. Qed.
#[local] Hint Resolve reads_only_for_token reads_only_for_issuer : disk.
Lemma reads_only_stored : reads_only (try_stored_credential default_store).
Proof.
  unfold try_stored_credential, default_store. destruct cli_installed; [|done]. cbn.
  apply reads_only_bind; [auto with disk|]. intros creds. destruct (negb _); [done|].
  apply reads_only_bind; [done|]. intros m. destruct (negb _); [done|].
  apply reads_only_bind; [done|]. intros []; eauto 8 with disk.
Qed.

(** *** Resolving a credential *)

(** The verifier of the machine's own key set, and a provider's. *)
Definition local_source (d : disk) (v : TokenVerifier) : Prop :=
  exists dir, config_dir = Ok dir /\ tv_config v = local_verifier_config (under dir LOCAL_JWKS_FILE)
    /\ tv_client v = None
    /\ forall ks, tv_local_keys v = Some ks -> load_local_keys (under dir LOCAL_JWKS_FILE) d = (Ok (Some ks), d).
Definition provider_source (recorded : json) (v : TokenVerifier) : Prop :=
  tv_local_keys v = None
  /\ exists issuer url, issuer = json_or recorded (env_json "LEDGER_OIDC_ISSUER")
    /\ tv_config v = {| jwks_url := url; jwks_path := None; vc_issuer := issuer;
                        vc_audience := env_json "LEDGER_OIDC_AUDIENCE"; machine_claim := "azp"; identity_claim := "email" |}
    /\ tv_client v = Some url
    /\ (url = env_json "LEDGER_OIDC_JWKS_URL"
        \/ exists i metadata, issuer = JStr i /\ discover_oidc i = Ok metadata /\ url = jwks_uri metadata).

Lemma local_verifier_source store d v d' : (store = None \/ store = default_store) ->
  build_local_verifier store d = (Ok v, d') -> local_source d v.
Proof.
  intros Hst. unfold build_local_verifier. intros Hv. inv_io Hv as vc d1 Hf. destruct vc as [config|]; [|done].
  unfold local_fallback in Hf. inv_io Hf as dir d2 Hd. injection Hf as Hf <-.
  pose proof (reads_only_ok _ _ _ _ (reads_only_local_dir store) Hd) as ->.
  destruct dir as [dir|]; [|done]. cbn in Hf. unfold local_jwks_path in Hf.
  destruct (is_file _ d) eqn:Hfile; [|done]. injection Hf as <-.
  assert (config_dir = Ok dir) as Hdir.
  { unfold local_dir, default_store in *. destruct Hst as [->| ->], cli_installed; try done;
      apply catching_some in Hd; inv_io Hd as dir' d3 Hl; injection Hd as -> _; cbn in Hl; apply lift_ok in Hl as [Hl _]; exact Hl. }
  exists dir. split; [done|]. pose proof (token_verifier_inv _ _ _ _ Hv) as (-> & -> & _). split; [done|]. split; [done|].
  unfold token_verifier in Hv. cbn [jwks_path local_verifier_config] in Hv. rewrite Hfile in Hv.
  inv_io Hv as keys d4 Hk. inv_io Hv as u d5 Hu. injection Hv as <- _. cbn. intros ks ->.
  pose proof (reads_only_ok _ _ _ _ (reads_only_keys _) Hk) as ->. exact Hk.
Qed.
Lemma oidc_verifier_source recorded d v d' : build_oidc_verifier recorded d = (Ok v, d') -> provider_source recorded v.
Proof.
  unfold build_oidc_verifier. intros Hv. inv_io Hv as url d1 Hu. inv_io Hv as u d2 Ht.
  apply lift_ok in Hu as [Hu _]. apply lift_ok in Ht as [Ht%raise_if_ok%negb_false_iff _].
  apply token_verifier_inv in Hv as (Hc & Hcl & Hk). cbn in Hcl, Hk. rewrite Ht in Hcl.
  split; [by apply Hk|]. eexists _, url. split; [done|]. split; [done|]. split; [done|].
  destruct (_ && _) eqn:E; [|injection Hu as <-; by left]. right.
  inv_bind Hu as [issuer|] Hi. inv_bind Hu as [metadata|] Hm. injection Hu as <-.
  destruct (json_or _ _) as [| | |i| |]; try done. injection Hi as ->. by exists issuer, metadata.
Qed.

Lemma from_token_source token source d c d' : from_token token source d = (Ok c, d') ->
  d' = d /\ rc_token c = token /\ (local_source d (rc_verifier c) \/ provider_source JNull (rc_verifier c)).
Proof.
  unfold from_token. intros Hf. inv_io Hf as v d3 Hv. injection Hf as <- <-.
  pose proof (reads_only_ok _ _ _ _ (reads_only_for_token _) Hv) as ->. split; [done|]. split; [done|]. cbn.
  unfold verifier_for_token in Hv. destruct (claims_local token);
    [left; apply (local_verifier_source _ _ _ _ (or_introl eq_refl) Hv)|right; exact (oidc_verifier_source _ _ _ _ Hv)].
Qed.
Lemma stored_source d c d' : not_given ["LAAS_TOKEN"; "LEDGER_TOKEN"] ->
  try_stored_credential default_store d = (Ok (Some c), d') ->
  exists recorded, token_origin d d' (rc_token c) recorded
    /\ (local_source d' (rc_verifier c) \/ provider_source recorded (rc_verifier c)).
Proof.
  intros Hn Hs. pose proof (reads_only_ok _ _ _ _ reads_only_stored Hs) as ->.
  unfold try_stored_credential, default_store in Hs. destruct cli_installed; [|done]. cbn in Hs.
  inv_io Hs as creds d3 Hc. destruct (truthy creds) eqn:Htc; [|done]. cbn [negb] in Hs.
  unfold catching in Hc at 1. destruct (load_credentials d) as [[j|e] d0] eqn:El.
  2: { destruct (bool_decide _); [|done]. by injection Hc as <- _. }
  pose proof (reads_only_ok _ _ _ _ reads_only_credentials El) as ->. injection Hc as -> <-.
  inv_io Hs as m d4 Hm. destruct (get_truthy "access_token" m) eqn:Hat; [|done]. cbn [negb] in Hs.
  inv_io Hs as ex d5 Hex. destruct ex; [done|]. inv_io Hs as token d6 Htok.
  apply lift_ok in Hm as [Hm ->], Hex as [Hex ->], Htok as [Htok ->]. destruct creds; try done. injection Hm as ->.
  apply catching_some in Hs. inv_io Hs as v d7 Hv. injection Hs as <- <-. cbn.
  destruct (get "access_token" m) as [| | |t| |] eqn:Ht; try done. injection Htok as ->.
  exists (get "issuer" m). split.
  - apply (stored_for_server _ _ m); [done|exact El|done| |].
    + intros ->. unfold get_truthy in Hat. by rewrite Ht in Hat.
    + intros z Hz. rewrite Hz in Hex. cbn in Hex. injection Hex as Hex. lia.
  - unfold verifier_for_issuer in Hv. destruct (py_eqb _ _);
      [left; apply (local_verifier_source _ _ _ _ (or_introl eq_refl) Hv)|right; exact (oidc_verifier_source _ _ _ _ Hv)].
Qed.
Lemma minted_source d c d' : not_given ["LAAS_TOKEN"; "LEDGER_TOKEN"] ->
  try_auto_mint default_store d = (Ok (Some c), d') ->
  token_origin d d' (rc_token c) JNull /\ local_source d' (rc_verifier c).
Proof.
  intros Hn Hm. unfold try_auto_mint in Hm. destruct (str_truthy _) eqn:Hid; [|done].
  destruct cli_installed eqn:Hcli; [|done]. cbn [negb orb] in Hm. inv_io Hm as token d4 Ht.
  destruct token as [token|]; [|done]. destruct (negb _); [done|]. apply catching_some in Hm.
  inv_io Hm as v d5 Hv. injection Hm as <- <-. cbn.
  pose proof (reads_only_ok _ _ _ _ (reads_only_local _) Hv) as ->.
  split; [|exact (local_verifier_source _ _ _ _ (or_intror eq_refl) Hv)].
  apply catching_some in Ht. unfold auto_mint_local_token in Ht. rewrite Hid in Ht. cbn [negb] in Ht.
  inv_io Ht as machine d6 Hmac. inv_io Ht as dir d7 Hdir. inv_io Ht as key d8 Hkey. inv_io Ht as t d9 Hmint.
  injection Ht as -> <-. apply lift_ok in Hdir as [Hdir ->], Hmint as [Hmint ->].
  assert (d6 = d) as ->.
  { revert Hmac. case_bool_decide; [by intros [= _ ->]|]. unfold load_config. apply reads_only_ok. eauto 8 with disk. }
  unfold mint_local_token in Hmint. inv_bind Hmint as [[]|] Hne. injection Hmint as <-. apply str_truthy_spec in Hid.
  unfold env_text in Hid |- *. destruct (environ !! "LEDGER_LOCAL_IDENTITY") as [i|] eqn:Hi; [|done].
  exact (signed_here _ _ i dir key machine Hn Hi Hid Hdir Hkey).
Qed.

Lemma not_truthy s : str_truthy s = false -> s = "".
Proof. intros Hs. destruct (decide (s = "")) as [|Hne%str_truthy_spec]; [done|congruence]. Qed.
Lemma env_given name : str_truthy (env_text name) = true ->
  exists t, environ !! name = Some t /\ env_text name = strip t /\ strip t <> "".
Proof.
  intros Hs%str_truthy_spec. unfold env_text in *. destruct (environ !! name) as [t|]; [by exists t|done].
Qed.
Lemma file_given d text d' : token_file_text d = (Ok text, d') -> str_truthy text = true ->
  exists path t, environ !! "LEDGER_TOKEN_PATH" = Some path /\ path <> "" /\ d !! path = Some t
    /\ text = strip t /\ strip t <> "".
Proof.
  unfold token_file_text. intros Ht Hne%str_truthy_spec. destruct (environ !! "LEDGER_TOKEN_PATH") as [path|]; cbn in Ht.
  2: injection Ht as <- _; done.
  destruct (str_truthy path) eqn:Hp; [|injection Ht as <- _; done]. apply str_truthy_spec in Hp.
  inv_io Ht as o d1 Ho. apply lift_ok in Ht as [Ht _]. destruct o as [t|]; [|done]. injection Ht as <-.
  apply catching_some in Ho. inv_io Ho as t' d2 Hr. apply read_text_ok in Hr as [Hr _]. injection Ho as -> _. by exists path, t.
Qed.

(** Every credential is a token of a known origin, paired with the machine's
    own keys or with the provider that is configured or was recorded. *)
Lemma resolved_source d c d' : resolve_auth None d = (Ok c, d') ->
  exists recorded, token_origin d d' (rc_token c) recorded
    /\ (local_source d' (rc_verifier c) \/ provider_source recorded (rc_verifier c)).
Proof.
  unfold resolve_auth. destruct (str_truthy (env_text "LAAS_TOKEN")) eqn:Hlaas.
  { intros (-> & -> & Hs)%from_token_source. apply env_given in Hlaas as (t & He & -> & Hne). exists JNull.
    split; [by apply given_directly|done]. }
  apply not_truthy in Hlaas. intros Hr. inv_io Hr as text d1 Htext.
  pose proof (reads_only_ok _ _ _ _ reads_only_token_file Htext) as ->. destruct (str_truthy text) eqn:Ht.
  { apply from_token_source in Hr as (-> & -> & Hs). destruct (file_given _ _ _ Htext Ht) as (path & t & He & Hp & Hd & -> & Hne).
    exists JNull. split; [|done]. apply (given_as_file _ _ path); try done. by repeat constructor. }
  destruct (str_truthy (env_text "LEDGER_TOKEN")) eqn:Htok.
  { apply from_token_source in Hr as (-> & -> & Hs). apply env_given in Htok as (t & He & -> & Hne). exists JNull.
    split; [|done]. apply given_by_client; try done. by repeat constructor. }
  apply not_truthy in Htok. assert (not_given ["LAAS_TOKEN"; "LEDGER_TOKEN"]) as Hn by (by repeat constructor).
  inv_io Hr as stored d2 Hs. destruct stored as [c'|].
  - injection Hr as -> <-. exact (stored_source _ _ _ Hn Hs).
  - inv_io Hr as minted d3 Hm. apply lift_ok in Hr as [Hr ->]. destruct minted as [c'|]; [|done]. injection Hr as ->.
    pose proof (reads_only_ok _ _ _ _ reads_only_stored Hs) as ->. exists JNull.
    destruct (minted_source _ _ _ Hn Hm) as [Ho Hl]. split; [done|by left].
Qed.

(** The keys of a set are the ones its file lists. *)
Lemma local_keys_inv path d ks : load_local_keys path d = (Ok (Some ks), d) ->
  exists text m l, d !! path = Some text /\ loads text = Some (JObj m)
    /\ json_iter (default (JArr []) (m !! "keys")) = Ok l /\ mapR py_jwk l = Ok ks.
Proof.
  unfold load_local_keys. set (m := mbind _ _). destruct (m d) as [[x|x] d1] eqn:Hm; [|by destruct (_ || _)].
  intros [= -> ->]. subst m. inv_io Hm as text d2 Ht. inv_io Hm as data d3 Hl. inv_io Hm as keys d4 Hk. inv_io Hm as l d5 Hi.
  apply read_text_ok in Ht as [Ht ->]. apply lift_ok in Hl as [Hl ->], Hk as [Hk ->], Hi as [Hi ->], Hm as [Hm _].
  destruct data as [| | | | |m]; try done. injection Hk as <-. destruct (loads text) eqn:Hld; [|done]. injection Hl as ->.
  by exists text, m, l.
Qed.
Lemma local_key_in first ks token key : local_key_for first ks token = Ok key -> first ∈ ks -> key ∈ ks.
Proof.
  unfold local_key_for. intros Hk Hf. inv_bind Hk as [header|] Hh. injection Hk as <-.
  destruct (List.find _ _) as [k|] eqn:E; [|done]. apply List.find_some in E as [E _]. by apply list_elem_of_In.
Qed.
Lemma of_jwt_ok {A} (r : result jwt_error A) a : of_jwt r = Ok a -> r = Ok a.
Proof. destruct r; [by intros [= ->]|done]. Qed.

(** What an accepted token was checked with. *)
Lemma verify_key_origin d recorded v token a :
  local_source d v \/ provider_source recorded v -> verify v token = Ok a ->
  exists key issuer audience claims, key_origin d token recorded key issuer audience
    /\ jwt_decode key token issuer audience = Ok claims /\ spoken_for claims a.
Proof.
  intros Hsrc Hv. unfold verify in Hv. inv_bind Hv as [key|] Hk. inv_bind Hv as [claims|] Hc. apply of_jwt_ok in Hc.
  unfold resolve_signing_key in Hk.
  destruct Hsrc as [(dir & Hdir & Hcfg & Hcl & Hks)|(Hno & issuer & url & Hi & Hcfg & Hcl & Hu)].
  - rewrite Hcl in Hk. rewrite Hcfg in Hc, Hv. apply claims_spoken_for in Hv. destruct (tv_local_keys v) as [[|k ks]|] eqn:Hl; try done.
    apply of_jwt_ok in Hk. apply local_key_in in Hk; [|constructor]. destruct (local_keys_inv _ _ _ (Hks _ eq_refl)) as (text & m & l & Ht & Hld & Hit & Hm).
    apply mapR_ok_Forall2 in Hm. apply list_elem_of_lookup in Hk as [n Hn].
    destruct (Forall2_lookup_r _ _ _ _ _ Hm Hn) as (j & Hj & Hkey).
    exists key, (JStr LOCAL_ISSUER), JNull, claims. split; [|done].
    apply (machine_key _ _ _ dir text m l j); try done. by apply list_elem_of_lookup_2 with n.
  - rewrite Hno Hcl in Hk. rewrite Hcfg in Hc, Hv. apply claims_spoken_for in Hv. apply of_jwt_ok in Hk.
    do 4 eexists. split; [exact (provider_key _ _ _ _ _ _ Hi Hu Hk)|]. split; [exact Hc|exact Hv].
Qed.

(** C17: The actor of the command line is vouched for. It is who the claims of
    one token say: the first token the environment gives, or else the current
    one stored for the active server, or else one the machine's own key signs
    for LEDGER_LOCAL_IDENTITY. PyJWT accepted exactly that token, and with it
    its signature, under a key that is either one of the key set in the
    configuration directory, asking for the issuer [local], or was fetched for
    the token from the configured endpoint or the one its issuer publishes,
    asking for the configured audience and for the issuer recorded when the
    token was stored or else the configured one, where there is one. What the
    token itself says chooses at most between the machine's keys and the
    provider, never the provider's endpoint or issuer.
    A human is the folded e-mail address of the claims and a machine the
    client or the subject, and a local identity counts as verified only where
    LEDGER_TRUST_LOCAL_IDENTITY is 1. *)
Theorem cli_actor_is_vouched_for d a d' : require_verified_actor d = (Ok (Some a), d') ->
  exists token recorded key issuer audience claims,
    token_origin d d' token recorded
    /\ key_origin d' token recorded key issuer audience
    /\ jwt_decode key token issuer audience = Ok claims
    /\ signed_by key token = true
    /\ (forall i, issuer = JStr i -> get "iss" claims = JStr i)
    /\ spoken_for claims a.
Proof using HAL.
  unfold require_verified_actor. intros Hr. inv_io Hr as cred d1 Hc. destruct cred as [c|]; [|done].
  apply catching_some in Hc. inv_io Hc as c' d2 Hres. injection Hc as -> <-.
  apply catching_some in Hr. inv_io Hr as a' d3 Hv. injection Hr as -> <-. apply lift_ok in Hv as [Hv ->].
  destruct (resolved_source _ _ _ Hres) as (recorded & Ho & Hsrc).
  destruct (verify_key_origin _ _ _ _ _ Hsrc Hv) as (key & issuer & audience & claims & Hk & Hd & Ha).
  exists (rc_token c), recorded, key, issuer, audience, claims. split; [done|]. split; [done|]. split; [done|].
  split; [exact (decode_signed _ _ _ _ _ Hd)|]. split; [|done].
  intros i ->. exact (decode_issuer _ _ _ _ _ Hd).
Qed.
End Properties.

(** ** The credentials file *)

Lemma under_inj dir a b : under dir a = under dir b -> a = b.
Proof.
  unfold under. intros Heq%(f_equal chars). rewrite !chars_app in Heq.
  apply app_inv_head, app_inv_head, (f_equal of_chars) in Heq. by rewrite !of_chars_chars in Heq.
Qed.

Section Store.
Context `{HT : SigningTools} `{HA : AuthTools} `{HH : HostTools}.
Set Default Proof Using "Type".

(** The hosts of a credentials file that holds an object. *)
Lemma all_credentials_of dir d m : config_dir = Ok dir -> readable (under dir CREDENTIALS_FILE) = true ->
  d !! under dir CREDENTIALS_FILE = Some (dumps true (JObj m)) -> load_all_credentials d = (Ok m, d).
Proof.
  intros Hdir Hr Hd. unfold load_all_credentials, mbind, io_bind, lift. rewrite Hdir.
  unfold read_json_file, is_file. rewrite Hd bool_decide_true; [done|].
  unfold mbind, io_bind, read_text. rewrite Hr Hd. cbn [of_option]. by rewrite loads_dumps.
Qed.
Lemma load_all_pure d all d' : load_all_credentials d = (Ok all, d') -> d' = d /\ exists dir, config_dir = Ok dir.
Proof.
  unfold load_all_credentials. intros Hl. inv_io Hl as dir d1 Hdir. apply lift_ok in Hdir as [Hdir ->].
  inv_io Hl as data d2 Hr. injection Hl as _ <-. split; [|by exists dir].
  unfold read_json_file in Hr. destruct (is_file _ d); [|by injection Hr as _ <-].
  inv_io Hr as text d3 Ht. injection Hr as _ <-. unfold read_text in Ht. by injection Ht as _ <-.
Qed.

(** Only the configuration file tells the active server. *)
Lemma active_host_frame dir d d' : config_dir = Ok dir ->
  d' !! under dir CONFIG_FILE = d !! under dir CONFIG_FILE -> (active_host d').1 = (active_host d).1 /\ (active_host d').2 = d'.
Proof.
  intros Hdir Heq. unfold active_host, load_config, mbind, io_bind, lift. rewrite Hdir.
  unfold read_json_file, is_file. rewrite Heq.
  destruct (bool_decide _); [|done]. unfold mbind, io_bind, read_text. rewrite Heq.
  by destruct (readable _), (d !! under dir CONFIG_FILE).
Qed.

(** Stored credentials are kept per server. Saving a server's credentials
    makes them the ones read while it is the active server and leaves every
    other server's entry as it was; clearing them removes that entry alone. *)
Theorem credentials_round_trip data h d d' u :
  h <> "" -> (forall dir, config_dir = Ok dir -> readable (under dir CREDENTIALS_FILE) = true) ->
  save_credentials data (Some h) d = (Ok u, d') ->
  exists all, load_all_credentials d = (Ok all, d) /\ load_all_credentials d' = (Ok (<[h := data]> all), d')
    /\ ((active_host d).1 = Ok (JStr h) -> load_credentials d' = (Ok data, d'))
    /\ forall u' d'', clear_credentials (Some h) d' = (Ok u', d'') ->
         load_all_credentials d'' = (Ok (delete h all), d'').
Proof.
  intros Hne%str_truthy_spec Hread Hs. unfold save_credentials, host_or_active in Hs. cbn [opt_truthy] in Hs.
  rewrite Hne in Hs. inv_io Hs as h' d1 Hh. injection Hh as <- <-. inv_io Hs as all d2 Hall.
  destruct (load_all_pure _ _ _ Hall) as [-> [dir Hdir]]. specialize (Hread _ Hdir).
  inv_io Hs as dir' d3 Hdir'. apply lift_ok in Hdir' as [Hdir' ->]. assert (dir' = dir) as -> by congruence.
  apply write_text_ok in Hs. subst d'. set (d' := <[_ := _]> d).
  assert (load_all_credentials d' = (Ok (<[h := data]> all), d')) as Hall'.
  { apply (all_credentials_of dir); [done|done|]. unfold d'. by rewrite lookup_insert_eq. }
  exists all. split; [done|]. split; [exact Hall'|]. split.
  - intros Hact. destruct (active_host_frame dir d d' Hdir) as [H1 H2].
    { unfold d'. rewrite lookup_insert_ne; [by intros ?%under_inj|done]. }
    unfold load_credentials. unfold mbind at 1, io_bind at 1. destruct (active_host d') as [r d1]. cbn in H1, H2. subst r d1.
    rewrite Hact. cbn [truthy]. rewrite Hne. cbn [negb]. unfold mbind, io_bind. rewrite Hall'. unfold lift, host_entry.
    by rewrite get_insert_eq.
  - intros u' d'' Hc. unfold clear_credentials in Hc. inv_io Hc as all' d4 Hl. rewrite Hall' in Hl. injection Hl as <- <-.
    rewrite delete_insert_eq in Hc. inv_io Hc as dir' d5 Hd5. apply lift_ok in Hd5 as [Hd5 ->].
    assert (dir' = dir) as -> by congruence.
    case_bool_decide as Hrest.
    + apply write_text_ok in Hc. subst d''. apply (all_credentials_of dir); [done|done|]. by rewrite lookup_insert_eq.
    + destruct (decide (delete h all = ∅)) as [->|]; [|done].
      unfold unlink in Hc. destruct (_ && _); [done|]. injection Hc as _ <-.
      unfold load_all_credentials, mbind, io_bind, lift. rewrite Hdir. unfold read_json_file, is_file.
      by rewrite lookup_delete_eq bool_decide_false; [intros []|].
Qed.
End Store.

(** ** Witnesses *)

Definition sample_host : HostTools := {|
  home := "/home/ann"; home_writable := true; cli_installed := true;
  http_json := fun _ => Ok (JObj {["jwks_uri" := JStr "https://idp/keys"; "token_endpoint" := JStr "https://idp/token"]}) |}.
Definition idp_claims : dict := {["iss" := JStr "https://idp"; "email" := JStr "Ann@Example.com"; "sub" := JStr "u1"]}.
(** A deployment with a provider, and a directory that knows nobody. *)
Definition idp_token : string := Eval vm_compute in dumps true (JArr [JStr "k1"; JObj idp_claims]).
Definition idp_env : SigningTools := sample_tools
  {["LAAS_TOKEN" := idp_token; "LEDGER_OIDC_ISSUER" := "https://idp";
    DIRECTORY_COMMAND_ENV := "python3 check.py"]} "".
Definition idp_auth : AuthTools :=
  sample_auth (fun argv => Exited 0 ("RESULT uid=" +:+ List.last argv "" +:+ " status=terminated")).
Definition idp_ann : LayerActor := {|
  kind := "human"; identity := Some "ann@example.com"; ldap_verified := None; identity_verified := Some true;
  identity_provider := Some "oidc"; identity_issuer := Some "https://idp"; identity_subject := Some "u1";
  employee_status := None; display_name := None |}.

Lemma cli_actor_is_vouched_for_witness :
  exists token recorded key issuer audience claims,
    @token_origin idp_env idp_auth sample_host ∅ ∅ token recorded
    /\ @key_origin idp_env idp_auth sample_host ∅ token recorded key issuer audience
    /\ @jwt_decode idp_auth key token issuer audience = Ok claims
    /\ @spoken_for idp_env idp_auth claims idp_ann.
Proof.
  destruct (@cli_actor_is_vouched_for idp_env idp_auth (sample_auth_laws _) sample_host ∅ idp_ann ∅)
    as (token & recorded & key & issuer & audience & claims & Ho & Hk & Hd & _ & _ & Ha); [vm_compute; reflexivity|].
  exists token, recorded, key, issuer, audience, claims. split; [exact Ho|]. split; [exact Hk|]. split; [exact Hd|exact Ha].
Defined.

(** The command line does not ask the directory: an actor the deployment's
    directory refuses is accepted there. *)
Lemma cli_skips_directory :
  (@require_verified_actor idp_env idp_auth sample_host ∅).1 = Ok (Some idp_ann)
  /\ exists argv, @load_directory idp_env idp_auth = Ok (Some argv)
     /\ apply_directory idp_ann (Some (@script_is_active idp_auth argv)) = Err (Service DirectoryRefusedError).
Proof.
  split; [vm_compute; reflexivity|]. exists ["python3"; "check.py"]. split; vm_compute; reflexivity.
Qed.

#[local] Instance store_env : SigningTools := sample_tools {["LEDGER_SERVER_URL" := "https://a"]} "".
#[local] Instance store_auth : AuthTools := sample_auth (fun _ => RunError).
#[local] Instance store_host : HostTools := sample_host.
Definition saved_disk : disk := Eval vm_compute in (save_credentials (JObj {["access_token" := JStr "t"]}) (Some "https://a") ∅).2.
Lemma credentials_round_trip_witness :
  load_credentials saved_disk = (Ok (JObj {["access_token" := JStr "t"]}), saved_disk).
Proof.
  destruct (credentials_round_trip (JObj {["access_token" := JStr "t"]}) "https://a" ∅ saved_disk tt)
    as (all & _ & _ & Hl & _); [discriminate|reflexivity|vm_compute; reflexivity|].
  apply Hl. vm_compute. reflexivity.
Defined.
