(* ===== verification/Flows.v ===== *)
(** * Token flows

    [auth/flows/] and [auth/_httpx.py], and the reading of a token without
    verifying it ([cli/auth.py], [cli/identity/commands.py]).  The provider's
    answers are the fields of [Provider]; the loop that waits for the user runs on
    fuel, and [device_login_ends] says how much is enough.  Printed text is not
    modelled, times are whole seconds. *)

From S2P Require Import Prelude PyStr Json Errors Sha256 Signing Contracts Auth Directory Credentials.
From stdpp Require Import options.

(** What becomes of one HTTP request; the body is [None] where it is no JSON. *)
Inductive reply :=
| TimedOut
| Unreachable
| Answer (is_success : bool) (body : option json).
Class Provider := {
  (** the [n]-th request of a command, to an endpoint with a form *)
  http_post : nat -> json -> dict -> reply
}.

(** [d[key]]. *)
Definition item (key : string) (v : json) : res json :=
  match v with
  | JObj m => of_option (m !! key) KeyError
  | _ => Err TypeError
  end.
(** [time.time() + v]. *)
Definition seconds (v : json) : res Z :=
  match v with
  | JInt z => Ok z
  | JBool b => Ok (if b then 1 else 0)%Z
  | _ => Err TypeError
  end.
(** [time.sleep(v)]. *)
Definition sleep_time (v : json) : res Z :=
  s ← seconds v; _ ← raise_if (s <? 0)%Z ValueError; Ok s.

(** ** Reading a token without verifying it *)

(** [base64.urlsafe_b64decode]: characters outside of the alphabet are skipped,
    and the padding that completes a quantum ends the text. *)
Definition b64_value (c : ascii) : option Z :=
  if is_upper_az c then Some (code c - 65)%Z
  else if is_lower_az c then Some (code c - 71)%Z
  else if is_digit c then Some (code c + 4)%Z
  else if bool_decide (c = "-"%char \/ c = "+"%char) then Some 62%Z
  else if bool_decide (c = "_"%char \/ c = "/"%char) then Some 63%Z
  else None.
Fixpoint a2b_base64 (l : list ascii) (quad pads left : Z) : option bytes :=
  match l with
  | [] => if (quad =? 0)%Z then Some [] else None
  | c :: l' =>
      if bool_decide (c = "="%char) then
        if (2 <=? quad)%Z then
          if (4 <=? quad + (pads + 1))%Z then Some [] else a2b_base64 l' quad (pads + 1) left
        else a2b_base64 l' quad pads left
      else
        match b64_value c with
        | None => a2b_base64 l' quad pads left
        | Some v =>
            if (quad =? 0)%Z then a2b_base64 l' 1 0 v
            else
              let '(byte, next, rest) :=
                if (quad =? 1)%Z then (Z.lor (Z.shiftl left 2) (Z.shiftr v 4), 2, Z.land v 15)%Z
                else if (quad =? 2)%Z then (Z.lor (Z.shiftl left 4) (Z.shiftr v 2), 3, Z.land v 3)%Z
                else (Z.lor (Z.shiftl left 6) v, 0, 0)%Z in
              cons (byte_of_Z byte) <$> a2b_base64 l' next 0 rest
        end
  end.
Definition urlsafe_b64decode (s : string) : option bytes :=
  if forallb (fun c => (code c <? 128)%Z) (chars s) then a2b_base64 (chars s) 0 0 0 else None.

(** [parts[1] + "=" * (-len(parts[1]) % 4)]. *)
Definition padded (part : string) : string :=
  part +:+ of_chars (repeat "="%char (Z.to_nat (- str_len part mod 4))).
(** The JSON of the middle part of a token of three; the payload is UTF-8. *)
Definition jwt_payload (token : string) : option json :=
  match split "."%char token with
  | [_; part; _] => raw ← urlsafe_b64decode (padded part); text ← utf8_decode raw; loads (of_chars text)
  | _ => None
  end.
Definition decode_jwt_payload (token : string) : option dict :=
  match jwt_payload token with Some (JObj m) => Some m | _ => None end.
Definition peek_jwt_claims (token : string) : json := default (JObj ∅) (jwt_payload token).

(** ** The flows *)

Section Flows.
Context `{SigningTools} `{AuthTools} `{HostTools} `{Provider}.

(** [http()]. *)
Definition http_client : res unit := raise_if (negb cli_installed) RuntimeError.

(** [_oauth_error]. *)
Definition oauth_error (body : option json) : json :=
  match body with Some (JObj m) => default (JStr "") (m !! "error") | _ => JStr "" end.
Definition is_error (body : option json) (e : string) : bool := py_eqb (oauth_error body) (JStr e).

Definition DEVICE_CODE_GRANT : string := "urn:ietf:params:oauth:grant-type:device_code".
Record DeviceCodeFlow := { dc_client_id : json; dc_scope : string; dc_device_endpoint : json; dc_token_endpoint : json }.
Definition device_code_flow (issuer client_id : json) (scope : string) : res DeviceCodeFlow :=
  issuer ← of_option (as_str issuer) AttributeError;
  metadata ← discover_oidc issuer;
  _ ← raise_if (negb (truthy (device_endpoint metadata))) RuntimeError;
  Ok {| dc_client_id := client_id; dc_scope := scope;
        dc_device_endpoint := device_endpoint metadata; dc_token_endpoint := token_endpoint metadata |}.

(** One answer of the token endpoint: the end of the loop, or the seconds the
    interval grows by. *)
Definition poll_answer (r : reply) : res json + Z :=
  match r with
  | TimedOut | Unreachable => inl (Err RuntimeError)
  | Answer true body => inl (of_option body ValueError)
  | Answer false body =>
      if is_error body "authorization_pending" then inr 0%Z
      else if is_error body "slow_down" then inr 5%Z
      else inl (Err RuntimeError)
  end.
Definition poll_form (flow : DeviceCodeFlow) (device_code : json) : dict :=
  {["grant_type" := JStr DEVICE_CODE_GRANT; "device_code" := device_code; "client_id" := dc_client_id flow]}.
(** [while True: ...] from the [n]-th request on: how long it slept before each
    request, and what it ended with; [None] when it is still waiting. *)
Fixpoint poll_loop (fuel n : nat) (flow : DeviceCodeFlow) (device_code : json) (interval : Z)
  : option (list Z * res json) :=
  match fuel with
  | O => None
  | S fuel' =>
      match poll_answer (http_post n (dc_token_endpoint flow) (poll_form flow device_code)) with
      | inl r => Some ([interval], r)
      | inr more => '(slept, r) ← poll_loop fuel' (n + 1) flow device_code (interval + more); Some (interval :: slept, r)
      end
  end.
(** [raise_for_status()] and [json()] of a first answer. *)
Definition checked_json (r : reply) : res json :=
  match r with
  | Answer true body => of_option body ValueError
  | _ => Err HTTPError
  end.
Definition device_start (flow : DeviceCodeFlow) : res (json * Z) :=
  _ ← http_client;
  data ← checked_json (http_post 0 (dc_device_endpoint flow)
                         {["client_id" := dc_client_id flow; "scope" := JStr (dc_scope flow)]});
  m ← of_option (as_dict data) AttributeError;
  _ ← item "user_code" data;
  device_code ← item "device_code" data;
  interval ← sleep_time (default (JInt 5) (m !! "interval"));
  Ok (device_code, interval).
Definition device_execute (fuel : nat) (flow : DeviceCodeFlow) : option (res json) :=
  match device_start flow with
  | Ok (device_code, interval) => snd <$> poll_loop fuel 1 flow device_code interval
  | Err e => Some (Err e)
  end.

(** The refusals of a token endpoint: an answer that is no success always raises. *)
Definition refresh_failed (body : option json) : exn :=
  match oauth_error body with
  | JArr _ | JObj _ => TypeError
  | _ => if is_error body "invalid_grant" || is_error body "invalid_token" then RuntimeError else HTTPError
  end.
Definition credentials_failed (body : option json) : exn :=
  if truthy (oauth_error body) then RuntimeError else HTTPError.
Definition exchange (failed : option json -> exn) (endpoint : json) (form : dict) : res json :=
  _ ← http_client;
  match http_post 0 endpoint form with
  | Answer true body => of_option body ValueError
  | Answer false body => Err (failed body)
  | _ => Err HTTPError
  end.
Definition refresh_execute (endpoint client_id refresh_token : json) : res json :=
  exchange refresh_failed endpoint
    {["grant_type" := JStr "refresh_token"; "refresh_token" := refresh_token; "client_id" := client_id]}.
Definition client_credentials_execute (endpoint client_id : json) (scope secret : string) : res json :=
  _ ← raise_if (negb (str_truthy secret)) RuntimeError;
  exchange credentials_failed endpoint
    {["grant_type" := JStr "client_credentials"; "client_id" := client_id; "client_secret" := JStr secret;
      "scope" := JStr scope]}.

End Flows.

Section Polling.
Context `{HT : SigningTools} `{HA : AuthTools} `{HH : HostTools} `{HP : Provider}.
Context (flow : DeviceCodeFlow) (device_code : json).
Set Default Proof Using "Type".

(** The [n]-th request's answer, and what the interval has grown by before the
    [j]-th request from [n] on. *)
Definition answer (n : nat) : res json + Z :=
  poll_answer (http_post n (dc_token_endpoint flow) (poll_form flow device_code)).
Fixpoint slowed (n j : nat) : Z :=
  match j with
  | O => 0
  | S j' => (match answer n with inr more => more | inl _ => 0 end) + slowed (n + 1) j'
  end.

(** The error code of a refusal. *)
Definition refuses (r : reply) (e : string) : Prop :=
  exists m, r = Answer false (Some (JObj m)) /\ m !! "error" = Some (JStr e).
(** The provider asks to wait for the user. *)
Definition asks_to_wait (r : reply) : Prop := refuses r "authorization_pending" \/ refuses r "slow_down".
(** The answer to the [n]-th request for the token. *)
Definition token_reply (n : nat) : reply :=
  http_post n (dc_token_endpoint flow)
    {["grant_type" := JStr "urn:ietf:params:oauth:grant-type:device_code"; "device_code" := device_code;
      "client_id" := dc_client_id flow]}.

Lemma is_error_spec body e : e <> "" -> is_error body e = true <-> exists m, body = Some (JObj m) /\ m !! "error" = Some (JStr e).
Proof.
  intros He. unfold is_error. rewrite py_eqb_str_r bool_decide_eq_true. unfold oauth_error.
  destruct body as [[| | | | |m]|].
  1-5,7: split; [by intros [= <-]|by intros (? & ? & _)].
  split.
  - intros Hm. exists m. split; [done|]. destruct (m !! "error"); cbn in Hm; congruence.
  - intros (m' & [= <-] & Hm). by rewrite Hm.
Qed.
Lemma refuses_spec body e : e <> "" -> is_error body e = true <-> refuses (Answer false body) e.
Proof.
  intros He. rewrite is_error_spec //. unfold refuses. split; intros (m & Hb & Hm); exists m; (split; [congruence|done]).
Qed.
(** An answer goes on by what it asks for, and ends otherwise. *)
Lemma poll_answer_waits r : asks_to_wait r <-> exists more, poll_answer r = inr more.
Proof.
  unfold asks_to_wait. destruct r as [| |[] body]; cbn.
  1-3: split; [by intros [(? & ? & _)|(? & ? & _)]|by intros []].
  rewrite -!refuses_spec //. destruct (is_error body "authorization_pending"); [split; [by eexists|by left]|].
  destruct (is_error body "slow_down"); [split; [by eexists|by right]|]. split; [by intros []|by intros []].
Qed.
Lemma poll_answer_more r more : poll_answer r = inr more ->
  (refuses r "slow_down" -> more = 5%Z) /\ (~ refuses r "slow_down" -> more = 0%Z).
Proof.
  destruct r as [| |[] body]; cbn; try done. destruct (is_error body "authorization_pending") eqn:Hp.
  { intros [= <-]. split; [|done]. intros Hs%refuses_spec; [|done].
    apply is_error_spec in Hp as (m & -> & Hm); [|done]. apply is_error_spec in Hs as (m' & [= <-] & Hm'); [|done]. congruence. }
  destruct (is_error body "slow_down") eqn:Hs; [|done]. intros [= <-]. split; [done|]. apply refuses_spec in Hs; done.
Qed.
Lemma poll_answer_final r a : poll_answer r = inl a ->
  a = match r with Answer true (Some v) => Ok v | Answer true None => Err ValueError | _ => Err RuntimeError end.
Proof.
  destruct r as [| |[] body]; cbn; try congruence; [by destruct body; intros [= <-]|]. by repeat case_match; intros [= <-].
Qed.
Lemma answer_reply n : answer n = poll_answer (token_reply n).
Proof. done. Qed.

Lemma slowed_next n i more : answer (n + i) = inr more -> slowed n (S i) = (slowed n i + more)%Z.
Proof.
  revert n. induction i as [|i IH]; intros n Hm.
  - rewrite Nat.add_0_r in Hm. cbn. rewrite Hm. lia.
  - rewrite -Nat.add_1_l Nat.add_assoc in Hm. specialize (IH _ Hm). cbn [slowed] in IH |- *. lia.
Qed.
Lemma poll_loop_ends fuel k n interval r0 : (k < fuel)%nat -> answer (n + k) = inl r0 ->
  exists j r, (j <= k)%nat /\ (forall i, (i < j)%nat -> exists more, answer (n + i) = inr more) /\ answer (n + j) = inl r
    /\ poll_loop fuel n flow device_code interval
       = Some (map (fun i => (interval + slowed n i)%Z) (seq 0 (S j)), r).
Proof.
  revert k n interval. induction fuel as [|fuel IH]; intros k n interval Hk Ha; [lia|].
  cbn [poll_loop]. fold (answer n). destruct (answer n) as [r|more] eqn:Hn.
  - exists 0%nat, r. split; [lia|]. split; [lia|]. rewrite Nat.add_0_r. split; [done|]. cbn. by rewrite Z.add_0_r.
  - destruct k as [|k]; [rewrite Nat.add_0_r in Ha; congruence|].
    destruct (IH k (n + 1)%nat (interval + more)%Z) as (j & r & Hj & Hw & Hr & Hl); [lia|by rewrite -Nat.add_assoc|].
    exists (S j), r. split; [lia|]. split.
    { intros [|i] Hi; [rewrite Nat.add_0_r; by exists more|]. rewrite -Nat.add_1_l Nat.add_assoc. apply Hw. lia. }
    split; [by rewrite -Nat.add_1_l Nat.add_assoc|]. rewrite Hl. cbn [mbind option_bind]. do 2 f_equal.
    rewrite -(cons_seq (S j) 0). cbn [map]. f_equal; [by rewrite Z.add_0_r|]. rewrite -seq_shift map_map.
    apply map_ext. intros i. cbn [slowed]. rewrite Hn. lia.
Qed.

(** C34: Waiting for the user's consent ends with the provider's first final
    answer. If any of the requests the device-code flow may make is answered by
    something else than [authorization_pending] or [slow_down], the flow returns
    at the first such answer - the token response if that is a success, an error
    where it is no JSON, and an error otherwise, timeouts and failed connections
    among them; it made no request after it. It slept before every request, the
    interval before the first; after a [slow_down] exactly five seconds longer,
    and otherwise as long as before. *)
Theorem device_login_ends fuel k interval : (k < fuel)%nat -> ~ asks_to_wait (token_reply (1 + k)) ->
  exists j r slept, (j <= k)%nat /\ (forall i, (i < j)%nat -> asks_to_wait (token_reply (1 + i)))
    /\ ~ asks_to_wait (token_reply (1 + j)) /\ poll_loop fuel 1 flow device_code interval = Some (slept, r)
    /\ r = match token_reply (1 + j) with
           | Answer true (Some v) => Ok v | Answer true None => Err ValueError | _ => Err RuntimeError
           end
    /\ length slept = S j /\ slept !! 0%nat = Some interval
    /\ forall i, (i < j)%nat -> exists s s', slept !! i = Some s /\ slept !! S i = Some s'
       /\ (refuses (token_reply (1 + i)) "slow_down" -> s' = (s + 5)%Z)
       /\ (~ refuses (token_reply (1 + i)) "slow_down" -> s' = s).
Proof.
  intros Hk Ha. destruct (answer (1 + k)) as [r0|more] eqn:Hr0.
  2:{ destruct Ha. apply poll_answer_waits. by exists more. }
  destruct (poll_loop_ends fuel k 1 interval r0 Hk Hr0) as (j & r & Hj & Hw & Hr & Hl).
  exists j, r, (map (fun i => (interval + slowed 1 i)%Z) (seq 0 (S j))). split; [done|].
  split; [by intros i Hi; apply poll_answer_waits, Hw|].
  split. { intros [more Hm]%poll_answer_waits. rewrite -answer_reply Hr in Hm. done. }
  split; [done|]. split; [by apply poll_answer_final|]. split; [by rewrite length_map length_seq|].
  change (map ?f ?l) with (f <$> l).
  assert (forall i, (i <= j)%nat -> ((fun i => (interval + slowed 1 i)%Z) <$> seq 0 (S j)) !! i = Some (interval + slowed 1 i)%Z) as Hs.
  { intros i Hi. rewrite list_lookup_fmap lookup_seq_lt; [lia|done]. }
  split; [rewrite (Hs 0%nat) /=; [lia|f_equal; lia]|].
  intros i Hi. exists (interval + slowed 1 i)%Z, (interval + slowed 1 (S i))%Z.
  split; [apply Hs; lia|]. split; [apply Hs; lia|]. destruct (Hw i Hi) as [more Hm].
  rewrite (slowed_next 1 i more Hm). destruct (poll_answer_more _ _ Hm) as [H1 H2].
  split; [intros Hx; rewrite (H1 Hx)|intros Hx; rewrite (H2 Hx)]; lia.
Qed.
(** A flow that is only told to wait goes on waiting. *)
Lemma poll_loop_waits fuel n interval : (forall i, (i < fuel)%nat -> exists more, answer (n + i) = inr more) ->
  poll_loop fuel n flow device_code interval = None.
Proof.
  revert n interval. induction fuel as [|fuel IH]; intros n interval Hw; [done|]. cbn [poll_loop]. fold (answer n).
  destruct (Hw 0%nat) as [more Hm]; [lia|]. rewrite Nat.add_0_r in Hm. rewrite Hm.
  rewrite IH; [|done]. intros i Hi. rewrite -Nat.add_assoc. apply (Hw (S i)). lia.
Qed.
End Polling.

(** ** Witnesses *)

(** It lets the user take two requests, asks to slow down once, and renews. *)
Definition refusal (e : string) : reply := Answer false (Some (JObj {["error" := JStr e]})).
Definition sample_provider : Provider := {|
  http_post := fun n _ form =>
    if py_eqb (get "grant_type" form) (JStr "refresh_token")
    then Answer true (Some (JObj {["access_token" := JStr "t2"; "expires_in" := JInt 60]}))
    else match n with
         | 1%nat => refusal "authorization_pending"
         | 2%nat => refusal "slow_down"
         | _ => Answer true (Some (JObj {["access_token" := JStr "t1"; "expires_in" := JInt 60]}))
         end |}.

#[local] Instance flow_env : SigningTools := sample_tools ∅ "".
#[local] Instance flow_provider : Provider := sample_provider.

Definition sample_flow : DeviceCodeFlow :=
  {| dc_client_id := JStr "cli"; dc_scope := "openid"; dc_device_endpoint := JStr "https://idp/device";
     dc_token_endpoint := JStr "https://idp/token" |}.
Definition consent : json := JObj {["access_token" := JStr "t1"; "expires_in" := JInt 60]}.
Lemma device_login_ends_witness : exists j slept, (j <= 2)%nat
  /\ poll_loop 3 1 sample_flow (JStr "dev") 5 = Some (slept, Ok consent) /\ length slept = S j
  /\ exists s s', slept !! 1%nat = Some s /\ slept !! 2%nat = Some s' /\ s' = (s + 5)%Z.
Proof.
  destruct (device_login_ends sample_flow (JStr "dev") 3 2 5)
    as (j & r & slept & Hj & Hw & Hr & Hl & Hres & Hlen & _ & Hs);
    [lia|intros [(m & Hm & _)|(m & Hm & _)]; discriminate Hm|].
  exists j, slept. split; [exact Hj|]. destruct j as [|[|[|j]]]; [| | |lia].
  - destruct Hr. left. eexists. split; reflexivity.
  - destruct Hr. right. eexists. split; reflexivity.
  - split; [|split; [exact Hlen|]].
    + rewrite Hl Hres. reflexivity.
    + destruct (Hs 1%nat) as (s & s' & H1 & H2 & H3 & _); [lia|]. exists s, s'. split; [exact H1|]. split; [exact H2|].
      apply H3. eexists. split; reflexivity.
Defined.
