(* ===== verification/Session.v ===== *)
(** * Sessions of the command line

    [cli/identity/commands.py], [cli/auth.py] and [resolve_token] of
    [cli/identity/config.py]: keeping a token in the files of [Credentials.v], and
    the gate every command passes.  A command ends with an exit code or raises,
    and the files keep what it wrote before.  Printed text is not modelled, times
    are whole seconds, and the hosts of the configuration file are texts. *)

From S2P Require Import Prelude PyStr Json Errors Sha256 Signing Contracts Auth Directory Credentials Flows.
From stdpp Require Import options.

Section Session.
Context `{SigningTools} `{AuthTools} `{HostTools} `{Provider}.

(** ** The gate of every command *)

(** [config.resolve_token]; a token of a credentials file may be any value. *)
Definition stored_token (creds : json) : res json :=
  match creds with
  | JNull => Ok JNull
  | JObj m =>
      if negb (get_truthy "access_token" m) then Ok JNull
      else
        expired ← (if is_null (get "expires_at" m) then Ok false else passed_by (get "expires_at" m));
        Ok (if (expired : bool) then JNull else get "access_token" m)
  | _ => Err AttributeError
  end.
Definition resolve_token : io json :=
  let path := default "" (environ !! "LEDGER_TOKEN_PATH") in
  let static := default "" (environ !! "LEDGER_TOKEN") in
  if str_truthy path then
    text ← catching OSError None (text ← read_text path; mret (Some text));
    lift (JStr <$> (strip <$> of_option text RuntimeError))
  else if str_truthy static then mret (JStr static)
  else
    creds ← load_credentials;
    stored ← lift (stored_token creds);
    if truthy stored then mret stored
    else minted ← auto_mint_local_token; mret (from_option JStr JNull minted).

(** [float(exp)] of a text of digits; fractions and exponents are not modelled. *)
Fixpoint digits_value (acc : Z) (l : list ascii) : option Z :=
  match l with
  | [] => Some acc
  | c :: l' => if is_digit c then digits_value (acc * 10 + (code c - 48)) l' else None
  end.
Definition float_text (s : string) : option Z :=
  match chars (strip s) with
  | [] => None
  | c :: l =>
      let digits := if bool_decide (c = "-"%char \/ c = "+"%char) then l else c :: l in
      match digits with
      | [] => None
      | _ => v ← digits_value 0 digits; Some (if bool_decide (c = "-"%char) then (- v)%Z else v)
      end
  end.
(** The least magnitude [float] of an integer refuses. *)
Definition FLOAT_OVERFLOW : Z := (2 ^ 1024 - 2 ^ 970)%Z.
Definition token_expired (token : string) : res bool :=
  match decode_jwt_payload token with
  | None => Ok false
  | Some payload =>
      match get "exp" payload with
      | JNull => Ok false
      | JInt z => _ ← raise_if (FLOAT_OVERFLOW <=? Z.abs z)%Z OverflowError; Ok (z <=? clock)%Z
      | JBool b => Ok ((if b then 1 else 0) <=? clock)%Z
      | JStr s => Ok (from_option (fun z => z <=? clock)%Z true (float_text s))
      | _ => Ok true
      end
  end.

(** [require_cli_auth() == 0]. *)
Definition require_cli_auth : io bool :=
  if str_truthy (env_text "LAAS_TOKEN") then lift (negb <$> token_expired (env_text "LAAS_TOKEN"))
  else token ← resolve_token; mret (truthy token).

(** ** The commands *)

Definition set_config (key : string) (v : json) : io unit := config ← load_config; save_config (<[key := v]> config).
(** A host of the configuration as the key of the credentials file. *)
Definition save_for (data : dict) (host : json) : io unit :=
  h ← lift (of_option (as_str host) TypeError); save_credentials (JObj data) (Some h).

(** [datetime.fromtimestamp(t, tz=UTC)]: years 1 to 9999. *)
Definition print_time (t : Z) : io unit :=
  lift (raise_if ((t <? -62135596800)%Z || (253402300800 <=? t)%Z) ValueError).
(** [claims.get(...)] of claims that were only peeked at. *)
Definition peeked (token : json) : res dict :=
  t ← of_option (as_str token) AttributeError; of_option (as_dict (peek_jwt_claims t)) AttributeError.

(** [os.environ.get(name) or config.get(key)]. *)
Definition setting (name key : string) (config : dict) : json := json_or (env_json name) (get key config).

Definition login_token_file (path : string) (config : dict) : io Z :=
  let server_url := setting "LEDGER_SERVER_URL" "server_url" config in
  token ← read_text path;
  _ ← (if truthy server_url then save_config (<["active_server" := server_url]> config) else mret tt);
  _ ← save_for {["access_token" := JStr (strip token)]} (json_or server_url (JStr "local"));
  mret 0%Z.
(** What the device-code login does with the token response. *)
Definition login_store (response issuer client_id host : json) (config : dict) : io Z :=
  expires_in ← lift (item "expires_in" response);
  lifetime ← lift (seconds expires_in);
  _ ← save_config (<["active_server" := host]> config);
  token ← lift (item "access_token" response);
  m ← lift (of_option (as_dict response) AttributeError);
  _ ← save_for {["access_token" := token; "refresh_token" := get "refresh_token" m;
                 "expires_at" := JInt (clock + lifetime); "issuer" := issuer; "client_id" := client_id]} host;
  _ ← print_time (clock + lifetime);
  mret 0%Z.
(** [None]: the flow still waits for the user after [fuel] requests. *)
Definition cmd_auth_login (fuel : nat) (token_file : option string) (scope : string) (d : disk)
  : option (res Z * disk) :=
  match load_config d with
  | (Err e, d1) => Some (Err e, d1)
  | (Ok config, d1) =>
      if opt_truthy token_file then Some (login_token_file (default "" token_file) config d1)
      else
        let issuer := setting "LEDGER_OIDC_ISSUER" "issuer" config in
        let client_id := setting "LEDGER_OIDC_CLIENT_ID" "client_id" config in
        let host := json_or (setting "LEDGER_SERVER_URL" "server_url" config) issuer in
        if negb (truthy issuer) || negb (truthy client_id) then Some (Ok 1%Z, d1)
        else match device_code_flow issuer client_id scope with
             | Err e => Some (Err e, d1)
             | Ok flow =>
                 r ← device_execute fuel flow;
                 Some ((response ← lift r; login_store response issuer client_id host config) d1)
             end
  end.

(** The kind reported for a service account's token. *)
Definition account_kind (claims : dict) : string :=
  if bool_decide (claims = ∅) then "unknown" else if get_truthy "email" claims then "human" else "machine".

(** The client secret: [None] is a secret file that cannot be read. *)
Definition client_secret (secret_file : option string) : io (option string) :=
  if opt_truthy secret_file
  then catching OSError None (text ← read_text (default "" secret_file); mret (Some (strip text)))
  else mret (Some (default "" (environ !! "LEDGER_OIDC_CLIENT_SECRET"))).
(** What the command does with the token response: the kind it reports. *)
Definition account_store (response issuer client_id host : json) (config : dict) : io (Z * option string) :=
  m ← lift (of_option (as_dict response) AttributeError);
  if negb (get_truthy "access_token" m) then mret (1%Z, None)
  else
    lifetime ← lift (seconds (default (JInt 3600) (m !! "expires_in")));
    _ ← save_config (<["active_server" := host]> config);
    _ ← save_for {["access_token" := get "access_token" m; "expires_at" := JInt (clock + lifetime);
                   "issuer" := issuer; "client_id" := client_id]} host;
    claims ← lift (peeked (get "access_token" m));
    mret (0%Z, Some (account_kind claims)).
Definition service_account (client_id_arg secret_file : option string) (scope : string) (config : dict)
  : io (Z * option string) :=
  let issuer := setting "LEDGER_OIDC_ISSUER" "issuer" config in
  let client_id := json_or (from_option JStr JNull client_id_arg) (setting "LEDGER_OIDC_CLIENT_ID" "client_id" config) in
  let host := json_or (setting "LEDGER_SERVER_URL" "server_url" config) issuer in
  if negb (truthy issuer) || negb (truthy client_id) then mret (1%Z, None)
  else
    secret ← client_secret secret_file;
    match secret with
    | None => mret (2%Z, None)
    | Some secret =>
        if negb (str_truthy secret) then mret (1%Z, None)
        else
          url ← lift (of_option (as_str issuer) AttributeError);
          metadata ← lift (discover_oidc url);
          response ← catching RuntimeError None
            (r ← lift (client_credentials_execute (token_endpoint metadata) client_id scope secret); mret (Some r));
          match response with
          | None => mret (1%Z, None)
          | Some response => account_store response issuer client_id host config
          end
    end.
Definition cmd_auth_service_account (client_id_arg secret_file : option string) (scope : string) : io (Z * option string) :=
  config ← load_config; service_account client_id_arg secret_file scope config.

Definition cmd_auth_status : io Z :=
  _ ← active_host;
  creds ← load_credentials;
  if is_null creds then mret 1%Z
  else
    m ← lift (of_option (as_dict creds) AttributeError);
    _ ← (if is_null (get "expires_at" m) then mret tt
         else t ← lift (seconds (get "expires_at" m)); print_time t);
    _ ← (if get_truthy "access_token" m then _ ← lift (peeked (get "access_token" m)); mret tt else mret tt);
    _ ← list_hosts;
    mret 0%Z.

Definition cmd_auth_logout (all : bool) : io Z :=
  if all then _ ← clear_credentials None; mret 0%Z
  else
    host ← active_host;
    if negb (truthy host) then mret 1%Z
    else
      h ← lift (of_option (as_str host) TypeError);
      _ ← clear_credentials (Some h);
      mret 0%Z.

Definition cmd_auth_switch (host : option string) : io Z :=
  hosts ← list_hosts;
  match hosts with
  | [] => mret 1%Z
  | _ =>
      if negb (opt_truthy host) then _ ← active_host; mret 0%Z
      else
        let target := default "" host in
        if bool_decide (target ∉ hosts) then mret 1%Z
        else _ ← set_config "active_server" (JStr target); mret 0%Z
  end.

(** The stored credentials with what the provider renewed. *)
Definition renewed (creds response : dict) (token : json) (expires_at : Z) : dict :=
  let with_token := <["access_token" := token]> creds in
  let rotated := if get_truthy "refresh_token" response
                 then <["refresh_token" := get "refresh_token" response]> with_token else with_token in
  <["expires_at" := JInt expires_at]> rotated.
Definition cmd_auth_refresh : io Z :=
  creds ← load_credentials;
  if is_null creds then mret 1%Z
  else
    m ← lift (of_option (as_dict creds) AttributeError);
    if negb (get_truthy "refresh_token" m) then mret 1%Z
    else if negb (get_truthy "issuer" m) || negb (get_truthy "client_id" m) then mret 1%Z
    else
      issuer ← lift (of_option (as_str (get "issuer" m)) AttributeError);
      metadata ← lift (discover_oidc issuer);
      response ← catching RuntimeError None
        (r ← lift (refresh_execute (token_endpoint metadata) (get "client_id" m) (get "refresh_token" m)); mret (Some r));
      match response with
      | None => mret 1%Z
      | Some response =>
          r ← lift (of_option (as_dict response) AttributeError);
          lifetime ← lift (seconds (default (JInt 3600) (r !! "expires_in")));
          token ← lift (item "access_token" response);
          _ ← save_credentials (JObj (renewed m r token (clock + lifetime))) None;
          _ ← print_time (clock + lifetime);
          mret 0%Z
      end.

Definition cmd_auth_token : io (Z * json) :=
  token ← resolve_token; mret (if truthy token then 0 else 1, token)%Z.

(** The identity and the kind a local token is minted for; the left side is an
    exit code. *)
Definition text_or_empty (v : json) : string := if truthy v then claim_text v else "".
Definition local_identity (identity : option string) (asked_machine asked_human : bool) (config : dict)
  : res (Z + string * bool) :=
  let chosen := json_or (from_option JStr JNull identity) (get "local_identity" config) in
  if negb (truthy chosen) then Ok (inl 1%Z)
  else if asked_machine && asked_human then Ok (inl 2%Z)
  else
    chosen ← of_option (as_str chosen) AttributeError;
    let reusing_remembered :=
      match identity with
      | None => true
      | Some _ => String.eqb (lower (strip chosen)) (lower (text_or_empty (get "local_identity" config)))
      end in
    let machine := asked_machine
      || (negb asked_human && reusing_remembered && py_eqb (get "local_identity_kind" config) (JStr "machine")) in
    Ok (inr (if machine then strip chosen else lower (strip chosen), machine)).
Definition local_config (identity : string) (machine : bool) (config : dict) : dict :=
  <["active_server" := JStr "local"]>
    (<["local_identity_kind" := JStr (if machine then "machine" else "human")]>
      (<["local_identity" := JStr identity]> config)).
Definition cmd_auth_local (identity : option string) (asked_machine asked_human : bool) : io Z :=
  config ← load_config;
  chosen ← lift (local_identity identity asked_machine asked_human config);
  match chosen with
  | inl code => mret code
  | inr (identity, machine) =>
      dir ← lift config_dir;
      key ← ensure_local_keypair dir;
      token ← lift (mint_local_token identity key machine);
      _ ← save_config (local_config identity machine config);
      _ ← save_credentials (JObj {["access_token" := JStr token; "expires_at" := JInt (clock + TOKEN_LIFETIME_SECONDS);
                                   "issuer" := JStr "local"]}) (Some "local");
      _ ← print_time (clock + TOKEN_LIFETIME_SECONDS);
      mret 0%Z
  end.

Definition set_arg (key : string) (v : option string) (config : dict) : dict :=
  match v with Some t => <[key := JStr t]> config | None => config end.
Definition cmd_config_set (server issuer client_id : option string) : io Z :=
  config ← load_config;
  _ ← save_config (set_arg "client_id" client_id (set_arg "issuer" issuer (set_arg "server_url" server config)));
  mret 0%Z.
End Session.

