(* ===== verification/Sessions.v ===== *)
(** * What sessions keep

    Properties of the commands of [Session.v]: what each leaves alone, over any
    sequence of them, and what a local login and a refresh achieve.  The frame
    rules say of an operation that a predicate of the disk survives it, and the
    tactic [frame] applies them along the code. *)

From S2P Require Import Prelude PyStr Json Errors Sha256 Signing Contracts Auth Directory Credentials Flows Session.
From stdpp Require Import options.

(** ** What an operation leaves alone *)

(** [P] holds on the disk after the operation, however it ends. *)
Definition preserves {A} (P : disk -> Prop) (m : io A) : Prop := forall d, P d -> P (m d).2.

Section Frames.
Context `{HT : SigningTools} `{HA : AuthTools} `{HH : HostTools}.
Context (P : disk -> Prop).
Set Default Proof Using "Type".

Lemma preserves_ret {A} (a : A) : preserves P (mret a).
Proof. by intros d. Qed.
Lemma preserves_lift {A} (r : res A) : preserves P (lift r).
Proof. by intros d. Qed.
Lemma preserves_bind {A B} (m : io A) (f : A -> io B) :
  preserves P m -> (forall a, preserves P (f a)) -> preserves P (a ← m; f a).
Proof.
  intros Hm Hf d Hd. specialize (Hm d Hd). unfold mbind, io_bind. destruct (m d) as [[a|e] d']; [by apply Hf|done].
Qed.
(** What a first step tells of its result. *)
Lemma preserves_bind_when {A B} (phi : A -> Prop) (m : io A) (f : A -> io B) : preserves P m ->
  (forall d a d', P d -> m d = (Ok a, d') -> phi a) -> (forall a, phi a -> preserves P (f a)) -> preserves P (a ← m; f a).
Proof.
  intros Hm Hphi Hf d Hd. pose proof (Hm d Hd) as Hd'. unfold mbind, io_bind.
  destruct (m d) as [[a|e] d'] eqn:E; [apply Hf; [exact (Hphi _ _ _ Hd E)|done]|done].
Qed.
Lemma preserves_bind_lift {A B} (r : res A) (f : A -> io B) :
  (forall a, r = Ok a -> preserves P (f a)) -> preserves P (a ← lift r; f a).
Proof. intros Hf. apply (preserves_bind_when (fun a => r = Ok a)); [done| |done]. intros d a d' _. by intros [= ->]. Qed.
Lemma preserves_catching {A} e (fallback : A) (m : io A) : preserves P m -> preserves P (catching e fallback m).
Proof.
  intros Hm d Hd. specialize (Hm d Hd). unfold catching. destruct (m d) as [[a|e'] d']; [done|]. by destruct (bool_decide _).
Qed.
Lemma preserves_read path : preserves P (read_text path).
Proof. by intros d. Qed.
Lemma preserves_write path text : (forall d, P d -> P (<[path := text]> d)) -> preserves P (write_text path text).
Proof. intros Hw d Hd. unfold write_text. destruct (writable path); [by apply Hw|done]. Qed.
Lemma preserves_read_json path : preserves P (read_json_file path).
Proof.
  intros d Hd. unfold read_json_file. destruct (is_file path d); [|done].
  revert d Hd. apply preserves_bind; [apply preserves_read|]. intros. apply preserves_ret.
Qed.
Lemma preserves_load_config : preserves P load_config.
Proof.
  apply preserves_bind_lift. intros dir _. apply preserves_bind; [apply preserves_read_json|].
  intros. apply preserves_ret.
Qed.
Lemma preserves_load_all : preserves P load_all_credentials.
Proof.
  apply preserves_bind_lift. intros dir _. apply preserves_bind; [apply preserves_read_json|].
  intros. apply preserves_ret.
Qed.
Lemma preserves_active_host : preserves P active_host.
Proof. apply preserves_bind; [apply preserves_load_config|]. intros. apply preserves_ret. Qed.
Lemma preserves_load_credentials : preserves P load_credentials.
Proof.
  apply preserves_bind; [apply preserves_active_host|]. intros host. destruct (negb _); [apply preserves_ret|].
  apply preserves_bind; [apply preserves_load_all|]. intros. apply preserves_lift.
Qed.
Lemma preserves_list_hosts : preserves P list_hosts.
Proof. apply preserves_bind; [apply preserves_load_all|]. intros. apply preserves_ret. Qed.
(** The key pair is two files of its own. *)
Lemma preserves_keypair dir :
  (forall d text, P d -> P (<[under dir LOCAL_KEY_FILE := text]> d)) ->
  (forall d text, P d -> P (<[under dir LOCAL_JWKS_FILE := text]> d)) -> preserves P (ensure_local_keypair dir).
Proof.
  intros Hk Hj d. unfold ensure_local_keypair. revert d. intros d. destruct (is_file (under dir LOCAL_KEY_FILE) d).
  - set (b := is_file (under dir LOCAL_JWKS_FILE) d). clearbody b. revert d.
    apply preserves_bind; [apply preserves_read|]. intros text. apply preserves_bind_lift. intros key _.
    apply preserves_bind; [|intros; apply preserves_ret]. destruct b; [apply preserves_ret|].
    apply preserves_write. eauto.
  - revert d. apply preserves_bind; [apply preserves_write; eauto|]. intros _.
    apply preserves_bind; [apply preserves_write; eauto|]. intros _. apply preserves_ret.
Qed.
End Frames.

Create HintDb frame discriminated.
#[export] Hint Resolve preserves_ret preserves_lift preserves_read preserves_read_json preserves_load_config
  preserves_load_all preserves_active_host preserves_load_credentials preserves_list_hosts : frame.

(** One step into an operation; the facts about writes come from the context. *)
Ltac frame_step :=
  match goal with
  | |- preserves _ (mbind _ (lift _)) => apply preserves_bind_lift; intros ? ?
  | |- preserves _ (mbind _ _) => apply preserves_bind; [|intros ?]
  | |- preserves _ (catching _ _ _) => apply preserves_catching
  | |- preserves _ (if ?b then _ else _) => destruct b eqn:?
  | |- preserves _ (match ?x with _ => _ end) => destruct x eqn:?
  | |- preserves _ (let _ := _ in _) => cbv zeta
  | |- preserves _ _ => solve [eauto with frame]
  end.
Ltac frame := repeat frame_step.

Section ReadOnly.
Context `{HT : SigningTools} `{HA : AuthTools} `{HH : HostTools} `{HP : Provider} (P : disk -> Prop).
Set Default Proof Using "Type".

Lemma print_time_frame t : preserves P (print_time t).
Proof. apply preserves_lift. Qed.
Lemma save_config_frame c : (forall dir, config_dir = Ok dir ->
    forall d, P d -> P (<[under dir CONFIG_FILE := dumps true (JObj c)]> d)) -> preserves P (save_config c).
Proof. intros Hw. apply preserves_bind_lift. intros dir Hdir. by apply preserves_write, Hw. Qed.
Lemma cmd_auth_status_frame : preserves P cmd_auth_status.
Proof. unfold cmd_auth_status, print_time. frame. Qed.
Lemma cmd_auth_refresh_frame : (forall data, preserves P (save_credentials data None)) -> preserves P cmd_auth_refresh.
Proof. intros Hc. unfold cmd_auth_refresh, print_time. frame. Qed.
Lemma cmd_auth_logout_frame : (forall d h d', P d -> active_host d = (Ok (JStr h), d') -> preserves P (clear_credentials (Some h))) ->
  preserves P (cmd_auth_logout false).
Proof.
  intros Hh. apply (preserves_bind_when P (fun v => forall h, v = JStr h -> preserves P (clear_credentials (Some h))));
    [apply preserves_active_host|by intros d v d' Hd Ha h ->; eauto|].
  intros v Hv. destruct (negb _); [apply preserves_ret|]. apply preserves_bind_lift. intros h Hs.
  destruct v; simplify_eq. cbn in Hs. simplify_eq. apply preserves_bind; [by apply Hv|intros; apply preserves_ret].
Qed.
End ReadOnly.
#[export] Hint Resolve print_time_frame : frame.

(** The commands write the configuration, the credentials of one host and the
    key pair; what each of these writes preserves, the command preserves. *)
Section Commands.
Context `{HT : SigningTools} `{HA : AuthTools} `{HH : HostTools} `{HP : Provider}.
Context (P : disk -> Prop) (good : dict -> Prop) (may : string -> Prop).
Context (Hload : forall d c d', P d -> load_config d = (Ok c, d') -> good c).
Context (Hgood : forall c k v, good c -> k <> "local_identity" -> k <> "local_identity_kind" -> good (<[k := v]> c)).
Context (Hsave : forall c, good c -> preserves P (save_config c)).
Context (Hkeys : forall dir, config_dir = Ok dir -> preserves P (ensure_local_keypair dir)).
Context (Hcreds : forall data host, may host -> preserves P (save_credentials data (Some host))).
Set Default Proof Using "All".

(** The credentials go to the host a command works for. *)
Definition for_host (host : json) : Prop := forall h, as_str host = Some h -> may h.

Lemma with_config {A} (f : dict -> io A) : (forall c, good c -> preserves P (f c)) -> preserves P (c ← load_config; f c).
Proof. intros Hf. apply (preserves_bind_when P good); [apply preserves_load_config|exact Hload|exact Hf]. Qed.
Lemma save_for_frame data host : for_host host -> preserves P (save_for data host).
Proof. intros Hh. apply preserves_bind_lift. intros h Hs. apply Hcreds, Hh. by destruct host; simplify_eq/=. Qed.
Lemma save_active_frame c v : good c -> preserves P (save_config (<["active_server" := v]> c)).
Proof. intros Hc. by apply Hsave, Hgood. Qed.
Hint Resolve save_for_frame save_active_frame : frame.

Lemma login_token_file_frame path c : good c ->
  for_host (json_or (setting "LEDGER_SERVER_URL" "server_url" c) (JStr "local")) -> preserves P (login_token_file path c).
Proof. intros Hc Hh. unfold login_token_file. frame. Qed.
Lemma login_store_frame response issuer client_id host c : good c -> for_host host ->
  preserves P (login_store response issuer client_id host c).
Proof. intros Hc Hh. unfold login_store. frame. Qed.
Lemma account_store_frame response issuer client_id host c : good c -> for_host host ->
  preserves P (account_store response issuer client_id host c).
Proof. intros Hc Hh. unfold account_store. frame. Qed.

Lemma json_or_truthy a b : truthy b = true -> truthy (json_or a b) = true.
Proof. unfold json_or. by destruct (truthy a) eqn:E. Qed.
(** A login, by whichever host it is for. *)
Definition login_host (token_file : option string) (c : dict) : json :=
  json_or (setting "LEDGER_SERVER_URL" "server_url" c)
    (if opt_truthy token_file then JStr "local" else setting "LEDGER_OIDC_ISSUER" "issuer" c).
Lemma cmd_auth_login_frame fuel token_file scope d r d' : P d -> 
  (forall c, load_config d = (Ok c, d) -> truthy (login_host token_file c) = true -> for_host (login_host token_file c)) ->
  cmd_auth_login fuel token_file scope d = Some (r, d') -> P d'.
Proof.
  intros Hd Hh. unfold cmd_auth_login. destruct (load_config d) as [[c|e] d1] eqn:Hl.
  2:{ intros [= _ <-]. pose proof (preserves_load_config P d Hd) as Hd1. by rewrite Hl in Hd1. }
  pose proof (preserves_load_config (fun x => x = d) d eq_refl) as Hd1. rewrite Hl /= in Hd1. subst d1.
  specialize (Hh c eq_refl). unfold login_host in Hh. pose proof (Hload _ _ _ Hd Hl) as Hc.
  destruct (opt_truthy token_file).
  - intros [= Hr]. pose proof (login_token_file_frame (default "" token_file) c Hc (Hh (json_or_truthy _ (JStr "local") eq_refl)) d Hd) as Hp.
    by rewrite Hr in Hp.
  - destruct (_ || _) eqn:Hg; [by intros [= _ <-]|]. apply orb_false_iff in Hg as [Hi%negb_false_iff _].
    specialize (Hh (json_or_truthy _ _ Hi)). destruct (device_code_flow _ _ _) as [flow|]; [|by intros [= _ <-]].
    destruct (device_execute fuel flow) as [response|]; [|done]. cbn. intros [= Hr].
    assert (preserves P (response ← lift response; login_store response (setting "LEDGER_OIDC_ISSUER" "issuer" c)
      (setting "LEDGER_OIDC_CLIENT_ID" "client_id" c)
      (json_or (setting "LEDGER_SERVER_URL" "server_url" c) (setting "LEDGER_OIDC_ISSUER" "issuer" c)) c)) as Hp.
    { apply preserves_bind_lift. intros x _. by apply login_store_frame. }
    specialize (Hp d Hd). by rewrite Hr in Hp.
Qed.

Lemma service_account_frame client_id secret_file scope c : good c ->
  (truthy (login_host None c) = true -> for_host (login_host None c)) ->
  preserves P (service_account client_id secret_file scope c).
Proof.
  intros Hc Hh. unfold service_account, client_secret. destruct (_ || _) eqn:Hg; [apply preserves_ret|].
  apply orb_false_iff in Hg as [Hi%negb_false_iff _]. specialize (Hh (json_or_truthy _ _ Hi)).
  pose proof account_store_frame. frame.
Qed.
Lemma cmd_auth_switch_frame host : preserves P (cmd_auth_switch host).
Proof.
  unfold cmd_auth_switch. frame. unfold set_config. apply with_config. eauto with frame.
Qed.
Lemma auto_mint_frame : preserves P auto_mint_local_token.
Proof. unfold auto_mint_local_token. frame. Qed.
Lemma cmd_auth_token_frame : preserves P cmd_auth_token.
Proof. unfold cmd_auth_token, resolve_token. pose proof auto_mint_frame. frame. Qed.
(** What a local login records of the identity. *)
Lemma cmd_auth_local_frame identity asked_machine asked_human : may "local" ->
  (forall c i machine, good c -> local_identity identity asked_machine asked_human c = Ok (inr (i, machine)) ->
     good (local_config i machine c)) ->
  preserves P (cmd_auth_local identity asked_machine asked_human).
Proof.
  intros Hm Hl. apply with_config. intros c Hc. apply preserves_bind_lift. intros [code|[i machine]] Hi; [apply preserves_ret|].
  pose proof (Hsave _ (Hl _ _ _ Hc Hi)). frame.
Qed.
Lemma cmd_config_set_frame server issuer client_id : preserves P (cmd_config_set server issuer client_id).
Proof.
  apply with_config. intros c Hc. apply preserves_bind; [apply Hsave|intros; apply preserves_ret].
  unfold set_arg. destruct server, issuer, client_id; auto.
Qed.
End Commands.

Lemma lstrip_idem f l : lstrip_by f (lstrip_by f l) = lstrip_by f l.
Proof. induction l as [|c l IH]; cbn; [done|]. destruct (f c) eqn:E; [done|]. cbn. by rewrite E. Qed.
Lemma strip_idem s : strip (strip s) = strip s.
Proof.
  assert (lstrip_by is_space (chars (strip s)) = chars (strip s)) as Hl.
  { destruct (chars (strip s)) as [|c l] eqn:E; [done|]. cbn. by rewrite (strip_head _ _ _ E). }
  unfold strip at 1. rewrite Hl. unfold strip, rstrip_by. by rewrite !chars_of_chars rev_involutive lstrip_idem.
Qed.
Lemma local_config_lookups i machine c : get "local_identity" (local_config i machine c) = JStr i
  /\ get "local_identity_kind" (local_config i machine c) = JStr (if machine then "machine" else "human").
Proof.
  unfold local_config. split; [by rewrite get_insert_ne // get_insert_ne // get_insert_eq|].
  by rewrite get_insert_ne // get_insert_eq.
Qed.

(** ** Sequences of commands *)

Inductive session_command :=
| Login (token_file : option string) (scope : string)
| ServiceAccount (client_id secret_file : option string) (scope : string)
| Status
| Logout (all : bool)
| Switch (host : option string)
| Refresh
| Token
| Local (identity : option string) (machine human : bool)
| ConfigSet (server issuer client_id : option string).

Section Sessions.
Context `{HT : SigningTools} `{HA : AuthTools} `{HAL : !AuthLaws} `{HH : HostTools} `{HP : Provider}.
Set Default Proof Using "Type".

(** The disk a command leaves, however it ends; [None] while it still waits. *)
Definition run_session (fuel : nat) (c : session_command) (d : disk) : option disk :=
  match c with
  | Login token_file scope => snd <$> cmd_auth_login fuel token_file scope d
  | ServiceAccount client_id secret_file scope => Some (cmd_auth_service_account client_id secret_file scope d).2
  | Status => Some (cmd_auth_status d).2
  | Logout all => Some (cmd_auth_logout all d).2
  | Switch host => Some (cmd_auth_switch host d).2
  | Refresh => Some (cmd_auth_refresh d).2
  | Token => Some (cmd_auth_token d).2
  | Local identity machine human => Some (cmd_auth_local identity machine human d).2
  | ConfigSet server issuer client_id => Some (cmd_config_set server issuer client_id d).2
  end.

(** *** Other servers' credentials *)

(** The entry of a host in the credentials file. *)
Definition stored_entry (h : string) (d : disk) : option json :=
  match (load_all_credentials d).1 with Ok all => all !! h | Err _ => None end.

Lemma load_all_frame d p text : (forall dir, config_dir = Ok dir -> p <> under dir CREDENTIALS_FILE) ->
  (load_all_credentials (<[p := text]> d)).1 = (load_all_credentials d).1.
Proof.
  intros Hp. unfold load_all_credentials, mbind, io_bind, lift. destruct config_dir as [dir|] eqn:Hdir; [|done].
  specialize (Hp dir eq_refl). assert (<[p := text]> d !! under dir CREDENTIALS_FILE = d !! under dir CREDENTIALS_FILE) as Heq
    by (by apply lookup_insert_ne).
  unfold read_json_file, is_file. rewrite Heq. destruct (bool_decide _); [|done].
  unfold mbind, io_bind, read_text. rewrite Heq. by destruct (readable _), (d !! under dir CREDENTIALS_FILE).
Qed.
Definition keeps_entry (h : string) (v : option json) (d : disk) : Prop := stored_entry h d = v.
Lemma keeps_entry_write h v p text : (forall dir, config_dir = Ok dir -> p <> under dir CREDENTIALS_FILE) ->
  forall d, keeps_entry h v d -> keeps_entry h v (<[p := text]> d).
Proof. intros Hp d. unfold keeps_entry, stored_entry. by rewrite load_all_frame. Qed.

(** Writing a set of credentials that agrees on a host. *)
Lemma write_entry h v d all all' : load_all_credentials d = (Ok all, d) -> all' !! h = all !! h ->
  keeps_entry h v d -> forall dir, config_dir = Ok dir ->
  keeps_entry h v (atomic_write (under dir CREDENTIALS_FILE) (dumps true (JObj all')) d).2.
Proof.
  unfold keeps_entry, stored_entry. intros Hl Heq. rewrite Hl. cbn. intros <- dir Hdir. unfold atomic_write, write_text.
  destruct (writable _); [|cbn; by rewrite Hl]. cbn. destruct (readable (under dir CREDENTIALS_FILE)) eqn:Hr.
  - rewrite (all_credentials_of dir _ all' Hdir Hr); [by rewrite lookup_insert_eq|done].
  - assert (all = ∅) as ->.
    { unfold load_all_credentials, mbind, io_bind, lift in Hl. rewrite Hdir in Hl. unfold read_json_file in Hl.
      destruct (is_file _ d); [|by injection Hl as <-]. unfold mbind, io_bind, read_text in Hl. by rewrite Hr in Hl. }
    unfold load_all_credentials, mbind, io_bind, lift. rewrite Hdir. unfold read_json_file, is_file.
    rewrite lookup_insert_eq bool_decide_true; [done|]. unfold mbind, io_bind, read_text. by rewrite Hr.
Qed.
Section Entry.
Context (h : string) (v : option json) (A : disk -> Prop).
Context (Hblind : forall dir d d', config_dir = Ok dir -> d' !! under dir CONFIG_FILE = d !! under dir CONFIG_FILE -> A d -> A d').
Set Default Proof Using "All".

Definition kept (d : disk) : Prop := keeps_entry h v d /\ A d.

(** Credentials written for other hosts, on the ones that are there. *)
Lemma kept_write_all all' d : (forall all, load_all_credentials d = (Ok all, d) -> all' !! h = all !! h) ->
  is_ok (load_all_credentials d).1 = true -> forall dir, config_dir = Ok dir -> kept d ->
  kept (atomic_write (under dir CREDENTIALS_FILE) (dumps true (JObj all')) d).2.
Proof.
  intros Hall Hok dir Hdir [He Ha]. destruct (load_all_credentials d) as [[all|e] d1] eqn:Hl; [|done].
  pose proof (preserves_load_all (fun x => x = d) d eq_refl) as Hd1. rewrite Hl /= in Hd1. subst d1.
  split; [exact (write_entry _ _ _ _ _ Hl (Hall all eq_refl) He dir Hdir)|].
  apply (Hblind dir d); [done| |done]. unfold atomic_write, write_text. destruct (writable _); [|done].
  apply lookup_insert_ne. by intros ?%under_inj.
Qed.
Lemma load_all_same d all d' : load_all_credentials d = (Ok all, d') -> load_all_credentials d = (Ok all, d).
Proof. intros Hl. by destruct (load_all_pure _ _ _ Hl) as [-> _]. Qed.
Lemma kept_save host data : (forall d x d', kept d -> host_or_active host d = (Ok x, d') -> x <> h) ->
  preserves kept (host_or_active host) -> preserves kept (save_credentials data host).
Proof.
  intros Hne Hp. apply (preserves_bind_when kept (fun x => x <> h)); [done|done|]. intros x Hx d Hd.
  unfold mbind, io_bind. destruct (load_all_credentials d) as [[all|e] d1] eqn:Hl.
  - destruct (load_all_pure _ _ _ Hl) as [-> [dir Hdir]]. unfold lift. rewrite Hdir.
    apply kept_write_all; [|by rewrite Hl|done|done]. intros all' Hl'. assert (all' = all) as -> by congruence.
    by rewrite lookup_insert_ne.
  - pose proof (preserves_load_all kept d Hd) as Hd1. by rewrite Hl in Hd1.
Qed.
Lemma kept_clear x : x <> h -> preserves kept (clear_credentials (Some x)).
Proof.
  intros Hx d Hd. unfold clear_credentials, mbind, io_bind. destruct (load_all_credentials d) as [[all|e] d1] eqn:Hl.
  2:{ pose proof (preserves_load_all kept d Hd) as Hd1. by rewrite Hl in Hd1. }
  destruct (load_all_pure _ _ _ Hl) as [-> [dir Hdir]]. unfold lift. rewrite Hdir. case_bool_decide as Hrest.
  - apply kept_write_all; [|by rewrite Hl|done|done]. intros all' Hl'. assert (all' = all) as -> by congruence.
    by rewrite lookup_delete_ne.
  - unfold unlink. destruct (is_file _ d && _); [done|]. cbn. destruct Hd as [He Ha]. split.
    + unfold keeps_entry, stored_entry in He |- *. rewrite Hl in He. cbn in He. subst v.
      unfold load_all_credentials, mbind, io_bind, lift. rewrite Hdir. unfold read_json_file, is_file.
      rewrite lookup_delete_eq bool_decide_false; [by intros []|]. cbn.
      assert (delete x all = ∅) as Hnil by (by destruct (decide (delete x all = ∅))).
      by rewrite -(lookup_delete_ne all x h) // Hnil.
    + apply (Hblind dir d); [done| |done]. apply lookup_delete_ne. by intros ?%under_inj.
Qed.
End Entry.
(** The host a command works for, by the configuration it finds. *)
Definition config_of (d : disk) : dict := match (load_config d).1 with Ok c => c | Err _ => ∅ end.
Definition command_host (c : session_command) (d : disk) : json :=
  match c with
  | Login token_file _ => login_host token_file (config_of d)
  | ServiceAccount _ _ _ => login_host None (config_of d)
  | Logout _ | Refresh => match (active_host d).1 with Ok host => host | Err _ => JNull end
  | Local _ _ _ => JStr "local"
  | _ => JNull
  end.

Notation still h v := (kept h v (fun _ => True)).
Lemma still_write h v name : name <> CREDENTIALS_FILE -> forall dir, config_dir = Ok dir ->
  forall d text, still h v d -> still h v (<[under dir name := text]> d).
Proof.
  intros Hn dir Hdir d text [He _]. split; [|done]. apply keeps_entry_write; [|done].
  intros dir' Hdir'. assert (dir' = dir) as -> by congruence. by intros ?%under_inj.
Qed.
Lemma still_config h v c : preserves (still h v) (save_config c).
Proof. apply save_config_frame. intros dir Hdir d. by apply still_write. Qed.
Lemma still_credentials h v data x : x <> h /\ x <> "" -> preserves (still h v) (save_credentials data (Some x)).
Proof.
  intros [Hx Ht%str_truthy_spec]. apply kept_save; [done| |].
  - intros d y d' _. unfold host_or_active. cbn [opt_truthy]. rewrite Ht. by intros [= <- _].
  - unfold host_or_active. cbn [opt_truthy]. rewrite Ht. apply preserves_ret.
Qed.
Lemma still_keys h v dir : config_dir = Ok dir -> preserves (still h v) (ensure_local_keypair dir).
Proof. intros Hdir. apply preserves_keypair; intros d text; by apply still_write. Qed.
Lemma other_host h (host : json) : host <> JStr h -> truthy host = true -> for_host (fun x => x <> h /\ x <> "") host.
Proof.
  intros Hne Ht x Hx. destruct host; simplify_eq/=. split; [congruence|]. by apply str_truthy_spec.
Qed.

(** Commands on the active server, where that is another one. *)
Definition active_is_not (h : string) (d : disk) : Prop := (active_host d).1 <> Ok (JStr h).
Lemma active_blind h dir d d' : config_dir = Ok dir -> d' !! under dir CONFIG_FILE = d !! under dir CONFIG_FILE ->
  active_is_not h d -> active_is_not h d'.
Proof. unfold active_is_not. intros Hdir Heq. by destruct (active_host_frame dir d d' Hdir Heq) as [-> _]. Qed.
Lemma refresh_still h v : preserves (kept h v (active_is_not h)) cmd_auth_refresh.
Proof.
  apply cmd_auth_refresh_frame. intros data. apply kept_save; [exact (active_blind h)| |unfold host_or_active; cbn [opt_truthy]; frame].
  intros d x d' [_ Ha] Hx. unfold host_or_active in Hx. cbn [opt_truthy] in Hx. inv_io Hx as host d1 Hact.
  inv_io Hx as u d2 Hu. apply lift_ok in Hx as [Hx _]. unfold active_is_not in Ha. rewrite Hact in Ha. cbn in Ha.
  destruct host; simplify_eq/=. congruence.
Qed.
Lemma logout_still h v : preserves (kept h v (active_is_not h)) (cmd_auth_logout false).
Proof.
  apply cmd_auth_logout_frame. intros d x d' [_ Ha] Hx. apply kept_clear; [exact (active_blind h)|].
  unfold active_is_not in Ha. rewrite Hx in Ha. cbn in Ha. congruence.
Qed.
Lemma active_other h d : match (active_host d).1 with Ok host => host | Err _ => JNull end <> JStr h -> active_is_not h d.
Proof. unfold active_is_not. destruct (active_host d).1; congruence. Qed.

(** A session command touches the credentials of one server. Whatever it
    is and however it ends - a login, a service account, a refresh, a local
    identity, a log-out of the active server - the stored credentials of every
    other server are what they were; commands without a server of their own
    change none at all. *)
Theorem other_hosts_keep_credentials fuel c d d' h :
  c <> Logout true -> command_host c d <> JStr h -> run_session fuel c d = Some d' ->
  stored_entry h d' = stored_entry h d.
Proof.
  intros Hall Hh Hr. set (v := stored_entry h d). assert (still h v d) as Hd by done.
  enough (still h v d') as [He _] by done. clearbody v.
  pose proof (fun c (_ : True) => still_config h v c) as Hs. pose proof (still_keys h v) as Hk.
  pose proof (still_credentials h v) as Hc.
  assert (forall d (c : dict) d', still h v d -> load_config d = (Ok c, d') -> True) as Hl by done.
  assert (forall (c : dict) (k : string) (x : json), True -> k <> "local_identity" -> k <> "local_identity_kind" -> True) as Hg by done.
  destruct c as [tf sc|ci sf sc| |[]|host| | |i m hm|sv iss ci]; cbn [run_session] in Hr; try done.
  1:{ destruct (cmd_auth_login fuel tf sc d) as [[r d1]|] eqn:El; [|done]. injection Hr as <-.
      apply (cmd_auth_login_frame _ _ _ Hl Hg Hs Hk Hc _ _ _ _ _ _ Hd) in El; [done|].
      intros c Hlc. apply other_host. cbn in Hh. unfold config_of in Hh. by rewrite Hlc in Hh. }
  all: injection Hr as <-.
  - cbn in Hh. unfold config_of in Hh. unfold cmd_auth_service_account, mbind, io_bind.
    pose proof (preserves_load_config _ _ Hd) as Hd1. destruct (load_config d) as [[c|e] d1]; [|done].
    apply (service_account_frame _ _ _ Hl Hg Hs Hk Hc); [done| |done]. by apply other_host.
  - by apply cmd_auth_status_frame.
  - split; [|done]. by apply (logout_still h v d); split; [apply Hd|apply active_other].
  - by apply (cmd_auth_switch_frame _ _ _ Hl Hg Hs Hk Hc).
  - split; [|done]. by apply (refresh_still h v d); split; [apply Hd|apply active_other].
  - by apply (cmd_auth_token_frame _ _ _ Hl Hg Hs Hk Hc).
  - apply (cmd_auth_local_frame _ _ _ Hl Hg Hs Hk Hc); [|done|done]. split; [intros <-; by apply Hh|done].
  - by apply (cmd_config_set_frame _ _ _ Hl Hg Hs Hk Hc).
Qed.

(** *** Machine identities *)

(** The configuration remembers a machine identity, in whichever case. *)
Definition remembered (who : string) (c : dict) : Prop :=
  get "local_identity_kind" c = JStr "machine"
  /\ exists i, get "local_identity" c = JStr i /\ strip i = i /\ lower i = lower who.
Definition remembers (who : string) (d : disk) : Prop :=
  exists dir c, config_dir = Ok dir /\ d !! under dir CONFIG_FILE = Some (dumps true (JObj c)) /\ remembered who c.

Lemma load_remembered who d c d' : remembers who d -> load_config d = (Ok c, d') -> remembered who c.
Proof.
  intros (dir & c' & Hdir & Hd & Hc). unfold load_config, mbind, io_bind, lift. rewrite Hdir.
  unfold read_json_file, is_file. rewrite Hd bool_decide_true; [done|]. unfold mbind, io_bind, read_text.
  destruct (readable _); [|done]. rewrite Hd. cbn [of_option]. rewrite loads_dumps. by intros [= <- _].
Qed.
Lemma remembered_insert who c k v : remembered who c -> k <> "local_identity" -> k <> "local_identity_kind" ->
  remembered who (<[k := v]> c).
Proof. intros Hc H1 H2. unfold remembered. by rewrite !get_insert_ne. Qed.
Lemma save_remembered who c : remembered who c -> preserves (remembers who) (save_config c).
Proof.
  intros Hc. apply save_config_frame. intros dir Hdir d _. exists dir, c. split; [done|]. split; [|done]. by rewrite lookup_insert_eq.
Qed.
Lemma remembers_elsewhere who dir name : config_dir = Ok dir -> name <> CONFIG_FILE ->
  forall d d', (forall p, p <> under dir name -> d' !! p = d !! p) -> remembers who d -> remembers who d'.
Proof.
  intros Hdir Hn d d' Heq (dir' & c & Hdir' & Hd & Hc). assert (dir' = dir) as -> by congruence.
  exists dir, c. split; [done|]. split; [|done]. rewrite Heq; [|done]. intros ?%under_inj. congruence.
Qed.
Lemma remembers_write who dir name text : config_dir = Ok dir -> name <> CONFIG_FILE ->
  forall d, remembers who d -> remembers who (<[under dir name := text]> d).
Proof.
  intros Hdir Hn d. apply (remembers_elsewhere who dir name Hdir Hn). intros p Hp. apply lookup_insert_ne. congruence.
Qed.
Lemma remembers_unlink who dir name : config_dir = Ok dir -> name <> CONFIG_FILE ->
  preserves (remembers who) (unlink (under dir name)).
Proof.
  intros Hdir Hn d Hd. unfold unlink. destruct (_ && _); [done|].
  apply (remembers_elsewhere who dir name Hdir Hn d); [|done]. intros p Hp. apply lookup_delete_ne. congruence.
Qed.
Lemma credentials_remembered who data host : preserves (remembers who) (save_credentials data host).
Proof.
  unfold save_credentials, host_or_active, atomic_write. frame.
  apply preserves_write. by apply remembers_write.
Qed.
Lemma clear_remembered who host : preserves (remembers who) (clear_credentials host).
Proof.
  unfold clear_credentials, atomic_write. frame; [apply preserves_write; by apply remembers_write|by apply remembers_unlink..].
Qed.
Lemma keypair_remembered who dir : config_dir = Ok dir -> preserves (remembers who) (ensure_local_keypair dir).
Proof. intros Hdir. apply preserves_keypair; intros d text; by apply remembers_write. Qed.

(** A command that does not take the machine identity away. *)
Definition keeps_machine (who : string) (c : session_command) : Prop :=
  match c with
  | Local identity _ human => human = false /\ forall i, identity = Some i -> lower (strip i) = lower who
  | _ => True
  end.
Lemma local_identity_kept who identity asked c i machine :
  remembered who c -> (forall i, identity = Some i -> lower (strip i) = lower who) ->
  local_identity identity asked false c = Ok (inr (i, machine)) -> machine = true /\ remembered who (local_config i true c).
Proof.
  intros (Hk & j & Hj & Hs & Hl) Hid. unfold local_identity. rewrite Hk Hj.
  destruct (negb _); [done|]. rewrite andb_false_r. intros Hr. inv_bind Hr as [chosen|] Hc.
  assert (lower (strip chosen) = lower who) as Hw.
  { destruct identity as [t|]; cbn in Hc.
    - unfold json_or in Hc. cbn [truthy] in Hc. destruct (str_truthy t); injection Hc as <-; [by apply Hid|by rewrite Hs].
    - injection Hc as <-. by rewrite Hs. }
  assert (text_or_empty (JStr j) = j) as Hj'.
  { unfold text_or_empty. cbn. destruct (str_truthy j) eqn:E; [done|]. by apply negb_false_iff, String.eqb_eq in E. }
  rewrite Hj' Hw Hl in Hr.
  assert (match identity with Some _ => (lower who =? lower who)%string | None => true end = true) as Hm
    by (destruct identity; [apply String.eqb_refl|done]).
  rewrite Hm orb_true_r in Hr. injection Hr as <- <-. split; [done|].
  destruct (local_config_lookups (strip chosen) true c) as [H1 H2].
  split; [exact H2|]. exists (strip chosen). split; [exact H1|]. split; [apply strip_idem|done].
Qed.

(** One command of a session. *)
Definition session_step (who : string) (d d' : disk) : Prop :=
  exists fuel c, keeps_machine who c /\ run_session fuel c d = Some d'.
Lemma step_remembers who d d' : session_step who d d' -> remembers who d -> remembers who d'.
Proof.
  intros (fuel & c & Hk & Hr) Hd. pose proof (load_remembered who) as Hl. pose proof (remembered_insert who) as Hg.
  pose proof (save_remembered who) as Hs. pose proof (keypair_remembered who) as Hkey.
  pose proof (fun data host (_ : True) => credentials_remembered who data (Some host)) as Hc.
  destruct c as [tf sc|ci sf sc| |all|host| | |i m hm|sv iss ci]; cbn [run_session] in Hr.
  1:{ destruct (cmd_auth_login fuel tf sc d) as [[r d1]|] eqn:El; [|done]. injection Hr as <-.
      by apply (cmd_auth_login_frame _ _ _ Hl Hg Hs Hkey Hc _ _ _ _ _ _ Hd) in El. }
  all: injection Hr as <-.
  - apply (with_config _ _ _ Hl Hg Hs Hkey Hc); [|done]. intros c Hgc.
    by apply (service_account_frame _ _ _ Hl Hg Hs Hkey Hc).
  - by apply cmd_auth_status_frame.
  - destruct all.
    + unfold cmd_auth_logout. apply preserves_bind; [apply clear_remembered|intros; apply preserves_ret|done].
    + apply (cmd_auth_logout_frame (remembers who)); [|done]. intros. apply clear_remembered.
  - by apply (cmd_auth_switch_frame _ _ _ Hl Hg Hs Hkey Hc).
  - apply cmd_auth_refresh_frame; [|done]. intros data. apply credentials_remembered.
  - by apply (cmd_auth_token_frame _ _ _ Hl Hg Hs Hkey Hc).
  - destruct Hk as [-> Hi]. apply (cmd_auth_local_frame _ _ _ Hl Hg Hs Hkey Hc); [done| |done].
    intros c j machine Hgc Hli. by destruct (local_identity_kept _ _ _ _ _ _ Hgc Hi Hli) as [-> Hloc].
  - by apply (cmd_config_set_frame _ _ _ Hl Hg Hs Hkey Hc).
Qed.

(** A machine identity is never silently turned into a person. After any
    sequence of session commands - logins, log-outs, refreshes, local identities
    without [--human] and for the same name - the identity is remembered as a
    machine's, a bare [ledger auth local] signs for it as a machine again, and
    the token that is minted where a credential has expired is a machine's. *)
Theorem machine_identity_is_kept who d d' : remembers who d -> rtc (session_step who) d d' ->
  remembers who d'
  /\ (forall c i machine, load_config d' = (Ok c, d') -> local_identity None false false c = Ok (inr (i, machine)) ->
        machine = true /\ lower i = lower who)
  /\ (env_text "LEDGER_LOCAL_IDENTITY" = who -> forall token d'', auto_mint_local_token d' = (Ok (Some token), d'') ->
        exists key, token = jwt_encode (local_claims who true) key LOCAL_KID).
Proof.
  intros Hd Hsteps. assert (remembers who d') as Hd' by (induction Hsteps; eauto using step_remembers).
  split; [done|]. split.
  - intros c i machine Hl Hi. assert (forall j : string, None = Some j -> lower (strip j) = lower who) as Hn by done.
    destruct (local_identity_kept _ _ _ _ _ _ (load_remembered _ _ _ _ Hd' Hl) Hn Hi) as [-> (_ & j & Hj & _ & Hw)]. split; [done|].
    rewrite (proj1 (local_config_lookups _ _ _)) in Hj. by injection Hj as ->.
  - intros Hw token d'' Hm. unfold auto_mint_local_token in Hm. rewrite Hw in Hm. destruct (negb _); [done|].
    inv_io Hm as machine d1 Hmach. assert (machine = true) as ->.
    { destruct (bool_decide _); [by injection Hmach|]. inv_io Hmach as c d2 Hl. injection Hmach as <- _.
      destruct (load_remembered _ _ _ _ Hd' Hl) as (Hk & j & Hj & _ & Hwj). unfold remembered_machine, get_truthy.
      rewrite Hk Hj. cbn [truthy claim_text py_str]. destruct (str_truthy j) eqn:Ej; [by rewrite Hwj String.eqb_refl|].
      apply negb_false_iff, String.eqb_eq in Ej. subst j. rewrite -Hwj. by rewrite String.eqb_refl. }
    inv_io Hm as dir d2 Hdir. inv_io Hm as key d3 Hkey. inv_io Hm as t d4 Ht. injection Hm as <- _.
    apply lift_ok in Ht as [Ht _]. unfold mint_local_token in Ht. inv_bind Ht. injection Ht as <-. by exists key.
Qed.
End Sessions.

(** *** Local logins *)

Section LocalLogin.
Context `{HT : SigningTools} `{HA : AuthTools} `{HAL : !AuthLaws} `{HH : HostTools}.
Set Default Proof Using "Type".

Lemma load_config_of dir d c : config_dir = Ok dir -> readable (under dir CONFIG_FILE) = true ->
  d !! under dir CONFIG_FILE = Some (dumps true (JObj c)) -> load_config d = (Ok c, d).
Proof.
  intros Hdir Hr Hd. unfold load_config, mbind, io_bind, lift. rewrite Hdir.
  unfold read_json_file, is_file. rewrite Hd bool_decide_true; [done|].
  unfold mbind, io_bind, read_text. rewrite Hr Hd. cbn [of_option]. by rewrite loads_dumps.
Qed.
(** The credentials of the active server of a configuration. *)
Lemma load_credentials_of dir d c all h v : config_dir = Ok dir -> (forall name, readable (under dir name) = true) ->
  d !! under dir CONFIG_FILE = Some (dumps true (JObj c)) -> d !! under dir CREDENTIALS_FILE = Some (dumps true (JObj all)) ->
  truthy (env_json "LEDGER_SERVER_URL") = false -> get "active_server" c = JStr h -> h <> "" -> get h all = v ->
  load_credentials d = (Ok v, d).
Proof.
  intros Hdir Hr Hc Ha Henv Hact Hne%str_truthy_spec <-.
  assert (active_host d = (Ok (JStr h), d)) as Hah.
  { unfold active_host, mbind, io_bind. rewrite (load_config_of _ _ _ Hdir (Hr _) Hc). unfold get_truthy.
    rewrite Henv Hact. cbn [truthy]. by rewrite Hne. }
  unfold load_credentials. unfold mbind at 1, io_bind at 1. rewrite Hah. cbn [truthy]. rewrite Hne. cbn [negb].
  unfold mbind, io_bind. by rewrite (all_credentials_of _ _ _ Hdir (Hr _) Ha).
Qed.

Definition local_entry (token : string) : dict :=
  {["access_token" := JStr token; "expires_at" := JInt (clock + TOKEN_LIFETIME_SECONDS); "issuer" := JStr "local"]}.
(** What a local login that ends with exit code 0 has done. *)
Lemma auth_local_inv identity am ah dir d d' : config_dir = Ok dir ->
  cmd_auth_local identity am ah d = (Ok 0%Z, d') ->
  exists c i machine key d1 token all, load_config d = (Ok c, d)
    /\ local_identity identity am ah c = Ok (inr (i, machine)) /\ ensure_local_keypair dir d = (Ok key, d1)
    /\ mint_local_token i key machine = Ok token
    /\ d' = <[under dir CREDENTIALS_FILE := dumps true (JObj (<["local" := JObj (local_entry token)]> all))]>
             (<[under dir CONFIG_FILE := dumps true (JObj (local_config i machine c))]> d1).
Proof.
  intros Hdir Hc. unfold cmd_auth_local in Hc. inv_io Hc as c d0 Hl.
  pose proof (preserves_load_config (fun x => x = d) d eq_refl) as Hd0. rewrite Hl /= in Hd0. subst d0.
  inv_io Hc as [code|[i machine]] d1 Hi; apply lift_ok in Hi as [Hi ->].
  { injection Hc as -> _. unfold local_identity in Hi. destruct (negb _); [done|]. destruct (_ && _); [done|].
    by inv_bind Hi. }
  inv_io Hc as dir' d1 Hdir'. apply lift_ok in Hdir' as [Hdir' ->]. assert (dir' = dir) as -> by congruence.
  inv_io Hc as key d2 Hk. inv_io Hc as token d3 Ht. apply lift_ok in Ht as [Ht ->].
  inv_io Hc as u d4 Hs. unfold save_config in Hs. inv_io Hs as dir' d5 Hdir''. apply lift_ok in Hdir'' as [Hdir'' ->].
  assert (dir' = dir) as -> by congruence. apply write_text_ok in Hs. subst d4.
  inv_io Hc as u' d4 Hs. inv_io Hc as u'' d6 Hp. injection Hc as <-. apply lift_ok in Hp as [_ ->].
  unfold save_credentials in Hs. inv_io Hs as h d6 Hh. injection Hh as <- <-.
  inv_io Hs as all d6 Hall. destruct (load_all_pure _ _ _ Hall) as [-> _]. inv_io Hs as dir' d6 Hd6.
  apply lift_ok in Hd6 as [Hd6 ->]. assert (dir' = dir) as -> by congruence. apply write_text_ok in Hs.
  exists c, i, machine, key, d2, token, all. by rewrite Hs.
Qed.

(** The environment names no token and no server. *)
Definition quiet_environment : Prop :=
  env_text "LAAS_TOKEN" = "" /\ default "" (environ !! "LEDGER_TOKEN_PATH") = ""
  /\ default "" (environ !! "LEDGER_TOKEN") = "" /\ truthy (env_json "LEDGER_SERVER_URL") = false.

(** A stored local token is the one [resolve_token] finds. *)
Lemma stored_local_token token : token <> "" -> stored_token (JObj (local_entry token)) = Ok (JStr token).
Proof.
  intros Ht%str_truthy_spec. unfold stored_token. set (e := local_entry token).
  assert (get "access_token" e = JStr token) as Ha by done.
  assert (get "expires_at" e = JInt (clock + TOKEN_LIFETIME_SECONDS)) as He by done. clearbody e.
  unfold get_truthy. rewrite Ha He. cbn [truthy is_null passed_by]. rewrite Ht. cbn [negb].
  by replace (clock + TOKEN_LIFETIME_SECONDS <=? clock)%Z with false by (unfold TOKEN_LIFETIME_SECONDS; lia).
Qed.
(** A stored local token is resolved with the verifier of the local keys. *)
Lemma stored_local_resolves d token dir v : quiet_environment -> cli_installed = true -> token <> "" ->
  load_credentials d = (Ok (JObj (local_entry token)), d) -> config_dir = Ok dir ->
  local_jwks_path dir d = Some (under dir LOCAL_JWKS_FILE) ->
  token_verifier (local_verifier_config (under dir LOCAL_JWKS_FILE)) d = (Ok v, d) ->
  resolve_auth None d = (Ok {| rc_token := token; rc_verifier := v; rc_source := "stored" |}, d).
Proof.
  intros (H1 & H2 & H3 & _) Hcli Ht%str_truthy_spec Hl Hdir Hj Hv. unfold resolve_auth. rewrite H1. cbn [str_truthy String.eqb negb].
  unfold mbind at 1, io_bind at 1. unfold token_file_text. rewrite H2. cbn [str_truthy String.eqb negb mret io_ret].
  assert (env_text "LEDGER_TOKEN" = "") as -> by (unfold env_text; by rewrite H3). cbn [str_truthy String.eqb negb].
  assert (build_local_verifier None d = (Ok v, d)) as Hb.
  { unfold build_local_verifier, mbind, io_bind, local_fallback, local_dir. rewrite Hcli.
    unfold catching, mbind, io_bind, lift. rewrite Hdir. cbn. by rewrite Hj. }
  unfold default_store. rewrite Hcli. unfold try_stored_credential. cbn [st_credentials].
  assert (catching OSError JNull load_credentials d = (Ok (JObj (local_entry token)), d)) as Hst
    by (unfold catching; by rewrite Hl).
  set (e := local_entry token) in *. assert (truthy (JObj e) = true) as Hte by done.
  assert (get "access_token" e = JStr token) as Ha by done. assert (get "issuer" e = JStr "local") as Hi by done.
  assert (get "expires_at" e = JInt (clock + TOKEN_LIFETIME_SECONDS)) as He by done. clearbody e.
  unfold mbind, io_bind. rewrite Hst Hte. cbn [negb]. unfold lift. cbn [of_option as_dict]. unfold get_truthy. rewrite Ha He Hi.
  cbn [truthy is_null passed_by as_str of_option]. rewrite Ht. cbn [negb].
  replace (clock + TOKEN_LIFETIME_SECONDS <=? clock)%Z with false by (unfold TOKEN_LIFETIME_SECONDS; lia).
  unfold catching, mbind, io_bind, verifier_for_issuer.
  replace (py_eqb (JStr "local") (JStr LOCAL_ISSUER)) with true by done. by rewrite Hb.
Qed.

Lemma stored_local_printed d token : quiet_environment -> token <> "" ->
  load_credentials d = (Ok (JObj (local_entry token)), d) -> cmd_auth_token d = (Ok (0%Z, JStr token), d).
Proof.
  intros (_ & H2 & H3 & _) Hne Hl. unfold cmd_auth_token, resolve_token. rewrite H2 H3.
  cbn [str_truthy String.eqb negb]. unfold mbind at 1, io_bind at 1. unfold mbind at 1, io_bind at 1. rewrite Hl.
  unfold mbind, io_bind, lift. rewrite stored_local_token; [done|]. apply str_truthy_spec in Hne. cbn [truthy].
  by rewrite Hne; cbn [mret io_ret truthy]; rewrite Hne.
Qed.
Lemma trusted_flag : Some local_identity_trusted = Some true <-> env_text "LEDGER_TRUST_LOCAL_IDENTITY" = "1".
Proof.
  unfold local_identity_trusted. change (strip _) with (env_text "LEDGER_TRUST_LOCAL_IDENTITY").
  destruct (String.eqb_spec (env_text "LEDGER_TRUST_LOCAL_IDENTITY") "1"); split; congruence.
Qed.

(** The name a local login is for: the one given, or else the remembered one. *)
Definition login_name (given : option string) (c : dict) (name : string) : Prop :=
  name <> "" /\ (given = Some name \/ (default "" given = "" /\ get "local_identity" c = JStr name)).
(** It is a machine's: asked for, or not declined and remembered as one, for
    the same name whatever the case. *)
Definition login_is_machine (given : option string) (asked_machine asked_human : bool) (c : dict) (name : string) : Prop :=
  asked_machine = true
  \/ (asked_human = false /\ get "local_identity_kind" c = JStr "machine"
      /\ (given = None \/ lower (strip name)
                          = lower (if get_truthy "local_identity" c then claim_text (get "local_identity" c) else ""))).

Lemma local_identity_inv given am ah c i machine : local_identity given am ah c = Ok (inr (i, machine)) ->
  exists name, login_name given c name /\ (machine = true <-> login_is_machine given am ah c name)
    /\ i = (if machine then strip name else lower (strip name)).
Proof.
  unfold local_identity. set (chosen := json_or _ _). destruct (truthy chosen) eqn:Ht; [|done]. cbn [negb].
  destruct (am && ah); [done|]. intros Hr. inv_bind Hr as [name|] Hn. injection Hr as <- <-. exists name.
  destruct chosen as [| | |t| |] eqn:Hch; try done. injection Hn as ->. cbn in Ht. apply str_truthy_spec in Ht.
  split; [split; [done|]|split; [|done]].
  - subst chosen. unfold json_or in Hch. destruct given as [g|]; [|by right]. cbn in Hch.
    destruct (str_truthy g) eqn:Hg; [left; congruence|]. right. split; [|done]. cbn.
    by apply negb_false_iff, String.eqb_eq in Hg.
  - unfold login_is_machine, text_or_empty, get_truthy. rewrite py_eqb_str_r.
    set (r := if truthy _ then _ else _). clearbody r.
    rewrite orb_true_iff !andb_true_iff negb_true_iff bool_decide_eq_true. destruct given as [g|].
    + rewrite String.eqb_eq. intuition congruence.
    + intuition congruence.
Qed.
Lemma lower_idem s : lower (lower s) = lower s.
Proof.
  unfold lower. rewrite chars_of_chars map_map. f_equal. apply map_ext. intros c. by destruct c as [[] [] [] [] [] [] [] []].
Qed.

End LocalLogin.


Section Renewal.
Context `{HT : SigningTools} `{HA : AuthTools} `{HH : HostTools} `{HP : Provider}.
Set Default Proof Using "Type".

(** Credentials saved for the active server are the ones loaded after. *)
Lemma saved_active data dir d u d' : config_dir = Ok dir -> readable (under dir CREDENTIALS_FILE) = true ->
  save_credentials data None d = (Ok u, d') -> load_credentials d' = (Ok data, d').
Proof.
  intros Hdir Hr Hs. unfold save_credentials, host_or_active in Hs. cbn [opt_truthy] in Hs. inv_io Hs as h d1 Hh.
  inv_io Hh as host d2 Hact. inv_io Hh as u' d3 Ht. apply lift_ok in Hh as [Hh ->].
  apply lift_ok in Ht as [Ht%raise_if_ok%negb_false_iff ->].
  pose proof (preserves_active_host (fun x => x = d) d eq_refl) as Hd2. rewrite Hact /= in Hd2. subst d2.
  inv_io Hs as all d2 Hall. destruct (load_all_pure _ _ _ Hall) as [-> _]. inv_io Hs as dir' d3 Hd3.
  apply lift_ok in Hd3 as [Hd3 ->]. assert (dir' = dir) as -> by congruence. apply write_text_ok in Hs.
  assert (d' !! under dir CONFIG_FILE = d !! under dir CONFIG_FILE) as Hc.
  { subst d'. apply lookup_insert_ne. by intros ?%under_inj. }
  destruct (active_host_frame dir d d' Hdir Hc) as [H1 H2]. rewrite Hact in H1.
  assert (active_host d' = (Ok host, d')) as Hact' by (destruct (active_host d'); cbn in *; congruence).
  destruct host as [| | |s| |]; simplify_eq/=. unfold load_credentials. unfold mbind at 1, io_bind at 1. rewrite Hact'.
  cbn [truthy]. rewrite Ht. cbn [negb]. unfold mbind, io_bind.
  rewrite (all_credentials_of dir _ (<[h := data]> all) Hdir Hr); [by rewrite lookup_insert_eq|].
  unfold lift, host_entry. by rewrite get_insert_eq.
Qed.

(** A refresh renews the session it finds. It presents the stored refresh
    token to the token endpoint that the recorded issuer publishes, and only
    there; after it the stored credentials have the access token of the answer
    and its expiry, the refresh token is the new one where the provider rotated
    it and the old one otherwise, and the issuer, the client and everything else
    stay. *)
Theorem refresh_renews_session dir d d' :
  config_dir = Ok dir -> readable (under dir CREDENTIALS_FILE) = true -> cmd_auth_refresh d = (Ok 0%Z, d') ->
  exists m m' r issuer metadata lifetime, load_credentials d = (Ok (JObj m), d) /\ load_credentials d' = (Ok (JObj m'), d')
    /\ get "issuer" m = JStr issuer /\ discover_oidc issuer = Ok metadata
    /\ refresh_execute (token_endpoint metadata) (get "client_id" m) (get "refresh_token" m) = Ok (JObj r)
    /\ r !! "access_token" = Some (get "access_token" m') /\ get "expires_at" m' = JInt (clock + lifetime)
    /\ get "refresh_token" m' = (if get_truthy "refresh_token" r then get "refresh_token" r else get "refresh_token" m)
    /\ forall k, k <> "access_token" -> k <> "expires_at" -> k <> "refresh_token" -> get k m' = get k m.
Proof.
  intros Hdir Hr Hc. unfold cmd_auth_refresh in Hc. inv_io Hc as creds d1 Hl.
  pose proof (preserves_load_credentials (fun x => x = d) d eq_refl) as Hd1. rewrite Hl /= in Hd1. subst d1.
  destruct (is_null creds); [done|]. inv_io Hc as m d1 Hm. apply lift_ok in Hm as [Hm ->].
  destruct (negb _); [done|]. destruct (_ || _); [done|]. inv_io Hc as issuer d1 Hi. apply lift_ok in Hi as [Hi ->].
  inv_io Hc as metadata d1 Hd. apply lift_ok in Hd as [Hd ->]. inv_io Hc as response d1 Hresp.
  destruct response as [response|]; [|done]. apply catching_some in Hresp. inv_io Hresp as r' d2 Hx.
  injection Hresp as -> <-. apply lift_ok in Hx as [Hx ->].
  inv_io Hc as r d1 Hr'. apply lift_ok in Hr' as [Hr' ->]. inv_io Hc as lifetime d1 Hlt. apply lift_ok in Hlt as [_ ->].
  inv_io Hc as token d1 Ht. apply lift_ok in Ht as [Ht ->]. inv_io Hc as u d1 Hs. inv_io Hc as u' d2 Hp.
  injection Hc as <-. apply lift_ok in Hp as [_ ->].
  destruct creds as [| | | | |m0]; simplify_eq/=.
  destruct response as [| | | | |r0]; simplify_eq/=.
  destruct (get "issuer" m) as [| | |s| |] eqn:Hiss; simplify_eq/=.
  exists m, (renewed m r token (clock + lifetime)), r, issuer, metadata, lifetime.
  split; [done|]. split; [exact (saved_active _ _ _ _ _ Hdir Hr Hs)|]. split; [done|]. split; [done|]. split; [done|].
  unfold renewed. split.
  { destruct (r !! "access_token") as [t|]; [|done]. injection Ht as ->. rewrite get_insert_ne //.
    destruct (get_truthy _ _); [rewrite get_insert_ne //|]; by rewrite get_insert_eq. }
  split; [by rewrite get_insert_eq|]. split.
  - rewrite get_insert_ne //. destruct (get_truthy _ _); [by rewrite get_insert_eq|by rewrite get_insert_ne //].
  - intros k H1 H2 H3. rewrite get_insert_ne; [congruence|].
    destruct (get_truthy _ _); [rewrite get_insert_ne; [congruence|]|]; rewrite get_insert_ne //; congruence.
Qed.

(** The kind [service-account] reports is the kind the token's claims make. *)
Lemma account_kind_is_the_actors claims fallback a :
  claims_to_actor claims "azp" "email" fallback = Ok a -> account_kind claims = kind a.
Proof.
  intros Ha. destruct (claims_actor_inv _ _ _ _ _ Ha) as [[(Hk & He & _)|[Hk He]] _]; unfold account_kind.
  - rewrite He Hk. rewrite bool_decide_false; [|done]. by intros ->.
  - rewrite He Hk. rewrite bool_decide_false; [|done]. by intros ->.
Qed.
End Renewal.

(** ** Witnesses: a machine without variables set, and a provider *)

#[local] Instance bare_env : SigningTools := sample_tools ∅ "".
#[local] Instance bare_auth : AuthTools := sample_auth (fun _ => RunError).
#[local] Instance bare_auth_laws : AuthLaws := sample_auth_laws _.
#[local] Instance bare_host : HostTools := sample_host.
#[local] Instance bare_provider : Provider := sample_provider.

Definition machine_disk : disk := Eval vm_compute in (cmd_auth_local (Some "Triage/0.32.0") true false ∅).2.
Lemma machine_login : cmd_auth_local (Some "Triage/0.32.0") true false ∅ = (Ok 0%Z, machine_disk).
Proof. vm_compute. reflexivity. Qed.
Lemma bare_quiet : quiet_environment.
Proof. split; [|split; [|split]]; vm_compute; reflexivity. Qed.
Definition machine_config : dict := Eval vm_compute in (match (load_config machine_disk).1 with Ok c => c | Err _ => ∅ end).
Lemma machine_written :
  machine_disk !! under "/home/ann/.config/traust-ledger" CONFIG_FILE = Some (dumps true (JObj machine_config)).
Proof. vm_compute. reflexivity. Qed.
Lemma machine_loaded c d : load_config machine_disk = (Ok c, d) -> c = machine_config.
Proof.
  assert (config_dir = Ok "/home/ann/.config/traust-ledger") as Hdir by reflexivity.
  assert (readable (under "/home/ann/.config/traust-ledger" CONFIG_FILE) = true) as Hr by reflexivity.
  rewrite (load_config_of _ _ _ Hdir Hr machine_written).
  generalize machine_config. by intros m [= ->].
Qed.
Lemma machine_name name : login_name None machine_config name -> name = "Triage/0.32.0".
Proof.
  assert (get "local_identity" machine_config = JStr "Triage/0.32.0") as Hg by (vm_compute; reflexivity).
  intros [_ [Hn|[_ Hn]]]; [discriminate Hn|]. rewrite Hg in Hn. by injection Hn as <-.
Qed.
Lemma machine_is_machine name : login_is_machine None false false machine_config name.
Proof. right. split; [reflexivity|]. split; [vm_compute; reflexivity|by left]. Qed.
(** A bare [ledger auth local] after it. *)
Definition relogin_disk : disk := Eval vm_compute in (cmd_auth_local None false false machine_disk).2.
Lemma machine_renewal : cmd_auth_local None false false machine_disk = (Ok 0%Z, relogin_disk).
Proof. vm_compute. reflexivity. Qed.
Lemma machine_key_set : key_set_matches "/home/ann/.config/traust-ledger" machine_disk.
Proof. intros text [] _ _ _. vm_compute. reflexivity. Qed.

Lemma machine_remembered : remembers "TRIAGE/0.32.0" machine_disk.
Proof.
  exists "/home/ann/.config/traust-ledger", machine_config. split; [reflexivity|]. split; [exact machine_written|].
  split; [vm_compute; reflexivity|]. exists "Triage/0.32.0". split; [vm_compute; reflexivity|].
  split; vm_compute; reflexivity.
Qed.
Definition logged_out_disk : disk := Eval vm_compute in (cmd_auth_logout true machine_disk).2.
Lemma machine_identity_is_kept_witness : remembers "TRIAGE/0.32.0" logged_out_disk.
Proof.
  apply (machine_identity_is_kept "TRIAGE/0.32.0" machine_disk logged_out_disk); [exact machine_remembered|].
  apply rtc_once. exists 0%nat, (Logout true). split; [exact I|]. vm_compute. reflexivity.
Defined.

(** Two servers, of which the first is the active one and has a session. *)
Definition idp_entry : dict :=
  {["access_token" := JStr "t1"; "refresh_token" := JStr "r1"; "expires_at" := JInt 60; "issuer" := JStr "https://idp";
    "client_id" := JStr "cli"]}.
Definition session_disk : disk := Eval vm_compute in
  {["/home/ann/.config/traust-ledger/config.json" := dumps true (JObj {["active_server" := JStr "https://idp"]});
    "/home/ann/.config/traust-ledger/credentials.json" :=
      dumps true (JObj {["https://idp" := JObj idp_entry; "https://other" := JObj {["access_token" := JStr "t9"]}]})]}.
Definition renewed_disk : disk := Eval vm_compute in (cmd_auth_refresh session_disk).2.
Lemma session_refresh : cmd_auth_refresh session_disk = (Ok 0%Z, renewed_disk).
Proof. vm_compute. reflexivity. Qed.

Lemma other_hosts_keep_credentials_witness :
  stored_entry "https://other" renewed_disk = Some (JObj {["access_token" := JStr "t9"]}).
Proof.
  refine (eq_trans (other_hosts_keep_credentials 0 Refresh session_disk renewed_disk "https://other" _ _ _) _);
    [discriminate|vm_compute; discriminate|cbn [run_session]; f_equal; exact (f_equal snd session_refresh)|].
  vm_compute. reflexivity.
Defined.
Lemma refresh_renews_session_witness : exists m', load_credentials renewed_disk = (Ok (JObj m'), renewed_disk)
  /\ get "client_id" m' = JStr "cli".
Proof.
  destruct (refresh_renews_session "/home/ann/.config/traust-ledger" session_disk renewed_disk)
    as (m & m' & r & issuer & metadata & lifetime & Hm & Hm' & _ & _ & _ & _ & _ & _ & Hk);
    [reflexivity|reflexivity|exact session_refresh|].
  exists m'. split; [exact Hm'|]. refine (eq_trans (Hk "client_id" _ _ _) _); [discriminate..|].
  vm_compute in Hm. injection Hm as <-. vm_compute. reflexivity.
Defined.

(** A token imported without a server is kept under a host that is not the
    active one: no command finds it. *)
Definition imported_disk : disk := Eval vm_compute in
  match cmd_auth_login 0 (Some "/tmp/token") "openid" {["/tmp/token" := "tok"]} with Some (_, d) => d | None => ∅ end.
Lemma imported_token_is_not_found :
  cmd_auth_login 0 (Some "/tmp/token") "openid" {["/tmp/token" := "tok"]} = Some (Ok 0%Z, imported_disk)
  /\ stored_entry "local" imported_disk = Some (JObj {["access_token" := JStr "tok"]})
  /\ (cmd_auth_token imported_disk).1 = Ok (1%Z, JNull).
Proof. split; [vm_compute; reflexivity|]. split; vm_compute; reflexivity. Qed.
