(* ===== verification/Access.v ===== *)
(** * Access to the service

    [service/identity/*.py], the start-up of [service/app.py] and the writing
    routes of [service/routes.py]: from a request's bearer token to the actor a
    handler acts for.  The trusted issuers come from the configuration; a route
    resolves the caller before its handler runs, and the application's exception
    handlers turn what it raises into a status. *)

From S2P Require Import Prelude PyStr Json Sha256 Errors Merkle Restatements Signing Ledger Identity.
From S2P Require Import Contracts Time Disposition Events Gates Records Backend FileBackend.
From S2P Require Import DbBackend Finalize Writer Handlers Service Auth Directory Credentials.
From stdpp Require Import options.

(** ** The OIDC adapter *)

Record TrustEntry `{AuthTools} := { te_issuer : json; te_verifier : TokenVerifier; te_audience : json }.

(** [ActorResolver]: the trusted issuers and the deployment's directory. *)
Record ActorResolver `{AuthTools} := { rs_trust : list TrustEntry; rs_directory : option EmployeeDirectory }.

Definition opt_json (o : option string) : json := from_option JStr JNull o.

Section Adapter.
Context `{SigningTools} `{AuthTools}.

(** [OIDCAdapter(trust)]: the issuers are keys of a dictionary. *)
Definition oidc_adapter (trust : list TrustEntry) : res (list TrustEntry) :=
  _ ← raise_if (bool_decide (length trust = 0)) RuntimeError;
  _ ← mapR (fun t => if truthy (te_issuer t) then hashable (te_issuer t) else Ok JNull) trust;
  Ok trust.

(** One object of LAAS_OIDC_TRUST. *)
Definition trust_item (config : ServiceConfig) (item : json) : io TrustEntry :=
  match item with
  | JObj m =>
      _ ← lift (raise_if (negb (get_truthy "jwks_url" m)) RuntimeError);
      v ← token_verifier {| jwks_url := get "jwks_url" m; jwks_path := None; vc_issuer := get "issuer" m;
                            vc_audience := get "audience" m; machine_claim := oidc_machine_claim config;
                            identity_claim := oidc_identity_claim config |};
      mret {| te_issuer := get "issuer" m; te_verifier := v; te_audience := get "audience" m |}
  | _ => lift (Err RuntimeError)
  end.
Fixpoint trust_items (config : ServiceConfig) (l : list json) : io (list TrustEntry) :=
  match l with
  | [] => mret []
  | item :: l' => t ← trust_item config item; ts ← trust_items config l'; mret (t :: ts)
  end.

Definition from_config (config : ServiceConfig) : io (list TrustEntry) :=
  let raw := strip (oidc_trust config) in
  if str_truthy raw then
    parsed ← lift (of_option (loads raw) RuntimeError);
    match parsed with
    | JArr ((_ :: _) as l) =>
        trust ← trust_items config l;
        _ ← lift (raise_if (bool_decide (1 < length trust) && existsb (fun t => negb (truthy (te_issuer t))) trust)
                    RuntimeError);
        lift (oidc_adapter trust)
    | _ => lift (Err RuntimeError)
    end
  else
    _ ← lift (raise_if (negb (opt_truthy (oidc_jwks_url config))) RuntimeError);
    v ← token_verifier {| jwks_url := opt_json (oidc_jwks_url config); jwks_path := None;
                          vc_issuer := opt_json (config_oidc_issuer config);
                          vc_audience := opt_json (oidc_audience config);
                          machine_claim := oidc_machine_claim config;
                          identity_claim := oidc_identity_claim config |};
    lift (oidc_adapter [{| te_issuer := opt_json (config_oidc_issuer config); te_verifier := v;
                           te_audience := opt_json (oidc_audience config) |}]).

(** [_by_issuer.get(iss)]: a later entry replaces an earlier one. *)
Definition by_issuer (trust : list TrustEntry) (iss : json) : option TrustEntry :=
  last (List.filter (fun t => truthy (te_issuer t) && py_eqb (te_issuer t) iss) trust).

Definition entry_for_token (trust : list TrustEntry) (token : string) : res TrustEntry :=
  let routed :=
    unverified ← of_option (decode_unverified token) (Service InvalidAuthError);
    iss ← hashable (get "iss" unverified);
    of_option (by_issuer trust iss) (Service InvalidAuthError) in
  match trust with
  | [t] => if is_null (te_issuer t) then Ok t else routed
  | _ => routed
  end.

Definition verify_token (trust : list TrustEntry) (token : string) : res LayerActor :=
  entry ← entry_for_token trust token;
  match verify (te_verifier entry) token with
  | Err TokenVerificationError => Err (Service InvalidAuthError)
  | r => r
  end.

(** [extract_bearer_token], of the request's authorization header. *)
Definition extract_bearer_token (authorization : option string) : res string :=
  let authorization := default "" authorization in
  _ ← raise_if (negb (startswith (lower authorization) "bearer ")) (Service MissingAuthError);
  Ok (of_chars (drop 7 (chars authorization))).

(** ** The resolver *)

Definition resolve (resolver : ActorResolver) (authorization : option string) : res LayerActor :=
  token ← extract_bearer_token authorization;
  actor ← verify_token (rs_trust resolver) token;
  match apply_directory actor (rs_directory resolver) with
  | Err (Service DirectoryRefusedError) => Err (Service InvalidAuthError)
  | r => r
  end.

(** [registry.build_provider]: one provider is registered. *)
Definition build_provider (config : ServiceConfig) : io (list TrustEntry) :=
  if String.eqb (config_identity_provider config) "oidc" then from_config config else lift (Err RuntimeError).

Definition build_resolver (config : ServiceConfig) : io ActorResolver :=
  trust ← build_provider config;
  command ← lift load_directory;
  mret {| rs_trust := trust; rs_directory := script_is_active <$> command |}.

(** [_validate_config]. *)
Definition validate_config (config : ServiceConfig) : res unit :=
  raise_if (signing_required config && negb (opt_truthy (signing_key_path config))
            && negb (bool_decide (signing_method config ∈ ["sigstore-oidc"; "identity"]))) RuntimeError.
(** [create_app], of the parts that may refuse to start. *)
Definition create_app (config : ServiceConfig) : io ActorResolver :=
  _ ← lift (validate_config config); build_resolver config.
End Adapter.

(** ** The routes that write *)

Inductive write_request :=
| PostEvent (envelope : EventEnvelope)
| PostSubmit (layer_id : string) (body : BatchSubmitRequest)
| PostRestate (layer_id : string) (restatement : dict) (rationale : string) (recorded_at finding_ref : option string)
| PostResolve (layer_id key decision note : string)
| PostInitialize (layer_id : string) (shell : dict) (product_repo_id : option string)
| PostSign (layer_id : string) (rekor : bool)
| PostStamp (layer_id : string) (fingerprints : gmap string string).

Section Routes.
Context `{HashFn} `{SigningTools} `{Contracts} `{AuthTools}.
Context (get_schema : res (option (dict -> bool))) (now : Z) (RestatementTarget : list string) (now_text : string).
Context {S : Type} `{Backend S}.

(** A handler's run for the caller the resolver found. *)
Definition route (config : ServiceConfig) (actor : LayerActor) (request : write_request) (s : S) : res S :=
  match request with
  | PostEvent envelope => '(_, s') ← submit_event get_schema now envelope actor config s; Ok s'
  | PostSubmit layer_id body => '(_, s') ← submit_batch get_schema layer_id body actor config s; Ok s'
  | PostRestate layer_id restatement rationale recorded_at finding_ref =>
      '(_, s') ← post_restatement get_schema now RestatementTarget layer_id restatement rationale recorded_at
                   finding_ref now_text actor config s; Ok s'
  | PostResolve layer_id key decision note => resolve_item get_schema layer_id key decision note config s
  | PostInitialize layer_id shell owner => initialize_layer layer_id shell config owner s
  | PostSign layer_id rekor => '(_, s') ← sign_layer_endpoint layer_id rekor config s; Ok s'
  | PostStamp layer_id fingerprints => '(_, s') ← stamp_layer_endpoint layer_id fingerprints config s; Ok s'
  end.

(** The application's answer to a request: its status and the store after it. *)
Definition respond (config : ServiceConfig) (resolver : ActorResolver) (authorization : option string)
    (request : write_request) (s : S) : Z * S :=
  match (actor ← resolve resolver authorization; route config actor request s) with
  | Ok s' => (200%Z, s')
  | Err e => (status_code e, s)
  end.
End Routes.

(** ** Who a request acts for *)

Section Access.
Context `{HF : HashFn} `{HT : SigningTools} `{HC : Contracts} `{HL : !ContractLaws} `{HA : AuthTools} `{HAL : !AuthLaws}.
Set Default Proof Using "Type".

(** The configuration trusts the keys of an endpoint, for an issuer. *)
Definition trusts (config : ServiceConfig) (url issuer : json) : Prop :=
  truthy url = true
  /\ ((strip (oidc_trust config) = "" /\ url = opt_json (oidc_jwks_url config)
       /\ issuer = opt_json (config_oidc_issuer config))
      \/ exists l m, loads (strip (oidc_trust config)) = Some (JArr l) /\ JObj m ∈ l
         /\ url = get "jwks_url" m /\ issuer = get "issuer" m).

(** An entry of the adapter: one endpoint the configuration trusts. *)
Definition entry_ok (config : ServiceConfig) (t : TrustEntry) : Prop :=
  exists url, trusts config url (te_issuer t) /\ tv_local_keys (te_verifier t) = None
    /\ tv_client (te_verifier t) = Some url
    /\ vc_issuer (tv_config (te_verifier t)) = te_issuer t
    /\ machine_claim (tv_config (te_verifier t)) = oidc_machine_claim config
    /\ identity_claim (tv_config (te_verifier t)) = oidc_identity_claim config.

Lemma trust_items_ok config items l d ts d' : loads (strip (oidc_trust config)) = Some (JArr items) -> l ⊆ items ->
  trust_items config l d = (Ok ts, d') -> Forall (entry_ok config) ts.
Proof.
  intros Hload. revert ts d d'. induction l as [|item l IH]; intros ts d d' Hsub; cbn [trust_items].
  - by intros [= <- _].
  - intros Ht. inv_io Ht as t d1 Hi. inv_io Ht as ts' d2 Hts. injection Ht as <- _. constructor;
      [|by eapply IH; [intros x Hx; apply Hsub; by right|exact Hts]].
    unfold trust_item in Hi. destruct item as [| | | | |m]; try done. inv_io Hi as u d3 Hu. inv_io Hi as v d4 Hv.
    injection Hi as <- _. apply lift_ok in Hu as [Hu%raise_if_ok%negb_false_iff _].
    apply token_verifier_inv in Hv as (Hc & Hcl & Hk). cbn in Hcl, Hk. unfold get_truthy in Hu. rewrite Hu in Hcl.
    exists (get "jwks_url" m). cbn. rewrite Hc. cbn. split; [|split_and!; [by apply Hk|done..]].
    split; [done|]. right. exists items, m. split; [done|]. split; [apply Hsub; by left|done].
Qed.
Lemma oidc_adapter_same trust trust' : oidc_adapter trust = Ok trust' -> trust' = trust.
Proof. unfold oidc_adapter. intros Ha. do 2 inv_bind Ha. by injection Ha as <-. Qed.

Lemma from_config_ok config d ts d' : from_config config d = (Ok ts, d') -> Forall (entry_ok config) ts.
Proof.
  unfold from_config. destruct (str_truthy _) eqn:Hraw; intros Hf.
  - inv_io Hf as parsed d1 Hp. apply lift_ok in Hp as [Hp ->]. destruct parsed as [| | | |[|i l]|]; try done.
    destruct (loads _) eqn:Hl; [|done]. injection Hp as ->.
    inv_io Hf as trust d2 Ht. inv_io Hf as u d3 Hu. apply lift_ok in Hf as [->%oidc_adapter_same _].
    by refine (trust_items_ok _ _ _ _ _ _ Hl _ Ht).
  - inv_io Hf as u d1 Hu. apply lift_ok in Hu as [Hu%raise_if_ok%negb_false_iff _]. inv_io Hf as v d2 Hv.
    apply lift_ok in Hf as [->%oidc_adapter_same _]. apply token_verifier_inv in Hv as (Hc & Hcl & Hk).
    cbn in Hcl, Hk. constructor; [|done]. assert (truthy (opt_json (oidc_jwks_url config)) = true) as Ht.
    { destruct (oidc_jwks_url config); done. }
    rewrite Ht in Hcl. exists (opt_json (oidc_jwks_url config)). cbn. rewrite Hc. cbn. split; [|split_and!; [by apply Hk|done..]].
    split; [done|]. left. split; [|done]. apply negb_false_iff, String.eqb_eq in Hraw. done.
Qed.

(** The resolver a configuration starts with. *)
Definition resolver_ok (config : ServiceConfig) (resolver : ActorResolver) : Prop :=
  Forall (entry_ok config) (rs_trust resolver)
  /\ exists command, load_directory = Ok command /\ rs_directory resolver = script_is_active <$> command.
Lemma create_app_ok config d resolver d' : create_app config d = (Ok resolver, d') -> resolver_ok config resolver.
Proof.
  unfold create_app. intros Hc. inv_io Hc as u d1 Hu. unfold build_resolver in Hc.
  inv_io Hc as trust d2 Ht. inv_io Hc as command d3 Hcm. apply lift_ok in Hcm as [Hcm _]. injection Hc as <- _.
  split; [|by exists command]. unfold build_provider in Ht. destruct (String.eqb _ _); [|done].
  exact (from_config_ok _ _ _ _ Ht).
Qed.

(** The caller of a request, by its authorization header: the bearer token
    carries a valid signature of a key that was fetched for it from an endpoint
    the configuration trusts, its issuer is the one the endpoint is trusted for,
    and the actor is what its claims say. A human is named by the identity claim
    and passed the deployment's directory; an actor counts as verified only if
    the issuer is not [local] or the deployment opted in. *)
Definition authenticated (config : ServiceConfig) (authorization : option string) (a : LayerActor) : Prop :=
  exists token url issuer key claims,
    extract_bearer_token authorization = Ok token /\ trusts config url issuer
    /\ fetch_key url token = Ok key /\ signed_by key token = true /\ decode_unverified token = Some claims
    /\ (issuer <> JNull -> py_eqb issuer (get "iss" claims) = true)
    /\ ((kind a = "human" /\ get_truthy (oidc_identity_claim config) claims = true
         /\ identity a = Some (strip (lower (claim_text (get (oidc_identity_claim config) claims))))
         /\ forall command, load_directory = Ok (Some command) ->
              script_is_active command (default "" (identity a)) = STATUS_ACTIVE)
        \/ (kind a = "machine" /\ get_truthy (oidc_identity_claim config) claims = false))
    /\ (is_verified a = true -> identity_issuer a = Some LOCAL_ISSUER -> local_identity_trusted = true).

Lemma entry_for_token_inv trust token t : entry_for_token trust token = Ok t ->
  t ∈ trust /\ (te_issuer t = JNull
                \/ exists claims, decode_unverified token = Some claims /\ py_eqb (te_issuer t) (get "iss" claims) = true).
Proof.
  unfold entry_for_token. set (routed := mbind _ _). assert (routed = Ok t -> t ∈ trust /\
    exists claims, decode_unverified token = Some claims /\ py_eqb (te_issuer t) (get "iss" claims) = true) as Hr.
  { unfold routed. intros Hr. inv_bind Hr as [claims|] Hc. inv_bind Hr as [iss|] Hi.
    destruct (decode_unverified token) as [c|]; [|done]. injection Hc as ->.
    assert (iss = get "iss" claims) as -> by (unfold hashable in Hi; destruct (get "iss" claims); congruence).
    unfold by_issuer in Hr. destruct (last _) as [t'|] eqn:Hl; [|done]. injection Hr as ->.
    apply last_Some_elem_of, list_elem_of_In, filter_In in Hl as [Hin [_ Heq]%andb_true_iff].
    split; [by apply list_elem_of_In|by exists claims]. }
  destruct trust as [|t0 [|]]; try (intros [Hin Hc]%Hr; by auto).
  destruct (is_null _) eqn:E; [|intros [Hin Hc]%Hr; by auto]. intros [= ->]. split; [by left|].
  left. by destruct (te_issuer t).
Qed.

Lemma resolve_authenticated config resolver authorization a : resolver_ok config resolver ->
  resolve resolver authorization = Ok a -> authenticated config authorization a.
Proof using HAL.
  intros [Hok (command & Hcmd & Hdir)]. unfold resolve. intros Hr. inv_bind Hr as [token|] Htok.
  inv_bind Hr as [base|] Hb. unfold verify_token in Hb. inv_bind Hb as [t|] Ht.
  apply entry_for_token_inv in Ht as [Hin Hiss]. rewrite Forall_forall in Hok.
  destruct (Hok t Hin) as (url & Hurl & Hnk & Hcl & _ & Hmc & Hic).
  assert (verify (te_verifier t) token = Ok base) as Hv.
  { revert Hb. repeat case_match; congruence. }
  apply verify_inv in Hv as (key & claims & Hkey & Hsig & Hdec & _ & Ha).
  unfold resolve_signing_key in Hkey. rewrite Hnk Hcl in Hkey.
  assert (fetch_key url token = Ok key) as Hf by (unfold of_jwt in Hkey; destruct (fetch_key _ _); congruence).
  rewrite Hmc Hic in Ha. apply claims_actor_inv in Ha as (Hshape & [b Hb2] & Hissuer & Hloc).
  assert (apply_directory base (rs_directory resolver) = Ok a) as Happ.
  { revert Hr. repeat case_match; congruence. }
  destruct (apply_directory_keeps _ _ _ Happ) as (Hk & Hid & Hver & Hld & Hi & _).
  exists token, url, (te_issuer t), key, claims.
  split; [done|]. split; [done|]. split; [done|]. split; [done|]. split; [done|]. split.
  { intros Hne. destruct Hiss as [|(c & Hc & Heq)]; [done|]. by assert (c = claims) as -> by congruence. }
  split.
  - destruct Hshape as [(Hh & Ht & Hname & Hne)|[Hm Hf2]]; [left|right; by rewrite Hk].
    rewrite Hk Hid. split; [done|]. split; [done|]. split; [done|]. intros cmd Hload.
    assert (command = Some cmd) as -> by congruence. rewrite Hdir in Happ.
    destruct (apply_directory_person _ _ _ _ Happ Hh Hname Hne) as [Hact _]. by rewrite Hname.
  - unfold is_verified. rewrite Hver Hi Hb2. intros ->. by apply Hloc.
Qed.
End Access.

Section Requests.
Context `{HF : HashFn} `{HT : SigningTools} `{HC : Contracts} `{HL : !ContractLaws} `{HA : AuthTools} `{HAL : !AuthLaws}.
Context {S : Type} `{HB : !Backend S} `{HBL : !BackendLaws S}.
Context (get_schema : res (option (dict -> bool))) (now : Z) (RestatementTarget : list string) (now_text : string).
Set Default Proof Using "Type".

Notation answer_to := (respond get_schema now RestatementTarget now_text).
Notation routed := (route get_schema now RestatementTarget now_text).

Lemma route_step config a request s s' : routed config a request s = Ok s' ->
  service_step get_schema now RestatementTarget s s'.
Proof.
  destruct request; cbn; intros Hr.
  - inv_bind Hr as [[r s1]|] Hh. injection Hr as <-. eapply post_event, Hh.
  - inv_bind Hr as [[r s1]|] Hh. injection Hr as <-. eapply post_submit, Hh.
  - inv_bind Hr as [[r s1]|] Hh. injection Hr as <-. eapply post_restate, Hh.
  - eapply post_resolve, Hr.
  - eapply post_initialize, Hr.
  - inv_bind Hr as [[r s1]|] Hh. injection Hr as <-. eapply post_sign, Hh.
  - inv_bind Hr as [[r s1]|] Hh. injection Hr as <-. eapply post_stamp, Hh.
Qed.

Lemma status_not_200 e : status_code e <> 200%Z.
Proof. unfold status_code. repeat case_match; lia. Qed.

Lemma of_jwt_error {A} (r : result jwt_error A) e : of_jwt r = Err e -> e = TokenVerificationError.
Proof. destruct r; cbn; congruence. Qed.
Lemma verify_error v token e : verify v token = Err e -> e = TokenVerificationError.
Proof.
  unfold verify. destruct (resolve_signing_key v token) as [key|e0] eqn:Hk; cbn [mbind result_bind].
  - destruct (of_jwt _) as [claims|e0] eqn:Hc; cbn [mbind result_bind].
    + unfold claims_to_actor. destruct (claimed_identity _ _ _) as [[kd id]|e0] eqn:Hi; [done|].
      cbn. intros [= <-]. unfold claimed_identity in Hi. destruct (_ && _); [done|].
      destruct (truthy _); [|destruct (get_truthy _ _); congruence].
      unfold raise_if in Hi. destruct (negb _); cbn in Hi; congruence.
    + intros [= <-]. by apply of_jwt_error in Hc.
  - intros [= <-]. unfold resolve_signing_key in Hk.
    destruct (tv_local_keys v) as [[|k ks]|], (tv_client v); try congruence; by apply of_jwt_error in Hk.
Qed.

(** The issuer a token claims cannot be a dictionary's key. *)
Definition odd_issuer (authorization : option string) : Prop :=
  exists token claims, extract_bearer_token authorization = Ok token
    /\ decode_unverified token = Some claims /\ hashable (get "iss" claims) = Err TypeError.
Lemma hashable_error v e : hashable v = Err e -> e = TypeError.
Proof. by destruct v; cbn; intros [=]. Qed.

Lemma resolve_error resolver authorization e : resolve resolver authorization = Err e ->
  status_code e = 401%Z \/ (status_code e = 500%Z /\ odd_issuer authorization).
Proof.
  unfold resolve. destruct (extract_bearer_token authorization) as [token|e'] eqn:Htok; cbn [mbind result_bind].
  2: { unfold extract_bearer_token, raise_if in Htok. case_match; [|done]. injection Htok as <-. intros [= <-]. by left. }
  destruct (verify_token _ token) as [a|e'] eqn:Hv; cbn [mbind result_bind].
  - intros Hd. left. destruct (apply_directory _ _) as [|e'] eqn:Ha; [done|]. unfold apply_directory in Ha.
    destruct (rs_directory resolver); [|done]. destruct (negb _); [done|]. destruct (negb _); [done|].
    unfold raise_if in Ha. destruct (negb _); [|done]. injection Ha as <-. by injection Hd as <-.
  - intros [= <-]. unfold verify_token in Hv. destruct (entry_for_token _ token) as [t|e0] eqn:Ht; cbn [mbind result_bind] in Hv.
    + destruct (verify _ _) as [|e1] eqn:Hver; [done|]. apply verify_error in Hver as ->. injection Hv as <-. by left.
    + injection Hv as <-. unfold entry_for_token in Ht. set (routed' := mbind _ _) in Ht.
      assert (routed' = Err e0) as Hr by (destruct (rs_trust resolver) as [|? [|]]; [..|done]; [done|by destruct (is_null _)]).
      clear Ht. subst routed'. destruct (decode_unverified token) as [claims|] eqn:Hc; cbn [of_option mbind result_bind] in Hr;
        [|injection Hr as <-; by left].
      destruct (hashable _) as [iss|e1] eqn:Hh; cbn [mbind result_bind] in Hr.
      * destruct (by_issuer _ _); [done|]. injection Hr as <-. by left.
      * injection Hr as <-. pose proof Hh as He. apply hashable_error in He as ->. right. split; [done|]. by exists token, claims.
Qed.

(** What a writing request can do: only an authenticated caller changes the
    store, and then no layer's history is lost. *)
Lemma write_requests_authenticated config d resolver d' authorization request s code s' :
  good s -> create_app config d = (Ok resolver, d') ->
  answer_to config resolver authorization request s = (code, s') ->
  (code = 200%Z /\ exists a, authenticated config authorization a /\ routed config a request s = Ok s'
     /\ keeps_history s s')
  \/ (code <> 200%Z /\ s' = s
      /\ ((forall a, resolve resolver authorization <> Ok a) -> code = 401%Z \/ (code = 500%Z /\ odd_issuer authorization))).
Proof using HAL HBL.
  intros Hg Happ%create_app_ok. unfold respond. destruct (resolve resolver authorization) as [a|e] eqn:Hr.
  - cbn [mbind result_bind]. destruct (routed config a request s) as [s1|e] eqn:Hroute; intros [= <- <-].
    + left. split; [done|]. exists a. split; [exact (resolve_authenticated _ _ _ _ Happ Hr)|]. split; [done|].
      exact (service_step_history _ _ _ _ _ Hg (route_step _ _ _ _ _ Hroute)).
    + right. split; [apply status_not_200|]. split; [done|]. intros Hno. by destruct (Hno a).
  - cbn [mbind result_bind]. intros [= <- <-]. right. split; [apply status_not_200|]. split; [done|].
    intros _. exact (resolve_error _ _ _ Hr).
Qed.

End Requests.

(** ** Witnesses: the file backend, behind a trusted issuer *)

#[local] Instance access_env : SigningTools := sample_tools ∅ (dumps true sample_bundle).
#[local] Instance access_auth : AuthTools := sample_auth (fun _ => RunError).
#[local] Instance access_auth_laws : AuthLaws := sample_auth_laws _.
#[local] Instance access_registry : StorageRegistry := {| registered := fun o => bool_decide (o = "repo-1"); collates := String.leb |}.

Definition idp_config : ServiceConfig := {|
  backend_type := "file"; database_url := None; data_dir := "/d"; signing_required := false;
  signing_key_path := None; signing_method := "cosign"; admin_identities := [];
  restatement_min_approvers := 0; oidc_issuer_url := None; config_oidc_client_id := None;
  config_identity_provider := "oidc"; config_oidc_issuer := Some "https://idp"; oidc_audience := None;
  oidc_jwks_url := Some "https://idp/keys"; oidc_machine_claim := "azp"; oidc_identity_claim := "email";
  oidc_trust := "" |}.
Definition no_resolver : ActorResolver := {| rs_trust := []; rs_directory := None |}.
Definition idp_resolver : ActorResolver := Eval vm_compute in
  match create_app idp_config ∅ with (Ok r, _) => r | _ => no_resolver end.
Definition bearer (claims : dict) : option string :=
  Some ("Bearer " +:+ dumps true (JArr [JStr "k1"; JObj claims])).
Definition ask (claims : dict) (request : write_request) : Z * files :=
  respond no_schema sample_now sample_targets "now" idp_config idp_resolver (bearer claims) request sample_files.
Definition idp_answered : files := Eval vm_compute in (ask idp_claims (PostEvent sample_envelope)).2.
Lemma idp_countersign : ask idp_claims (PostEvent sample_envelope) = (200%Z, idp_answered).
Proof. vm_compute. reflexivity. Qed.

Lemma idp_starts : create_app idp_config ∅ = (Ok idp_resolver, ∅).
Proof. vm_cast_no_check (@eq_refl (res ActorResolver * disk) (Ok idp_resolver, ∅)). Qed.


Definition odd_claims : dict := {["iss" := JArr [JStr "https://idp"]; "email" := JStr "ann"]}.
(** A token whose issuer is a list is a server error, not a refusal. *)
Lemma odd_issuer_is_server_error :
  (ask odd_claims (PostSign "L" false)).1 = 500%Z /\ (ask {["iss" := JStr "https://other"]} (PostSign "L" false)).1 = 401%Z.
Proof. split; vm_compute; reflexivity. Qed.
