(* ===== verification/Reading.v ===== *)
(** * The routes that read

    [service/routes.py], [service/auth.py] and [handlers/verify_handler.py]: the
    GET routes, the fingerprint route and [whoami].  Every one but the health
    check resolves its caller first; the bounds the route declares on its query
    parameters are checked next, and only then does the handler read. *)

From S2P Require Import Prelude PyStr Json Sha256 Errors Merkle Restatements Signing Ledger Identity.
From S2P Require Import Contracts Time Disposition Events Gates Records Backend FileBackend.
From S2P Require Import DbBackend Query Finalize Reads Writer Handlers Service Auth Directory Credentials Access.
From stdpp Require Import options.

(** [PRODUCT_REPO_ID_PATTERN]: five groups of lower-case hexadecimal digits. *)
Definition is_lower_hex (c : ascii) : bool := is_digit c || in_range 97 102 c.
Definition hex_group (n : nat) (s : string) : bool :=
  Nat.eqb (String.length s) n && forallb is_lower_hex (chars s).
Definition product_repo_id_ok (s : string) : bool :=
  match split "-" s with
  | [a; b; c; d; e] => hex_group 8 a && hex_group 4 b && hex_group 4 c && hex_group 4 d && hex_group 12 e
  | _ => false
  end.

Inductive read_request :=
| GetLayer (layer_id : string)
| GetVerify (layer_id : string) (check_signatures : bool)
| GetFindings (layer_id : string)
| GetCumulative (layer_id : string)
| GetEvents (layer_id : string) (finding_ref source_type : option string) (limit offset : Z)
| GetAllFindings (cursor : option string) (limit : Z) (since_epoch : option Z)
| PostFingerprint (findings : list dict) (repository : option string)
| GetLayers (product_repo_id : option string) (filter_args : list string) (include_reviews : bool)
| GetWhoami.

Inductive reply :=
| ALayer (layer : dict)
| AVerify (report : verify_report)
| AFindings (findings : list FindingDisposition) (summary : FindingsSummary)
| AEvents (page : EventsResponse)
| ABulk (page : BulkFindingsResponse)
| AFingerprints (findings : list dict) (stamped_count : Z)
| ALayers (layers : list LayerEntry)
| AActor (actor : LayerActor).

(** The [Query] declarations of the routes: [limit] is between 1 and 1000,
    [offset] is not negative, the owner has the form of an identifier. *)
Definition page_limit_ok (limit : Z) : bool := (1 <=? limit)%Z && (limit <=? 1000)%Z.
Definition query_ok (request : read_request) : bool :=
  match request with
  | GetEvents _ _ _ limit offset => page_limit_ok limit && (0 <=? offset)%Z
  | GetAllFindings _ limit _ => page_limit_ok limit
  | GetLayers (Some owner) _ _ => product_repo_id_ok owner
  | _ => true
  end.

(** [GET /healthz], for anyone. *)
Definition STATUS_HEALTHY : string := "healthy".
Definition healthz : Z * string := (200%Z, STATUS_HEALTHY).

Section Reading.
Context `{HashFn} `{SigningTools} `{Contracts} `{AuthTools} `{DispositionModel} {S : Type} `{Backend S} `{Listing S}.
(** [query_layers] of the backend, and the clock's text. *)
Context (query_layers : S -> list Filter -> bool -> res (list LayerEntry)) (now : string).

Definition get_layer (layer_id : string) (config : ServiceConfig) (s : S) : res dict := load_layer layer_id config s.

(** A deployment that requires signing always has signatures checked. *)
Definition verify_layer_endpoint (layer_id : string) (check_signatures : bool) (config : ServiceConfig) (s : S)
  : res verify_report :=
  layer ← load_layer layer_id config s;
  let sig_check := check_signatures || signing_required config in
  verify_layer sig_check layer.

Definition get_findings (layer_id : string) (config : ServiceConfig) (s : S)
  : res (list FindingDisposition * FindingsSummary) := resolve_findings now layer_id config s.
Definition get_cumulative (layer_id : string) (config : ServiceConfig) (s : S)
  : res (list FindingDisposition * FindingsSummary) := resolve_findings now layer_id config s.
Definition get_layer_events (layer_id : string) (finding_ref source_type : option string) (limit offset : Z)
    (config : ServiceConfig) (s : S) : res EventsResponse :=
  query_layer_events layer_id config finding_ref source_type limit offset s.
Definition get_all_findings (cursor : option string) (limit : Z) (since_epoch : option Z)
    (config : ServiceConfig) (s : S) : res BulkFindingsResponse :=
  resolve_all_findings now config cursor limit since_epoch s.
Definition post_fingerprint (findings : list dict) (repository : option string) : res (list dict * Z) :=
  compute_fingerprints findings repository.
Definition whoami_endpoint (actor : LayerActor) : LayerActor := actor.

(** A handler's run for the caller that was resolved. *)
Definition read_route (config : ServiceConfig) (actor : LayerActor) (request : read_request) (s : S) : res reply :=
  match request with
  | GetLayer layer_id => layer ← get_layer layer_id config s; Ok (ALayer layer)
  | GetVerify layer_id check => report ← verify_layer_endpoint layer_id check config s; Ok (AVerify report)
  | GetFindings layer_id => '(findings, summary) ← get_findings layer_id config s; Ok (AFindings findings summary)
  | GetCumulative layer_id => '(findings, summary) ← get_cumulative layer_id config s; Ok (AFindings findings summary)
  | GetEvents layer_id finding_ref source_type limit offset =>
      page ← get_layer_events layer_id finding_ref source_type limit offset config s; Ok (AEvents page)
  | GetAllFindings cursor limit since_epoch =>
      page ← get_all_findings cursor limit since_epoch config s; Ok (ABulk page)
  | PostFingerprint findings repository =>
      '(stamped, n) ← post_fingerprint findings repository; Ok (AFingerprints stamped n)
  | GetLayers product_repo_id filter_args include_reviews =>
      layers ← list_layers (query_layers s) product_repo_id filter_args include_reviews; Ok (ALayers layers)
  | GetWhoami => Ok (AActor (whoami_endpoint actor))
  end.

(** The application's answer: the caller is resolved before the parameters are
    looked at; a parameter out of its bounds is a 422. *)
Definition respond_read (config : ServiceConfig) (resolver : ActorResolver) (authorization : option string)
    (request : read_request) (s : S) : Z * option reply :=
  match resolve resolver authorization with
  | Err e => (status_code e, None)
  | Ok actor =>
      if negb (query_ok request) then (422%Z, None)
      else match read_route config actor request s with
           | Ok a => (200%Z, Some a)
           | Err e => (status_code e, None)
           end
  end.
End Reading.

(** ** What a reader is told *)

Section ReadAccess.
Context `{HF : HashFn} `{HT : SigningTools} `{HC : Contracts} `{HL : !ContractLaws} `{HA : AuthTools} `{HAL : !AuthLaws}.
Context `{HD : DispositionModel} {S : Type} `{HB : !Backend S} `{HBL : !BackendLaws S} `{HLs : !Listing S}.
Context (query_layers : S -> list Filter -> bool -> res (list LayerEntry)) (now_text : string).
Set Default Proof Using "Type".

(** An answer to a request for a page: the request asked for one to a thousand
    entries, and the page holds no more than it asked for. *)
Definition within_page (r : read_request) (x : reply) : Prop :=
  match r with
  | GetEvents _ _ _ limit offset =>
      (1 <= limit <= 1000)%Z /\ (0 <= offset)%Z
      /\ exists page, x = AEvents page /\ (Z.of_nat (length (ev_events page)) <= limit)%Z
  | GetAllFindings _ limit _ =>
      (1 <= limit <= 1000)%Z /\ exists page, x = ABulk page /\ (Z.of_nat (length (br_layers page)) <= limit)%Z
  | _ => True
  end.

Lemma py_slice_length {A} a n (l : list A) : (0 <= a)%Z -> (0 <= n)%Z -> (Z.of_nat (length (py_slice a (a + n) l)) <= n)%Z.
Proof.
  intros Ha Hn. unfold py_slice, slice_index. rewrite length_take length_drop.
  destruct (Z.ltb_spec a 0); [lia|]. destruct (Z.ltb_spec (a + n) 0); lia.
Qed.

Lemma scan_layers_length visit limit ids : forall acc out, scan_layers visit limit ids acc = Ok out ->
  (Z.of_nat (length acc) <= limit)%Z -> (Z.of_nat (length out) <= limit)%Z.
Proof.
  induction ids as [|id ids IH]; intros acc out; cbn [scan_layers]; [by intros [= <-]|].
  destruct (Z.leb_spec limit (Z.of_nat (length acc))) as [Hfull|Hroom]; [by intros [= <-]|].
  intros Hs Hacc. inv_bind Hs as [entry|] He. apply (IH _ _ Hs). rewrite length_app. destruct entry; cbn; lia.
Qed.

Lemma page_of_size visit limit ids page : page_of visit limit ids = Ok page -> (0 <= limit)%Z ->
  (Z.of_nat (length (br_layers page)) <= limit)%Z.
Proof.
  unfold page_of. intros Hp Hl. inv_bind Hp as [layers|] Hs. injection Hp as <-.
  exact (scan_layers_length _ _ _ _ _ Hs Hl).
Qed.

Lemma read_route_page config actor r s x : query_ok r = true ->
  read_route query_layers now_text config actor r s = Ok x -> within_page r x.
Proof.
  assert (forall limit, page_limit_ok limit = true -> (1 <= limit <= 1000)%Z) as Hlimit
    by (intros limit [??]%andb_true_iff; lia).
  destruct r; cbn; intros Hq Hr; try done.
  - inv_bind Hr as [page|] Hp. injection Hr as <-. apply andb_true_iff in Hq as [Hl%Hlimit ?].
    split; [done|]. split; [lia|]. exists page. split; [done|].
    unfold get_layer_events, query_layer_events in Hp. inv_bind Hp as [layer|] Hload. destruct (get "events" layer); try done.
    injection Hp as <-. apply py_slice_length; lia.
  - inv_bind Hr as [page|] Hp. injection Hr as <-. apply Hlimit in Hq. split; [done|]. exists page. split; [done|].
    apply page_of_size in Hp; lia.
Qed.
End ReadAccess.

(** ** Every request *)

Inductive request := Writing (w : write_request) | Asking (r : read_request).

Section Requests.
Context `{HF : HashFn} `{HT : SigningTools} `{HC : Contracts} `{HL : !ContractLaws} `{HA : AuthTools} `{HAL : !AuthLaws}.
Context `{HD : DispositionModel} {S : Type} `{HB : !Backend S} `{HBL : !BackendLaws S} `{HLs : !Listing S}.
Context (get_schema : res (option (dict -> bool))) (now : Z) (RestatementTarget : list string) (now_text : string).
Context (query_layers : S -> list Filter -> bool -> res (list LayerEntry)).
Set Default Proof Using "Type".

(** The application on either kind of request: status, answer, and the store
    after it; a writing route's body is not kept. *)
Definition serve (config : ServiceConfig) (resolver : ActorResolver) (authorization : option string) (req : request) (s : S)
  : Z * option reply * S :=
  match req with
  | Writing w =>
      let '(code, s') := respond get_schema now RestatementTarget now_text config resolver authorization w s in
      (code, None, s')
  | Asking r =>
      let '(code, a) := respond_read query_layers now_text config resolver authorization r s in (code, a, s)
  end.

(** What a request was granted, to the caller [a]. *)
Definition granted (config : ServiceConfig) (a : LayerActor) (req : request) (ans : option reply) (s s' : S) : Prop :=
  match req with
  | Writing w => route get_schema now RestatementTarget now_text config a w s = Ok s' /\ keeps_history s s'
  | Asking r => exists x, ans = Some x /\ read_route query_layers now_text config a r s = Ok x /\ within_page r x
  end.


(** ** Read your writes *)

Lemma submit_event_appended envelope actor config s r s' :
  submit_event get_schema now envelope actor config s = Ok (r, s') ->
  exists layer_id key payload before id root,
    require_layer_id (envelope_event envelope) = Ok layer_id
    /\ layer_key opaque_layer_ids (data_dir config) layer_id = Ok key
    /\ append_event_finalized get_schema key payload (Some (finalize_layer config)) (Some before) s = Ok ((id, root), s')
    /\ (str_truthy id = true -> response_id r = id).
Proof.
  unfold submit_event. intros Hs. inv_bind Hs. inv_bind Hs as [kd|] Hk. inv_bind Hs as [[[id root] s1]|] Ha.
  injection Hs as <- <-. apply as_service_error_ok in Ha. inv_bind Ha. inv_bind Ha as [lid|] Hlid.
  do 5 inv_bind Ha. inv_bind Ha as [[payload v]|] Hp. inv_bind Ha. inv_bind Ha as [key|] Hkey.
  eexists lid, key, payload, _, id, root. split; [done|]. split; [done|]. split; [exact Ha|].
  cbn. by intros ->.
Qed.

(** The log of a layer the schema accepts, as the reader sees it. *)
Lemma accepted_log d : schema_accepts d = true ->
  get "events" d = JArr (log d) /\ forallb event_shape (log d) = true.
Proof using HL.
  intros Hd%schema_shape. unfold layer_shape in Hd. destruct (get "metadata" d); try done.
  destruct (get "events" d) as [| | | |es|] eqn:He; try done. destruct (get "needs_review" d); try done.
  assert (log d = es) as -> by (apply log_events; unfold events_of, get_list; by rewrite He). done.
Qed.

Lemma not_empty_layer d : schema_accepts d = true -> py_eqb (JObj d) (JObj EMPTY_LAYER) = false.
Proof using HL.
  intros Hd%schema_shape. apply not_true_iff_false. intros He. apply (py_eqb_obj _ _ "metadata") in He.
  unfold layer_shape in Hd. by destruct (get "metadata" d).
Qed.

Lemma shaped_dicts es : forallb event_shape es = true -> exists ds, es = map JObj ds /\ filter_events None None es = ds.
Proof.
  unfold filter_events. induction es as [|e es IH]; cbn [forallb]; [by exists []|].
  intros [He Hes]%andb_true_iff. destruct (IH Hes) as (ds & -> & Hf). destruct e as [| | | | |x]; try done.
  exists (x :: ds). split; [done|]. cbn. by rewrite Hf.
Qed.

Lemma one_page {A} n (l : list A) x : l !! n = Some x -> py_slice (Z.of_nat n) (Z.of_nat n + 1) l = [x].
Proof.
  intros Hx. pose proof (lookup_lt_Some _ _ _ Hx) as Hlt. unfold py_slice, slice_index.
  destruct (Z.ltb_spec (Z.of_nat n) 0); [lia|]. destruct (Z.ltb_spec (Z.of_nat n + 1) 0); [lia|].
  replace (Z.to_nat (Z.min (Z.of_nat n) (Z.of_nat (length l)))) with n by lia.
  replace (Z.to_nat (Z.min (Z.of_nat n + 1) (Z.of_nat (length l))) - n) with 1 by lia.
  by rewrite (drop_S _ _ _ Hx).
Qed.

Lemma append_step_id event config before d id root d' :
  append_step get_schema event (Some (finalize_layer config)) before d = Ok ((id, root), d') ->
  exists n x, log d' !! n = Some (JObj x) /\ get "event_id" x = JStr id.
Proof.
  unfold append_step. intros Hs. inv_bind Hs as [ev|] Hb. inv_bind Hs as [[i1 d1]|] H1.
  inv_bind Hs as [[r d2]|] H2. injection Hs as <- <- <-. cbn [run_finalize] in H2.
  rewrite (finalize_keeps_log config _ _ _ H2). apply append_one_inv in H1 as (event' & es & Hp & He & Hcase).
  assert (JStr i1 ∈ map id_of (log d1)) as Hin.
  { destruct Hcase as [[Hin ->]|[_ ->]]; [by rewrite (log_events _ _ He)|].
    apply prepare_event_inv in Hp as (Hid & _). rewrite log_insert_events map_app elem_of_app. right.
    cbn [map id_of]. rewrite Hid. by left. }
  apply list_elem_of_fmap in Hin as (e & Hid & [n Hn]%list_elem_of_lookup). destruct e as [| | | | |x]; try done.
  by exists n, x.
Qed.

Lemma read_event_at layer_id config d s n x key : layer_key opaque_layer_ids (data_dir config) layer_id = Ok key ->
  b_load key s = Ok d -> schema_accepts d = true -> log d !! n = Some (JObj x) ->
  query_layer_events layer_id config None None 1 (Z.of_nat n) s
    = Ok {| ev_events := [x]; ev_total := length (log d); ev_layer_id := layer_id |}.
Proof using HL.
  intros Hk Hl Hd Hn. destruct (accepted_log d Hd) as [Hev Hsh].
  unfold query_layer_events, load_layer. rewrite Hk. cbn [mbind result_bind]. rewrite Hl. cbn [mbind result_bind].
  rewrite (not_empty_layer _ Hd).
  rewrite Hd. cbn [negb raise_if mbind result_bind]. rewrite Hev.
  destruct (shaped_dicts _ Hsh) as (ds & Hds & ->). rewrite Hds in Hn. rewrite list_lookup_fmap in Hn.
  destruct (ds !! n) as [y|] eqn:Hy; [|done]. injection Hn as ->. rewrite (one_page _ _ _ Hy).
  by rewrite Hds length_map.
Qed.

(** C19: Read your writes. An event that was accepted can be read back at once, by
    any caller the service resolves: the layer's event route, asked for one event
    at the right offset, answers with exactly the event whose id the submission
    was given. *)
Theorem accepted_event_is_read_back envelope actor config s r s' resolver authorization reader :
  good s -> submit_event get_schema now envelope actor config s = Ok (r, s') ->
  resolve resolver authorization = Ok reader ->
  exists layer_id n event page,
    require_layer_id (envelope_event envelope) = Ok layer_id
    /\ respond_read query_layers now_text config resolver authorization
         (GetEvents layer_id None None 1 (Z.of_nat n)) s' = (200%Z, Some (AEvents page))
    /\ ev_events page = [event] /\ get "event_id" event = JStr (response_id r) /\ n < ev_total page.
Proof using HL HBL.
  intros Hg Hs Hres. apply submit_event_appended in Hs as (lid & key & payload & before & id & root & Hlid & Hkey & Ha & Hid).
  destruct (mutate_promise _ _ _ _ _ _ Hg Ha) as (d & d' & _ & Hstep & Hacc & Hd' & Hg' & Hk & _).
  destruct (append_step_id _ _ _ _ _ _ _ Hstep) as (n & x & Hn & Hx).
  pose proof (load_promise key s' d' Hg' Hk Hd' Hacc) as Hl.
  exists lid, n, x, {| ev_events := [x]; ev_total := length (log d'); ev_layer_id := lid |}.
  split; [done|]. split.
  { unfold respond_read. rewrite Hres. cbn [query_ok page_limit_ok].
    rewrite (proj2 (Z.leb_le 0 (Z.of_nat n))); [lia|]. cbn [negb andb].
    cbn [read_route]. unfold get_layer_events. by rewrite (read_event_at _ _ _ _ _ _ _ Hkey Hl Hacc Hn). }
  split; [done|]. split; [|exact (lookup_lt_Some _ _ _ Hn)]. rewrite Hx Hid; [|done].
  destruct (accepted_log d' Hacc) as [_ Hsh]. rewrite forallb_forall in Hsh.
  specialize (Hsh (JObj x)). rewrite -list_elem_of_In in Hsh. unfold event_shape in Hsh. rewrite Hx in Hsh.
  exact (Hsh (list_elem_of_lookup_2 _ _ _ Hn)).
Qed.
End Requests.

(** ** Witnesses: the file backend, behind a trusted issuer *)

#[local] Existing Instances access_env access_auth access_auth_laws.
#[local] Instance reading_dispositions : DispositionModel := {| disposition_accepts := fun _ => true |}.
#[local] Instance reading_listing : Listing files := file_listing_ids "/d".
Definition reading_layers (fs : files) (filters : list Filter) (include_reviews : bool) : res (list LayerEntry) :=
  file_query_layers (Some "/d") filters include_reviews fs.

Definition ask_for (claims : dict) (r : read_request) (fs : files) : Z * option reply * files :=
  serve no_schema sample_now sample_targets "now" reading_layers idp_config idp_resolver (bearer claims) (Asking r) fs.
Definition owner_id : string := "0a1b2c3d-0a1b-0a1b-0a1b-0a1b2c3d4e5f".
Definition idp_finding : dict := sample_finding [loc "."] [JStr "CWE-79"].
(** Statuses: a granted page, a page out of bounds, an owner that is none, an
    owner without a layer, a degenerate finding, and no token. *)
Example reading_statuses :
  map (fun r => (ask_for idp_claims r sample_files).1.1)
    [GetEvents "L" None None 1000 0; GetEvents "L" None None 1001 0; GetAllFindings None 0 None;
     GetLayers (Some "repo-1") [] false; GetLayers (Some owner_id) [] false; GetLayer "none";
     PostFingerprint [idp_finding] (Some "h/r"); GetWhoami]
  = [200; 422; 422; 422; 404; 404; 500; 200]%Z
  /\ (respond_read reading_layers "now" idp_config idp_resolver None GetWhoami sample_files).1 = 401%Z
  /\ product_repo_id_ok owner_id = true.
Proof. split; [|split]; vm_compute; reflexivity. Qed.

Definition asked : read_request := GetEvents "L" (Some "F1") None 10 0.
Definition asked_reply : option reply := Eval vm_compute in (ask_for idp_claims asked sample_files).1.2.
Lemma asked_ok : ask_for idp_claims asked sample_files = (200%Z, asked_reply, sample_files).
Proof. vm_compute. reflexivity. Qed.

Definition idp_reader : LayerActor := Eval vm_compute in
  match resolve idp_resolver (bearer idp_claims) with Ok a => a | Err _ => ann end.
Lemma idp_reader_ok : resolve idp_resolver (bearer idp_claims) = Ok idp_reader.
Proof. vm_compute. reflexivity. Qed.
Lemma accepted_event_is_read_back_witness : exists layer_id n event page,
  require_layer_id (envelope_event sample_envelope) = Ok layer_id
  /\ respond_read reading_layers "now" sample_config idp_resolver (bearer idp_claims)
       (GetEvents layer_id None None 1 (Z.of_nat n)) sample_submitted = (200%Z, Some (AEvents page))
  /\ ev_events page = [event] /\ get "event_id" event = JStr (response_id sample_response) /\ n < ev_total page.
Proof.
  exact (accepted_event_is_read_back no_schema sample_now "now" reading_layers sample_envelope ann sample_config sample_files
    sample_response sample_submitted idp_resolver (bearer idp_claims) idp_reader sample_files_good sample_submit_ok
    idp_reader_ok).
Defined.
