(* ===== verification/Schema.v ===== *)
(** * The ledger's database schema

    [_internal/migrations/schema.py] and [permissions.py], and [create_backend]
    of [_internal/backends/__init__.py]: what a database must hold before the
    ledger uses it, the creation of a missing schema, the guards that keep the
    history append-only, and the privileges of the database roles.  The tables
    are created by the SQL of the contracts package, a parameter here; a
    transaction that raises leaves no state.  Object names are spelled as the
    dialect does. *)

From S2P Require Import Prelude PyStr Json Errors Records Backend DbBackend.
From stdpp Require Import options.

Definition LEDGER_SCHEMA : string := "traust_ledger".
Definition STORAGE_SCHEMA : string := "traust_storage".

(** ** Databases *)

Inductive trigger_event := OnInsert | OnUpdate | OnDelete | OnTruncate.
Inductive trigger_body := RejectMutation | ValidateAppend.
#[global] Instance trigger_event_eq_dec : EqDecision trigger_event.
Proof. solve_decision. Defined.
#[global] Instance trigger_body_eq_dec : EqDecision trigger_body.
Proof. solve_decision. Defined.
Record trigger := { tr_table : string; tr_events : list trigger_event; tr_body : trigger_body }.
#[global] Instance trigger_eq_dec : EqDecision trigger.
Proof. solve_decision. Defined.

(** A database, as far as its schema goes: its tables, the rows of the storage
    package's and of the ledger's revision table ([None]: columns that cannot be
    selected), and its triggers. *)
Record schema_state := {
  sc_tables : gset string;
  sc_storage_row : option (string * Z);
  sc_revision_rows : option (list (Z * string * Z));
  sc_triggers : gmap (string * string) trigger
}.

(** The SQL of the contracts package. *)
Class LedgerSql := {
  statement : Type;
  CONTRACT_VERSION : string; SCHEMA_REVISION : Z;
  STORAGE_CONTRACT_VERSION : string; STORAGE_REVISION : Z;
  ledger_bootstrap_files : string -> list string;
  ledger_bootstrap_statements : string -> string -> list statement;
  execute : statement -> schema_state -> res schema_state
}.

(** [f"{schema}.{name}"] under PostgreSQL. *)
Definition is_postgresql (dialect_name : string) : bool := String.eqb dialect_name "postgresql".
Definition in_schema (dialect_name schema name : string) : string :=
  if is_postgresql dialect_name then schema +:+ "." +:+ name else name.
Definition ledger_table (dialect_name name : string) : string := in_schema dialect_name LEDGER_SCHEMA name.

(** [ledger_tables], of its check of the dialect. *)
Definition ledger_tables (dialect_name : string) : res unit :=
  raise_if (negb (bool_decide (dialect_name ∈ ["postgresql"; "sqlite"]))) ValueError.
Definition contract_dialect (dialect_name : string) : res string :=
  if String.eqb dialect_name "postgresql" then Ok "postgres"
  else if String.eqb dialect_name "sqlite" then Ok "sqlite" else Err ValueError.

(** ** Guards *)

(** The statements the guards are installed with. *)
Inductive guard_statement :=
| DropTriggerIfExists (name table : string)
| CreateTrigger (name : string) (t : trigger)
| CreateTriggerIfNotExists (name : string) (t : trigger).

(** Trigger names are per table in PostgreSQL, per database in SQLite. *)
Definition pg_key (name table : string) : string * string := (table, name).
Definition lite_key (name : string) : string * string := ("", name).
Definition with_triggers (db : schema_state) (m : gmap (string * string) trigger) : schema_state :=
  {| sc_tables := sc_tables db; sc_storage_row := sc_storage_row db;
     sc_revision_rows := sc_revision_rows db; sc_triggers := m |}.
Definition run_guard (db : schema_state) (st : guard_statement) : res schema_state :=
  match st with
  | DropTriggerIfExists name table => Ok (with_triggers db (delete (pg_key name table) (sc_triggers db)))
  | CreateTrigger name t =>
      _ ← raise_if (negb (bool_decide (tr_table t ∈ sc_tables db))) RuntimeError;
      _ ← raise_if (bool_decide (is_Some (sc_triggers db !! pg_key name (tr_table t)))) RuntimeError;
      Ok (with_triggers db (<[pg_key name (tr_table t) := t]> (sc_triggers db)))
  | CreateTriggerIfNotExists name t =>
      if bool_decide (is_Some (sc_triggers db !! lite_key name)) then Ok db
      else
        _ ← raise_if (negb (bool_decide (tr_table t ∈ sc_tables db))) RuntimeError;
        Ok (with_triggers db (<[lite_key name := t]> (sc_triggers db)))
  end.

(** [_install_sqlite_guards] and [_install_postgresql_guards]. *)
Definition on_table (dialect_name table : string) (events : list trigger_event) (body : trigger_body) : trigger :=
  {| tr_table := ledger_table dialect_name table; tr_events := events; tr_body := body |}.
Definition SQLITE_GUARDS : list (string * trigger) := [
  ("events_reject_update", on_table "sqlite" "events" [OnUpdate] RejectMutation);
  ("events_reject_delete", on_table "sqlite" "events" [OnDelete] RejectMutation);
  ("events_validate_append", on_table "sqlite" "events" [OnInsert] ValidateAppend);
  ("layers_reject_delete", on_table "sqlite" "layers" [OnDelete] RejectMutation) ].
Definition install_sqlite_guards (db : schema_state) : res schema_state :=
  foldM run_guard (map (fun g => CreateTriggerIfNotExists g.1 g.2) SQLITE_GUARDS) db.

Definition POSTGRESQL_GUARDS : list (string * trigger) := [
  ("events_reject_mutation", on_table "postgresql" "events" [OnUpdate; OnDelete] RejectMutation);
  ("events_reject_truncate", on_table "postgresql" "events" [OnTruncate] RejectMutation);
  ("events_validate_append", on_table "postgresql" "events" [OnInsert] ValidateAppend);
  ("layers_reject_delete", on_table "postgresql" "layers" [OnDelete] RejectMutation);
  ("layers_reject_truncate", on_table "postgresql" "layers" [OnTruncate] RejectMutation) ].
Definition install_postgresql_guards (db : schema_state) : res schema_state :=
  foldM run_guard (map (fun g => DropTriggerIfExists g.1 (tr_table g.2)) POSTGRESQL_GUARDS
                   ++ map (fun g => CreateTrigger g.1 g.2) POSTGRESQL_GUARDS) db.

(** ** Revisions *)

Section Migrations.
Context `{LedgerSql}.

Definition has_table (name : string) (db : schema_state) : bool := bool_decide (name ∈ sc_tables db).

Definition require_storage (dialect_name : string) (db : schema_state) : res unit :=
  _ ← raise_if (negb (has_table (in_schema dialect_name STORAGE_SCHEMA "traust_storage_meta") db)) RuntimeError;
  raise_if (negb (bool_decide (sc_storage_row db = Some (STORAGE_CONTRACT_VERSION, STORAGE_REVISION)))) RuntimeError.

(** [_install_contract_schema]: every statement of every file, in order. *)
Definition install_contract_schema (dialect_name : string) (db : schema_state) : res schema_state :=
  dialect ← contract_dialect dialect_name;
  foldM (fun db path => foldM (fun db st => execute st db) (ledger_bootstrap_statements dialect path) db)
    (ledger_bootstrap_files dialect) db.

(** The insertion into [schema_revision]; its key is [id], which is 1. *)
Definition current_rows : list (Z * string * Z) := [(1%Z, CONTRACT_VERSION, SCHEMA_REVISION)].
Definition insert_revision (dialect_name : string) (db : schema_state) : res schema_state :=
  _ ← raise_if (negb (has_table (ledger_table dialect_name "schema_revision") db)) RuntimeError;
  match sc_revision_rows db with
  | None => Err RuntimeError
  | Some rows =>
      _ ← raise_if (existsb (fun row => row.1.1 =? 1)%Z rows) IntegrityError;
      Ok {| sc_tables := sc_tables db; sc_storage_row := sc_storage_row db;
            sc_revision_rows := Some (rows ++ current_rows); sc_triggers := sc_triggers db |}
  end.

Definition verify_revision (db : schema_state) : res unit :=
  match sc_revision_rows db with
  | None => Err RuntimeError
  | Some rows => raise_if (negb (bool_decide (rows = current_rows))) RuntimeError
  end.

Definition verify_current (dialect_name : string) (db : schema_state) : res unit :=
  _ ← ledger_tables dialect_name; verify_revision db.

(** The database before the guards: as it is, or with a fresh schema. *)
Definition bootstrap (dialect_name : string) (db : schema_state) : res schema_state :=
  if has_table (ledger_table dialect_name "schema_revision") db then Ok db
  else
    _ ← require_storage dialect_name db;
    db ← install_contract_schema dialect_name db;
    insert_revision dialect_name db.
Definition install_guards (dialect_name : string) (db : schema_state) : res schema_state :=
  if String.eqb dialect_name "postgresql" then install_postgresql_guards db
  else if String.eqb dialect_name "sqlite" then install_sqlite_guards db else Ok db.
Definition upgrade (dialect_name : string) (db : schema_state) : res schema_state :=
  _ ← ledger_tables dialect_name;
  db ← bootstrap dialect_name db;
  _ ← verify_revision db;
  install_guards dialect_name db.

Definition ensure_current (dialect_name : string) (db : schema_state) : res schema_state :=
  if has_table (ledger_table dialect_name "schema_revision") db
  then _ ← verify_current dialect_name db; Ok db
  else upgrade dialect_name db.

(** [create_backend]: a file back end over the directory, or a database whose
    engine [create_engine] makes of the URL - its dialect and its schema. *)
Inductive opened := OpenedFiles (data_dir : option string) | OpenedDb (dialect_name : string) (db : schema_state).
Definition create_backend (create_engine : string -> res (string * schema_state)) (backend_type : string)
    (data_dir database_url : option string) : res opened :=
  if String.eqb backend_type "file" then Ok (OpenedFiles data_dir)
  else if String.eqb backend_type "db" then
    _ ← raise_if (negb (opt_truthy database_url)) ValueError;
    '(dialect_name, db) ← create_engine (default "" database_url);
    db ← ensure_current dialect_name db;
    Ok (OpenedDb dialect_name db)
  else Err ValueError.
End Migrations.

(** ** What the guards let through *)

Inductive sql_operation :=
| InsertEvent (row : event_row)
| UpdateRows (table : string)
| DeleteRows (table : string)
| TruncateTable (table : string).
Definition operation_event (op : sql_operation) : trigger_event :=
  match op with
  | InsertEvent _ => OnInsert | UpdateRows _ => OnUpdate | DeleteRows _ => OnDelete | TruncateTable _ => OnTruncate
  end.
Definition operation_table (dialect_name : string) (op : sql_operation) : string :=
  ledger_table dialect_name (match op with InsertEvent _ => "events" | UpdateRows t | DeleteRows t | TruncateTable t => t end).
(** The body of a trigger, on an operation that touches a row. *)
Definition body_accepts (body : trigger_body) (data : database) (op : sql_operation) : bool :=
  match body, op with
  | RejectMutation, _ => false
  | ValidateAppend, InsertEvent row =>
      str_truthy (row_event_id row) && (row_seq row =? next_seq (row_layer_id row) data)%Z
  | ValidateAppend, _ => true
  end.
Definition trigger_accepts (dialect_name : string) (data : database) (op : sql_operation) (t : trigger) : bool :=
  negb (String.eqb (tr_table t) (operation_table dialect_name op) && bool_decide (operation_event op ∈ tr_events t))
  || body_accepts (tr_body t) data op.
(** SQLite has no TRUNCATE. *)
Definition operation_accepted (dialect_name : string) (triggers : gmap (string * string) trigger) (data : database)
    (op : sql_operation) : bool :=
  forallb (fun kv => trigger_accepts dialect_name data op kv.2) (map_to_list triggers)
  && negb (bool_decide (operation_event op = OnTruncate) && negb (is_postgresql dialect_name)).

(** An operation that keeps the history: an append at the next sequence number,
    or nothing that touches an event or removes a layer. *)
Definition keeps_rows (data : database) (op : sql_operation) : bool :=
  match op with
  | InsertEvent row => str_truthy (row_event_id row) && (row_seq row =? next_seq (row_layer_id row) data)%Z
  | UpdateRows t => negb (String.eqb t "events")
  | DeleteRows t | TruncateTable t => negb (bool_decide (t ∈ ["events"; "layers"]))
  end.
Definition guards_of (dialect_name : string) : list ((string * string) * trigger) :=
  if is_postgresql dialect_name then map (fun g => (pg_key g.1 (tr_table g.2), g.2)) POSTGRESQL_GUARDS
  else map (fun g => (lite_key g.1, g.2)) SQLITE_GUARDS.

(** The steps that INSERT, UPDATE, DELETE and TRUNCATE take, whoever runs them: each
    is accepted by the triggers, and does to the rows what it may at most do.  An
    UPDATE of layers may also change identifiers, where [renames] allows it. *)
Section Steps.
Context (dialect_name : string) (triggers : gmap (string * string) trigger) (renames : bool).
Notation accepted := (operation_accepted dialect_name triggers).
Inductive sql_step (data : database) : database -> Prop :=
| step_insert_layer id row : db_layers data !! id = None ->
    sql_step data {| db_layers := <[id := row]> (db_layers data); db_events := db_events data |}
| step_insert_event row : accepted data (InsertEvent row) = true ->
    sql_step data {| db_layers := db_layers data; db_events := db_events data ++ [row] |}
| step_update_layers layers : accepted data (UpdateRows "layers") = true -> dom layers = dom (db_layers data) ->
    sql_step data {| db_layers := layers; db_events := db_events data |}
| step_rename_layers layers : renames = true -> accepted data (UpdateRows "layers") = true ->
    size layers = size (db_layers data) -> sql_step data {| db_layers := layers; db_events := db_events data |}
| step_update_events events : accepted data (UpdateRows "events") = true -> length events = length (db_events data) ->
    sql_step data {| db_layers := db_layers data; db_events := events |}
| step_delete_layers layers : accepted data (DeleteRows "layers") = true -> layers ⊆ db_layers data ->
    sql_step data {| db_layers := layers; db_events := db_events data |}
| step_delete_events events : accepted data (DeleteRows "events") = true -> events `sublist_of` db_events data ->
    sql_step data {| db_layers := db_layers data; db_events := events |}
| step_truncate_layers : accepted data (TruncateTable "layers") = true ->
    sql_step data {| db_layers := ∅; db_events := db_events data |}
| step_truncate_events : accepted data (TruncateTable "events") = true ->
    sql_step data {| db_layers := db_layers data; db_events := [] |}.
End Steps.

(** Each layer's events are numbered from zero without gaps. *)
Definition numbered (data : database) : Prop :=
  forall id i r, layer_rows id data !! i = Some r -> row_seq r = Z.of_nat i.

(** ** Lemmas *)

Lemma next_seq_from (l : list event_row) : forall k, (forall i r, l !! i = Some r -> row_seq r = (k + Z.of_nat i)%Z) ->
  fold_left (fun m r => Z.max m (row_seq r + 1)) l k = (k + Z.of_nat (length l))%Z.
Proof.
  induction l as [|r l IH]; intros k Hk; cbn [fold_left length]; [lia|].
  pose proof (Hk 0 r eq_refl) as H0. rewrite (Z.max_r k); [lia|]. rewrite IH; [|lia].
  intros i r' Hr. rewrite (Hk (S i) r' Hr). lia.
Qed.
Lemma next_seq_numbered id data : numbered data -> next_seq id data = Z.of_nat (length (layer_rows id data)).
Proof. intros Hn. unfold next_seq. rewrite next_seq_from; [|lia]. intros i r Hr. rewrite (Hn _ _ _ Hr). lia. Qed.

Lemma numbered_append data row : numbered data -> row_seq row = next_seq (row_layer_id row) data ->
  numbered {| db_layers := db_layers data; db_events := db_events data ++ [row] |}.
Proof.
  intros Hn Hseq id i r. unfold layer_rows. cbn [db_events]. rewrite List.filter_app. cbn [List.filter].
  destruct (bool_decide_reflect (row_layer_id row = id)) as [<-|_]; [|rewrite app_nil_r; apply Hn].
  intros [Hr|[Hlen Hr]]%lookup_app_Some; [exact (Hn _ _ _ Hr)|].
  apply list_lookup_singleton_Some in Hr as [Hi <-]. rewrite Hseq (next_seq_numbered _ _ Hn). unfold layer_rows in *. lia.
Qed.

(** *** Installed guards *)

Definition guards_present (dialect_name : string) (triggers : gmap (string * string) trigger) : Prop :=
  forall k t, (k, t) ∈ guards_of dialect_name -> triggers !! k = Some t.

Lemma create_trigger_inv db name t db' : run_guard db (CreateTrigger name t) = Ok db' ->
  sc_triggers db' = <[pg_key name (tr_table t) := t]> (sc_triggers db) /\ sc_triggers db !! pg_key name (tr_table t) = None.
Proof.
  cbn [run_guard]. intros Hr. inv_bind Hr. inv_bind Hr as [u|] Hfree. injection Hr as <-. split; [done|].
  apply raise_if_ok, bool_decide_eq_false in Hfree. by apply eq_None_not_Some.
Qed.
Lemma create_triggers_present gs : forall db db', foldM run_guard (map (fun g => CreateTrigger g.1 g.2) gs) db = Ok db' ->
  sc_triggers db ⊆ sc_triggers db'
  /\ forall g, g ∈ gs -> sc_triggers db' !! pg_key g.1 (tr_table g.2) = Some g.2.
Proof.
  induction gs as [|g gs IH]; intros db db'; cbn [map foldM].
  { intros [= <-]. split; [done|]. by intros g ?%not_elem_of_nil. }
  intros Hf. inv_bind Hf as [db1|] H1. destruct (IH _ _ Hf) as [Hsub Hin].
  apply create_trigger_inv in H1 as [Ht Hnone]. rewrite Ht in Hsub. split.
  - etransitivity; [|exact Hsub]. by apply insert_subseteq.
  - intros g' [->|Hg]%elem_of_cons; [|by apply Hin]. eapply lookup_weaken; [|exact Hsub]. by rewrite lookup_insert_eq.
Qed.
Lemma postgresql_guards_present db db' : install_postgresql_guards db = Ok db' ->
  guards_present "postgresql" (sc_triggers db').
Proof.
  unfold install_postgresql_guards. rewrite foldM_app. intros Hf. inv_bind Hf as [db1|] H1.
  destruct (create_triggers_present _ _ _ Hf) as [_ Hin]. intros k t Hkt.
  apply list_elem_of_fmap in Hkt as (g & [= -> ->] & Hg). by apply Hin.
Qed.

Lemma create_missing_present gs : NoDup gs.*1 -> forall db db',
  foldM run_guard (map (fun g => CreateTriggerIfNotExists g.1 g.2) gs) db = Ok db' ->
  (forall g t, g ∈ gs -> sc_triggers db !! lite_key g.1 = Some t -> t = g.2) ->
  sc_triggers db ⊆ sc_triggers db' /\ forall g, g ∈ gs -> sc_triggers db' !! lite_key g.1 = Some g.2.
Proof.
  induction gs as [|g gs IH]; intros Hnd db db'; cbn [map foldM].
  { intros [= <-] _. split; [done|]. by intros g ?%not_elem_of_nil. }
  cbn [fmap list_fmap] in Hnd. apply NoDup_cons in Hnd as [Hg Hnd]. intros Hf Hfree. inv_bind Hf as [db1|] H1.
  assert (sc_triggers db ⊆ sc_triggers db1 /\ sc_triggers db1 !! lite_key g.1 = Some g.2
    /\ forall k, k <> lite_key g.1 -> sc_triggers db1 !! k = sc_triggers db !! k) as (Hs1 & Hg1 & Ho1).
  { cbn [run_guard] in H1. case_bool_decide as Hdec.
    - injection H1 as <-. split; [done|]. split; [|done]. destruct Hdec as [t Ht]. rewrite Ht. f_equal.
      apply (Hfree g t); [by left|done].
    - inv_bind H1. injection H1 as <-. cbn [with_triggers sc_triggers].
      split; [apply insert_subseteq; exact (proj2 (eq_None_not_Some _) Hdec)|].
      split; [by rewrite lookup_insert_eq|]. intros k Hk. rewrite lookup_insert_ne; [congruence|done]. }
  destruct (IH Hnd _ _ Hf) as [Hs2 Hin].
  { intros g' t Hg' Ht. rewrite Ho1 in Ht; [|apply (Hfree g' t); [by right|done]].
    intros [= Heq]. apply Hg. rewrite -Heq. by apply list_elem_of_fmap_2. }
  split; [transitivity (sc_triggers db1); [exact Hs1|exact Hs2]|]. intros g' [->|Hg']%elem_of_cons; [|by apply Hin]. exact (lookup_weaken _ _ _ _ Hg1 Hs2).
Qed.
Lemma sqlite_guards_present db db' : install_sqlite_guards db = Ok db' ->
  (forall g t, g ∈ SQLITE_GUARDS -> sc_triggers db !! lite_key g.1 = Some t -> t = g.2) ->
  guards_present "sqlite" (sc_triggers db').
Proof.
  intros Hi Hfree. destruct (create_missing_present SQLITE_GUARDS) with (db := db) (db' := db') as [_ Hin]; [|done|done|].
  { apply (bool_decide_unpack _). vm_compute. exact I. }
  intros k t Hkt. apply list_elem_of_fmap in Hkt as (g & [= -> ->] & Hg). by apply Hin.
Qed.

(** *** What installed guards reject *)

Lemma present_accepts dialect_name triggers data op k t : guards_present dialect_name triggers ->
  operation_accepted dialect_name triggers data op = true -> (k, t) ∈ guards_of dialect_name ->
  trigger_accepts dialect_name data op t = true.
Proof.
  intros Hp [Ha _]%andb_true_iff Hin%Hp. rewrite forallb_forall in Ha. apply (Ha (k, t)).
  apply list_elem_of_In. by apply elem_of_map_to_list.
Qed.
Lemma append_accepted dialect_name triggers data row : dialect_name ∈ ["postgresql"; "sqlite"] ->
  (forall k t, triggers !! k = Some t -> (k, t) ∈ guards_of dialect_name) ->
  str_truthy (row_event_id row) && (row_seq row =? next_seq (row_layer_id row) data)%Z = true ->
  operation_accepted dialect_name triggers data (InsertEvent row) = true.
Proof.
  intros Hd Honly Hok. apply andb_true_iff. split; [|by rewrite bool_decide_false].
  apply forallb_forall. intros [k t] Hin%list_elem_of_In%elem_of_map_to_list%Honly. cbn [snd].
  unfold trigger_accepts. destruct (tr_body t) eqn:Hb; [|cbn [body_accepts]; by rewrite Hok orb_true_r].
  apply orb_true_iff. left. apply negb_true_iff. apply andb_false_iff. right. apply bool_decide_eq_false.
  assert (forallb (fun g => bool_decide (tr_body g.2 = ValidateAppend) || bool_decide (OnInsert ∉ tr_events g.2))
    (guards_of dialect_name) = true) as Hall.
  { apply elem_of_cons in Hd as [->|[->|[]%not_elem_of_nil]%elem_of_cons]; vm_compute; reflexivity. }
  rewrite forallb_forall in Hall. specialize (Hall (k, t)). rewrite -list_elem_of_In in Hall.
  specialize (Hall Hin). cbn [snd] in Hall. rewrite Hb in Hall. by apply bool_decide_eq_true in Hall.
Qed.

Lemma history_table t : t ∈ ["events"; "layers"] -> t = "events" \/ t = "layers".
Proof. rewrite !elem_of_cons elem_of_nil. tauto. Qed.
Lemma present_keeps dialect_name triggers data op : dialect_name ∈ ["postgresql"; "sqlite"] ->
  guards_present dialect_name triggers -> operation_accepted dialect_name triggers data op = true ->
  keeps_rows data op = true.
Proof.
  intros Hd Hp Ha. pose proof (fun k t => present_accepts _ _ _ _ k t Hp Ha) as Hall.
  pose proof (proj2 (proj1 (andb_true_iff _ _) Ha)) as Htr. clear Ha Hp.
  assert (forall g, g ∈ guards_of dialect_name -> trigger_accepts dialect_name data op g.2 = true) as Hg
    by (intros [k t] Hin; exact (Hall k t Hin)). clear Hall.
  apply elem_of_cons in Hd as [->|[->|[]%not_elem_of_nil]%elem_of_cons].
  - rewrite -Forall_forall in Hg. cbn in Hg. rewrite !Forall_cons in Hg. destruct Hg as (H1 & H2 & H3 & H4 & H5 & _).
    destruct op as [row|t|t|t]; cbn [keeps_rows].
    + exact H3.
    + destruct (String.eqb_spec t "events") as [->|_]; [discriminate H1|done].
    + destruct (bool_decide_reflect (t ∈ ["events"; "layers"])) as [Ht|_]; [|done].
      apply history_table in Ht as [->| ->]; [discriminate H1|discriminate H4].
    + destruct (bool_decide_reflect (t ∈ ["events"; "layers"])) as [Ht|_]; [|done].
      apply history_table in Ht as [->| ->]; [discriminate H2|discriminate H5].
  - rewrite -Forall_forall in Hg. cbn in Hg. rewrite !Forall_cons in Hg. destruct Hg as (H1 & H2 & H3 & H4 & _).
    destruct op as [row|t|t|t]; cbn [keeps_rows]; [exact H3| | |discriminate Htr].
    + destruct (String.eqb_spec t "events") as [->|_]; [discriminate H1|done].
    + destruct (bool_decide_reflect (t ∈ ["events"; "layers"])) as [Ht|_]; [|done].
      apply history_table in Ht as [->| ->]; [discriminate H2|discriminate H4].
Qed.

Lemma upgrade_guards_present `{LedgerSql} dialect_name db db' : upgrade dialect_name db = Ok db' ->
  (forall db1 g t, dialect_name = "sqlite" -> bootstrap dialect_name db = Ok db1 -> g ∈ SQLITE_GUARDS ->
     sc_triggers db1 !! lite_key g.1 = Some t -> t = g.2) ->
  dialect_name ∈ ["postgresql"; "sqlite"] /\ guards_present dialect_name (sc_triggers db').
Proof.
  unfold upgrade. intros Hu Hfree. inv_bind Hu as [[]|] Hd. apply raise_if_ok, negb_false_iff, bool_decide_eq_true in Hd.
  split; [done|]. inv_bind Hu as [db1|] Hb. inv_bind Hu as [[]|] Hv. unfold install_guards in Hu.
  apply elem_of_cons in Hd as [->|[->|[]%not_elem_of_nil]%elem_of_cons]; cbn in Hu.
  - exact (postgresql_guards_present _ _ Hu).
  - apply (sqlite_guards_present _ _ Hu). intros g t. by apply Hfree.
Qed.

(** *** What a database under guards goes through *)

Section Guarded.
Context (dialect_name : string) (triggers : gmap (string * string) trigger) (renames : bool).
Context (Hd : dialect_name ∈ ["postgresql"; "sqlite"]) (Hp : guards_present dialect_name triggers).

Definition history_kept_rows (data data' : database) : Prop :=
  db_events data `prefix_of` db_events data' /\ size (db_layers data) <= size (db_layers data')
  /\ (renames = false -> dom (db_layers data) ⊆ dom (db_layers data')) /\ (numbered data -> numbered data').

Lemma guarded_step data data' : sql_step dialect_name triggers renames data data' -> history_kept_rows data data'.
Proof using Hd Hp.
  intros Hs. destruct Hs as [id row Hn|row Ha|layers Ha Hz|layers Hr Ha Hz|events Ha _|layers Ha _|events Ha _|Ha|Ha];
    try (apply (present_keeps _ _ _ _ Hd Hp) in Ha; try discriminate Ha).
  - split; [done|]. cbn. rewrite map_size_insert_None //. split; [lia|]. split; [set_solver|done].
  - apply andb_true_iff in Ha as [_ Hseq%Z.eqb_eq]. split; [by apply prefix_app_r|]. split; [done|]. split; [done|].
    intros Hnum. by apply numbered_append.
  - split; [done|]. cbn. rewrite -!size_dom Hz. done.
  - split; [done|]. split; [cbn; lia|]. split; [by rewrite Hr|done].
Qed.
Lemma guarded_steps data data' : rtc (sql_step dialect_name triggers renames) data data' -> history_kept_rows data data'.
Proof using Hd Hp.
  induction 1 as [data|d1 d2 d3 H12 _ IH]; [done|].
  destruct (guarded_step _ _ H12) as (Hp1 & Hz1 & Hr1 & Hn1), IH as (Hp2 & Hz2 & Hr2 & Hn2).
  split; [exact (transitivity Hp1 Hp2)|]. split; [lia|]. split; [|auto].
  intros Hr. exact (transitivity (Hr1 Hr) (Hr2 Hr)).
Qed.
End Guarded.

(** *** Opening a database *)

Section Opening.
Context `{HS : LedgerSql}.

Definition current (dialect_name : string) (db : schema_state) : Prop :=
  dialect_name ∈ ["postgresql"; "sqlite"] /\ ledger_table dialect_name "schema_revision" ∈ sc_tables db
  /\ sc_revision_rows db = Some current_rows.

Lemma verify_revision_ok db : verify_revision db = Ok tt <-> sc_revision_rows db = Some current_rows.
Proof.
  unfold verify_revision. destruct (sc_revision_rows db) as [rows|]; [|done]. split.
  - intros Hv%raise_if_ok%negb_false_iff%bool_decide_eq_true. by rewrite Hv.
  - intros [= ->]. by rewrite bool_decide_true.
Qed.
Lemma ledger_tables_ok dialect_name : ledger_tables dialect_name = Ok tt <-> dialect_name ∈ ["postgresql"; "sqlite"].
Proof. unfold ledger_tables. case_bool_decide; split; try done. Qed.

Lemma run_guard_frame db st db' : run_guard db st = Ok db' ->
  sc_tables db' = sc_tables db /\ sc_revision_rows db' = sc_revision_rows db.
Proof.
  destruct st; cbn [run_guard]; intros Hr.
  - by injection Hr as <-.
  - do 2 inv_bind Hr. by injection Hr as <-.
  - case_bool_decide; [by injection Hr as <-|]. inv_bind Hr. by injection Hr as <-.
Qed.
Lemma run_guards_frame sts : forall db db', foldM run_guard sts db = Ok db' ->
  sc_tables db' = sc_tables db /\ sc_revision_rows db' = sc_revision_rows db.
Proof.
  induction sts as [|st sts IH]; intros db db'; cbn [foldM]; [by intros [= <-]|].
  intros Hf. inv_bind Hf as [db1|] H1. apply run_guard_frame in H1 as [H1 H2]. apply IH in Hf as [-> ->]. done.
Qed.
Lemma install_guards_frame dialect_name db db' : install_guards dialect_name db = Ok db' ->
  sc_tables db' = sc_tables db /\ sc_revision_rows db' = sc_revision_rows db.
Proof.
  unfold install_guards. destruct (String.eqb _ _); [apply run_guards_frame|].
  destruct (String.eqb _ _); [apply run_guards_frame|by intros [= <-]].
Qed.

Lemma bootstrap_table dialect_name db db1 : bootstrap dialect_name db = Ok db1 ->
  ledger_table dialect_name "schema_revision" ∈ sc_tables db1.
Proof.
  unfold bootstrap, has_table. case_bool_decide as Hin; [by intros [= <-]|]. intros Hb. inv_bind Hb.
  inv_bind Hb as [db2|] Hi. unfold insert_revision, has_table in Hb. inv_bind Hb as [u|] Ht.
  apply raise_if_ok, negb_false_iff, bool_decide_eq_true in Ht. destruct (sc_revision_rows db2); [|done].
  inv_bind Hb. by injection Hb as <-.
Qed.
Lemma upgrade_current dialect_name db db' : upgrade dialect_name db = Ok db' -> current dialect_name db'.
Proof.
  unfold upgrade. intros Hu. inv_bind Hu as [[]|] Hd. apply ledger_tables_ok in Hd. inv_bind Hu as [db1|] Hb.
  inv_bind Hu as [[]|] Hv. apply verify_revision_ok in Hv. destruct (install_guards_frame _ _ _ Hu) as [Ht Hr].
  split; [done|]. rewrite Ht Hr. split; [exact (bootstrap_table _ _ _ Hb)|done].
Qed.
Lemma ensure_current_same dialect_name db : current dialect_name db -> ensure_current dialect_name db = Ok db.
Proof.
  intros (Hd & Ht & Hr). unfold ensure_current, has_table. rewrite bool_decide_true //. unfold verify_current.
  rewrite (proj2 (ledger_tables_ok _) Hd). cbn. by rewrite (proj2 (verify_revision_ok _) Hr).
Qed.

(** A database that is opened is current. *)
Lemma ensure_current_current dialect_name db db' : ensure_current dialect_name db = Ok db' -> current dialect_name db'.
Proof.
  unfold ensure_current, has_table. case_bool_decide as Ht; [|apply upgrade_current].
  intros He. inv_bind He as [[]|] Hv. injection He as <-. unfold verify_current in Hv. inv_bind Hv as [[]|] Hd.
  split; [by apply ledger_tables_ok|]. split; [done|by apply verify_revision_ok].
Qed.

(** Opening a database never migrates it. A database that has a revision table
    is left exactly as it is, and is used only if that table holds the one current
    revision. A database without one gets a schema only if the storage package's
    tables are there at the revision the ledger was built for. Either way the
    database that is opened is at the current revision, and opening it again
    changes nothing. *)
Theorem opening_never_migrates dialect_name db db' : ensure_current dialect_name db = Ok db' ->
  current dialect_name db' /\ ensure_current dialect_name db' = Ok db'
  /\ (ledger_table dialect_name "schema_revision" ∈ sc_tables db -> db' = db)
  /\ (ledger_table dialect_name "schema_revision" ∉ sc_tables db ->
        in_schema dialect_name STORAGE_SCHEMA "traust_storage_meta" ∈ sc_tables db
        /\ sc_storage_row db = Some (STORAGE_CONTRACT_VERSION, STORAGE_REVISION)).
Proof.
  intros He. pose proof (ensure_current_current _ _ _ He) as Hc. split; [done|].
  split; [exact (ensure_current_same _ _ Hc)|]. revert He. unfold ensure_current, has_table. case_bool_decide as Ht.
  - intros He. inv_bind He as [[]|] Hv. by injection He as <-.
  - intros Hu. split; [done|]. intros _.
    unfold upgrade in Hu. inv_bind Hu. inv_bind Hu as [db1|] Hb. unfold bootstrap, has_table in Hb.
    rewrite bool_decide_false // in Hb. inv_bind Hb as [[]|] Hr. unfold require_storage, has_table in Hr. inv_bind Hr as [[]|] Hm.
    apply raise_if_ok, negb_false_iff, bool_decide_eq_true in Hm, Hr. done.
Qed.

End Opening.

(** ** Roles *)

(** [DatabaseRoles]: no name is given twice. *)
Record DatabaseRoles := { role_writer : option string; role_projector : option string; role_reader : option string }.
Definition configured_roles (roles : DatabaseRoles) : list string :=
  List.filter str_truthy (option_list (role_writer roles) ++ option_list (role_projector roles)
                          ++ option_list (role_reader roles)).
Definition database_roles (roles : DatabaseRoles) : res DatabaseRoles :=
  _ ← raise_if (negb (bool_decide (NoDup (configured_roles roles)))) ValueError; Ok roles.

(** Who holds which privilege on which object. *)
Definition privileges := gset (string * string * string).
(** [GRANT privileges ON objects TO role]. *)
Definition grants (role : string) (names objects : list string) : privileges :=
  list_to_set (o ← objects; n ← names; [(role, n, o)]).
Definition ledger_object (name : string) : string := LEDGER_SCHEMA +:+ "." +:+ name.

Section Permissions.
(** The tables and the sequences of the schema. *)
Context (objects : gset string).

(** [REVOKE ALL ON ALL TABLES] and [SEQUENCES IN SCHEMA], and the use of it. *)
Definition reset (role : string) (p : privileges) : privileges :=
  filter (fun g => ~ (g.1.1 = role /\ g.2 ∈ objects)) p ∪ {[(role, "USAGE", LEDGER_SCHEMA)]}.

Definition writer_grants (role : string) : privileges :=
  grants role ["SELECT"; "INSERT"; "UPDATE"] [ledger_object "layers"]
  ∪ grants role ["SELECT"; "INSERT"] [ledger_object "events"]
  ∪ grants role ["SELECT"] [ledger_object "schema_revision"]
  ∪ grants role ["USAGE"; "SELECT"] [ledger_object "events_id_seq"].
Definition projector_grants (role : string) : privileges :=
  grants role ["SELECT"] [ledger_object "layers"; ledger_object "events"; ledger_object "schema_revision"]
  ∪ grants role ["SELECT"; "INSERT"; "UPDATE"; "DELETE"] [ledger_object "materialized_findings"].
Definition reader_grants (role : string) : privileges :=
  grants role ["SELECT"] [ledger_object "materialized_findings"].

(** One [if roles.x:] block. *)
Definition configure_role (role : option string) (given : string -> privileges) (p : privileges) : privileges :=
  match role with
  | Some r => if str_truthy r then reset r p ∪ given r else p
  | None => p
  end.
Definition configure_roles (dialect_name : string) (roles : DatabaseRoles) (p : privileges) : res privileges :=
  if negb (is_postgresql dialect_name) then
    _ ← raise_if (negb (bool_decide (configured_roles roles = []))) ValueError; Ok p
  else
    Ok (configure_role (role_reader roles) reader_grants
          (configure_role (role_projector roles) projector_grants
             (configure_role (role_writer roles) writer_grants p))).

(** What the deployment gives a role. *)
Definition intended (roles : DatabaseRoles) (role : string) : privileges :=
  (if bool_decide (role_writer roles = Some role) then writer_grants role else ∅)
  ∪ (if bool_decide (role_projector roles = Some role) then projector_grants role else ∅)
  ∪ (if bool_decide (role_reader roles = Some role) then reader_grants role else ∅).

Definition grants_to_only (given : string -> privileges) : Prop := forall r r' n o, (r', n, o) ∈ given r -> r' = r.
Lemma grants_elem role names objs r n o : (r, n, o) ∈ grants role names objs -> r = role /\ n ∈ names /\ o ∈ objs.
Proof.
  unfold grants. rewrite elem_of_list_to_set. intros (o' & (n' & [= -> -> ->]%list_elem_of_singleton & Hn)%list_elem_of_bind & Ho)%list_elem_of_bind.
  done.
Qed.
Lemma writer_only : grants_to_only writer_grants.
Proof. intros r r' n o. unfold writer_grants. intros [[[H|H]%elem_of_union|H]%elem_of_union|H]%elem_of_union; by apply grants_elem in H as (-> & _). Qed.
Lemma projector_only : grants_to_only projector_grants.
Proof. intros r r' n o. unfold projector_grants. intros [H|H]%elem_of_union; by apply grants_elem in H as (-> & _). Qed.
Lemma reader_only : grants_to_only reader_grants.
Proof. intros r r' n o H. by apply grants_elem in H as (-> & _). Qed.

Lemma configure_other role given p r n o : grants_to_only given -> (str_truthy r = true -> role <> Some r) ->
  str_truthy r = true -> (r, n, o) ∈ configure_role role given p <-> (r, n, o) ∈ p.
Proof.
  intros Hg Hne Ht. specialize (Hne Ht). unfold configure_role. destruct role as [r'|]; [|done].
  destruct (str_truthy r'); [|done]. unfold reset. rewrite !elem_of_union elem_of_filter elem_of_singleton. cbn. split.
  - intros [[[_ Hin]|[= -> _ _]]|Hin%Hg]; [done| |]; congruence.
  - intros Hin. left. left. split; [|done]. intros [-> _]. congruence.
Qed.
Lemma configure_self given p r n o : grants_to_only given -> str_truthy r = true -> o ∈ objects -> LEDGER_SCHEMA ∉ objects ->
  (r, n, o) ∈ configure_role (Some r) given p <-> (r, n, o) ∈ given r.
Proof.
  intros Hg Ht Ho Hs. unfold configure_role. rewrite Ht. unfold reset.
  rewrite !elem_of_union elem_of_filter elem_of_singleton. cbn. split; [|tauto].
  intros [[[[] _]|[= _ ->]]|]; [done|done|done].
Qed.

Lemma distinct_roles roles r : NoDup (configured_roles roles) -> str_truthy r = true ->
  (role_writer roles = Some r -> role_projector roles <> Some r /\ role_reader roles <> Some r)
  /\ (role_projector roles = Some r -> role_reader roles <> Some r).
Proof.
  unfold configured_roles. intros Hnd Ht. split.
  - intros Hw. rewrite Hw /= Ht in Hnd. apply NoDup_cons in Hnd as [Hn _]. rewrite List.filter_app elem_of_app in Hn.
    split; intros He; apply Hn; [left|right]; rewrite He /= Ht; by left.
  - intros Hp He. rewrite Hp He !List.filter_app /= Ht in Hnd. apply NoDup_app in Hnd as (_ & _ & Hnd).
    apply NoDup_cons in Hnd as [Hn _]. apply Hn. by left.
Qed.
Lemma option_list_elem {A} (o : option A) x : x ∈ option_list o <-> o = Some x.
Proof.
  destruct o as [y|]; cbn; [rewrite list_elem_of_singleton|rewrite elem_of_nil]; naive_solver.
Qed.
Lemma configured_elem roles r : r ∈ configured_roles roles <->
  str_truthy r = true /\ (role_writer roles = Some r \/ role_projector roles = Some r \/ role_reader roles = Some r).
Proof.
  unfold configured_roles. rewrite list_elem_of_In filter_In -list_elem_of_In !elem_of_app !option_list_elem. tauto.
Qed.

Lemma intended_history roles r n : (r, n, ledger_object "events") ∈ intended roles r -> n ∈ ["SELECT"; "INSERT"].
Proof.
  unfold intended. intros [[H|H]%elem_of_union|H]%elem_of_union; case_bool_decide; try done.
  - apply elem_of_union in H as [[[H|H]%elem_of_union|H]%elem_of_union|H]; apply grants_elem in H as (_ & Hn & Ho);
      try discriminate (proj1 (list_elem_of_singleton _ _) Ho). done.
  - apply elem_of_union in H as [H|H]; apply grants_elem in H as (_ & Hn & Ho);
      try discriminate (proj1 (list_elem_of_singleton _ _) Ho). apply list_elem_of_singleton in Hn as ->. by left.
  - apply grants_elem in H as (_ & _ & Ho). discriminate (proj1 (list_elem_of_singleton _ _) Ho).
Qed.
Lemma intended_layers roles r n : (r, n, ledger_object "layers") ∈ intended roles r -> n ∈ ["SELECT"; "INSERT"; "UPDATE"].
Proof.
  unfold intended. intros [[H|H]%elem_of_union|H]%elem_of_union; case_bool_decide; try done.
  - apply elem_of_union in H as [[[H|H]%elem_of_union|H]%elem_of_union|H]; apply grants_elem in H as (_ & Hn & Ho);
      try discriminate (proj1 (list_elem_of_singleton _ _) Ho). done.
  - apply elem_of_union in H as [H|H]; apply grants_elem in H as (_ & Hn & Ho);
      try discriminate (proj1 (list_elem_of_singleton _ _) Ho). apply list_elem_of_singleton in Hn as ->. by left.
  - apply grants_elem in H as (_ & _ & Ho). discriminate (proj1 (list_elem_of_singleton _ _) Ho).
Qed.

Lemma configured_grants roles p p' r n o : NoDup (configured_roles roles) -> LEDGER_SCHEMA ∉ objects ->
  configure_roles "postgresql" roles p = Ok p' -> r ∈ configured_roles roles -> o ∈ objects ->
  (r, n, o) ∈ p' <-> (r, n, o) ∈ intended roles r.
Proof.
  intros Hnd Hs [= <-] [Ht Hr]%configured_elem Ho. destruct (distinct_roles _ _ Hnd Ht) as [Hw Hpj].
  assert (forall P Q R : privileges, (r, n, o) ∈ P ∪ Q ∪ R <-> (r, n, o) ∈ P \/ (r, n, o) ∈ Q \/ (r, n, o) ∈ R) as Hu
    by (intros; rewrite !elem_of_union; tauto).
  unfold intended. rewrite Hu. clear Hu. destruct Hr as [Hr|[Hr|Hr]].
  - destruct (Hw Hr) as [H1 H2]. rewrite (configure_other _ _ _ _ _ _ reader_only) // (configure_other _ _ _ _ _ _ projector_only) //.
    rewrite Hr (configure_self _ _ _ _ _ writer_only) //.
    rewrite (bool_decide_true (Some r = Some r)) // !bool_decide_false //. set_solver.
  - assert (role_writer roles <> Some r) as H1 by (intros Hc; by destruct (Hw Hc)).
    rewrite (configure_other _ _ _ _ _ _ reader_only) //; [by intros _; apply Hpj|].
    rewrite Hr (configure_self _ _ _ _ _ projector_only) //.
    rewrite (bool_decide_true (Some r = Some r)) // (bool_decide_false (_ = _)) // bool_decide_false; [by apply Hpj|set_solver].
  - assert (role_writer roles <> Some r) as H1 by (intros Hc; by destruct (Hw Hc)).
    assert (role_projector roles <> Some r) as H2 by (intros Hc; by destruct (Hpj Hc)).
    rewrite Hr (configure_self _ _ _ _ _ reader_only) //.
    rewrite (bool_decide_true (Some r = Some r)) // !bool_decide_false //. set_solver.
Qed.

(** C26: Least privilege. Whatever the roles could do before, after the roles are
    configured each of them holds exactly its own privileges on the tables and
    sequences of the ledger, and every other role what it had. None of them may
    change or remove an event or remove a layer. *)
Theorem roles_are_least_privilege roles0 roles p p' :
  LEDGER_SCHEMA ∉ objects -> {[ledger_object "events"; ledger_object "layers"]} ⊆ objects ->
  database_roles roles0 = Ok roles -> configure_roles "postgresql" roles p = Ok p' ->
  (forall r n o, r ∈ configured_roles roles -> o ∈ objects -> (r, n, o) ∈ p' <-> (r, n, o) ∈ intended roles r)
  /\ (forall r n o, str_truthy r = true -> r ∉ configured_roles roles -> (r, n, o) ∈ p' <-> (r, n, o) ∈ p)
  /\ (forall r n, r ∈ configured_roles roles -> n ∈ ["UPDATE"; "DELETE"; "TRUNCATE"] -> (r, n, ledger_object "events") ∉ p')
  /\ (forall r n, r ∈ configured_roles roles -> n ∈ ["DELETE"; "TRUNCATE"] -> (r, n, ledger_object "layers") ∉ p').
Proof.
  intros Hs Hobj Hdb Hc. unfold database_roles in Hdb. inv_bind Hdb as [u|] Hnd. injection Hdb as <-.
  apply raise_if_ok, negb_false_iff, bool_decide_eq_true in Hnd. split; [|split; [|split]].
  - intros r n o Hr Ho. exact (configured_grants _ _ _ _ _ _ Hnd Hs Hc Hr Ho).
  - intros r n o Ht Hn. injection Hc as <-. rewrite configured_elem in Hn.
    rewrite (configure_other _ _ _ _ _ _ reader_only); [tauto|done|].
    rewrite (configure_other _ _ _ _ _ _ projector_only); [tauto|done|].
    rewrite (configure_other _ _ _ _ _ _ writer_only); [tauto|done|done].
  - intros r n Hr Hn Hin. rewrite (configured_grants _ _ _ _ _ _ Hnd Hs Hc Hr) in Hin; [set_solver|].
    apply intended_history in Hin. set_solver.
  - intros r n Hr Hn Hin. rewrite (configured_grants _ _ _ _ _ _ Hnd Hs Hc Hr) in Hin; [set_solver|].
    apply intended_layers in Hin. set_solver.
Qed.
End Permissions.

(** ** Witnesses *)

#[local] Instance sample_sql : LedgerSql := {|
  statement := string;
  CONTRACT_VERSION := "v1"; SCHEMA_REVISION := 1; STORAGE_CONTRACT_VERSION := "v1"; STORAGE_REVISION := 3;
  ledger_bootstrap_files := fun _ => ["tables.sql"];
  ledger_bootstrap_statements := fun dialect _ =>
    map (ledger_table (if String.eqb dialect "postgres" then "postgresql" else "sqlite"))
      ["schema_revision"; "layers"; "events"; "materialized_findings"];
  execute := fun table db => Ok {| sc_tables := {[table]} ∪ sc_tables db; sc_storage_row := sc_storage_row db;
    sc_revision_rows := match sc_revision_rows db with None => Some [] | r => r end; sc_triggers := sc_triggers db |} |}.

Definition bare_database : schema_state := {| sc_tables := {["traust_storage_meta"; "traust_storage.traust_storage_meta"]};
  sc_storage_row := Some ("v1", 3%Z); sc_revision_rows := None; sc_triggers := ∅ |}.
Definition created (dialect_name : string) : schema_state :=
  match ensure_current dialect_name bare_database with Ok db => db | Err _ => bare_database end.
Lemma created_lite : ensure_current "sqlite" bare_database = Ok (created "sqlite").
Proof. vm_compute. reflexivity. Qed.
Lemma opening_never_migrates_witness :
  current "sqlite" (created "sqlite") /\ ensure_current "sqlite" (created "sqlite") = Ok (created "sqlite").
Proof.
  destruct (opening_never_migrates "sqlite" bare_database (created "sqlite") created_lite) as (Hc & Hs & _).
  exact (conj Hc Hs).
Defined.

(** Opening does not look for the guards: a database at the current revision
    that lost them is opened as it is, and lets its history be deleted. *)
Definition unguarded : schema_state := with_triggers (created "sqlite") ∅.
Example unguarded_is_opened : ensure_current "sqlite" unguarded = Ok unguarded
  /\ operation_accepted "sqlite" (sc_triggers unguarded) empty_database (DeleteRows "events") = true
  /\ operation_accepted "sqlite" (sc_triggers (created "sqlite")) empty_database (DeleteRows "events") = false.
Proof. split; [|split]; vm_compute; reflexivity. Qed.

Definition first_row : event_row :=
  database_values "L" {| er_sequence := 0; er_document := {["event_id" := JStr "E1"]}; er_event_id := "E1" |}.
Definition first_data : database := {| db_layers := ∅; db_events := [first_row] |}.
Lemma created_upgrade : upgrade "sqlite" bare_database = Ok (created "sqlite").
Proof. vm_compute. reflexivity. Qed.
Lemma bare_bootstrap : exists db, bootstrap "sqlite" bare_database = Ok db /\ sc_triggers db = ∅.
Proof. eexists. split; [vm_compute; reflexivity|reflexivity]. Qed.
Lemma bare_names_free db1 k t : bootstrap "sqlite" bare_database = Ok db1 -> sc_triggers db1 !! k = Some t -> False.
Proof. destruct bare_bootstrap as (db & -> & He). intros [= <-]. by rewrite He lookup_empty. Qed.
Lemma first_step : sql_step "sqlite" (sc_triggers (created "sqlite")) false empty_database first_data.
Proof. apply (step_insert_event _ _ _ empty_database first_row). vm_compute. reflexivity. Qed.

(** [INSERT OR REPLACE] of SQLite: the rows that have a unique key of the new one -
    an event's is its layer and identifier - are deleted without the triggers for
    DELETE, unless [recursive_triggers] is on, and no connection turns it on. *)
Definition replace_event (row : event_row) (data : database) : database :=
  {| db_layers := db_layers data;
     db_events := List.filter (fun r => negb (String.eqb (row_layer_id r) (row_layer_id row)
                                              && String.eqb (row_event_id r) (row_event_id row))) (db_events data) ++ [row] |}.
Definition second_row : event_row :=
  database_values "L" {| er_sequence := 1; er_document := {["event_id" := JStr "E1"; "forged" := JBool true]}; er_event_id := "E1" |}.
(** An append the triggers accept takes the place of an event that is there. *)
Lemma replace_is_not_guarded :
  operation_accepted "sqlite" (sc_triggers (created "sqlite")) first_data (InsertEvent second_row) = true
  /\ db_events (replace_event second_row first_data) = [second_row] /\ db_events first_data = [first_row].
Proof. split; [vm_compute; reflexivity|split; vm_compute; reflexivity]. Qed.

Definition ledger_objects : gset string := list_to_set (map ledger_object
  ["layers"; "events"; "schema_revision"; "materialized_findings"; "events_id_seq"]).
Definition three_roles : DatabaseRoles :=
  {| role_writer := Some "w"; role_projector := Some "p"; role_reader := Some "r" |}.
(** The writer could delete events before, and somebody else can still. *)
Definition loose : privileges := {[("w", "DELETE", ledger_object "events"); ("dba", "DELETE", ledger_object "events")]}.
Definition tightened : privileges :=
  match configure_roles ledger_objects "postgresql" three_roles loose with Ok p => p | Err _ => ∅ end.
Lemma roles_are_least_privilege_witness :
  ("w", "DELETE", ledger_object "events") ∉ tightened /\ ("dba", "DELETE", ledger_object "events") ∈ tightened.
Proof.
  destruct (roles_are_least_privilege ledger_objects three_roles three_roles loose tightened) as (_ & Ho & He & _).
  - apply (bool_decide_unpack _). vm_compute. exact I.
  - apply (bool_decide_unpack _). vm_compute. exact I.
  - vm_compute. reflexivity.
  - reflexivity.
  - split.
    + apply He; apply (bool_decide_unpack _); vm_compute; exact I.
    + apply Ho; [reflexivity|apply (bool_decide_unpack _); vm_compute; exact I|apply (bool_decide_unpack _); vm_compute; exact I].
Defined.
