(* ===== verification/Migrating.v ===== *)
(** * The migration command

    [cli/commands/migrate.py], over [Migration.v] and [Schema.v]: the choice of
    source and target, the preparation of the target's schema and roles, the
    run over the layers and the exit code.  Printed text is not modelled. *)

From S2P Require Import Prelude PyStr Json Sha256 Errors Merkle Restatements Signing Ledger Contracts.
From S2P Require Import Records Backend DbBackend Migration Schema.
From stdpp Require Import options.

(** A target: its schema, the privileges of its roles and the ledger's rows. *)
Record target := { t_dialect : string; t_schema : schema_state; t_privileges : privileges; t_data : database }.
Definition with_schema (t : target) (sc : schema_state) : target :=
  {| t_dialect := t_dialect t; t_schema := sc; t_privileges := t_privileges t; t_data := t_data t |}.
Definition with_privileges (t : target) (p : privileges) : target :=
  {| t_dialect := t_dialect t; t_schema := t_schema t; t_privileges := p; t_data := t_data t |}.
Definition with_data (t : target) (db : database) : target :=
  {| t_dialect := t_dialect t; t_schema := t_schema t; t_privileges := t_privileges t; t_data := db |}.

(** The parsed arguments. *)
Record migrate_args := {
  a_source_dir : option string; a_selection_manifest : option string;
  a_source_url : option string; a_target_url : option string;
  a_writer_role : option string; a_projector_role : option string; a_reader_role : option string;
  a_signature_key : option string; a_layers : list string; a_dry_run : bool
}.

(** How the command ends: [SystemExit] with a message, or its exit code. *)
Inductive ending := Refused | Exit (code : Z).

Section Command.
Context `{Contracts} `{StorageRegistry} `{HashFn} `{SigningTools} `{SourceTree} `{LedgerSql}.
(** The objects of the ledger's schema; the lines of a manifest file; the
    databases behind URLs that are read. *)
Context (objects : gset string) (read_lines : string -> res (list string)) (source_at : string -> res database).

(** A stream of layers: each is read when the run comes to it, and may raise. *)
Definition ledger_stream (db : database) : list (res SourceLayer) :=
  map (fun id => d ← load_layer_id id db;
                 Ok {| sl_layer_id := id; sl_document := d; sl_source := "ledger:" +:+ id; sl_error := None;
                       sl_product_repo_id := product_repo id db |}) (db_list_layer_ids db).
(** The layers up to the first that raises, and its exception. *)
Fixpoint stream_prefix (stream : list (res SourceLayer)) : list SourceLayer * option exn :=
  match stream with
  | [] => ([], None)
  | Err e :: _ => ([], Some e)
  | Ok layer :: rest => let '(ls, err) := stream_prefix rest in (layer :: ls, err)
  end.
Definition migrate_stream (dry_run : bool) (selected : option (list string)) (signature_key : option string)
    (stream : list (res SourceLayer)) (db : database) : list MigrationResult * database * option exn :=
  let '(layers, stopped) := stream_prefix stream in
  let '(results, db', err) := migrate dry_run selected signature_key layers db in
  (results, db', match err with Some e => Some e | None => stopped end).

(** [migrate] with its target: the schema is created or upgraded, the roles are
    configured, then the layers are imported. *)
Definition migrate_into (dry_run : bool) (selected : option (list string)) (roles : DatabaseRoles)
    (signature_key : option string) (stream : list (res SourceLayer)) (t : target)
  : list MigrationResult * target * option exn :=
  match upgrade (t_dialect t) (t_schema t) with
  | Err e => ([], t, Some e)
  | Ok sc =>
      let t := with_schema t sc in
      match configure_roles objects (t_dialect t) roles (t_privileges t) with
      | Err e => ([], t, Some e)
      | Ok p =>
          let t := with_privileges t p in
          let '(results, db', err) := migrate_stream dry_run selected signature_key stream (t_data t) in
          (results, with_data t db', err)
      end
  end.

(** [os.environ.get(name) or value] and the other way round. *)
Definition env (name : string) : option string := environ !! name.
Definition from_env_or (name : string) (value : option string) : option string := opt_or (env name) value.
Definition or_from_env (value : option string) (name : string) : option string := opt_or value (env name).
Definition has_at (url : option string) : bool :=
  opt_truthy url && existsb (fun c => Ascii.eqb c "@") (chars (default "" url)).

(** The source: a manifest, read in full before anything is written, or a
    ledger database.  [None] refuses. *)
Definition migration_source (args : migrate_args) : option (res (list (res SourceLayer))) :=
  match a_source_dir args, a_selection_manifest args with
  | Some _, Some manifest => Some (lines ← read_lines manifest; ls ← iter_manifest_layers lines; Ok (map Ok ls))
  | None, None =>
      let source_url := from_env_or "LAAS_MIGRATION_SOURCE_URL" (a_source_url args) in
      if opt_truthy source_url then Some (db ← source_at (default "" source_url); Ok (ledger_stream db)) else None
  | _, _ => None
  end.

Definition is_bad (r : MigrationResult) : bool :=
  match mr_status r with Conflict | Quarantined => true | Imported _ => false end.
Definition missing_layers (selected : option (list string)) (results : list MigrationResult) : list string :=
  List.filter (fun id => negb (bool_decide (id ∈ map mr_layer_id results))) (default [] selected).

Definition migration_roles (args : migrate_args) : res DatabaseRoles :=
  database_roles {| role_writer := or_from_env (a_writer_role args) "LAAS_MIGRATION_WRITER_ROLE";
                    role_projector := or_from_env (a_projector_role args) "LAAS_MIGRATION_PROJECTOR_ROLE";
                    role_reader := or_from_env (a_reader_role args) "LAAS_MIGRATION_READER_ROLE" |}.

(** The command, on the target its URL names. *)
Definition cmd_migrate (args : migrate_args) (t : target) : res ending * target :=
  let target_url := from_env_or "LAAS_MIGRATION_TARGET_URL" (a_target_url args) in
  if negb (opt_truthy target_url) then (Ok Refused, t)
  else if has_at (a_source_url args) then (Ok Refused, t)
  else if has_at (a_target_url args) then (Ok Refused, t)
  else match migration_source args with
       | None => (Ok Refused, t)
       | Some (Err e) => (Err e, t)
       | Some (Ok stream) =>
           let selected := match a_layers args with [] => None | l => Some l end in
           match migration_roles args with
           | Err e => (Err e, t)
           | Ok roles =>
               let key := or_from_env (a_signature_key args) "LAAS_MIGRATION_SIGNATURE_KEY" in
               match migrate_into (a_dry_run args) selected roles key stream t with
               | (_, t', Some e) => (Err e, t')
               | (results, t', None) =>
                   (Ok (Exit (if existsb is_bad results
                                 || negb (bool_decide (missing_layers selected results = [])) then 1%Z else 0%Z)), t')
               end
           end
       end.
End Command.

(** ** What exit code 0 means *)

Section Complete.
Context `{HC : Contracts} `{HL : !ContractLaws} `{HS : StorageRegistry} `{HH : HashFn} `{HT : SigningTools}.
Context `{HSt : SourceTree} `{HQ : LedgerSql}.
Context (objects : gset string) (read_lines : string -> res (list string)) (source_at : string -> res database).

Lemma import_not_would id data owner db st db' : import_layer id data owner false db = Ok (st, db') -> st <> WouldInsert.
Proof.
  unfold import_layer. intros Hi. do 3 inv_bind Hi. inv_bind Hi as [ex|] Hex. destruct ex as [e|].
  - do 2 inv_bind Hi. by injection Hi as <- _.
  - inv_bind Hi. inv_bind Hi as [db1|] Hp. inv_bind Hi as [again|] Ha.
    destruct again as [d|]; [|done]. do 2 inv_bind Hi. by injection Hi as <- _.
Qed.
Lemma good_result_settled key layer db db' m : migrate_layer false key layer db = (db', Ok m) -> is_bad m = false ->
  settled (mr_status m) = true.
Proof.
  unfold migrate_layer. destruct (sl_error layer); [by intros [= _ <-]|].
  destruct (validate_source layer key) as [w|e]; cbn [mbind result_bind].
  - destruct (import_layer _ _ _ _ db) as [[st db1]|e] eqn:Hi; cbn [mbind result_bind].
    + intros [= <- Hm] _. apply migration_result_inv in Hm as [_ ->]. apply import_not_would in Hi. by destruct st.
    + intros [= <- Hm]. destruct (caught e) as [st|] eqn:Hc; [|done]. apply migration_result_inv in Hm as [_ Hst].
      unfold is_bad. rewrite Hst. unfold caught in Hc. by destruct e; repeat case_match; simplify_eq/=.
  - intros [= <- Hm]. destruct (caught e) as [st|] eqn:Hc; [|done]. apply migration_result_inv in Hm as [_ Hst].
    unfold is_bad. rewrite Hst. unfold caught in Hc. by destruct e; repeat case_match; simplify_eq/=.
Qed.

Lemma migrate_layer_id dry key layer db db' m : migrate_layer dry key layer db = (db', Ok m) -> mr_layer_id m = sl_layer_id layer.
Proof.
  unfold migrate_layer. destruct (sl_error layer); [by intros [= _ <-]|].
  destruct (mbind _ _) as [[[w st] db1]|e]; intros [= _ Hm]; [by apply migration_result_inv in Hm as [-> _]|].
  destruct (caught e); [by apply migration_result_inv in Hm as [-> _]|done].
Qed.
Lemma has_source_kept layers layer db db' : extends layers db db' -> has_source layer db -> has_source layer db'.
Proof. intros Hex (d & Hd & Heq & Ho). destruct (ex_kept _ _ _ Hex _ _ Hd) as [Hd' Ho']. exists d. by rewrite Ho'. Qed.

(** A run that ends without an exception and without a bad result has every
    selected layer in the target. *)
Lemma migrate_complete selected key layers : forall db results db', db_good db ->
  migrate false selected key layers db = (results, db', None) -> existsb is_bad results = false ->
  forall layer, layer ∈ layers -> skips_layer selected layer = false -> has_source layer db'.
Proof using HL.
  induction layers as [|l layers IH]; intros db results db' Hg; cbn [migrate]; [by intros _ _ layer ?%not_elem_of_nil|].
  destruct (skips_layer selected l) eqn:Hskip.
  { intros Hm Hbad layer [->|Hin]%elem_of_cons Hs; [congruence|]. exact (IH _ _ _ Hg Hm Hbad layer Hin Hs). }
  destruct (migrate_layer false key l db) as [db1 [m|e]] eqn:Hml; [|done].
  destruct (migrate false selected key layers db1) as [[rs db2] err] eqn:Hmig. intros [= <- <- ->].
  cbn [existsb]. intros [Hm Hrs]%orb_false_iff. destruct (migrate_layer_effect _ _ _ _ _ _ Hg Hml) as (Hex & _ & Hres).
  pose proof (good_result_settled _ _ _ _ _ Hml Hm) as Hset. destruct (Hres m eq_refl) as [_ Hsrc].
  destruct (migration_is_safe _ _ _ _ _ _ _ _ (ex_good _ _ _ Hex) Hmig) as [Hex2 _].
  intros layer [->|Hin]%elem_of_cons Hs.
  - destruct (Hsrc Hset) as [Hh _]. exact (has_source_kept _ _ _ _ Hex2 Hh).
  - exact (IH _ _ _ (ex_good _ _ _ Hex) Hmig Hrs layer Hin Hs).
Qed.

Lemma migrate_results selected key dry layers : forall db results db' err, migrate dry selected key layers db = (results, db', err) ->
  forall m, m ∈ results -> exists layer, layer ∈ layers /\ sl_layer_id layer = mr_layer_id m /\ skips_layer selected layer = false.
Proof.
  induction layers as [|l layers IH]; intros db results db' err; cbn [migrate]; [intros [= <- _ _]; by intros m ?%not_elem_of_nil|].
  destruct (skips_layer selected l) eqn:Hskip.
  { intros Hm m Hin. destruct (IH _ _ _ _ Hm m Hin) as (x & Hx & ?). exists x. split; [by right|done]. }
  destruct (migrate_layer dry key l db) as [db1 [m0|e]] eqn:Hml; [|intros [= <- _ _]; by intros m ?%not_elem_of_nil].
  destruct (migrate dry selected key layers db1) as [[rs db2] err2] eqn:Hmig. intros [= <- _ _] m [->|Hin]%elem_of_cons.
  - exists l. split; [by left|]. split; [|done]. symmetry. exact (migrate_layer_id _ _ _ _ _ _ Hml).
  - destruct (IH _ _ _ _ Hmig m Hin) as (x & Hx & ?). exists x. split; [by right|done].
Qed.

(** The layers a command's source offers, all of them or as far as they can be
    read: those of the manifest, or those of the ledger behind the URL of the
    environment, else of the arguments, in its order. *)
Inductive offers (args : migrate_args) (all : bool) : list SourceLayer -> Prop :=
  | manifest_offers dir manifest lines layers : a_source_dir args = Some dir ->
      a_selection_manifest args = Some manifest -> read_lines manifest = Ok lines ->
      iter_manifest_layers lines = Ok layers -> offers args all layers
  | ledger_offers url db ids rest layers : a_source_dir args = None -> a_selection_manifest args = None ->
      from_env_or "LAAS_MIGRATION_SOURCE_URL" (a_source_url args) = Some url -> source_at url = Ok db ->
      db_list_layer_ids db = ids ++ rest -> (all = true -> rest = []) ->
      Forall2 (fun id layer => sl_layer_id layer = id /\ load_layer_id id db = Ok (sl_document layer)
                 /\ sl_product_repo_id layer = product_repo id db /\ sl_error layer = None) ids layers ->
      offers args all layers.
Definition selection_of (args : migrate_args) : option (list string) :=
  match a_layers args with [] => None | l => Some l end.
(** A layer is asked for: by name, or with all of them. *)
Definition asked_for (args : migrate_args) (id : string) : Prop := a_layers args = [] \/ id ∈ a_layers args.
Lemma asked_selected args layer : asked_for args (sl_layer_id layer) -> skips_layer (selection_of args) layer = false.
Proof.
  unfold asked_for, skips_layer, selection_of. destruct (a_layers args); [done|].
  intros [|Hin]; [done|]. by rewrite bool_decide_true.
Qed.

Lemma stream_prefix_ok layers : stream_prefix (map Ok layers) = (layers, None).
Proof. induction layers as [|l layers IH]; [done|]. cbn. by rewrite IH. Qed.
Lemma stream_prefix_inv {A} (f : A -> res SourceLayer) l layers stopped : stream_prefix (map f l) = (layers, stopped) ->
  exists read rest, l = read ++ rest /\ (stopped = None -> rest = []) /\ Forall2 (fun x layer => f x = Ok layer) read layers.
Proof.
  revert layers stopped. induction l as [|x l IH]; intros layers stopped; cbn.
  { intros [= <- <-]. by exists [], []. }
  destruct (f x) as [layer|e] eqn:Hx.
  - destruct (stream_prefix (map f l)) as [ls err] eqn:Hp. intros [= <- <-].
    destruct (IH _ _ eq_refl) as (read & rest & -> & Hr & Hf). exists (x :: read), rest. by repeat split; [|constructor].
  - intros [= <- <-]. exists [], (x :: l). by repeat split.
Qed.
(** What is read of a source is what it offers. *)
Lemma source_offers args stream layers stopped : migration_source read_lines source_at args = Some (Ok stream) ->
  stream_prefix stream = (layers, stopped) -> offers args (negb (bool_decide (is_Some stopped))) layers.
Proof.
  unfold migration_source. destruct (a_source_dir args) as [dir|] eqn:Hd, (a_selection_manifest args) as [manifest|] eqn:Hm; try done.
  - intros [= Hs] Hp. inv_bind Hs as [lines|] Hr. inv_bind Hs as [ls|] Hi. injection Hs as <-.
    rewrite stream_prefix_ok in Hp. injection Hp as <- <-. exact (manifest_offers _ _ _ _ _ _ Hd Hm Hr Hi).
  - destruct (opt_truthy _) eqn:Ht; [|done]. intros [= Hs] Hp. inv_bind Hs as [db|] Hr. injection Hs as <-.
    destruct (from_env_or _ _) as [url|] eqn:Hu; [|done]. unfold ledger_stream in Hp.
    destruct (stream_prefix_inv _ _ _ _ Hp) as (ids & rest & Hids & Hrest & Hf).
    apply (ledger_offers _ _ url db ids rest); try done.
    + intros Hn%negb_true_iff%bool_decide_eq_false. apply Hrest. destruct stopped; [by destruct Hn|done].
    + eapply Forall2_impl; [exact Hf|]. intros id layer Hl. cbn beta in Hl. inv_bind Hl as [d|] Hload. by injection Hl as <-.
Qed.

Lemma missing_none selected results : missing_layers selected results = [] ->
  forall id, id ∈ default [] selected -> id ∈ map mr_layer_id results.
Proof.
  intros Hm id Hid. destruct (decide (id ∈ map mr_layer_id results)) as [|Hn]; [done|].
  assert (In id (missing_layers selected results)) as Hin; [|by rewrite Hm in Hin].
  apply filter_In. split; [by apply list_elem_of_In|]. by rewrite bool_decide_false.
Qed.

(** What a command that ended so may have done. *)
Definition migration_outcome (args : migrate_args) (t : target) (result : res ending) (t' : target) : Prop :=
  (a_dry_run args = true -> t_data t' = t_data t)
  /\ (t_data t' = t_data t \/ exists layers, offers args false layers /\ extends layers (t_data t) (t_data t'))
  /\ (result = Ok (Exit 0) -> exists layers, offers args true layers /\ extends layers (t_data t) (t_data t')
       /\ (forall id, id ∈ a_layers args -> exists layer, layer ∈ layers /\ sl_layer_id layer = id)
       /\ (a_dry_run args = false -> forall layer, layer ∈ layers -> asked_for args (sl_layer_id layer) ->
             has_source layer (t_data t'))).
Lemma outcome_unchanged args t result t' : result <> Ok (Exit 0) -> t_data t' = t_data t ->
  migration_outcome args t result t'.
Proof. intros Hne Hx. split; [done|]. split; [by left|]. by intros ?. Qed.
Lemma offers_some args all layers : offers args all layers -> offers args false layers.
Proof. destruct 1; [eapply manifest_offers; eassumption|eapply ledger_offers; try eassumption; done]. Qed.

(** C23: What a migration does, on a target whose rows are those of its layers.
    Whatever options it is given and however it ends, the command changes no layer
    the target held, adds none under an identifier that its source - the manifest,
    or the ledger behind the source's URL - does not offer, and on a dry run leaves
    every layer alone. It ends with exit code 0 only if its whole source could be
    read, every layer it was asked for by name is among those the source offers
    and, but for a dry run, every layer of the source that was asked for - all of
    them, where none is named - is in the target with its document and its owner. *)
Theorem migration_exit_code args t result t' :
  db_good (t_data t) -> cmd_migrate objects read_lines source_at args t = (result, t') ->
  migration_outcome args t result t'.
Proof using HL.
  intros Hg. unfold cmd_migrate. set (key := or_from_env _ _).
  destruct (negb (opt_truthy _)); [by intros [= <- <-]; apply outcome_unchanged|].
  do 2 (destruct (has_at _); [by intros [= <- <-]; apply outcome_unchanged|]).
  destruct (migration_source read_lines source_at args) as [[stream|e]|] eqn:Hsrc; [|by intros [= <- <-]; apply outcome_unchanged..].
  destruct (migration_roles args) as [roles|e]; [|by intros [= <- <-]; apply outcome_unchanged].
  fold (selection_of args). unfold migrate_into. destruct (upgrade _ _) as [sc|e]; [|by intros [= <- <-]; apply outcome_unchanged].
  destruct (configure_roles _ _ _ _) as [p|e]; [|by intros [= <- <-]; apply outcome_unchanged]. cbn [t_data with_privileges with_schema].
  unfold migrate_stream. destruct (stream_prefix stream) as [layers stopped] eqn:Hpre.
  destruct (migrate (a_dry_run args) (selection_of args) key layers (t_data t)) as [[results db'] err] eqn:Hm.
  destruct (migration_is_safe _ _ _ _ _ _ _ _ Hg Hm) as (Hex & Hdry & _). intros Hend. unfold migration_outcome.
  pose proof (source_offers _ _ _ _ Hsrc Hpre) as Hoff.
  assert (t_data t' = db') as -> by (destruct err, stopped; injection Hend as _ <-; done).
  split; [done|]. split; [right; exists layers; split; [exact (offers_some _ _ _ Hoff)|done]|]. intros He. rewrite He in Hend.
  destruct err; [done|]. destruct stopped; [done|]. injection Hend as Hcode _. exists layers. split; [exact Hoff|]. split; [done|].
  destruct (existsb is_bad results) eqn:Hbad; [done|]. cbn [orb] in Hcode.
  destruct (bool_decide_reflect (missing_layers (selection_of args) results = [])) as [Hmiss|]; [|done]. split.
  - intros id Hid. assert (id ∈ map mr_layer_id results) as Hin.
    { apply (missing_none _ _ Hmiss). unfold selection_of. by destruct (a_layers args). }
    apply list_elem_of_fmap in Hin as (m & -> & Hin). destruct (migrate_results _ _ _ _ _ _ _ _ Hm m Hin) as (l & ? & ? & _). by exists l.
  - intros Hd layer Hl Ha. rewrite Hd in Hm. exact (migrate_complete _ _ _ _ _ _ Hg Hm Hbad layer Hl (asked_selected _ _ Ha)).
Qed.
End Complete.

(** ** Witnesses *)

#[local] Existing Instances sample_registry migration_world sample_sql.
#[local] Instance no_tree : SourceTree :=
  {| is_symlink := fun _ => false; resolves_inside := fun _ => true; read_bytes := fun _ => None |}.
Definition url_args (dry_run : bool) (layers : list string) : migrate_args := {|
  a_source_dir := None; a_selection_manifest := None; a_source_url := Some "sqlite:///old"; a_target_url := Some "postgresql:///new";
  a_writer_role := Some "w"; a_projector_role := None; a_reader_role := None; a_signature_key := None;
  a_layers := layers; a_dry_run := dry_run |}.
Definition bare_target : target :=
  {| t_dialect := "postgresql"; t_schema := bare_database; t_privileges := ∅; t_data := empty_database |}.
Definition migrating (dry_run : bool) (layers : list string) : res ending * target :=
  cmd_migrate ledger_objects (fun _ => Err OSError) (fun _ => Ok sample_db) (url_args dry_run layers) bare_target.
Definition after_migration : target := (migrating false ["L1"]).2.
Lemma migrating_code : (migrating false ["L1"]).1 = Ok (Exit 0).
Proof. vm_compute. reflexivity. Qed.
Lemma migrating_ok : migrating false ["L1"] = (Ok (Exit 0), after_migration).
Proof. unfold after_migration. rewrite -migrating_code. apply surjective_pairing. Qed.
Lemma migration_exit_code_witness : exists layer d, sl_layer_id layer = "L1"
  /\ db_stored "L1" (t_data after_migration) = Some d /\ py_eqb (JObj d) (JObj (sl_document layer)) = true.
Proof.
  destruct (migration_exit_code ledger_objects (fun _ => Err OSError) (fun _ => Ok sample_db) (url_args false ["L1"])
    bare_target (Ok (Exit 0)) after_migration empty_database_good migrating_ok) as (_ & _ & Hz).
  destruct (Hz eq_refl) as (layers & _ & _ & Hnamed & Hin).
  destruct (Hnamed "L1" (list_elem_of_here _ _)) as (layer & Hl & Hid).
  destruct (Hin eq_refl layer Hl) as (d & Hd & Heq & _); [right; rewrite Hid; apply list_elem_of_here|].
  exists layer, d. split; [exact Hid|]. rewrite Hid in Hd. split; [exact Hd|exact Heq].
Defined.

(** A dry run writes no layer, but it creates the schema and grants privileges. *)
Definition dry_run : res ending * target := migrating true [].
Lemma dry_run_prepares_target :
  dry_run.1 = Ok (Exit 0) /\ t_data dry_run.2 = empty_database
  /\ bool_decide (ledger_table "postgresql" "events" ∈ sc_tables (t_schema dry_run.2)) = true
  /\ bool_decide (("w", "INSERT", ledger_object "events") ∈ t_privileges dry_run.2) = true.
Proof. split_and!; vm_compute; reflexivity. Qed.
(** A layer asked for that the source lacks, and a URL with credentials. *)
Example migration_refusals :
  (migrating false ["L1"; "L9"]).1 = Ok (Exit 1) /\ has_at (Some "postgresql://u:p@h/db") = true.
Proof. split; vm_compute; reflexivity. Qed.
