(* ===== verification/Materializing.v ===== *)
(** * The command that materializes findings

    [cli/materialize.py]: where the target comes from, the preparation of its schema,
    the layers that are projected, and what the command tells about its run.
    [Projection.v] has the rows and the loop; of what is printed, the last line and
    the names of the missing layers are modelled; the per-layer lines of [--json] and the
    note on a password in [--to] are not. *)

From stdpp Require Import options sorting.
From S2P Require Import Prelude PyStr Json Sha256 Errors Restatements Signing Contracts Time Disposition Events.
From S2P Require Import Backend FileBackend DbBackend Finalize Reads Projection Schema Migrating.

(** ** [_redact] *)

(** [[^/@]*]: the longest run of other characters, and what follows it. *)
Definition in_userinfo (c : ascii) : bool := negb ((code c =? 47)%Z || (code c =? 64)%Z).
Fixpoint userinfo_run (l : list ascii) : list ascii * list ascii :=
  match l with
  | c :: l' => if in_userinfo c then let '(run, rest) := userinfo_run l' in (c :: run, rest) else ([], l)
  | [] => ([], [])
  end.
(** A match of [://[^/@]*:[^/@]*@] at the head of a text: what follows it.  The run
    up to the [@] is one of the class, so the pattern matches if it has a colon. *)
Definition credentials_at (l : list ascii) : option (list ascii) :=
  match strip_prefix (chars "://") l with
  | Some after =>
      let '(run, rest) := userinfo_run after in
      match rest with
      | c :: rest' => if (code c =? 64)%Z && existsb (fun c => (code c =? 58)%Z) run then Some rest' else None
      | [] => None
      end
  | None => None
  end.
(** [re.sub]: every match, from the left.  A match and a character that is kept
    both shorten the text, so its length is enough fuel. *)
Fixpoint redact_chars (fuel : nat) (l : list ascii) : list ascii :=
  match fuel, l with
  | Datatypes.S fuel', c :: l' =>
      match credentials_at l with
      | Some rest => chars "://***:***@" ++ redact_chars fuel' rest
      | None => c :: redact_chars fuel' l'
      end
  | _, _ => l
  end.
Definition redact (url : string) : string := of_chars (redact_chars (String.length url) (chars url)).

(** ** The command *)

Record materialize_args := {
  ma_to : option string; ma_prune_empty : bool; ma_json : bool; ma_ddl : bool; ma_layers : option (list string)
}.

(** The database the URL names. *)
Record projection_target := { pt_dialect : string; pt_schema : schema_state; pt_table : projection }.

(** How the command ends without an exception: the DDL is printed, no target is
    given, no layer was found, or the last line with its counts and target. *)
Inductive materialize_end :=
| DdlPrinted
| NoTarget
| NoLayers
| Materialized (layers findings : nat) (shown_target : string).
Definition end_code (e : materialize_end) : Z := match e with DdlPrinted | Materialized _ _ _ => 0 | _ => 1 end.

Section Command.
Context {S : Type} `{Contracts} `{DispositionModel} `{Backend S} `{Listing S} `{SigningTools} `{LedgerSql}.
(** [create_engine], and the backend of a type, a directory and a URL. *)
Context (create_engine : string -> res unit) (open_backend : string -> string -> option string -> res S).

Definition materialize_url (args : materialize_args) : option string := from_env_or "LAAS_MATERIALIZE_URL" (ma_to args).
(** [set(args.layers) if args.layers else None]. *)
Definition layer_filter (args : materialize_args) : option (list string) :=
  match ma_layers args with Some (id :: ids) => Some (id :: ids) | _ => None end.

(** [backend_from_env]. *)
Definition env_data_dir : string := default "/var/lib/laas/data" (env "LAAS_DATA_DIR").
Definition backend_from_env : res S :=
  let backend_type := default "file" (env "LAAS_BACKEND_TYPE") in
  open_backend backend_type env_data_dir
    (if String.eqb backend_type "db" then Some (default "" (env "LAAS_DATABASE_URL")) else None).

(** [sorted(layer_filter - seen_layers)]. *)
Definition missing_of (filter : option (list string)) (seen : list string) : list string :=
  match filter with
  | Some ids => List.filter (fun id => negb (bool_decide (id ∈ seen))) (merge_sort String.le (remove_dups ids))
  | None => []
  end.

(** [cmd_materialize]: how it ends, the layers it warns about, and the target
    after it.  What was committed before an exception stays. *)
Definition cmd_materialize (args : materialize_args) (now : string) (t : projection_target)
  : res (materialize_end * list string) * projection_target :=
  if ma_ddl args then (Ok (DdlPrinted, []), t)
  else if negb (opt_truthy (materialize_url args)) then (Ok (NoTarget, []), t)
  else
    let url := default "" (materialize_url args) in
    match (_ ← create_engine url; ensure_current (pt_dialect t) (pt_schema t)) with
    | Err e => (Err e, t)
    | Ok schema =>
        let t := {| pt_dialect := pt_dialect t; pt_schema := schema; pt_table := pt_table t |} in
        match backend_from_env with
        | Err e => (Err e, t)
        | Ok s =>
            let '(p, err) := materialize_layers now env_data_dir (layer_filter args) (ma_prune_empty args) s (pt_table t) in
            let t := {| pt_dialect := pt_dialect t; pt_schema := pt_schema t; pt_table := pr_table p |} in
            match err with
            | Some e => (Err e, t)
            | None =>
                let missing := missing_of (layer_filter args) (b_list_layer_ids s) in
                (Ok (if (pr_layers p =? 0)%nat then NoLayers
                     else Materialized (pr_layers p) (pr_findings p) (redact url), missing), t)
            end
        end
    end.
End Command.

(** ** What is shown of the target *)

Definition no_userinfo_end (s : string) : bool := forallb in_userinfo (chars s).

Lemma userinfo_run_app l c rest : forallb in_userinfo l = true -> in_userinfo c = false ->
  userinfo_run (l ++ c :: rest) = (l, c :: rest).
Proof.
  intros Hl Hc. induction l as [|a l IH]; cbn [app userinfo_run]; [by rewrite Hc|].
  cbn [forallb] in Hl. apply andb_prop in Hl as [Ha Hl]. by rewrite Ha IH.
Qed.
Lemma userinfo_run_length l : length (userinfo_run l).2 <= length l.
Proof.
  induction l as [|a l IH]; cbn [userinfo_run]; [done|]. destruct (in_userinfo a); [|done].
  destruct (userinfo_run l); cbn in *; lia.
Qed.
Lemma credentials_at_shorter l rest : credentials_at l = Some rest -> length rest < length l.
Proof.
  unfold credentials_at. destruct (strip_prefix _ l) as [after|] eqn:Hs; [|done].
  pose proof (userinfo_run_length after) as Hlen. destruct (userinfo_run after) as [run [|c rest']]; [done|].
  destruct (_ && _); [|done]. intros [= <-]. cbn in Hlen.
  assert (length after <= length l); [|lia]. revert Hs. generalize (chars "://").
  intros p. revert l. induction p as [|a p IH]; intros l; cbn [strip_prefix]; [by intros [= ->]|].
  destruct l as [|b l]; [done|]. destruct (Ascii.eqb a b); [|done]. intros Hs%IH. cbn. lia.
Qed.
(** More fuel changes nothing. *)
Lemma redact_fuel n m l : length l <= n -> length l <= m -> redact_chars n l = redact_chars m l.
Proof.
  revert m l. induction n as [|n IH]; intros m l Hn Hm.
  { destruct l; [by destruct m|cbn in Hn; lia]. }
  destruct m as [|m]; [destruct l; [done|cbn in Hm; lia]|].
  destruct l as [|c l]; [done|]. cbn [redact_chars]. destruct (credentials_at _) as [rest|] eqn:Hc.
  - apply credentials_at_shorter in Hc. cbn [length] in *. f_equal. apply IH; lia.
  - cbn [length] in *. f_equal. apply IH; lia.
Qed.

(** The characters of a scheme are kept. *)
Lemma redact_scheme scheme n l : forallb (fun c => negb (code c =? 58)%Z) scheme = true -> length l <= n ->
  redact_chars (length scheme + n) (scheme ++ l) = scheme ++ redact_chars n l.
Proof.
  intros Hs Hn. induction scheme as [|c scheme IH]; [done|]. cbn [forallb] in Hs. apply andb_prop in Hs as [Hc Hs].
  cbn [length Nat.add app redact_chars]. replace (credentials_at _) with (@None (list ascii)); [by rewrite IH|].
  symmetry. unfold credentials_at. change (chars "://") with (":"%char :: chars "//").
  cbn [strip_prefix]. destruct (Ascii.eqb_spec ":" c) as [<-|]; [done|done].
Qed.
Lemma credentials_at_userinfo user password rest : forallb in_userinfo user = true -> forallb in_userinfo password = true ->
  credentials_at (chars "://" ++ user ++ ":"%char :: password ++ "@"%char :: rest) = Some rest.
Proof.
  intros Hu Hp. unfold credentials_at. rewrite (_ : strip_prefix (chars "://") _ = Some (user ++ ":"%char :: password ++ "@"%char :: rest)); [reflexivity|].
  rewrite (_ : user ++ ":"%char :: password ++ "@"%char :: rest = (user ++ ":"%char :: password) ++ "@"%char :: rest);
    [by rewrite -app_assoc|].
  rewrite userinfo_run_app; [by rewrite forallb_app Hu; cbn [forallb]; rewrite Hp|done|].
  cbn [code]. rewrite (_ : existsb _ _ = true) //. rewrite existsb_app. cbn [existsb]. by rewrite orb_true_r.
Qed.

Lemma redact_match l rest : credentials_at l = Some rest ->
  redact_chars (length l) l = chars "://***:***@" ++ redact_chars (length rest) rest.
Proof.
  intros Hc. pose proof (credentials_at_shorter _ _ Hc) as Hlen. destruct l as [|c l]; [done|].
  cbn [length redact_chars]. rewrite Hc. f_equal. cbn [length] in Hlen. apply redact_fuel; lia.
Qed.
Lemma length_chars s : length (chars s) = String.length s.
Proof. induction s as [|c s IH]; [done|]. cbn. by f_equal. Qed.

(** A user and a password without a slash or an at sign are not shown, whatever
    they are. *)
Lemma redact_hides scheme user password rest : forallb (fun c => negb (code c =? 58)%Z) (chars scheme) = true ->
  no_userinfo_end user = true -> no_userinfo_end password = true ->
  redact (scheme +:+ "://" +:+ user +:+ ":" +:+ password +:+ "@" +:+ rest) = scheme +:+ "://***:***@" +:+ redact rest.
Proof.
  intros Hs Hu Hp. unfold redact. rewrite -!length_chars.
  rewrite (chars_app scheme) (chars_app "://") (chars_app user) (chars_app ":") (chars_app password) (chars_app "@").
  set (l := chars "://" ++ _). rewrite length_app redact_scheme //.
  rewrite (redact_match l (chars rest)); [by apply credentials_at_userinfo|].
  rewrite !of_chars_app of_chars_chars. by rewrite of_chars_chars.
Qed.

(** ** What a run achieves *)

Lemma missing_of_spec filter seen id :
  id ∈ missing_of filter seen <-> layer_selected filter id = true /\ filter <> None /\ id ∉ seen.
Proof.
  unfold missing_of, layer_selected. destruct filter as [ids|]; [|set_solver].
  rewrite list_elem_of_In filter_In -list_elem_of_In merge_sort_Permutation elem_of_remove_dups negb_true_iff bool_decide_eq_true bool_decide_eq_false.
  naive_solver.
Qed.

Section Properties.
Context {S : Type} `{HC : Contracts} `{HD : DispositionModel} `{HB : Backend S} `{HLi : Listing S} `{HT : SigningTools} `{HQ : LedgerSql}.
Context (create_engine : string -> res unit) (open_backend : string -> string -> option string -> res S).
#[local] Notation run := (cmd_materialize create_engine open_backend).
#[local] Notation source := (backend_from_env open_backend).

(** The selected layers are the ones counted. *)
Lemma selected_turns now dir filter s ids :
  (forall id, id ∈ ids -> is_ok (layer_turn now dir filter s id) = true) ->
  List.filter (has_turn (layer_turn now dir filter s)) ids = List.filter (layer_selected filter) ids.
Proof.
  intros Hok. apply filter_ext_in. intros id Hid%list_elem_of_In. specialize (Hok _ Hid). unfold has_turn, layer_turn in *.
  destruct (layer_key _ _ _); [|done]. cbn [mbind result_bind] in *. destruct (b_load _ _); [|done]. cbn [mbind result_bind] in *.
  destruct (layer_selected _ _); [|done]. by destruct (rows_of_layer _ _ _).
Qed.
(** A run that succeeds, taken apart. *)
Lemma run_inv args now t missing layers findings shown t' :
  run args now t = (Ok (Materialized layers findings shown, missing), t') ->
  exists url s p, materialize_url args = Some url /\ create_engine url = Ok tt /\ source = Ok s
    /\ ensure_current (pt_dialect t) (pt_schema t) = Ok (pt_schema t')
    /\ materialize_layers now env_data_dir (layer_filter args) (ma_prune_empty args) s (pt_table t) = (p, None)
    /\ t' = {| pt_dialect := pt_dialect t; pt_schema := pt_schema t'; pt_table := pr_table p |}
    /\ layers = pr_layers p /\ shown = redact url /\ missing = missing_of (layer_filter args) (b_list_layer_ids s).
Proof.
  unfold cmd_materialize. destruct (ma_ddl args); [done|]. destruct (materialize_url args) as [url|]; [|done].
  destruct (opt_truthy _); [|done]. cbn [negb from_option id]. destruct (create_engine url) as [[]|] eqn:He; cbn [mbind result_bind]; [|done].
  destruct (ensure_current _ _) as [schema|] eqn:Hs; [|done].
  destruct source as [s|] eqn:Hsrc; [|done]. cbn [pt_table]. destruct (materialize_layers _ _ _ _ _ _) as [p [e|]] eqn:Hm; [done|].
  intros [= Hend <- <-]. destruct (pr_layers p =? 0)%nat; [done|]. injection Hend as <- <- <-.
  by exists url, s, p.
Qed.

End Properties.

(** ** Witness *)

#[local] Existing Instances accept_dispositions read_listing sample_sql.
#[local] Instance projection_env : SigningTools := sample_tools
  {["LAAS_MATERIALIZE_URL" := "postgresql://ann:s3cret@db/ledger"; "LAAS_DATA_DIR" := "/data"]} "".
Definition stale_row : finding_row := {|
  fr_layer_id := "A"; fr_finding_ref := "F9"; fr_fingerprint := None; fr_orphan := None; fr_validity := "confirmed";
  fr_resolution := "open"; fr_assurance := None; fr_event_count := 1; fr_conflict := false; fr_fp_overridden := false;
  fr_fp_reassertion_blocked := false; fr_severity_override := JNull; fr_last_updated := JNull; fr_merkle_root := JNull;
  fr_merkle_epoch := JNull; fr_materialized_at := "" |}.
Definition stale_target : projection_target := {|
  pt_dialect := "postgresql"; pt_schema := bare_database; pt_table := {[("A", "F9") := stale_row; ("Z", "F9") := stale_row]} |}.
Definition projection_args : materialize_args := {|
  ma_to := None; ma_prune_empty := false; ma_json := false; ma_ddl := false; ma_layers := Some ["A"; "B"; "Q"] |}.
Definition projecting := cmd_materialize (fun _ => Ok tt) (fun _ _ _ => Ok read_files) projection_args "2026-02-01T00:00:00Z" stale_target.
Definition after_projecting : projection_target := projecting.2.
Lemma projecting_end : projecting.1 = Ok (Materialized 2 4 "postgresql://***:***@db/ledger", ["Q"]).
Proof. vm_compute. reflexivity. Qed.
Lemma projecting_ok : projecting = (Ok (Materialized 2 4 "postgresql://***:***@db/ledger", ["Q"]), after_projecting).
Proof. unfold after_projecting. rewrite -projecting_end. apply surjective_pairing. Qed.

(** A password with a slash in it is shown as it is. *)
Lemma slash_password_is_shown : redact "postgresql://ann:s3/cret@db/ledger" = "postgresql://ann:s3/cret@db/ledger".
Proof. vm_compute. reflexivity. Qed.
(** Without a target, and for the DDL, nothing is touched. *)
Example no_target_runs :
  (let args := {| ma_to := Some "x"; ma_prune_empty := false; ma_json := false; ma_ddl := true; ma_layers := None |} in
   cmd_materialize (S := files) (fun _ => Ok tt) (fun _ _ _ => Err OSError) args "" stale_target = (Ok (DdlPrinted, []), stale_target)).
Proof. reflexivity. Qed.
