(* ===== verification/Client.v ===== *)
(** * The Python client

    [client.py]: the in-process [LedgerClient].  Its token is verified and its
    actor checked against the directory at every call that writes as someone;
    the calls run the handlers of the service on the client's own backend.
    Response models and the text of errors are not modelled; the clock's text is
    a parameter. *)

From S2P Require Import Prelude PyStr Json Sha256 Errors Merkle Restatements Signing Ledger Identity.
From S2P Require Import Contracts Time Disposition Events Gates Records Backend FileBackend.
From S2P Require Import DbBackend Finalize Reads Writer Handlers Service Auth Directory Credentials Flows Session.
From stdpp Require Import options.

(** [TokenVerifierPort.verify]. *)
Definition TokenVerifierPort := string -> res LayerActor.

Record LedgerClient := {
  cl_token : string;
  cl_verifier : option TokenVerifierPort;
  cl_directory : option EmployeeDirectory;
  cl_config : ServiceConfig
}.

(** [except ServiceError], [except LayerStorageError]: raised as [LedgerError]. *)
Definition invoke {A} (r : res A) : res A :=
  match r with
  | Err (Service _) | Err (Storage _) => Err LedgerError
  | _ => r
  end.
(** One exception raised as [LedgerError]. *)
Definition as_ledger_error {A} (e : exn) (r : res A) : res A :=
  match r with
  | Err e' => if bool_decide (e' = e) then Err LedgerError else Err e'
  | _ => r
  end.

Definition principal (a : LayerActor) : string * string * string * string :=
  (kind a, lower (strip (default "" (identity a))), default "" (identity_issuer a), default "" (identity_subject a)).

(** ** Making a client *)

Section Making.
Context `{SigningTools} `{AuthTools} `{HostTools}.

(** [_resolve_identity]. *)
Definition resolve_identity (token : option string) (verifier : option TokenVerifierPort)
  : io (string * option TokenVerifierPort) :=
  match token with
  | Some t =>
      _ ← lift (raise_if (negb (str_truthy (strip t))) LedgerError);
      mret (strip t, verifier)
  | None =>
      cred ← catching AuthResolutionError None (c ← resolve_auth None; mret (Some c));
      match cred with
      | Some c => mret (rc_token c, Some (default (verify (rc_verifier c)) verifier))
      | None =>
          let raw := env_text "LAAS_TOKEN" in
          if str_truthy raw then mret (raw, verifier) else lift (Err LedgerError)
      end
  end.

(** [_service_config]; fields that are not given keep their defaults. *)
Definition service_config (backend_type data_dir : string) (database_url : option string)
    (signing : option SigningConfig) (signing_required : option bool) : ServiceConfig :=
  let required := match signing_required with
                  | Some b => b
                  | None => bool_decide (lower (default "" (environ !! "LAAS_SIGNING_REQUIRED")) ∈ ["true"; "1"; "yes"])
                  end in
  let given (f : SigningConfig -> option string) := signing ≫= fun c => if opt_truthy (f c) then f c else None in
  {| Finalize.backend_type := backend_type; Finalize.database_url := database_url; Finalize.data_dir := data_dir;
     Finalize.signing_required := required;
     signing_key_path := given key_path;
     signing_method := match signing with Some c => method_alias (method c) | None => signing_method default_config end;
     admin_identities := []; restatement_min_approvers := 0;
     oidc_issuer_url := given oidc_issuer;
     config_oidc_client_id := given oidc_client_id;
     config_identity_provider := "oidc"; config_oidc_issuer := None; oidc_audience := None; oidc_jwks_url := None;
     oidc_machine_claim := "azp"; oidc_identity_claim := "email"; oidc_trust := "" |}.

(** [_resolve_backend], of the configuration: what is given wins, then the
    environment. *)
Definition resolve_backend (backend_type data_dir database_url : option string) (signing : option SigningConfig)
    (signing_required : option bool) : ServiceConfig :=
  service_config (str_or backend_type (default "file" (environ !! "LAAS_BACKEND_TYPE")))
    (str_or data_dir (default "/var/lib/laas/data" (environ !! "LAAS_DATA_DIR")))
    (opt_or database_url (environ !! "LAAS_DATABASE_URL")) signing signing_required.

(** [LedgerClient(...)]; [None] for the directory is the deployment's. *)
Definition ledger_client (token : option string) (verifier : option TokenVerifierPort)
    (backend_type data_dir database_url : option string) (signing : option SigningConfig)
    (signing_required : option bool) (directory : option (option EmployeeDirectory)) : io LedgerClient :=
  '(token, verifier) ← resolve_identity token verifier;
  directory ← (match directory with
               | Some given => mret given
               | None => command ← lift load_directory; mret (script_is_active <$> command)
               end);
  mret {| cl_token := token; cl_verifier := verifier; cl_directory := directory;
          cl_config := resolve_backend backend_type data_dir database_url (Some (default from_env signing))
                         signing_required |}.
(** [LedgerClient.from_env()]. *)
Definition client_from_env : io LedgerClient := ledger_client None None None None None None None None.

(** [resolve_env_token]: an unreachable credential store counts as empty. *)
Definition resolve_env_token : io json :=
  let token := default "" (environ !! "LAAS_TOKEN") in
  if str_truthy (strip token) then mret (JStr (strip token)) else catching OSError JNull resolve_token.

(** ** The caller *)

(** [_actor]: [d] is the disk the call finds. *)
Definition verified_actor (c : LedgerClient) (d : disk) : res LayerActor :=
  verifier ← (match cl_verifier c with
              | Some v => Ok v
              | None => as_ledger_error AuthResolutionError (verify <$> (verifier_for_token (cl_token c) d).1)
              end);
  actor ← as_ledger_error TokenVerificationError (verifier (cl_token c));
  as_ledger_error (Service DirectoryRefusedError) (apply_directory actor (cl_directory c)).

(** [_caller]: an actor passed in must be the token's. *)
Definition caller (c : LedgerClient) (d : disk) (actor : option LayerActor) : res LayerActor :=
  verified ← verified_actor c d;
  _ ← raise_if (match actor with Some a => negb (bool_decide (principal a = principal verified)) | None => false end)
        LedgerError;
  Ok verified.
End Making.

(** ** Metadata patches *)

(** [for key, value in updates.items(): ...]. *)
Definition patch_entry (meta : dict) (kv : string * json) : dict :=
  match kv.2, get kv.1 meta with
  | JObj v, JObj old => <[kv.1 := JObj (v ∪ old)]> meta
  | v, _ => <[kv.1 := v]> meta
  end.
Definition patch_meta (updates meta : dict) : dict := fold_left patch_entry (items updates) meta.

(** The signed fields a patch would overwrite. *)
Definition overwritten (prior meta : dict) : list string :=
  List.filter (fun f => is_destructive_change (get f prior) (get f meta)) SIGNED_METADATA_FIELDS.

Section Client.
Context `{HashFn} `{SigningTools} `{Contracts} `{DispositionModel} `{AuthTools} `{HostTools}.
Context (get_schema : res (option (dict -> bool))) (now : Z) (RestatementTarget : list string) (now_text : string).
Context {S : Type} `{Backend S} `{Listing S}.
Context (c : LedgerClient) (d : disk).

Definition key_of (layer_id : string) : res LayerKey := layer_key opaque_layer_ids (data_dir (cl_config c)) layer_id.

(** [_patch_and_finalize]. *)
Definition patch_step (updates : dict) (layer : dict) : res (string * dict) :=
  prior ← metadata_or_new layer;
  let meta := patch_meta updates prior in
  _ ← raise_if (match overwritten prior meta with [] => false | _ => true end) LedgerError;
  finalize_layer (cl_config c) (with_metadata layer (<["updated" := JStr now_text]> meta)).

(** The writes: [LedgerClient]'s methods of the same names. *)
Inductive client_call :=
| CSign (layer_id : string)
| CPatchMetadata (layer_id : string) (updates : dict)
| CStampEventIdentities (layer_id : string) (fingerprints : gmap string string)
| CCreate (layer_id : string) (shell : option dict) (product_repo_id : option string)
| CStore (layer_id : string) (layer : dict)
| CSubmit (layer_id : string) (events needs_review : list dict)
| CResolve (layer_id key decision note : string)
| CCountersign (layer_id finding_ref rationale recorded_at : string) (decision severity : option string)
    (actor : option LayerActor)
| CRestate (layer_id : string) (restatement : dict) (rationale : string) (recorded_at finding_ref : option string)
    (actor : option LayerActor)
| CRestateMany (restatements : list dict) (actor : option LayerActor).

Definition client_sign (layer_id : string) (s : S) : res S :=
  _ ← verified_actor c d;
  path ← key_of layer_id;
  '(_, s') ← invoke (b_mutate path (finalize_layer (cl_config c)) s); Ok s'.

Definition patch_metadata (layer_id : string) (updates : dict) (s : S) : res S :=
  _ ← verified_actor c d;
  path ← key_of layer_id;
  '(_, s') ← invoke (b_mutate path (patch_step updates) s); Ok s'.

Definition client_stamp (layer_id : string) (fingerprints : gmap string string) (s : S) : res S :=
  _ ← verified_actor c d;
  path ← key_of layer_id;
  '(_, s') ← invoke (b_mutate path (stamp_event_identities (JStr <$> fingerprints) (cl_config c)) s); Ok s'.

Definition client_create (layer_id : string) (shell : option dict) (product_repo_id : option string) (s : S) : res S :=
  shell ← of_option shell LedgerError;
  _ ← verified_actor c d;
  invoke (initialize_layer layer_id shell (cl_config c) product_repo_id s).

(** [store] is refused whatever it is given. *)
Definition client_store (layer_id : string) (layer : dict) (s : S) : res S := Err LedgerError.

Definition client_submit (layer_id : string) (events needs_review : list dict) (s : S) : res S :=
  let body := {| batch_source_ref := "ledger-client:" +:+ layer_id; batch_recorded_at := now_text;
                 batch_events := events; batch_needs_review := needs_review |} in
  actor ← verified_actor c d;
  '(_, s') ← invoke (submit_batch get_schema layer_id body actor (cl_config c) s); Ok s'.

(** The token is not verified here. *)
Definition client_resolve (layer_id key decision note : string) (s : S) : res S :=
  invoke (resolve_item get_schema layer_id key decision note (cl_config c) s).

Definition countersign_envelope (layer_id finding_ref rationale recorded_at : string)
    (decision severity : option string) : EventEnvelope :=
  let event : dict := {["layer_id" := JStr layer_id; "finding_ref" := JStr finding_ref;
                        "rationale" := JStr rationale; "recorded_at" := JStr recorded_at]} in
  match severity with
  | Some level => {| envelope_kind := "severity"; envelope_event := <["severity" := JStr level]> event |}
  | None => {| envelope_kind := "countersign";
               envelope_event := <["decision" := from_option JStr JNull decision]> event |}
  end.
Definition client_countersign (layer_id finding_ref rationale recorded_at : string)
    (decision severity : option string) (actor : option LayerActor) (s : S) : res S :=
  let envelope := countersign_envelope layer_id finding_ref rationale recorded_at decision severity in
  who ← caller c d actor;
  '(_, s') ← invoke (submit_event get_schema now envelope who (cl_config c) s); Ok s'.

Definition client_restate (layer_id : string) (restatement : dict) (rationale : string)
    (recorded_at finding_ref : option string) (actor : option LayerActor) (s : S) : res S :=
  let block := match finding_ref with
               | Some r => if str_truthy r then <["finding_ref" := JStr r]> restatement else restatement
               | None => restatement
               end in
  who ← caller c d actor;
  '(_, s') ← invoke (apply_restatement get_schema now RestatementTarget layer_id block rationale who
                       (JStr (str_or recorded_at now_text)) (cl_config c) s); Ok s'.

Definition client_restate_many (restatements : list dict) (actor : option LayerActor) (s : S) : res S :=
  who ← caller c d actor;
  '(_, _, s') ← invoke (apply_restatement_batch get_schema now RestatementTarget now_text restatements who (cl_config c) s);
  Ok s'.

Definition call (r : client_call) (s : S) : res S :=
  match r with
  | CSign layer_id => client_sign layer_id s
  | CPatchMetadata layer_id updates => patch_metadata layer_id updates s
  | CStampEventIdentities layer_id fingerprints => client_stamp layer_id fingerprints s
  | CCreate layer_id shell owner => client_create layer_id shell owner s
  | CStore layer_id layer => client_store layer_id layer s
  | CSubmit layer_id events needs_review => client_submit layer_id events needs_review s
  | CResolve layer_id key decision note => client_resolve layer_id key decision note s
  | CCountersign layer_id finding_ref rationale recorded_at decision severity actor =>
      client_countersign layer_id finding_ref rationale recorded_at decision severity actor s
  | CRestate layer_id restatement rationale recorded_at finding_ref actor =>
      client_restate layer_id restatement rationale recorded_at finding_ref actor s
  | CRestateMany restatements actor => client_restate_many restatements actor s
  end.

(** The reads; [verify] loads its layer outside of [_invoke]. *)
Definition client_verify (layer_id : string) (check_signatures : bool) (s : S) : res verify_report :=
  layer ← load_layer layer_id (cl_config c) s;
  invoke (verify_layer (check_signatures || signing_required (cl_config c)) layer).
Definition client_get_layer (layer_id : string) (s : S) : res dict := invoke (load_layer layer_id (cl_config c) s).
(** The first layer of an owner, over the backend's [list_layer_refs]; the
    identifiers of all layers; the caller. *)
Definition find_layer (list_layer_refs : option string -> S -> list (string * option string)) (product_repo_id : string) (s : S)
  : option string := fst <$> head (list_layer_refs (Some product_repo_id) s).
Definition client_list_layers (s : S) : list string := b_list_layer_ids s.
Definition client_whoami : res LayerActor := verified_actor c d.
Definition query_findings (layer_id : string) (s : S) : res (list FindingDisposition * FindingsSummary) :=
  invoke (resolve_findings now_text layer_id (cl_config c) s).
Definition query_all_findings (cursor : option string) (limit : Z) (s : S) : res BulkFindingsResponse :=
  invoke (resolve_all_findings now_text (cl_config c) cursor limit None s).
Definition query_events (layer_id : string) (finding_ref : option string) (limit offset : Z) (s : S) : res EventsResponse :=
  invoke (query_layer_events layer_id (cl_config c) finding_ref None limit offset s).
End Client.

(** ** Lemmas *)

Lemma invoke_ok {A} (r : res A) a : invoke r = Ok a -> r = Ok a.
Proof. unfold invoke. repeat case_match; congruence. Qed.

Section Properties.
Context `{HF : HashFn} `{HT : SigningTools} `{HC : Contracts} `{HL : !ContractLaws} `{HD : DispositionModel}.
Context `{HA : AuthTools} `{HH : HostTools} {S : Type} `{HB : !Backend S} `{HBL : !BackendLaws S}.
Context (get_schema : res (option (dict -> bool))) (now : Z) (RestatementTarget : list string) (now_text : string).
Set Default Proof Using "Type".

Notation calls := (call get_schema now RestatementTarget now_text).

Lemma patch_step_history c updates layer root layer' :
  patch_step now_text c updates layer = Ok (root, layer') -> history_kept layer layer'.
Proof.
  unfold patch_step. intros Hp. inv_bind Hp as [prior|] Hm. inv_bind Hp.
  apply history_refl. rewrite (finalize_keeps_log (cl_config c) _ _ _ Hp). apply log_with_metadata.
Qed.

Lemma batch_history items actor config applied failed s s' : good s ->
  apply_restatement_batch get_schema now RestatementTarget now_text items actor config s = Ok (applied, failed, s') ->
  keeps_history s s'.
Proof using HBL.
  intros Hg [_ Hn]%bulk_restatements_account. revert Hg. induction Hn as [s|n s1 s2 s3 H12 _ IH]; intros Hg.
  - by apply keeps_history_refl.
  - destruct (writer_history _ _ _ Hg H12) as [Hg2 Ha]. destruct (IH Hg2) as [Hg3 Hb]. split; [done|].
    intros i d Hd. destruct (Ha i d Hd) as (d2 & Hd2 & Hk2). destruct (Hb i d2 Hd2) as (d3 & Hd3 & Hk3).
    exists d3. split; [done|exact (history_trans _ _ _ Hk2 Hk3)].
Qed.

Lemma call_history c d r s s' : good s -> calls c d r s = Ok s' -> keeps_history s s'.
Proof using HBL.
  intros Hg. destruct r; cbn [call]; intros Hc.
  - unfold client_sign in Hc. inv_bind Hc. inv_bind Hc as [path|] Hp. inv_bind Hc as [[r s1]|] Hm. injection Hc as <-.
    apply invoke_ok in Hm. refine (mutate_history _ _ _ _ _ _ Hg _ Hm). intros l x l' Hf.
    apply history_refl. exact (finalize_keeps_log _ _ _ _ Hf).
  - unfold patch_metadata in Hc. inv_bind Hc. inv_bind Hc as [path|] Hp. inv_bind Hc as [[r s1]|] Hm. injection Hc as <-.
    apply invoke_ok in Hm. refine (mutate_history _ _ _ _ _ _ Hg _ Hm). intros l x l' Hf. exact (patch_step_history _ _ _ _ _ Hf).
  - unfold client_stamp in Hc. inv_bind Hc. inv_bind Hc as [path|] Hp. inv_bind Hc as [[r s1]|] Hm. injection Hc as <-.
    apply invoke_ok in Hm. refine (mutate_history _ _ _ _ _ _ Hg _ Hm). intros l x l' Hf. exact (stamp_history _ _ _ _ _ Hf).
  - unfold client_create in Hc. inv_bind Hc as [sh|] Hsh. inv_bind Hc. apply invoke_ok in Hc.
    exact (service_step_history get_schema now RestatementTarget _ _ Hg (post_initialize _ _ _ _ _ _ _ _ _ Hc)).
  - done.
  - unfold client_submit in Hc. inv_bind Hc as [who|] Hw. inv_bind Hc as [[r s1]|] Hm. injection Hc as <-. apply invoke_ok in Hm.
    exact (submit_batch_history _ _ _ _ _ _ _ _ Hg Hm).
  - unfold client_resolve in Hc. apply invoke_ok in Hc.
    exact (service_step_history get_schema now RestatementTarget _ _ Hg (post_resolve _ _ _ _ _ _ _ _ _ _ Hc)).
  - unfold client_countersign in Hc. inv_bind Hc as [who|] Hw. inv_bind Hc as [[r s1]|] Hm. injection Hc as <-. apply invoke_ok in Hm.
    exact (service_step_history get_schema now RestatementTarget _ _ Hg (post_event _ _ _ _ _ _ _ _ _ Hm)).
  - unfold client_restate in Hc. inv_bind Hc as [who|] Hw. inv_bind Hc as [[r s1]|] Hm. injection Hc as <-. apply invoke_ok in Hm.
    exact (writer_history get_schema _ _ Hg (apply_restatement_step _ _ _ _ _ _ _ _ _ _ _ _ Hm)).
  - unfold client_restate_many in Hc. inv_bind Hc as [who|] Hw. inv_bind Hc as [[[ap fl] s1]|] Hm. injection Hc as <-.
    apply invoke_ok in Hm. exact (batch_history _ _ _ _ _ _ _ Hg Hm).
Qed.

(** *** Metadata patches *)

(** What a patch makes of one key. *)
Definition patched (old : option json) (new : option json) : option json :=
  match new, default JNull old with
  | Some (JObj v), JObj o => Some (JObj (v ∪ o))
  | Some v, _ => Some v
  | None, _ => old
  end.
Lemma patch_entry_lookup meta kv k : patch_entry meta kv !! k =
  if String.eqb kv.1 k then patched (meta !! k) (Some kv.2) else meta !! k.
Proof.
  unfold patch_entry, patched, get. destruct (String.eqb_spec kv.1 k) as [<-|Hne].
  - destruct kv.2, (default JNull (meta !! kv.1)); by rewrite lookup_insert_eq.
  - destruct kv.2, (default JNull (meta !! kv.1)); by rewrite lookup_insert_ne.
Qed.
Lemma patch_entries_lookup l meta k : NoDup l.*1 ->
  fold_left patch_entry l meta !! k
  = patched (meta !! k) (snd <$> List.find (fun kv => String.eqb kv.1 k) l).
Proof.
  revert meta. induction l as [|kv l IH]; intros meta Hnd; cbn [fold_left List.find].
  - by destruct (meta !! k) as [[]|].
  - cbn in Hnd. apply NoDup_cons in Hnd as [Hni Hnd]. rewrite IH // patch_entry_lookup.
    destruct (String.eqb_spec kv.1 k) as [<-|]; [|done].
    assert (List.find (fun kv0 => String.eqb kv0.1 kv.1) l = None) as Hnone; [|by rewrite Hnone].
    destruct (List.find _ l) as [kv'|] eqn:Hf; [|done].
    apply find_some in Hf as [Hin Heq%String.eqb_eq]. destruct Hni. rewrite -Heq.
    apply list_elem_of_fmap. exists kv'. split; [done|by apply list_elem_of_In].
Qed.
(** A patch sets the keys it names, merging objects one level deep, and leaves
    every other key alone. *)
Lemma patch_meta_lookup updates meta k : patch_meta updates meta !! k = patched (meta !! k) (updates !! k).
Proof.
  unfold patch_meta. rewrite patch_entries_lookup; [apply items_nodup|]. f_equal.
  destruct (List.find _ (items updates)) as [[k' v]|] eqn:Hf.
  - apply find_some in Hf as [Hin%list_elem_of_In%items_lookup Hk]. apply String.eqb_eq in Hk. cbn in Hk. by subst.
  - destruct (updates !! k) as [v|] eqn:Hv; [|done]. apply items_lookup, list_elem_of_In in Hv.
    pose proof (find_none _ _ Hf _ Hv) as Hn. cbn in Hn. by rewrite String.eqb_refl in Hn.
Qed.

Lemma overwritten_none prior meta : overwritten prior meta = [] ->
  forall f, f ∈ SIGNED_METADATA_FIELDS -> is_destructive_change (get f prior) (get f meta) = false.
Proof.
  unfold overwritten. intros Hnil f Hf. destruct (is_destructive_change _ _) eqn:E; [|done].
  assert (f ∈ List.filter (fun f => is_destructive_change (get f prior) (get f meta)) SIGNED_METADATA_FIELDS) as Hin
    by (apply list_elem_of_In, filter_In; split; [by apply list_elem_of_In|done]).
  rewrite Hnil in Hin. by apply not_elem_of_nil in Hin.
Qed.


(** C16: An event is recorded as the caller who authenticated. A countersign
    given an actor goes through only if that actor is the token's, by kind,
    identity, issuer and subject, and then it is the very countersign the caller
    would have made without it: nothing else of the given actor, neither its
    verification nor its employment, reaches the ledger. *)
Theorem caller_is_the_token c dk layer_id ref rationale at_text decision severity actor s s' : good s ->
  client_countersign get_schema now c dk layer_id ref rationale at_text decision severity actor s = Ok s' ->
  exists who, verified_actor c dk = Ok who
    /\ (forall a, actor = Some a -> principal a = principal who)
    /\ client_countersign get_schema now c dk layer_id ref rationale at_text decision severity None s = Ok s'
    /\ (severity = None -> countersigned (cl_config c)
           (envelope_event (countersign_envelope layer_id ref rationale at_text decision None)) who s s').
Proof using HL HBL.
  intros Hg. unfold client_countersign, caller. intros Hc. inv_bind Hc as [who|] Hw.
  inv_bind Hw as [v|] Hv. inv_bind Hw as [[]|] Hp. injection Hw as ->. apply raise_if_ok in Hp.
  exists who. split; [done|]. split.
  { intros a ->. apply negb_false_iff, bool_decide_eq_true in Hp. done. }
  cbn [mbind result_bind raise_if]. split; [exact Hc|]. intros ->.
  inv_bind Hc as [[r s1]|] Hm. injection Hc as <-. apply invoke_ok in Hm.
  refine (countersign_authority get_schema now _ _ _ _ _ _ Hg _ Hm). reflexivity.
Qed.
End Properties.

(** ** Witnesses: a client on the file backend *)

#[local] Instance client_env : SigningTools := sample_tools ∅ (dumps true sample_bundle).
#[local] Instance client_auth : AuthTools := sample_auth (fun _ => RunError).
#[local] Instance client_host : HostTools := sample_host.
#[local] Instance client_registry : StorageRegistry := {| registered := fun o => bool_decide (o = "repo-1"); collates := String.leb |}.

Definition knows (token : string) (a : LayerActor) : TokenVerifierPort :=
  fun t => if String.eqb t token then Ok a else Err TokenVerificationError.
Definition sample_client : LedgerClient :=
  {| cl_token := "t"; cl_verifier := Some (knows "t" ann); cl_directory := None; cl_config := sample_config |}.
(** The same client with a token its verifier does not accept. *)
Definition expired_client : LedgerClient :=
  {| cl_token := "old"; cl_verifier := Some (knows "t" ann); cl_directory := None; cl_config := sample_config |}.
Definition store_after (r : res files) : files := match r with Ok s => s | Err _ => ∅ end.

Definition patch_call : dict := {["artifact_digests" := JObj {["triage.json" := JStr "ab"]}; "note" := JStr "reviewed"]}.
Definition patching : res files := patch_metadata "2026-01-05T00:00:00Z" sample_client ∅ "L" patch_call sample_files.
Definition patched_files : files := Eval vm_compute in store_after patching.
Lemma patching_ok : patching = Ok patched_files.
Proof. vm_compute. reflexivity. Qed.


(** A patch that would replace a recorded claim hash is refused. *)
Lemma patch_refuses_overwrite :
  patch_metadata "now" sample_client ∅ "L" {["claim_hashes" := JObj {["F1" := JStr "h2"]}]} sample_files = Err LedgerError.
Proof. vm_compute. reflexivity. Qed.

(** The epoch of the tree is signed, but no field the patch protects: a patch moves
    it past an event, which leaves the tree. *)
Definition epoch_and_size (fs : files) : res (json * json) :=
  d ← b_load sample_key_L fs; m ← get_obj "metadata" d; Ok (get "merkle_epoch" m, get "merkle_size" m).
Lemma patch_moves_signed_epoch :
  epoch_and_size sample_batched = Ok (JInt 0, JInt 2)
  /\ (fs ← patch_metadata "now" sample_client ∅ "L" {["merkle_epoch" := JInt 1]} sample_batched; epoch_and_size fs)
     = Ok (JInt 1, JInt 1).
Proof. split; vm_compute; reflexivity. Qed.

(** An actor passed in with the caller's principal but another standing. *)
Definition posing : LayerActor := with_status (sample_actor "human" (Some " Ann ") (Some false)) "active".
Definition countersigning : res files :=
  client_countersign no_schema sample_now sample_client ∅ "L" "F1" "not reachable here" "2026-01-02T00:00:00Z"
    (Some "false_positive") None (Some posing) sample_files.
Definition countersigned_files : files := Eval vm_compute in store_after countersigning.
Lemma countersigning_ok : countersigning = Ok countersigned_files.
Proof. vm_compute. reflexivity. Qed.

Lemma caller_is_the_token_witness :
  exists who, verified_actor sample_client ∅ = Ok who /\ principal posing = principal who
    /\ countersigned sample_config (envelope_event (countersign_envelope "L" "F1" "not reachable here"
         "2026-01-02T00:00:00Z" (Some "false_positive") None)) who sample_files countersigned_files.
Proof.
  destruct (caller_is_the_token no_schema sample_now sample_client ∅ "L" "F1" "not reachable here"
    "2026-01-02T00:00:00Z" (Some "false_positive") None (Some posing) sample_files countersigned_files)
    as (who & Hw & Hp & _ & Hc); [exact sample_files_good|exact countersigning_ok|].
  exists who. split; [exact Hw|]. split; [exact (Hp posing eq_refl)|exact (Hc eq_refl)].
Defined.

(** [verify] does not raise a missing layer as a [LedgerError]; [client_get_layer] does. *)
Lemma verify_leaks_not_found :
  client_verify sample_client "absent" false sample_files = Err (Service LayerNotFoundError)
  /\ client_get_layer sample_client "absent" sample_files = Err LedgerError.
Proof. split; vm_compute; reflexivity. Qed.

(** [resolve] closes a review item for a client whose token is not accepted. *)
Definition sample_item_key : string := dumps true (JArr (review_item_key sample_review)).
Lemma resolve_needs_no_token :
  verified_actor expired_client ∅ = Err LedgerError
  /\ client_sign expired_client ∅ "L" sample_files = Err LedgerError
  /\ exists fs, client_resolve no_schema expired_client "L" sample_item_key "rejected" "a duplicate" sample_files = Ok fs
     /\ bool_decide (fs = sample_files) = false.
Proof.
  split; [vm_compute; reflexivity|]. split; [vm_compute; reflexivity|].
  eexists. split; [vm_compute; reflexivity|vm_compute; reflexivity].
Qed.
