(* ===== verification/Cli.v ===== *)
(** * The command line

    [cli/main.py], [cli/__init__.py], [cli/errors.py] and [cli/commands/]: the
    commands that write, sign, verify or read layers; [Session.v] has the gate they
    pass and [Stamping.v] the command on reports.  A command reads its files and
    credentials from the disk, works on the store of the configured backend and
    ends with an exit code; an exception that no clause catches ends it with a
    traceback, and what it wrote before stays.  [Arguments.v] reads the command
    line; the printed text is not modelled, but for the reports of [ledger verify]. *)

From S2P Require Import Prelude PyStr Json Sha256 Errors Merkle Restatements Signing Ledger Identity.
From S2P Require Import Contracts Time Disposition Events Gates Records Backend FileBackend.
From S2P Require Import DbBackend Finalize Reads Writer Handlers Service Auth Directory Credentials Flows Session Access Client.
From stdpp Require Import options.

(** An exit code or a traceback, and the store after it. *)
Definition outcome (S : Type) : Type := res Z * S.
Definition exits {S} (code : Z) (s : S) : outcome S := (Ok code, s).
Definition raises {S} (e : exn) (s : S) : outcome S := (Err e, s).

(** [str(Path(p))] and [str(Path(p).parent)]: empty and [.] components go. *)
Definition path_root (p : string) : string :=
  if startswith p "//" && negb (startswith p "///") then "//" else if startswith p "/" then "/" else "".
Definition path_parts (p : string) : list string :=
  List.filter (fun c => negb (String.eqb c "") && negb (String.eqb c ".")) (split "/"%char p).
Definition path_text (root : string) (parts : list string) : string :=
  let text := root +:+ join "/" parts in if str_truthy text then text else ".".
Definition path_str (p : string) : string := path_text (path_root p) (path_parts p).
Definition path_parent (p : string) : string := path_text (path_root p) (removelast (path_parts p)).

Section Gate.
Context `{SigningTools} `{AuthTools} `{HostTools}.

(** The gates of a writing command: an actor, or the exit code 1. *)
Definition command_actor : io (option LayerActor) :=
  ok ← require_cli_auth;
  if (ok : bool) then require_verified_actor else mret None.

(** [json.loads(Path(p).read_text())] under [except (OSError, JSONDecodeError)]. *)
Definition json_file (path : string) : io (option json) := fun d =>
  (match (read_text path d).1 with
   | Ok text => Ok (loads text)
   | Err OSError => Ok None
   | Err e => Err e
   end, d).
End Gate.

(** [config_from_env]: the authorization settings are left at their defaults. *)
Definition config_from_env `{SigningTools} (data_dir : option string) : ServiceConfig :=
  let env name dflt := default dflt (environ !! name) in
  {| Finalize.backend_type := env "LAAS_BACKEND_TYPE" "file"; database_url := environ !! "LAAS_DATABASE_URL";
     Finalize.data_dir := str_or data_dir (env "LAAS_DATA_DIR" "/var/lib/laas/data");
     signing_required := bool_decide (lower (env "LAAS_SIGNING_REQUIRED" "") ∈ ["true"; "1"; "yes"]);
     signing_key_path := environ !! "LAAS_SIGNING_KEY_PATH"; signing_method := env "LAAS_SIGNING_METHOD" "cosign";
     admin_identities := []; restatement_min_approvers := 0; oidc_issuer_url := None; config_oidc_client_id := None;
     config_identity_provider := "oidc"; config_oidc_issuer := None; oidc_audience := None; oidc_jwks_url := None;
     oidc_machine_claim := "azp"; oidc_identity_claim := "email"; oidc_trust := "" |}.

Definition verdict_to_validity (verdict : string) : res string :=
  if String.eqb verdict "false_positive" then Ok "false_positive"
  else if bool_decide (verdict ∈ ["keep_open"; "confirmed"]) then Ok "confirmed"
  else Err ValueError.

Section Commands.
Context `{HashFn} `{SigningTools} `{Contracts} `{DispositionModel} `{AuthTools} `{HostTools}.
Context (get_schema : res (option (dict -> bool))) (now : Z) (RestatementTarget : list string) (now_text : string).
Context {S : Type} `{Backend S} `{Listing S}.

(** [local_writer()]'s configuration. *)
Definition cli_config : ServiceConfig := config_from_env None.

(** Run a command's body for its actor on the disk the gates leave. *)
Definition with_actor (d : disk) (s : S) (body : LayerActor -> disk -> outcome S) : outcome S :=
  match command_actor d with
  | (Ok (Some actor), d') => body actor d'
  | (Ok None, _) => exits 1 s
  | (Err e, _) => raises e s
  end.
(** [except ServiceError: return cli_exit_service_error(exc)] around one write. *)
Definition finish {A} (r : res (A * S)) (s : S) : outcome S :=
  match r with
  | Ok (_, s') => exits 0 s'
  | Err (Service _) => exits 1 s
  | Err e => raises e s
  end.

(** ** countersign, event *)

(** [discover_layer_for_finding]: the first layer with an event about it. *)
Definition mentions (finding_ref : string) (layer : dict) : res bool :=
  events ← events_of layer;
  Ok (existsb (fun e => match e with JObj m => py_eqb (get "finding_ref" m) (JStr finding_ref) | _ => false end) events).
Fixpoint discover_in (finding_ref : string) (ids : list string) (s : S) : res (option string) :=
  match ids with
  | [] => Ok None
  | id :: ids' =>
      key ← layer_key opaque_layer_ids (data_dir cli_config) id;
      layer ← b_load key s;
      found ← mentions finding_ref layer;
      if (found : bool) then Ok (Some id) else discover_in finding_ref ids' s
  end.
Definition discover_layer_for_finding (finding_ref : string) (s : S) : res (option string) :=
  discover_in finding_ref (b_list_layer_ids s) s.

(** [_build_event]: [None] is a message and the exit code 1. *)
Definition cli_build_event (finding_ref verdict rationale : string) (layer severity : option string) (s : S)
  : res (option EventEnvelope) :=
  layer_id ← (if opt_truthy layer then Ok layer else discover_layer_for_finding finding_ref s);
  if negb (opt_truthy layer_id) then Ok None
  else
    let event : dict := {["layer_id" := JStr (default "" layer_id); "finding_ref" := JStr finding_ref;
                          "rationale" := JStr rationale; "recorded_at" := JStr now_text]} in
    if String.eqb verdict "severity" then
      Ok (if opt_truthy severity
          then Some {| envelope_kind := "severity"; envelope_event := <["severity" := opt_json severity]> event |}
          else None)
    else
      validity ← verdict_to_validity verdict;
      Ok (Some {| envelope_kind := "countersign";
                  envelope_event := <["decision" := JStr (if String.eqb verdict "false_positive" then "false_positive" else "keep_open")]>
                                      (<["disposition" := JObj {["validity" := JStr validity]}]> event) |}).

Definition cmd_countersign (finding_ref verdict rationale : string) (layer severity : option string)
    (d : disk) (s : S) : outcome S :=
  with_actor d s (fun actor _ =>
    match cli_build_event finding_ref verdict rationale layer severity s with
    | Ok (Some envelope) => finish (submit_event get_schema now envelope actor cli_config s) s
    | Ok None => exits 1 s
    | Err e => raises e s
    end).

Definition cmd_event (path event_kind : string) (d : disk) (s : S) : outcome S :=
  with_actor d s (fun actor d' =>
    match (json_file path d').1 with
    | Ok (Some (JObj event)) =>
        finish (submit_event get_schema now {| envelope_kind := event_kind; envelope_event := event |} actor cli_config s) s
    | Ok _ => exits 1 s
    | Err e => raises e s
    end).

(** ** initialize, resolve *)

Definition cmd_initialize (layer_file layer : string) (product_repo_id : option string) (d : disk) (s : S) : outcome S :=
  with_actor d s (fun actor d' =>
    match (text ← (read_text layer_file d').1;
           shell ← of_option (loads text) ValueError;
           shell ← of_option (as_dict shell) ValueError;
           initialize_layer layer shell cli_config product_repo_id s) with
    | Ok s' => exits 0 s'
    | Err (Service _) | Err OSError => exits 1 s
    | Err e => if is_value_error e then exits 1 s else raises e s
    end).

Definition cmd_resolve (layer_id key decision : string) (note : option string) (d : disk) (s : S) : outcome S :=
  with_actor d s (fun actor _ =>
    finish (_ ← parse_item_key key;
            s' ← resolve_item get_schema layer_id key decision (default "" note) cli_config s;
            Ok (tt, s')) s).

(** ** submit *)

(** The events and the queue items of the two files; [None] is the exit code 1. *)
Definition submit_payload (payload : json) (queue_file : option string) (d : disk)
  : res (option (json * list json)) :=
  match payload with
  | JArr _ | JObj _ =>
      let '(events, needs_review) :=
        match payload with
        | JObj m => (default (JArr []) (m !! "events"), default (JArr []) (m !! "needs_review"))
        | _ => (payload, JArr [])
        end in
      queue ← (if opt_truthy queue_file then (json_file (default "" queue_file) d).1 else Ok (Some (JArr [])));
      match queue with
      | Some (JArr items) =>
          needs_review ← of_option (as_list needs_review) TypeError;
          Ok (Some (events, needs_review ++ items))
      | _ => Ok None
      end
  | _ => Ok None
  end.

(** [{**event, "source": {**source, "actor": actor.to_dict()}}], of the objects. *)
Definition stamp_submitted (actor : LayerActor) (events : list json) : list dict :=
  map (stamp_batch_actor actor) (omap as_dict events).
Definition stamp_queue_item (actor : LayerActor) (source_ref : string) (item : json) : json :=
  match item with
  | JObj m => JObj (setdefault "source_ref" (JStr source_ref) (setdefault "submitted_by" (JObj (actor_to_dict actor)) m))
  | v => v
  end.

(** Two writes, each on its own: the events, then the queue. *)
Definition submit_queue (key : LayerKey) (actor : LayerActor) (source_ref : string) (queue : list json) (s : S)
  : outcome S :=
  match queue with
  | [] => exits 0 s
  | _ => match append_needs_review get_schema key (map (stamp_queue_item actor source_ref) queue) s with
         | Ok (_, s') => exits 0 s'
         | Err e => raises e s
         end
  end.
Definition submit_writes (key : LayerKey) (actor : LayerActor) (source_ref : string) (events : json) (queue : list json)
    (s : S) : outcome S :=
  match json_iter events with
  | Err e => raises e s
  | Ok l =>
      match stamp_submitted actor l with
      | [] => submit_queue key actor source_ref queue s
      | stamped =>
          match append_events get_schema key stamped s with
          | Ok (_, s1) => submit_queue key actor source_ref queue s1
          | Err (InternalEventIdMismatchError _ _) | Err InternalIdentityUnverifiedError => exits 1 s
          | Err e => raises e s
          end
      end
  end.

Definition cmd_submit (events_file layer : string) (queue_file : option string) (source_ref : string) (d : disk) (s : S)
  : outcome S :=
  match require_cli_auth d with
  | (Err e, _) => raises e s
  | (Ok false, _) => exits 1 s
  | (Ok true, d1) =>
      match (payload ← (json_file events_file d1).1;
             match payload with Some p => submit_payload p queue_file d1 | None => Ok None end) with
      | Err e => raises e s
      | Ok None => exits 1 s
      | Ok (Some (events, queue)) =>
          match require_verified_actor d1 with
          | (Err e, _) => raises e s
          | (Ok None, _) => exits 1 s
          | (Ok (Some actor), _) =>
              match layer_key opaque_layer_ids (data_dir cli_config) layer with
              | Ok key => submit_writes key actor source_ref events queue s
              | Err e => raises e s
              end
          end
      end
  end.

(** ** restate: one restatement *)

(** [_load_json_arg]. *)
Definition load_json_arg (raw : string) (d : disk) : res json :=
  if startswith raw "@" then text ← (read_text (of_chars (drop 1 (chars raw))) d).1; of_option (loads text) ValueError
  else of_option (loads raw) ValueError.

Record restate_args := {
  ra_layer : option string; ra_target : option string; ra_reason : option string; ra_before : option string;
  ra_after : option string; ra_ticket : option string; ra_approved_by : option string; ra_rationale : option string;
  ra_finding_ref : option string; ra_schema_from : option string; ra_schema_to : option string
}.
Definition set_given (key : string) (v : option string) (m : dict) : dict :=
  if opt_truthy v then <[key := opt_json v]> m else m.
(** [_block_from_args]. *)
Definition block_from_args (a : restate_args) (d : disk) : res dict :=
  let authority := set_given "approved_by" (ra_approved_by a) {["ticket" := opt_json (ra_ticket a)]} in
  before ← load_json_arg (default "" (ra_before a)) d;
  after ← load_json_arg (default "" (ra_after a)) d;
  Ok (set_given "finding_ref" (ra_finding_ref a)
       (set_given "schema_to" (ra_schema_to a)
         (set_given "schema_from" (ra_schema_from a)
           {["target" := opt_json (ra_target a); "reason" := opt_json (ra_reason a); "before" := before;
             "after" := after; "authority" := JObj authority]}))).

(** [apply_restatement] of a rationale that is [None]: the third gate takes its
    length. *)
Definition restate_without_rationale {A} (actor : LayerActor) : res A :=
  _ ← require_signing_configured cli_config;
  _ ← require_verified_human actor;
  Err TypeError.
(** [cmd_restate] without [--from], which is [cmd_restate_batch]. *)
Definition cmd_restate (a : restate_args) (d : disk) (s : S) : outcome S :=
  with_actor d s (fun actor d' =>
    if negb (forallb opt_truthy [ra_layer a; ra_target a; ra_reason a; ra_before a; ra_after a; ra_ticket a])
    then exits 1 s
    else match block_from_args a d' with
         | Ok block =>
             finish (match ra_rationale a with
                     | Some rationale => apply_restatement get_schema now RestatementTarget (default "" (ra_layer a)) block
                                           rationale actor (JStr now_text) cli_config s
                     | None => restate_without_rationale actor
                     end) s
         | Err OSError => exits 1 s
         | Err e => if is_value_error e then exits 1 s else raises e s
         end).

(** ** restate: a file of restatements *)

(** [_batch_items]; [None] is the exit code 1. *)
Definition batch_items (path : string) (d : disk) : res (option (list json)) :=
  match (read_text path d).1 with
  | Err OSError => Ok None
  | Err e => Err e
  | Ok text =>
      match loads text with
      | Some (JObj m) => Ok (match get "restatements" m with JArr (i :: l) => Some (i :: l) | _ => None end)
      | Some (JArr (i :: l)) => Ok (Some (i :: l))
      | _ => Ok None
      end
  end.
(** The loop of [apply_restatement_batch]: what it committed stays when an item
    raises; the flag says that some item failed. *)
Fixpoint restate_items (actor : LayerActor) (items : list json) (s : S) : res bool * S :=
  match items with
  | [] => (Ok false, s)
  | JObj item :: items' =>
      match apply_item get_schema now RestatementTarget now_text actor cli_config item s with
      | Ok (_, s') => restate_items actor items' s'
      | Err e => if is_item_failure e then let '(r, s') := restate_items actor items' s in ((fun _ => true) <$> r, s')
                 else (Err e, s)
      end
  | _ :: _ => (Err AttributeError, s)
  end.
Definition cmd_restate_batch (path : string) (d : disk) (s : S) : outcome S :=
  with_actor d s (fun actor d' =>
    match batch_items path d' with
    | Ok (Some items) =>
        let '(r, s') := restate_items actor items s in
        ((fun failed : bool => if failed then 1 else 0)%Z <$> r, s')
    | Ok None => exits 1 s
    | Err e => raises e s
    end).

(** [main]: a storage error is a message and the exit code 1. *)
Definition main_guard (o : outcome S) : outcome S :=
  match o with
  | (Err (Storage _), s) => exits 1 s
  | _ => o
  end.

(** ** sign *)

Record sign_args := { sa_method : string; sa_key : option string; sa_oidc_issuer : option string;
                      sa_oidc_client_id : option string; sa_expected_identity : option string; sa_rekor : bool }.
Definition build_credentials (a : sign_args) : SigningConfig :=
  if String.eqb (sa_method a) "identity" then {|
    method := "identity"; key_path := None;
    oidc_issuer := opt_or (sa_oidc_issuer a) (signing_env "OIDC_ISSUER");
    oidc_client_id := opt_or (sa_oidc_client_id a) (signing_env "OIDC_CLIENT_ID");
    expected_identity := opt_or (sa_expected_identity a) (signing_env "EXPECTED_IDENTITY");
    oidc_token := signing_env "OIDC_TOKEN"; allow_interactive := String.eqb (signing_env_or "OIDC_INTERACTIVE" "0") "1";
    ca_url := signing_env "CA_URL"; tlog_url := signing_env "TLOG_URL" |}
  else {|
    method := "keypair"; key_path := opt_or (sa_key a) (signing_env "KEY_PATH");
    oidc_issuer := None; oidc_client_id := None; expected_identity := None; oidc_token := None;
    allow_interactive := false; ca_url := None; tlog_url := None |}.

(** The document of a file is signed and stored under the file's path. *)
Definition cmd_sign (layer_path : string) (a : sign_args) (d : disk) (s : S) : outcome S :=
  match require_cli_auth d with
  | (Err e, _) => raises e s
  | (Ok false, _) => exits 1 s
  | (Ok true, d1) =>
      match (json_file layer_path d1).1 with
      | Err e => raises e s
      | Ok None | Ok (Some JNull) => exits 1 s
      | Ok (Some v) =>
          let creds := build_credentials a in
          if negb (opt_truthy (key_path creds)) && negb (opt_truthy (oidc_token creds)) then exits 1 s
          else match (layer ← of_option (as_dict v) AttributeError;
                      sign_layer (config_from_env (Some (path_parent layer_path))) (sa_rekor a) (Some creds) layer) with
               | Err e => raises e s
               | Ok ((status, _), layer) =>
                   if negb (bool_decide (status = SSigned)) then exits 1 s
                   else match b_store (FileKey (path_str layer_path)) layer s with
                        | Ok s' => exits 0 s'
                        | Err e => raises e s
                        end
               end
      end
  end.

(** [verify-signature]: a finding that is no error does not fail it. *)
Definition cmd_verify_signature (layer_path : string) (key : option string) (d : disk) : res Z :=
  ok ← (require_cli_auth d).1;
  if negb (ok : bool) then Ok 1%Z
  else
    doc ← (json_file layer_path (require_cli_auth d).2).1;
    match doc with
    | None | Some JNull => Ok 1%Z
    | Some v =>
        layer ← of_option (as_dict v) AttributeError;
        meta ← get_obj "metadata" layer;
        if negb (get_truthy "merkle_root" meta) || negb (get_truthy "merkle_root_signature" meta) then Ok 1%Z
        else
          findings ← verify_merkle_signature layer key None;
          Ok (if existsb (fun f => match severity f with ERROR => true | _ => false end) findings then 1%Z else 0%Z)
    end.

(** ** verify: the exit code and the reports printed *)

Definition cmd_verify_layer (layer_id : string) (check_signatures : bool) (d : disk) (s : S)
  : res (Z * list verify_report) :=
  ok ← (require_cli_auth d).1;
  if negb (ok : bool) then Ok (1%Z, [])
  else match load_layer layer_id cli_config s with
       | Ok layer => report ← verify_layer check_signatures layer; Ok (0%Z, [report])
       | Err (Service _) => Ok (1%Z, [])
       | Err e => Err e
       end.
Definition verify_id (check_signatures : bool) (s : S) (id : string) : res verify_report :=
  key ← layer_key opaque_layer_ids (data_dir cli_config) id;
  layer ← b_load key s;
  verify_layer check_signatures layer.
Definition cmd_verify_all (check_signatures : bool) (d : disk) (s : S) : res (Z * list verify_report) :=
  ok ← (require_cli_auth d).1;
  if negb (ok : bool) then Ok (1%Z, [])
  else
    reports ← mapR (verify_id check_signatures s) (b_list_layer_ids s);
    Ok (match reports with [] => 1%Z | _ => if forallb passed reports then 0%Z else 1%Z end, reports).
Definition cmd_verify_path (path : string) (check_signatures : bool) (d : disk) : res (Z * list verify_report) :=
  ok ← (require_cli_auth d).1;
  if negb (ok : bool) then Ok (1%Z, [])
  else
    doc ← (json_file path (require_cli_auth d).2).1;
    match doc with
    | None => Ok (1%Z, [])
    | Some v =>
        layer ← of_option (as_dict v) AttributeError;
        report ← verify_layer check_signatures layer;
        Ok (if passed report then 0%Z else 1%Z, [report])
    end.
(** [cmd_verify]: a path, all layers, or one. *)
Definition cmd_verify (layer_id path : option string) (all check_signatures : bool) (d : disk) (s : S)
  : res (Z * list verify_report) :=
  if opt_truthy path then cmd_verify_path (default "" path) check_signatures d
  else if all then cmd_verify_all check_signatures d s
  else if opt_truthy layer_id then cmd_verify_layer (default "" layer_id) check_signatures d s
  else _ ← (require_cli_auth d).1; Ok (1%Z, []).

(** ** The commands that read *)

(** The gate, then the read; [service] says that a [ServiceError] is caught. *)
Definition reading {A} (service : bool) (r : res A) (d : disk) : res (Z * option A) :=
  ok ← (require_cli_auth d).1;
  if negb (ok : bool) then Ok (1%Z, None)
  else match r with
       | Ok a => Ok (0%Z, Some a)
       | Err (Service e) => if service then Ok (1%Z, None) else Err (Service e)
       | Err e => Err e
       end.
Definition cmd_query_layers (d : disk) (s : S) : res (Z * option (list string)) :=
  reading true (Ok (b_list_layer_ids s)) d.
Definition cmd_query_layer (layer_id : string) (d : disk) (s : S) : res (Z * option dict) :=
  reading true (load_layer layer_id cli_config s) d.
Definition cmd_query_findings (layer_id : string) (d : disk) (s : S) : res (Z * option (list FindingDisposition * FindingsSummary)) :=
  reading true (resolve_findings now_text layer_id cli_config s) d.
Definition query_findings_bulk (cursor : option string) (limit : Z) (since_epoch : option Z) (d : disk) (s : S)
  : res (Z * option BulkFindingsResponse) :=
  reading false (resolve_all_findings now_text cli_config cursor limit since_epoch s) d.
Definition cmd_query_events (layer_id : string) (finding_ref source_type : option string) (limit offset : Z) (d : disk) (s : S)
  : res (Z * option EventsResponse) :=
  reading true (query_layer_events layer_id cli_config finding_ref source_type limit offset s) d.

(** [ledger status], on the backend of the environment: a count, or whatever is
    raised ends with 1. *)
Definition cmd_status (opened : res S) : Z * option nat :=
  match opened with Ok s => (0%Z, Some (length (b_list_layer_ids s))) | Err _ => (1%Z, None) end.
End Commands.

(** ** The commands keep history *)

Section Properties.
Context `{HF : HashFn} `{HT : SigningTools} `{HC : Contracts} `{HL : !ContractLaws} `{HD : DispositionModel}.
Context `{HA : AuthTools} `{HH : HostTools} {S : Type} `{HB : !Backend S} `{HBL : !BackendLaws S} `{HSL : !StoreLaws S}.
Context `{HLs : !Listing S}.
Context (get_schema : res (option (dict -> bool))) (now : Z) (RestatementTarget : list string) (now_text : string).
#[local] Set Default Proof Using "HF HT HC HB HBL".

(** The commands that write a layer, as [main] runs them. *)
Inductive cli_command :=
| LedgerCountersign (finding_ref verdict rationale : string) (layer severity : option string)
| LedgerEvent (path event_kind : string)
| LedgerInitialize (layer_file layer : string) (product_repo_id : option string)
| LedgerResolve (layer_id key decision : string) (note : option string)
| LedgerSubmit (events_file layer : string) (queue_file : option string) (source_ref : string)
| LedgerRestate (a : restate_args)
| LedgerRestateBatch (path : string)
| LedgerSign (path : string) (a : sign_args).
Definition run_ledger (c : cli_command) (d : disk) (s : S) : outcome S :=
  main_guard
    match c with
    | LedgerCountersign ref verdict rationale layer severity =>
        cmd_countersign get_schema now now_text ref verdict rationale layer severity d s
    | LedgerEvent path event_kind => cmd_event get_schema now path event_kind d s
    | LedgerInitialize layer_file layer owner => cmd_initialize layer_file layer owner d s
    | LedgerResolve layer_id key decision note => cmd_resolve get_schema layer_id key decision note d s
    | LedgerSubmit events_file layer queue_file source_ref => cmd_submit get_schema events_file layer queue_file source_ref d s
    | LedgerRestate a => cmd_restate get_schema now RestatementTarget now_text a d s
    | LedgerRestateBatch path => cmd_restate_batch get_schema now RestatementTarget now_text path d s
    | LedgerSign path a => cmd_sign path a d s
    end.

(** [ledger sign] reads the layer from a file, and stores it under the file's path.
    A back end that takes a document as it is keeps its layers in such files: what
    the command reads has the log that is stored. *)
Definition reads_the_store (c : cli_command) (d : disk) (s : S) : Prop :=
  match c with
  | LedgerSign path _ =>
      store_checked = false -> forall layer stored_layer, (json_file path (require_cli_auth d).2).1 = Ok (Some (JObj layer)) ->
        stored (slot (FileKey (path_str path))) s = Some stored_layer -> log layer = log stored_layer
  | _ => True
  end.

Lemma main_guard_store (o : outcome S) : (main_guard o).2 = o.2.
Proof. by destruct o as [[a|[]] s]. Qed.
Lemma with_actor_store d (s : S) body (Q : S -> Prop) : Q s ->
  (forall actor d', command_actor d = (Ok (Some actor), d') -> Q (body actor d').2) -> Q (with_actor d s body).2.
Proof.
  intros Hs Hb. unfold with_actor. destruct (command_actor d) as [[[actor|]|e] d']; [exact (Hb _ _ eq_refl)|done..].
Qed.
Lemma finish_store {A} (r : res (A * S)) s (Q : S -> Prop) : Q s -> (forall a s', r = Ok (a, s') -> Q s') -> Q (finish r s).2.
Proof. intros Hs Hr. unfold finish. destruct r as [[a s']|[]]; [exact (Hr _ _ eq_refl)|done..]. Qed.

Lemma service_kept s s' : good s -> service_step get_schema now RestatementTarget s s' -> keeps_history s s'.
Proof. intros Hg Hs. exact (service_step_history _ _ _ _ _ Hg Hs). Qed.
Lemma keeps_trans s1 s2 s3 : keeps_history s1 s2 -> keeps_history s2 s3 -> keeps_history s1 s3.
Proof.
  intros [_ H12] [Hg H23]. split; [done|]. intros i d Hd. destruct (H12 i d Hd) as (d2 & Hd2 & Hk2).
  destruct (H23 i d2 Hd2) as (d3 & Hd3 & Hk3). exists d3. split; [done|exact (history_trans _ _ _ Hk2 Hk3)].
Qed.

Lemma submit_queue_history key actor source_ref queue s : good s ->
  keeps_history s (submit_queue get_schema key actor source_ref queue s).2.
Proof.
  intros Hg. unfold submit_queue. destruct queue as [|i l]; [by apply keeps_history_refl|].
  destruct (append_needs_review _ _ _ _) as [[n s']|e] eqn:Ha; [|by apply keeps_history_refl].
  exact (writer_history get_schema _ _ Hg (ws_queue get_schema _ _ _ _ _ Ha)).
Qed.
Lemma submit_writes_history key actor source_ref events queue s : good s ->
  keeps_history s (submit_writes get_schema key actor source_ref events queue s).2.
Proof.
  intros Hg. unfold submit_writes. destruct (json_iter events) as [l|e]; [|by apply keeps_history_refl].
  destruct (stamp_submitted actor l) as [|e0 es] eqn:Est; [by apply submit_queue_history|].
  destruct (append_events _ _ _ _) as [[ids s1]|e] eqn:Ha.
  - unfold append_events in Ha. inv_bind Ha as [[[i0 r0] s2]|] Hf. injection Ha as <- <-.
    pose proof (writer_history get_schema _ _ Hg (ws_batch get_schema _ _ _ _ None _ _ Hf)) as Hk.
    exact (keeps_trans _ _ _ Hk (submit_queue_history _ _ _ _ _ (proj1 Hk))).
  - destruct e; by apply keeps_history_refl.
Qed.
Lemma restate_items_history actor items s : good s ->
  keeps_history s (restate_items get_schema now RestatementTarget now_text actor items s).2.
Proof.
  revert s. induction items as [|item items IH]; intros s Hg; cbn [restate_items]; [by apply keeps_history_refl|].
  destruct item as [| | | | |m]; try by apply keeps_history_refl.
  destruct (apply_item _ _ _ _ _ _ _ _) as [[r s1]|e] eqn:Ha.
  - unfold apply_item in Ha. inv_bind Ha as [[[[lid rat] blk] at_]|] Hi.
    pose proof (writer_history get_schema _ _ Hg (apply_restatement_step _ _ _ _ _ _ _ _ _ _ _ _ Ha)) as Hk.
    exact (keeps_trans _ _ _ Hk (IH _ (proj1 Hk))).
  - destruct (is_item_failure e); [|by apply keeps_history_refl]. specialize (IH s Hg).
    by destruct (restate_items _ _ _ _ _ items s).
Qed.

(** [ledger sign] changes no event of the document it stores. *)
Lemma cmd_sign_inv path a d s : (cmd_sign path a d s).2 = s
  \/ exists layer layer', (json_file path (require_cli_auth d).2).1 = Ok (Some (JObj layer))
       /\ b_store (FileKey (path_str path)) layer' s = Ok (cmd_sign path a d s).2 /\ log layer' = log layer.
Proof.
  unfold cmd_sign. destruct (require_cli_auth d) as [[[]|e] d1]; try by left. cbn [snd].
  destruct (json_file path d1).1 as [[v|]|e]; try by left.
  destruct v as [| | | | |layer]; try by left; try by (destruct (negb _ && _); left).
  all: destruct (negb _ && _); [by left|]; cbn [of_option as_dict mbind result_bind]; try by left.
  destruct (sign_layer _ _ _ layer) as [[[st m] layer']|e] eqn:Hs; [|by left].
  destruct (negb _); [by left|]. destruct (b_store _ layer' s) as [s1|e] eqn:Hb; [|by left]. right.
  exists layer, layer'. split; [done|]. split; [done|]. exact (sign_layer_log _ _ _ _ _ _ Hs).
Qed.
Lemma cmd_sign_history path a d s : good s -> reads_the_store (LedgerSign path a) d s ->
  keeps_history s (cmd_sign path a d s).2.
Proof using HF HT HC HB HBL HSL.
  intros Hg Hreads. destruct (cmd_sign_inv path a d s) as [->|(layer & layer' & Hread & Hst & Hlog)]; [by apply keeps_history_refl|].
  destruct (store_promise _ _ _ _ Hg Hst) as (Hnew & Hg' & Ho). split; [done|]. intros i d0 Hi.
  destruct (decide (i = slot (FileKey (path_str path)))) as [->|Hne];
    [|exists d0; rewrite Ho //; split; [done|by apply history_refl]].
  exists layer'. split; [done|]. destruct store_checked eqn:Hc.
  - destruct (log_shape d0) as [Hes|Hnil].
    + destruct (store_continues _ _ _ _ _ _ Hc Hg Hst Hi Hes) as [new Hl]. exists (log d0), new.
      split; [apply log_events; unfold events_of, get_list; by rewrite Hl|].
      apply Forall_Forall2_diag, Forall_forall. intros; by left.
    + exists [], (log layer'). rewrite Hnil. by split.
  - apply history_refl. rewrite Hlog. exact (Hreads Hc _ _ Hread Hi).
Qed.

(** Whatever a command ends with, it kept the history of every layer. *)
Lemma run_ledger_history c d s : good s -> reads_the_store c d s -> keeps_history s (run_ledger c d s).2.
Proof using HF HT HC HB HBL HSL.
  intros Hg Hreads. pose proof (keeps_history_refl s Hg) as Hrefl. unfold run_ledger. rewrite main_guard_store.
  unfold cmd_countersign, cmd_event, cmd_initialize, cmd_resolve, cmd_restate, cmd_restate_batch.
  destruct c as [ref verdict rat layer sev|path kd|file layer owner|lid key dec note|file layer queue sref|a|path|path a].
  - apply (with_actor_store d s _ (keeps_history s)); [done|]. intros actor d' _. destruct (cli_build_event _ _ _ _ _ _ _) as [[env|]|e]; try done.
    apply (finish_store _ s (keeps_history s)); [done|]. intros r s' Hr. exact (service_kept _ _ Hg (post_event _ _ _ _ _ _ _ _ _ Hr)).
  - apply (with_actor_store d s _ (keeps_history s)); [done|]. intros actor d' _. destruct (json_file path d').1 as [[[]|]|e]; try done.
    apply (finish_store _ s (keeps_history s)); [done|]. intros r s' Hr. exact (service_kept _ _ Hg (post_event _ _ _ _ _ _ _ _ _ Hr)).
  - apply (with_actor_store d s _ (keeps_history s)); [done|]. intros actor d' _. cbv zeta.
    match goal with |- context [match ?m with Ok _ => _ | Err _ => _ end] => destruct m as [s'|e] eqn:Hi end.
    + inv_bind Hi as [text|] Ht. inv_bind Hi as [v|] Hv. inv_bind Hi as [shell|] Hsh.
      exact (service_kept _ _ Hg (post_initialize _ _ _ _ _ _ _ _ _ Hi)).
    + by destruct e.
  - apply (with_actor_store d s _ (keeps_history s)); [done|]. intros actor d' _. apply (finish_store _ s (keeps_history s)); [done|]. intros r s' Hr.
    inv_bind Hr as [ik|] Hk. inv_bind Hr as [s1|] Hs1. injection Hr as _ <-.
    exact (service_kept _ _ Hg (post_resolve _ _ _ _ _ _ _ _ _ _ Hs1)).
  - unfold cmd_submit. destruct (require_cli_auth d) as [[[]|e] d1]; try done.
    match goal with |- context [match ?m with Ok _ => _ | Err _ => _ end] => destruct m as [[[events items]|]|e] end; try done.
    destruct (require_verified_actor d1) as [[[actor|]|e] d2]; try done.
    destruct (layer_key _ _ _) as [key|e]; [|done]. by apply submit_writes_history.
  - apply (with_actor_store d s _ (keeps_history s)); [done|]. intros actor d' _. destruct (negb _); [done|].
    destruct (block_from_args a d') as [block|e]; [|by destruct e]. apply (finish_store _ s (keeps_history s)); [done|]. intros r s' Hr.
    destruct (ra_rationale a); [|unfold restate_without_rationale in Hr; by do 2 inv_bind Hr].
    exact (writer_history get_schema _ _ Hg (apply_restatement_step _ _ _ _ _ _ _ _ _ _ _ _ Hr)).
  - apply (with_actor_store d s _ (keeps_history s)); [done|]. intros actor d' _. destruct (batch_items path d') as [[items|]|e]; try done.
    pose proof (restate_items_history actor items s Hg) as Hk. by destruct (restate_items _ _ _ _ _ items s).
  - exact (cmd_sign_history path a d s Hg Hreads).
Qed.

(** One change of the store through any door: a request to the service, a call
    of some client, or a command. *)
Inductive entry_step (s s' : S) : Prop :=
| by_request : service_step get_schema now RestatementTarget s s' -> entry_step s s'
| by_client c d r : call get_schema now RestatementTarget now_text c d r s = Ok s' -> entry_step s s'
| by_command c d r : reads_the_store c d s -> run_ledger c d s = (r, s') -> entry_step s s'.


(** The actor a command that went through wrote as. *)
Lemma with_actor_inv d (s : S) body s' : with_actor d s body = (Ok 0%Z, s') ->
  exists actor d1 d', require_cli_auth d = (Ok true, d1) /\ require_verified_actor d1 = (Ok (Some actor), d')
    /\ body actor d' = (Ok 0%Z, s').
Proof.
  unfold with_actor, command_actor, mbind, io_bind. destruct (require_cli_auth d) as [[[]|e] d1]; try done.
  destruct (require_verified_actor d1) as [[[actor|]|e] d'] eqn:Hv; try done. intros Hb. by exists actor, d1, d'.
Qed.
Lemma finish_inv {A} (r : res (A * S)) s s' : finish r s = (Ok 0%Z, s') -> exists a, r = Ok (a, s').
Proof. unfold finish. destruct r as [[a s1]|[]]; try done. intros [= <-]. by exists a. Qed.

(** A countersignature from the command line is the verified actor's.
    [ledger countersign] with a verdict on the finding ends with success only for
    a caller whose token was verified, and what it appended is attributed to that
    actor - not to a name from the arguments or the environment - under the same
    rules as a request: a machine takes no decision, the two-person rule
    included. *)
Theorem cli_countersign_authority ref verdict rationale layer severity d s s' : good s -> verdict <> "severity" ->
  cmd_countersign get_schema now now_text ref verdict rationale layer severity d s = (Ok 0%Z, s') ->
  exists actor d1 d', require_cli_auth d = (Ok true, d1) /\ require_verified_actor d1 = (Ok (Some actor), d')
    /\ exists raw, get "finding_ref" raw = JStr ref /\ countersigned cli_config raw actor s s'.
Proof using HF HT HC HL HB HBL.
  intros Hg Hne Hc. apply with_actor_inv in Hc as (actor & d1 & d' & Hauth & Hv & Hb).
  exists actor, d1, d'. split; [done|]. split; [done|].
  destruct (cli_build_event _ _ _ _ _ _ _) as [[env|]|e] eqn:He; try done. apply finish_inv in Hb as [r Hs].
  unfold cli_build_event in He. inv_bind He as [lid|] Hl. destruct (negb _); [done|].
  destruct (String.eqb_spec verdict "severity"); [done|]. inv_bind He as [v|] Hv'. injection He as <-.
  apply (countersign_authority get_schema now) in Hs; [|done|done]. eexists. split; [|exact Hs]. reflexivity.
Qed.

(** C99: [ledger verify --all] ends with success only if there are layers and
    each of them could be loaded and verified without a finding. *)
Theorem verify_all_is_complete check d s reports : cmd_verify_all check d s = Ok (0%Z, reports) ->
  b_list_layer_ids s <> [] /\ length reports = length (b_list_layer_ids s)
  /\ forall id, id ∈ b_list_layer_ids s -> exists key layer,
       layer_key opaque_layer_ids (data_dir cli_config) id = Ok key /\ b_load key s = Ok layer
       /\ verify_merkle_integrity layer = Ok [] /\ (check = true -> verify_merkle_signature layer None None = Ok []).
Proof.
  unfold cmd_verify_all. intros Hv. inv_bind Hv as [ok|] Hok. destruct ok; [|done]. cbn [negb] in Hv.
  inv_bind Hv as [rs|] Hm. destruct rs as [|r rs]; [done|].
  destruct (forallb passed (r :: rs)) eqn:Hp; [|done]. injection Hv as <-.
  pose proof (mapR_ok_length _ _ _ Hm) as Hlen. apply mapR_ok_Forall2 in Hm.
  split; [by intros Hnil; rewrite Hnil in Hlen|]. split; [done|]. intros id Hid.
  apply list_elem_of_lookup in Hid as [n Hn]. destruct (Forall2_lookup_l _ _ _ _ _ Hm Hn) as (x & Hx & Hone).
  assert (passed x = true) as Hpx by (rewrite forallb_forall in Hp; by apply Hp, list_elem_of_In, list_elem_of_lookup; exists n).
  unfold verify_id in Hone. inv_bind Hone as [key|] Hk. inv_bind Hone as [layer|] Hl. exists key, layer.
  split; [done|]. split; [done|]. unfold verify_layer in Hone. inv_bind Hone as [integrity|] Hi.
  inv_bind Hone as [sigs|] Hsig. injection Hone as <-. cbn in Hpx. apply Nat.eqb_eq in Hpx. rewrite length_app in Hpx.
  destruct integrity; [|cbn in Hpx; lia]. destruct sigs; [|cbn in Hpx; lia]. split; [done|].
  intros ->. done.
Qed.

(** Without a public key [ledger verify-signature] accepts every signature. *)
Lemma keyless_signature_passes path d d1 layer meta :
  require_cli_auth d = (Ok true, d1) -> (json_file path d1).1 = Ok (Some (JObj layer)) ->
  get_obj "metadata" layer = Ok meta -> get_truthy "merkle_root" meta = true ->
  get_truthy "merkle_root_signature" meta = true -> cmd_verify_signature path None d = Ok 0%Z.
Proof.
  intros Ha Hf Hm Hr Hs. unfold cmd_verify_signature. rewrite Ha. cbn [fst snd mbind result_bind negb]. rewrite Hf.
  cbn [of_option as_dict mbind result_bind]. rewrite Hm. cbn [mbind result_bind]. rewrite Hr Hs. cbn [negb orb].
  unfold verify_merkle_signature. rewrite Hm. cbn [mbind result_bind]. unfold get_truthy in Hs. by rewrite Hs.
Qed.
End Properties.

(** ** Witnesses: a person at a shell, on the file backend *)

#[local] Instance shell_env : SigningTools := sample_tools
  {["LAAS_TOKEN" := idp_token; "LEDGER_OIDC_ISSUER" := "https://idp"; "LAAS_DATA_DIR" := "/d"]} (dumps true sample_bundle).
#[local] Instance shell_auth : AuthTools := sample_auth (fun _ => RunError).
#[local] Instance shell_host : HostTools := sample_host.
#[local] Instance shell_registry : StorageRegistry := {| registered := fun o => bool_decide (o = "repo-1"); collates := String.leb |}.

#[local] Instance shell_listing : Listing files := file_listing_ids "/d".

Definition shell_countersign : cli_command := LedgerCountersign "F1" "false_positive" "not reachable here" (Some "L") None.
Definition shell_run : outcome files :=
  run_ledger no_schema sample_now sample_targets "2026-01-02T00:00:00Z" shell_countersign ∅ sample_files.
Definition shell_files : files := Eval vm_compute in shell_run.2.
Lemma shell_ok : shell_run = (Ok 0%Z, shell_files).
Proof. vm_compute. reflexivity. Qed.


Lemma cli_countersign_authority_witness :
  exists actor d1 d', require_cli_auth ∅ = (Ok true, d1) /\ require_verified_actor d1 = (Ok (Some actor), d')
    /\ exists raw, get "finding_ref" raw = JStr "F1" /\ countersigned cli_config raw actor sample_files shell_files.
Proof.
  apply (cli_countersign_authority no_schema sample_now "2026-01-02T00:00:00Z" "F1" "false_positive" "not reachable here"
    (Some "L") None ∅ sample_files shell_files); [exact sample_files_good|discriminate|vm_compute; reflexivity].
Defined.
Lemma verify_all_is_complete_witness : exists key layer,
  layer_key false "/d" "L" = Ok key /\ b_load key shell_files = Ok layer /\ verify_merkle_integrity layer = Ok [].
Proof.
  destruct (verify_all_is_complete false ∅ shell_files [{| passed := true; report_findings := [] |}])
    as (_ & _ & Hall); [vm_compute; reflexivity|].
  destruct (Hall "L") as (key & layer & Hk & Hl & Hv & _); [apply (bool_decide_unpack _); vm_compute; exact I|].
  exists key, layer. split; [exact Hk|]. split; [exact Hl|exact Hv].
Defined.

(** [ledger verify <layer_id>] prints that a layer failed and ends with success;
    with [--all] the same layer fails the command. *)
Lemma cli_verify_hides_failure :
  cmd_verify (Some "L") None false false ∅ sample_files
    = Ok (0%Z, [{| passed := false; report_findings := [err_finding RootAbsent] |}])
  /\ cmd_verify None None true false ∅ sample_files
    = Ok (1%Z, [{| passed := false; report_findings := [err_finding RootAbsent] |}]).
Proof. split; vm_compute; reflexivity. Qed.

(** [ledger sign] reads the file before it takes the lock of the store: an event that
    was stored in between is lost, and the command ends with success. *)
Definition shell_key : sign_args :=
  {| sa_method := "keypair"; sa_key := Some "cosign.key"; sa_oidc_issuer := None; sa_oidc_client_id := None;
     sa_expected_identity := None; sa_rekor := false |}.
Definition shell_log (o : outcome files) : res Z * res nat :=
  (o.1, d ← b_load sample_key_L o.2; Ok (length (log d))).
Lemma stale_sign_drops_event :
  shell_log (cmd_sign "/d/L.json" shell_key shell_files shell_files) = (Ok 0%Z, Ok 1)
  /\ shell_log (cmd_sign "/d/L.json" shell_key sample_files shell_files) = (Ok 0%Z, Ok 0).
Proof. split; vm_compute; reflexivity. Qed.

(** A restatement without [--rationale] ends in a [TypeError]. *)
Lemma restate_needs_rationale :
  (cmd_restate no_schema sample_now sample_targets "2026-01-02T00:00:00Z" {|
     ra_layer := Some "L"; ra_target := Some "claim_hashes"; ra_reason := Some "correction"; ra_before := Some "{}";
     ra_after := Some "{}"; ra_ticket := Some "SEC-1"; ra_approved_by := None; ra_rationale := None;
     ra_finding_ref := None; ra_schema_from := None; ra_schema_to := None |} ∅ sample_files).1 = Err TypeError.
Proof. vm_compute. reflexivity. Qed.

(** A signature nobody made passes [ledger verify-signature] without [--key]. *)
Definition forged : json :=
  JObj {["metadata" := JObj {["merkle_root" := JStr "00"; "merkle_root_signature" := JStr "forged"]}; "events" := JArr []]}.
Lemma cli_accepts_forged_signature :
  cmd_verify_signature "f.json" None {["f.json" := dumps true forged]} = Ok 0%Z
  /\ cmd_verify_signature "f.json" (Some "cosign.pub") {["f.json" := dumps true forged]} = Ok 1%Z.
Proof. split; vm_compute; reflexivity. Qed.
