(* ===== verification/Stamping.v ===== *)
(** * Stamping a report

    [cli/commands/fingerprint.py]: the command that writes the fingerprint of
    every finding into a report.  The indentation of the file is not modelled. *)

From S2P Require Import Prelude PyStr Json Sha256 Errors Signing Identity Finalize Contracts Auth Directory Credentials Flows Session Cli.
From stdpp Require Import options.

Section Fingerprint.
Context `{HashFn} `{SigningTools} `{AuthTools}.

(** A repository that is no text has no canonical form; the rest of the finding
    is read before it. *)
Definition repo_text (repo : json) : res (option string) :=
  match repo with
  | JStr s => Ok (Some s)
  | v => if truthy v then Err AttributeError else Ok None
  end.
(** One turn of [_stamp_findings]. *)
Definition stamp_finding (repo : json) (finding : json) : res (bool * json) :=
  match finding with
  | JObj m =>
      if negb (get_truthy "locations" m) || negb (get_truthy "cwes" m) then Ok (false, finding)
      else
        match fingerprint m (match repo_text repo with Ok url => url | Err _ => None end) true with
        | Ok fp => _ ← repo_text repo; Ok (true, JObj (<["fingerprint" := JStr fp]> m))
        | Err DegenerateIdentity => Err ValueError
        | Err e => Err e
        end
  | _ => Ok (false, finding)
  end.
Definition stamp_list (repo : json) (findings : list json) : res (Z * list json) :=
  stamped ← mapR (stamp_finding repo) findings; Ok (count_true (map fst stamped), map snd stamped).
(** The list under a key, if there is one. *)
Definition stamp_under (repo : json) (key : string) (m : dict) : res (Z * dict) :=
  match get key m with
  | JArr l => '(n, l') ← stamp_list repo l; Ok (n, <[key := JArr l']> m)
  | _ => Ok (0%Z, m)
  end.
(** The findings of the report, then those of its summary. *)
Definition stamp_report (report : dict) : res (Z * dict) :=
  let repo := match get "metadata" report with JObj m => get "repository" m | _ => JNull end in
  '(n, report) ← stamp_under repo "findings" report;
  match get "findings_summary" report with
  | JObj summary =>
      '(n', summary) ← stamp_under repo "findings" summary;
      Ok ((n + n')%Z, <["findings_summary" := JObj summary]> report)
  | _ => Ok (n, report)
  end.
Definition cmd_fingerprint (path : string) : io Z :=
  doc ← json_file path;
  match doc with
  | Some (JObj report) =>
      '(_, report) ← lift (stamp_report report);
      _ ← write_text path (dumps true (JObj report));
      mret 0%Z
  | _ => mret 1%Z
  end.
End Fingerprint.

(** ** Lemmas *)

Section Properties.
Context `{HF : HashFn} `{HT : SigningTools} `{HA : AuthTools}.
Set Default Proof Using "Type".

(** A fingerprint does not depend on the fingerprint a finding has. *)
Lemma fingerprint_insert m url v : fingerprint (<["fingerprint" := v]> m) url true = fingerprint m url true.
Proof.
  unfold fingerprint, paths_v3, primary_cwe, cwe_list, policy_check, get_list, get_truthy, get_obj.
  rewrite !get_insert_ne //.
Qed.

(** What stamping makes of a finding. *)
Definition stampable (f : json) : option dict :=
  match f with
  | JObj m => if get_truthy "locations" m && get_truthy "cwes" m then Some m else None
  | _ => None
  end.
Definition stamped (repo : json) (f f' : json) : Prop :=
  match stampable f with
  | Some m => exists url fp, repo_text repo = Ok url /\ fingerprint m url true = Ok fp
                             /\ f' = JObj (<["fingerprint" := JStr fp]> m)
  | None => f' = f
  end.
Lemma stamp_finding_inv repo f b f' : stamp_finding repo f = Ok (b, f') ->
  stamped repo f f' /\ stamp_finding repo f' = Ok (b, f').
Proof.
  unfold stamp_finding, stamped, stampable. destruct f as [| | | | |m]; try by intros [= <- <-].
  destruct (negb _ || _) eqn:Hg.
  { intros [= <- <-]. rewrite Hg. split; [|done]. apply orb_true_iff in Hg as [->%negb_true_iff| ->%negb_true_iff]; [done|].
    by rewrite andb_false_r. }
  intros Hs. destruct (fingerprint m _ true) as [fp|[]] eqn:Hf; try done.
  destruct (repo_text repo) as [url|e] eqn:Hu; [|done]. injection Hs as <- <-. split.
  - apply orb_false_iff in Hg as [H1%negb_false_iff H2%negb_false_iff]. rewrite H1 H2. by exists url, fp.
  - unfold get_truthy in Hg |- *. rewrite !get_insert_ne //. rewrite Hg. rewrite fingerprint_insert Hf.
    cbn. by rewrite insert_insert_eq.
Qed.
Lemma stamp_list_inv repo l n l' : stamp_list repo l = Ok (n, l') ->
  Forall2 (stamped repo) l l' /\ stamp_list repo l' = Ok (n, l').
Proof.
  unfold stamp_list. intros Hs. inv_bind Hs as [rs|] Hm. injection Hs as <- <-. apply mapR_ok_Forall2 in Hm.
  assert (mapR (stamp_finding repo) (map snd rs) = Ok rs) as Hagain.
  { apply mapR_ok_Forall2. induction Hm as [|f [b f'] l rs Hf _ IH]; constructor; [|done].
    by destruct (stamp_finding_inv _ _ _ _ Hf) as [_ Ha]. }
  rewrite Hagain. split; [|done]. clear Hagain. induction Hm as [|f [b f'] l rs Hf _ IH]; constructor; [|done].
  by destruct (stamp_finding_inv _ _ _ _ Hf).
Qed.
Lemma stamp_under_inv repo key m n m' : stamp_under repo key m = Ok (n, m') ->
  stamp_under repo key m' = Ok (n, m') /\ (forall k, k <> key -> m' !! k = m !! k)
  /\ (forall l, get key m = JArr l -> exists l', get key m' = JArr l' /\ Forall2 (stamped repo) l l').
Proof.
  unfold stamp_under. destruct (get key m) as [| | | |l|] eqn:Hk;
    try (intros [= <- <-]; rewrite Hk; by split; [|split]).
  intros Hs. inv_bind Hs as [[c l']|] Hl. injection Hs as <- <-. destruct (stamp_list_inv _ _ _ _ Hl) as [Hf Ha].
  rewrite get_insert_eq Ha. cbn. rewrite insert_insert_eq. split; [done|]. split.
  - intros k Hne. apply lookup_insert_ne. congruence.
  - intros l0 [= <-]. by exists l'.
Qed.

(** The findings a report lists, itself and in its summary. *)
Definition report_findings (report : dict) : list json :=
  match get "findings" report with JArr l => l | _ => [] end
  ++ match get "findings_summary" report with
     | JObj summary => match get "findings" summary with JArr l => l | _ => [] end
     | _ => []
     end.
Definition report_repo (report : dict) : json :=
  match get "metadata" report with JObj m => get "repository" m | _ => JNull end.
Lemma stamp_under_findings repo m n m' : stamp_under repo "findings" m = Ok (n, m') ->
  Forall2 (stamped repo) (match get "findings" m with JArr l => l | _ => [] end)
                         (match get "findings" m' with JArr l => l | _ => [] end).
Proof.
  intros Hs. destruct (stamp_under_inv _ _ _ _ _ Hs) as (_ & _ & Hl). unfold stamp_under in Hs.
  destruct (get "findings" m) as [| | | |l|] eqn:Hf; try by (injection Hs as <- <-; rewrite Hf).
  destruct (Hl l eq_refl) as (l' & -> & Hf2). done.
Qed.

(** A stamped dict stays stamped when something else of it changes. *)
Lemma stamp_under_fix repo key m m' n : stamp_under repo key m = Ok (n, m) -> get key m' = get key m ->
  stamp_under repo key m' = Ok (n, m').
Proof.
  unfold stamp_under. intros Hs Hg. rewrite Hg. destruct (get key m) as [| | | |l|] eqn:Hk; try by injection Hs as <-.
  inv_bind Hs as [[c l']|] Hl. injection Hs as <- Hm. cbn.
  assert (JArr l' = JArr l) as [= ->] by (by rewrite -Hk -Hm get_insert_eq).
  rewrite insert_id; [|done]. unfold get in Hg. by destruct (m' !! key); simplify_eq/=.
Qed.
Lemma stamp_report_inv report n report' : stamp_report report = Ok (n, report') ->
  stamp_report report' = Ok (n, report')
  /\ Forall2 (stamped (report_repo report)) (report_findings report) (report_findings report')
  /\ forall k, k <> "findings" -> k <> "findings_summary" -> report' !! k = report !! k.
Proof.
  unfold stamp_report. fold (report_repo report). intros Hs. inv_bind Hs as [[n1 r1]|] H1.
  destruct (stamp_under_inv _ _ _ _ _ H1) as (Ha & Ho & _). pose proof (stamp_under_findings _ _ _ _ H1) as Hf1.
  assert (report_repo r1 = report_repo report) as Hrepo by (unfold report_repo, get; by rewrite Ho).
  assert (get "findings_summary" r1 = get "findings_summary" report) as Hsum by (unfold get; by rewrite Ho).
  unfold report_findings. rewrite -Hsum. destruct (get "findings_summary" r1) as [| | | | |summary] eqn:Es.
  1-5: injection Hs as <- <-; fold (report_repo r1); rewrite Hrepo Ha; cbn; rewrite Es; split; [done|]; split;
    [by rewrite !app_nil_r|by intros k Hk _; apply Ho].
  inv_bind Hs as [[n2 s2]|] H2. injection Hs as <- <-. set (r2 := <["findings_summary" := JObj s2]> r1).
  destruct (stamp_under_inv _ _ _ _ _ H2) as (Ha2 & _ & _). pose proof (stamp_under_findings _ _ _ _ H2) as Hf2.
  assert (get "metadata" r2 = get "metadata" r1) as Hm by (by apply get_insert_ne).
  assert (get "findings" r2 = get "findings" r1) as Hf by (by apply get_insert_ne).
  assert (get "findings_summary" r2 = JObj s2) as Hs2 by apply get_insert_eq.
  split; [|split].
  - rewrite Hm. fold (report_repo r1). rewrite Hrepo (stamp_under_fix _ _ _ r2 _ Ha Hf). cbn. rewrite Hs2 Ha2. cbn.
    unfold r2. by rewrite insert_insert_eq.
  - rewrite Hf Hs2. by apply Forall2_app.
  - intros k Hk1 Hk2. unfold r2. rewrite lookup_insert_ne; [congruence|]. by apply Ho.
Qed.

(** [ledger fingerprint] stamps all findings of a report or none. When it
    fails, the file is what it was. When it succeeds, the file holds the report
    with the fingerprint of every finding that has locations and a CWE, by the
    strict recipe and for the report's repository, every other finding and every
    other part of the report as it was; and a second run changes nothing. *)
Theorem fingerprint_is_all_or_nothing path d r d' : writable path = true -> cmd_fingerprint path d = (r, d') ->
  (r <> Ok 0%Z -> d' = d)
  /\ (r = Ok 0%Z -> exists text report report',
        d !! path = Some text /\ loads text = Some (JObj report) /\ d' = <[path := dumps true (JObj report')]> d
        /\ Forall2 (stamped (report_repo report)) (report_findings report) (report_findings report')
        /\ (forall k, k <> "findings" -> k <> "findings_summary" -> report' !! k = report !! k)
        /\ cmd_fingerprint path d' = (Ok 0%Z, d')).
Proof.
  intros Hw. unfold cmd_fingerprint, mbind, io_bind, json_file, read_text, lift. cbn [fst].
  destruct (readable path) eqn:Hr; [|by intros [= <- <-]].
  destruct (d !! path) as [text|] eqn:Hd; [|by intros [= <- <-]]. cbn [of_option].
  destruct (loads text) as [[| | | | |report]|] eqn:Hl; try by intros [= <- <-].
  destruct (stamp_report report) as [[n report']|e] eqn:Hs; [|by intros [= <- <-]].
  unfold write_text. rewrite Hw. intros [= <- <-]. split; [done|]. intros _.
  destruct (stamp_report_inv _ _ _ Hs) as (Ha & Hf & Ho). exists text, report, report'.
  split; [done|]. split; [done|]. split; [done|]. split; [done|]. split; [done|].
  rewrite lookup_insert_eq. cbn [of_option]. rewrite loads_dumps Ha. cbn. by rewrite insert_insert_eq.
Qed.
End Properties.

(** ** Witness *)

#[local] Instance report_env : SigningTools := sample_tools ∅ "".
#[local] Instance report_auth : AuthTools := sample_auth (fun _ => RunError).
Definition report_doc : json := JObj
  {["metadata" := JObj {["repository" := JStr "https://github.com/Acme/App.git"]};
    "findings" := JArr [JObj {["id" := JStr "F1"; "cwes" := JArr [JStr "CWE-79"];
                               "locations" := JArr [JObj {["path" := JStr "src/a.py"]}] ]}; JObj {["id" := JStr "F2"]}] ]}.
Definition report_disk : disk := Eval vm_compute in {["r.json" := dumps true report_doc]}.
Definition stamped_disk : disk := Eval vm_compute in (cmd_fingerprint "r.json" report_disk).2.
Lemma report_stamped : cmd_fingerprint "r.json" report_disk = (Ok 0%Z, stamped_disk).
Proof. vm_compute. reflexivity. Qed.
Lemma fingerprint_is_all_or_nothing_witness :
  cmd_fingerprint "r.json" stamped_disk = (Ok 0%Z, stamped_disk) /\ bool_decide (stamped_disk = report_disk) = false.
Proof.
  split; [ |vm_compute; reflexivity].
  destruct (fingerprint_is_all_or_nothing "r.json" report_disk (Ok 0%Z) stamped_disk) as [_ H];
    [reflexivity|exact report_stamped|].
  destruct (H eq_refl) as (text & report & report' & _ & _ & _ & _ & _ & Ha). exact Ha.
Defined.
