(* ===== verification/Release.v ===== *)
(** * Release tooling

    [ci/gates.py]: the commit convention, the version bump a range of commits
    asks for, the checks of a merge request.  [release.py]: versions, tags and
    pushes of the repository.  git, the build and the tests are parameters; what
    a command did before it failed stays done. *)

From S2P Require Import Prelude PyStr Json Errors Identity Backend.
From stdpp Require Import options.

(** ** Conventional commits *)

Record Commit := { sha : string; subject : string; body : string }.

Definition COMMIT_TYPES : list string :=
  ["build"; "chore"; "ci"; "docs"; "feat"; "fix"; "perf"; "refactor"; "revert"; "style"; "test"].
Definition MERGE_KINDS : list string := ["branch"; "commit"; "remote-tracking branch"; "pull request"].

(** [MERGE_RE] and [REVERT_RE]. *)
Definition is_merge (s : string) : bool := existsb (fun k => startswith s ("Merge " +:+ k +:+ " ")) MERGE_KINDS.
Definition is_revert (s : string) : bool := startswith s "Revert ".

(** [(?:\(([^)]+)\))?]: what follows the optional scope.  An opening
    parenthesis that closes no scope is left for the rest of the pattern, which
    it does not fit. *)
Definition after_scope (s : string) : string :=
  match drop_prefix "(" s with
  | Some r => match partition ")" r with Some (scope, rest) => if str_truthy scope then rest else s | None => s end
  | None => s
  end.
(** [.+$]: one line, not empty. *)
Definition one_line (s : string) : bool :=
  let l := drop_final_newline (chars s) in negb (bool_decide (l = [])) && negb (existsb is_newline l).
(** The rest of a header after its type: the sign of a breaking change, if the
    pattern matches. *)
Definition header_tail (s : string) : option bool :=
  let r := after_scope s in
  let '(breaking, r) := match drop_prefix "!" r with Some r' => (true, r') | None => (false, r) end in
  rest ← drop_prefix ": " r;
  if one_line rest then Some breaking else None.
(** [HEADER_RE.match]: type and sign.  No type is a prefix of another. *)
Definition parse_header (s : string) : option (string * bool) :=
  head (omap (fun t => r ← drop_prefix t s; b ← header_tail r; Some (t, b)) COMMIT_TYPES).

(** [validate_subject]: whether there is no error. *)
Definition validate_subject (s : string) : bool :=
  is_merge s || is_revert s || bool_decide (is_Some (parse_header s)).

(** [sub in s]. *)
Fixpoint contains_chars (sub l : list ascii) : bool :=
  bool_decide (take (length sub) l = sub) || match l with [] => false | _ :: l' => contains_chars sub l' end.
Definition contains (sub s : string) : bool := contains_chars (chars sub) (chars s).

Definition is_breaking (c : Commit) (sign : bool) : bool := sign || contains "BREAKING CHANGE" (body c).

(** [bump_level]. *)
Fixpoint bump_loop (level : option string) (commits : list Commit) : option string :=
  match commits with
  | [] => level
  | c :: rest =>
      if is_merge (subject c) || is_revert (subject c) then bump_loop level rest
      else match parse_header (subject c) with
           | None => bump_loop level rest
           | Some (typ, sign) =>
               if is_breaking c sign then Some "major"
               else if String.eqb typ "feat" then bump_loop (Some "minor") rest
               else if bool_decide (typ ∈ ["fix"; "perf"]) && bool_decide (level = None)
                    then bump_loop (Some "patch") rest
               else bump_loop level rest
           end
  end.
Definition bump_level (commits : list Commit) : option string := bump_loop None commits.

(** ** Versions *)

Definition int_of_part (s : string) : res Z := of_option (int_of_str s) ValueError.
Definition semver_tuple (version : string) : res (list Z) := mapR int_of_part (split "." version).
(** Python compares tuples element by element, a prefix being smaller. *)
Fixpoint tuple_lt (a b : list Z) : bool :=
  match a, b with
  | _, [] => false
  | [], _ :: _ => true
  | x :: a', y :: b' => (x <? y)%Z || ((x =? y)%Z && tuple_lt a' b')
  end.
Definition is_semver (s : string) : bool :=
  match split "." s with
  | [a; b; c] => forallb (fun p => str_truthy p && forallb is_digit (chars p)) [a; b; c]
  | _ => false
  end.
(** [SEMVER.match]. *)
Definition semver_match (s : string) : bool := is_semver (of_chars (drop_final_newline (chars s))).

(** [_changelog_has]: a line that starts with the version's heading. *)
Definition heading_version (line : string) : option string :=
  r ← drop_prefix "## [" line;
  '(v, _) ← partition "]" r;
  if is_semver v then Some v else None.
Definition changelog_has (version : string) (changelog : option string) : bool :=
  match changelog with
  | Some text => existsb (fun line => bool_decide (heading_version line = Some version)) (split (ascii_of_nat 10) text)
  | None => false
  end.

(** ** The gates of a merge request *)

Inductive gate_error := GitError | GateRaised (e : exn).
Notation gate := (result gate_error).
Definition of_res {A} (r : res A) : gate A := match r with Ok a => Ok a | Err e => Err (GateRaised e) end.

(** git, for the gates: whether a reference is a commit, the log of a range in
    the format asked for, a file at a reference; and the working tree. *)
Class GateTools := {
  is_commit : string -> bool;
  git_log : string -> option string;
  version_at : string -> option string;
  version_file_text : option string;
  changelog_text : option string
}.

Section Gates.
Context `{GateTools}.

Definition resolve_commit (ref : string) : gate unit := if is_commit ref then Ok tt else Err GitError.
(** [_log]: records end with RS, fields with US. *)
Definition parse_entry (entry : string) : res Commit :=
  match partition (ascii_of_nat 31) entry with
  | Some (h, rest) => match partition (ascii_of_nat 31) rest with
                      | Some (s, b) => Ok {| sha := h; subject := s; body := b |}
                      | None => Err ValueError
                      end
  | None => Err ValueError
  end.
Definition strip_newlines (s : string) : string := of_chars (rstrip_by is_newline (lstrip_by is_newline (chars s))).
Definition log_of (range_spec : string) : gate (list Commit) :=
  match git_log range_spec with
  | None => Err GitError
  | Some text => of_res (mapR parse_entry (List.filter str_truthy (map strip_newlines (split (ascii_of_nat 30) text))))
  end.
Definition range (base head : string) : string := base +:+ ".." +:+ head.

(** [validate_range]: the first commit that is not conventional, if any. *)
Definition validate_range (base head : string) : gate (option string) :=
  _ ← resolve_commit base;
  _ ← resolve_commit head;
  commits ← log_of (range base head);
  Ok (sha <$> List.find (fun c => negb (validate_subject (subject c))) commits).

Definition bump_between (base head : string) : gate (option string) :=
  commits ← log_of (range base head); Ok (bump_level commits).

(** [check_release_mr]: whether there is no error. *)
Definition check_release_mr (base head : string) : gate bool :=
  _ ← resolve_commit base;
  _ ← resolve_commit head;
  needed ← bump_between base head;
  base_version ← match version_at base with Some t => Ok (strip t) | None => Err GitError end;
  head_version ← match version_file_text with Some t => Ok (strip t) | None => Err (GateRaised OSError) end;
  h ← of_res (semver_tuple head_version);
  b ← of_res (semver_tuple base_version);
  Ok match needed with
     | None => negb (tuple_lt b h && negb (changelog_has head_version changelog_text))
     | Some _ => tuple_lt b h && changelog_has head_version changelog_text
     end.
End Gates.

(** [text.splitlines()[0]]. *)
Definition is_line_boundary (c : ascii) : bool := in_range 10 13 c || in_range 28 30 c || (code c =? 133)%Z.
Fixpoint first_line (l : list ascii) : list ascii :=
  match l with [] => [] | c :: l' => if is_line_boundary c then [] else c :: first_line l' end.

(** [gates.py main]: the exit code.  The tools are those of the directory it
    runs in, or of the one [--root] names. *)
Definition gate_exit {A} (code_of : A -> Z) (r : gate A) : res Z :=
  match r with Ok a => Ok (code_of a) | Err GitError => Ok 1%Z | Err (GateRaised e) => Err e end.
Definition gates_main (tools : option string -> GateTools) (read_file : string -> option string) (args : list string) : res Z :=
  match args with
  | [] => Ok 2%Z
  | cmd :: rest =>
      if String.eqb cmd "subject" then
        match rest with
        | [] => Ok 2%Z
        | path :: _ =>
            text ← of_option (read_file path) OSError;
            Ok (if validate_subject (strip (of_chars (first_line (chars text)))) then 0 else 1)%Z
        end
      else if String.eqb cmd "range" then
        match rest with
        | base :: head :: _ =>
            gate_exit (fun bad => match bad with Some _ => 1 | None => 0 end)%Z (@validate_range (tools None) base head)
        | _ => Ok 2%Z
        end
      else if String.eqb cmd "bump" then
        match rest with
        | base :: head :: _ => gate_exit (fun _ => 0%Z) (@bump_between (tools None) base head)
        | _ => Ok 2%Z
        end
      else if String.eqb cmd "mr" then
        match rest with
        | base :: head :: more =>
            let root := match more with
                        | flag :: dir :: _ => if String.eqb flag "--root" then Some dir else None
                        | _ => None
                        end in
            gate_exit (fun fine : bool => if fine then 0 else 1)%Z (@check_release_mr (tools root) base head)
        | _ => Ok 2%Z
        end
      else Ok 2%Z
  end.

(** ** What the commits ask for *)

(** The levels of a commit by itself. *)
Inductive level := LPatch | LMinor | LMajor.
Definition level_of (c : Commit) : option level :=
  if is_merge (subject c) || is_revert (subject c) then None
  else match parse_header (subject c) with
       | Some (typ, sign) =>
           if is_breaking c sign then Some LMajor
           else if String.eqb typ "feat" then Some LMinor
           else if bool_decide (typ ∈ ["fix"; "perf"]) then Some LPatch else None
       | None => None
       end.
#[global] Instance level_eq_dec : EqDecision level.
Proof. solve_decision. Defined.
Definition asks (commits : list Commit) (l : level) : bool := existsb (fun c => bool_decide (level_of c = Some l)) commits.
Definition required_bump (commits : list Commit) : option string :=
  if asks commits LMajor then Some "major"
  else if asks commits LMinor then Some "minor"
  else if asks commits LPatch then Some "patch" else None.

Lemma bump_loop_spec commits : forall lv, lv ∈ [None; Some "patch"; Some "minor"] ->
  bump_loop lv commits = if asks commits LMajor then Some "major"
    else if asks commits LMinor then Some "minor"
    else if asks commits LPatch then match lv with Some l => Some l | None => Some "patch" end else lv.
Proof.
  induction commits as [|c commits IH]; intros lv Hlv; [done|]. cbn [bump_loop]. unfold asks. cbn [existsb].
  fold (asks commits LMajor) (asks commits LMinor) (asks commits LPatch). unfold level_of.
  destruct (is_merge (subject c) || is_revert (subject c)); [by rewrite IH|].
  destruct (parse_header (subject c)) as [[typ sign]|]; [|by rewrite IH].
  destruct (is_breaking c sign); [done|]. destruct (String.eqb typ "feat").
  { rewrite IH; [set_solver|]. cbn. by destruct (asks commits LMajor), (asks commits LMinor), (asks commits LPatch). }
  destruct (bool_decide (typ ∈ ["fix"; "perf"])); cbn [andb]; [|by rewrite IH].
  destruct lv as [l|]; cbn.
  - rewrite IH //. by destruct (asks commits LMajor), (asks commits LMinor), (asks commits LPatch).
  - rewrite IH; [set_solver|]. by destruct (asks commits LMajor), (asks commits LMinor), (asks commits LPatch).
Qed.
Lemma bump_level_required commits : bump_level commits = required_bump commits.
Proof.
  unfold bump_level. rewrite bump_loop_spec; [set_solver|]. unfold required_bump.
  by destruct (asks commits LMajor), (asks commits LMinor), (asks commits LPatch).
Qed.
(** The bump does not depend on the order of the commits. *)
Theorem bump_level_order commits commits' : Permutation commits commits' -> bump_level commits = bump_level commits'.
Proof.
  intros Hp. rewrite !bump_level_required. unfold required_bump.
  assert (forall l, asks commits l = asks commits' l) as Ha; [|by rewrite !Ha].
  intros l. unfold asks. apply eq_iff_eq_true. rewrite !existsb_exists.
  split; intros (c & Hc & Hl); exists c; (split; [|done]);
    [exact (Permutation_in _ Hp Hc)|exact (Permutation_in _ (Permutation_sym Hp) Hc)].
Qed.

(** ** The release helper *)

Inductive release_exn := ReleaseError | CalledProcessError (returncode : Z) | Raised (e : exn).

(** git and the working tree of a repository [G]. A command that fails gives its
    return code. *)
Class Git (G : Type) := {
  g_status : G -> result Z string;
  g_branch : G -> result Z string;
  g_head : G -> result Z string;
  g_tags : string -> G -> result Z string;
  g_tag_exists : string -> G -> bool;
  g_delete_tag : string -> G -> result Z G;
  g_create_tag : string -> string -> G -> result Z G;
  g_push : bool -> string -> G -> result Z G;
  (** the files VERSION and pyproject.toml *)
  g_version : G -> option string; g_set_version : string -> G -> G;
  g_pyproject : G -> option string; g_set_pyproject : string -> G -> G;
  (** [uv], by its arguments *)
  uv : list string -> G -> result Z G
}.

Record GitOpts := { force : bool; allow_dirty : bool }.

(** A program that may fail, with what it did to the repository. *)
Definition rel (G A : Type) : Type := G -> result release_exn A * G.
#[global] Instance rel_ret G : MRet (rel G) := fun A a g => (Ok a, g).
#[global] Instance rel_bind G : MBind (rel G) := fun A B f m g =>
  match m g with
  | (Ok a, g') => f a g'
  | (Err e, g') => (Err e, g')
  end.
Definition fails {G A} (e : release_exn) : rel G A := fun g => (Err e, g).
Definition fail_if {G} (b : bool) (e : release_exn) : rel G unit := if b then fails e else mret tt.
Definition raising {G A} (r : res A) : rel G A :=
  fun g => (match r with Ok a => Ok a | Err e => Err (Raised e) end, g).
(** [subprocess.run(..., check=True)] that reads, and that acts. *)
Definition reading {G A} (run : G -> result Z A) : rel G A :=
  fun g => (match run g with Ok a => Ok a | Err n => Err (CalledProcessError n) end, g).
Definition running {G} (run : G -> result Z G) : rel G unit :=
  fun g => match run g with Ok g' => (Ok tt, g') | Err n => (Err (CalledProcessError n), g) end.
Definition looking {G A} (f : G -> A) : rel G A := fun g => (Ok (f g), g).
Definition acting {G} (f : G -> G) : rel G unit := fun g => (Ok tt, f g).

(** [VERSION_LINE.search] and [PYPROJECT_VERSION.search]: the text before the
    first field at the start of a line, its value, the text after it. *)
Definition version_field : list ascii := chars "version = " ++ [quote].
Definition match_field (l : list ascii) : option (list ascii * list ascii) :=
  if bool_decide (take (length version_field) l = version_field) then
    '(v, rest) ← partition_chars quote [] (drop (length version_field) l);
    if bool_decide (v = []) then None else Some (v, rest)
  else None.
Fixpoint search_field (line_start : bool) (pre l : list ascii) : option (list ascii * list ascii * list ascii) :=
  match (if line_start then match_field l else None) with
  | Some (v, rest) => Some (rev pre, v, rest)
  | None => match l with [] => None | c :: l' => search_field (is_newline c) (c :: pre) l' end
  end.

Section Repo.
Context {G : Type} `{Git G} (opts : GitOpts) (name : string).

Definition create_tag (tag message : string) : rel G unit :=
  exists_ ← looking (g_tag_exists tag);
  _ ← (if force opts && exists_ then running (g_delete_tag tag) else mret tt);
  running (g_create_tag tag message).
Fixpoint push_refs (refs : list string) : rel G unit :=
  match refs with
  | [] => mret tt
  | ref :: refs' => _ ← running (g_push (force opts) ref); push_refs refs'
  end.
Definition require_clean : rel G unit :=
  if allow_dirty opts then mret tt
  else text ← reading g_status; fail_if (str_truthy (strip text)) ReleaseError.

(** [Git.tags], newest first. *)
Definition tags : rel G (list string) :=
  out ← reading (g_tags "v*");
  let out := strip out in
  mret (if str_truthy out then split (ascii_of_nat 10) out else []).

Definition version : rel G string :=
  vf ← looking g_version;
  pj ← looking g_pyproject;
  match vf, pj with
  | Some v_text, Some text =>
      let v_file := strip v_text in
      match search_field true [] (chars text) with
      | None => fails ReleaseError
      | Some (_, v, _) => _ ← fail_if (negb (String.eqb v_file (of_chars v))) ReleaseError; mret v_file
      end
  | _, _ => fails ReleaseError
  end.
Definition tag_name (v : string) : string := "v" +:+ v.
Definition require_tag_missing (v : string) : rel G unit :=
  e ← looking (g_tag_exists (tag_name v)); fail_if (e && negb (force opts)) ReleaseError.

Definition set_version (v : string) : rel G unit :=
  _ ← fail_if (negb (semver_match v)) ReleaseError;
  _ ← require_tag_missing v;
  text ← looking g_pyproject;
  match text with
  | None => fails (Raised OSError)
  | Some text =>
      match search_field true [] (chars text) with
      | None => fails ReleaseError
      | Some (pre, _, rest) =>
          _ ← acting (g_set_version (v +:+ of_chars [ascii_of_nat 10]));
          acting (g_set_pyproject (of_chars (pre ++ version_field ++ chars v ++ quote :: rest)))
      end
  end.

Definition bump_version (current part : string) : result release_exn string :=
  if bool_decide (part ∈ ["major"; "minor"; "patch"]) then
    match semver_tuple current with
    | Ok [major; minor; patch] =>
        let text a b c := int_str a +:+ "." +:+ int_str b +:+ "." +:+ int_str c in
        Ok (if String.eqb part "major" then text (major + 1) 0 0
            else if String.eqb part "minor" then text major (minor + 1) 0
            else text major minor (patch + 1))%Z
    | _ => Err (Raised ValueError)
    end
  else if semver_match part then Ok part else Err ReleaseError.

Definition check : rel G unit :=
  _ ← require_clean; v ← version; require_tag_missing v.
Definition test : rel G unit :=
  _ ← running (uv ["sync"]); running (uv ["run"; "pytest"; "tests/"; "-q"]).
Definition build : rel G unit := running (uv ["build"]).
Definition make_tag (message : option string) : rel G string :=
  v ← version;
  let tag := tag_name v in
  _ ← require_tag_missing v;
  _ ← create_tag tag (str_or message (name +:+ " " +:+ v));
  mret tag.
Definition push : rel G unit :=
  v ← version;
  let tag := tag_name v in
  e ← looking (g_tag_exists tag);
  _ ← fail_if (negb e) ReleaseError;
  branch ← reading g_branch;
  push_refs [strip branch; tag].
Definition release (skip_test : bool) (message : option string) (pushing : bool) : rel G string :=
  _ ← check;
  _ ← (if skip_test then mret tt else test);
  _ ← build;
  tag ← make_tag message;
  _ ← (if pushing then push else mret tt);
  mret tag.

Definition latest_tag_version : rel G (option string) :=
  l ← tags;
  mret (match l with
        | [] => None
        | tag :: _ => Some (default tag (drop_prefix "v" tag))
        end).
Definition release_if_ready (message : option string) (pushing : bool) : rel G (option string) :=
  current ← version;
  latest ← latest_tag_version;
  e ← looking (g_tag_exists (tag_name current));
  if e then mret None
  else
    behind ← match latest with
             | None => mret (Some false)
             | Some v =>
                 c ← raising (semver_tuple current);
                 l ← raising (semver_tuple v);
                 mret (if bool_decide (c = l) then None else Some (tuple_lt c l))
             end;
    match behind with
    | None => mret None
    | Some true => fails ReleaseError
    | Some false => tag ← release true (Some (str_or message (name +:+ " " +:+ current))) pushing; mret (Some tag)
    end.
Definition repo_status : rel G unit :=
  v ← version; _ ← tags; _ ← reading g_status; _ ← reading g_branch; _ ← reading g_head; mret tt.
End Repo.

(** ** The command line *)

Inductive command :=
| CmdStatus | CmdBump (part : string) | CmdCheck | CmdTest | CmdBuild | CmdTag | CmdPush | CmdRelease | CmdReleaseIfReady.
#[global] Instance command_eq_dec : EqDecision command.
Proof. solve_decision. Defined.
Record Flags := { f_message : option string; f_skip_test : bool; f_push : bool; f_opts : GitOpts }.

Section Main.
Context {G : Type} `{Git G} (name : string).
(** [bump]. *)
Definition bump (opts : GitOpts) (part : string) : rel G unit :=
  current ← version;
  new ← (fun g => (bump_version current part, g));
  if String.eqb new current then mret tt else set_version opts new.

Definition run_command (flags : Flags) (cmd : command) : rel G unit :=
  let opts := f_opts flags in
  match cmd with
  | CmdStatus => repo_status
  | CmdBump part => bump opts part
  | CmdCheck => _ ← check opts; _ ← version; mret tt
  | CmdTest => test
  | CmdBuild => build
  | CmdTag => _ ← require_clean opts; _ ← make_tag opts name (f_message flags); mret tt
  | CmdPush => _ ← push opts; _ ← version; mret tt
  | CmdRelease => _ ← release opts name (f_skip_test flags) (f_message flags) (f_push flags); mret tt
  | CmdReleaseIfReady => _ ← release_if_ready opts name (f_message flags) (f_push flags); mret tt
  end.
(** The exit code, or an exception no handler catches. *)
Definition release_main (flags : Flags) (cmd : command) (g : G) : res Z * G :=
  match run_command flags cmd g with
  | (Ok _, g') => (Ok 0%Z, g')
  | (Err ReleaseError, g') => (Ok 1%Z, g')
  | (Err (CalledProcessError n), g') => (Ok (if (n =? 0)%Z then 1%Z else n), g')
  | (Err (Raised e), g') => (Err e, g')
  end.
End Main.

(** ** Tags are permanent *)

(** What git and [uv] are relied on for: a tag is only made where there is
    none; a push without force moves no tag; the tests and the build leave tags
    and the two version files alone. *)
Class GitLaws (G : Type) `{Git G} := {
  tag_commit : string -> G -> option string;
  remote_tag : string -> G -> option string;
  tag_exists_spec t g : g_tag_exists t g = bool_decide (is_Some (tag_commit t g));
  create_tag_promise t m g g' : g_create_tag t m g = Ok g' ->
    tag_commit t g = None /\ (forall t', t' <> t -> tag_commit t' g' = tag_commit t' g)
    /\ (forall t', remote_tag t' g' = remote_tag t' g) /\ g_version g' = g_version g /\ g_pyproject g' = g_pyproject g;
  push_promise ref g g' : g_push false ref g = Ok g' ->
    (forall t, tag_commit t g' = tag_commit t g) /\ (forall t c, remote_tag t g = Some c -> remote_tag t g' = Some c)
    /\ g_version g' = g_version g /\ g_pyproject g' = g_pyproject g;
  uv_promise args g g' : uv args g = Ok g' ->
    (forall t, tag_commit t g' = tag_commit t g) /\ (forall t, remote_tag t g' = remote_tag t g)
    /\ g_version g' = g_version g /\ g_pyproject g' = g_pyproject g;
  set_files_promise text g t :
    tag_commit t (g_set_version text g) = tag_commit t g /\ remote_tag t (g_set_version text g) = remote_tag t g
    /\ tag_commit t (g_set_pyproject text g) = tag_commit t g /\ remote_tag t (g_set_pyproject text g) = remote_tag t g
}.

Lemma tuple_lt_total a : forall b, a <> b -> tuple_lt a b = false -> tuple_lt b a = true.
Proof.
  induction a as [|x a IH]; intros [|y b] Hne; cbn [tuple_lt]; try done.
  intros [Hx Hand]%orb_false_iff. apply Z.ltb_ge in Hx. apply orb_true_iff.
  destruct (Z.eqb_spec x y) as [->|Hxy]; cbn [andb] in Hand; [|left; apply Z.ltb_lt; lia].
  right. rewrite Z.eqb_refl. cbn [andb]. apply IH; congruence.
Qed.

Section Tags.
Context {G : Type} `{HG : Git G} `{HGL : !GitLaws G} (opts : GitOpts) (name : string) (Hforce : force opts = false).

(** From one state of the repository to a later one: no tag moved or went, here
    or at the remote; every new tag here is the version's; the files are as they
    were. *)
Definition kept_tags (g g' : G) : Prop :=
  (forall t c, tag_commit t g = Some c -> tag_commit t g' = Some c)
  /\ (forall t c, remote_tag t g = Some c -> remote_tag t g' = Some c).
Definition settles (v : string) (g g' : G) : Prop :=
  kept_tags g g' /\ (forall t, tag_commit t g = None -> tag_commit t g' <> None -> t = tag_name v)
  /\ g_version g' = g_version g /\ g_pyproject g' = g_pyproject g.
Lemma settles_refl v g : settles v g g.
Proof. by split_and!. Qed.
Lemma settles_trans v g1 g2 g3 : settles v g1 g2 -> settles v g2 g3 -> settles v g1 g3.
Proof.
  intros ([Ha Hb] & Hn & Hv & Hp) ([Ha' Hb'] & Hn' & Hv' & Hp'). split; [split; eauto|].
  split; [|split; congruence]. intros t H1 H3. destruct (tag_commit t g2) eqn:H2; [apply Hn; congruence|by apply Hn'].
Qed.
(** A step that leaves every tag where it is settles any version. *)
Lemma settles_same v g g' : (forall t, tag_commit t g' = tag_commit t g) ->
  (forall t c, remote_tag t g = Some c -> remote_tag t g' = Some c) ->
  g_version g' = g_version g -> g_pyproject g' = g_pyproject g -> settles v g g'.
Proof. intros Ht Hr ? ?. split_and!; [split; [intros t c; by rewrite Ht|done]| |done|done]. intros t ?. by rewrite Ht. Qed.

Lemma version_frame g g' : g_version g' = g_version g -> g_pyproject g' = g_pyproject g -> (version g').1 = (version g).1.
Proof.
  unfold version, mbind, rel_bind, looking. intros -> ->. repeat case_match; try done; simplify_eq/=; try done;
    unfold fail_if, fails, mret, rel_ret in *; repeat case_match; by simplify_eq/=.
Qed.
Lemma version_state g : (version g).2 = g.
Proof.
  unfold version, mbind, rel_bind, looking. repeat case_match; simplify_eq/=; try done;
    unfold fail_if, fails, mret, rel_ret in *; repeat case_match; by simplify_eq/=.
Qed.

(** Programs that settle the version [v] the files agree on. *)
Definition settling {A} (v : string) (m : rel G A) : Prop := forall g, (version g).1 = Ok v -> settles v g (m g).2.
Lemma settling_pure {A} v (m : rel G A) : (forall g, (m g).2 = g) -> settling v m.
Proof. intros Hm g _. rewrite Hm. apply settles_refl. Qed.
Lemma settling_bind {A B} v (m : rel G A) (f : A -> rel G B) : settling v m -> (forall a, settling v (f a)) -> settling v (a ← m; f a).
Proof.
  intros Hm Hf g Hg. specialize (Hm g Hg). unfold mbind, rel_bind. destruct (m g) as [[a|e] g1]; [|done].
  cbn in Hm. apply (settles_trans _ _ _ _ Hm), Hf. destruct Hm as (_ & _ & Hv & Hp). by rewrite (version_frame _ _ Hv Hp).
Qed.
Lemma settling_uv v args : settling v (running (uv args)).
Proof using HGL.
  intros g _. unfold running. destruct (uv args g) as [g'|n] eqn:Hu; [|apply settles_refl]. cbn.
  apply uv_promise in Hu as (Ht & Hr & Hv & Hp). apply settles_same; try done. intros t c. by rewrite Hr.
Qed.
Lemma settling_push v refs : settling v (push_refs opts refs).
Proof using HGL Hforce.
  induction refs as [|ref refs IH]; [by apply settling_pure|]. cbn [push_refs]. apply settling_bind; [|done].
  intros g _. unfold running. rewrite Hforce. destruct (g_push false ref g) as [g'|n] eqn:Hu; [|apply settles_refl].
  cbn. apply push_promise in Hu as (Ht & Hr & Hv & Hp). by apply settles_same.
Qed.
Lemma require_clean_state g : (require_clean opts g).2 = g.
Proof.
  unfold require_clean. destruct (allow_dirty opts); [done|]. unfold mbind, rel_bind, reading.
  destruct (g_status g); [|done]. unfold fail_if. by destruct (str_truthy _).
Qed.
Lemma require_missing_state v g : (require_tag_missing opts v g).2 = g.
Proof. unfold require_tag_missing, mbind, rel_bind, looking, fail_if. by destruct (_ && _). Qed.

Lemma settling_make_tag v message : settling v (make_tag opts name message).
Proof using HGL Hforce.
  intros g Hg. unfold make_tag. unfold mbind at 1, rel_bind at 1. pose proof (version_state g) as Hs.
  destruct (version g) as [r g1]. cbn in Hg, Hs. subst r g1. unfold mbind at 1, rel_bind at 1.
  pose proof (require_missing_state v g) as Hs. destruct (require_tag_missing opts v g) as [[u|e] g1]; cbn in Hs; subst g1;
    [|apply settles_refl].
  unfold create_tag, mbind, rel_bind, looking. rewrite Hforce. cbn [andb]. unfold mret, rel_ret at 1, running.
  destruct (g_create_tag _ _ g) as [g'|n] eqn:Hc; [|apply settles_refl]. cbn.
  apply create_tag_promise in Hc as (Hn & Ho & Hr & Hv & Hp). split; [|split; [|done]].
  - split; [|intros t c; by rewrite Hr]. intros t c Ht. rewrite Ho; [congruence|done].
  - intros t Ht Hnew. destruct (decide (t = tag_name v)) as [|Hne]; [done|]. by rewrite (Ho t Hne) in Hnew.
Qed.

Lemma settling_version {A} v (f : string -> rel G A) : (forall w, settling v (f w)) -> settling v (w ← version; f w).
Proof. intros Hf. apply settling_bind; [apply settling_pure, version_state|done]. Qed.
Lemma settling_looking {A B} v (look : G -> A) (f : A -> rel G B) : (forall a, settling v (f a)) -> settling v (a ← looking look; f a).
Proof. intros Hf. apply settling_bind; [by apply settling_pure|done]. Qed.
Lemma settling_reading {A B} v (run : G -> result Z A) (f : A -> rel G B) : (forall a, settling v (f a)) -> settling v (a ← reading run; f a).
Proof. intros Hf. apply settling_bind; [by apply settling_pure|done]. Qed.
Lemma settling_fail_if v b e : settling v (fail_if b e).
Proof. apply settling_pure. intros g. by destruct b. Qed.

Lemma settling_check v : settling v (check opts).
Proof.
  unfold check. apply settling_bind; [apply settling_pure, require_clean_state|]. intros _. apply settling_version.
  intros w. apply settling_pure, require_missing_state.
Qed.
Lemma settling_push_all v : settling v (push opts).
Proof using HGL Hforce.
  unfold push. apply settling_version. intros w. apply settling_looking. intros e. apply settling_bind; [apply settling_fail_if|].
  intros _. apply settling_reading. intros b. apply settling_push.
Qed.
Lemma settling_release v skip_test message pushing : settling v (release opts name skip_test message pushing).
Proof using HGL Hforce.
  unfold release. apply settling_bind; [apply settling_check|]. intros _. apply settling_bind.
  { destruct skip_test; [by apply settling_pure|]. apply settling_bind; [apply settling_uv|intros _; apply settling_uv]. }
  intros _. apply settling_bind; [apply settling_uv|]. intros _. apply settling_bind; [apply settling_make_tag|].
  intros tag. apply settling_bind; [|intros _; by apply settling_pure].
  destruct pushing; [apply settling_push_all|by apply settling_pure].
Qed.
Lemma settling_tags {A} v (f : option string -> rel G A) : (forall l, settling v (f l)) -> settling v (l ← latest_tag_version; f l).
Proof.
  intros Hf. apply settling_bind; [|done]. apply settling_pure. intros g.
  unfold latest_tag_version, tags, mbind, rel_bind, reading. by destruct (g_tags "v*" g).
Qed.
Lemma settling_release_if_ready v message pushing : settling v (release_if_ready opts name message pushing).
Proof using HGL Hforce.
  unfold release_if_ready. apply settling_version. intros w. apply settling_tags. intros latest. apply settling_looking.
  intros []; [by apply settling_pure|]. apply settling_bind.
  { destruct latest as [l|]; [|by apply settling_pure]. apply settling_bind; [by apply settling_pure|]. intros c.
    apply settling_bind; [by apply settling_pure|]. intros d. by apply settling_pure. }
  intros [[]|]; [by apply settling_pure| |by apply settling_pure].
  apply settling_bind; [apply settling_release|intros tag; by apply settling_pure].
Qed.

(** *** What a command may leave *)

(** A program that stops with an error before it does anything. *)
Definition stuck {A} (m : rel G A) (g : G) : Prop := exists e, m g = (Err e, g).
Lemma stuck_bind {A B} (m : rel G A) (f : A -> rel G B) g : stuck m g -> stuck (a ← m; f a) g.
Proof. intros [e He]. exists e. unfold mbind, rel_bind. by rewrite He. Qed.
Lemma stuck_after {A B} (m : rel G A) (f : A -> rel G B) g : (m g).2 = g -> (forall a, stuck (f a) g) -> stuck (a ← m; f a) g.
Proof.
  intros Hm Hf. unfold stuck, mbind, rel_bind. destruct (m g) as [[a|e] g1]; cbn in Hm; subst g1; [apply Hf|by exists e].
Qed.
Lemma stuck_version e g : (version g).1 = Err e -> stuck version g.
Proof. intros He. exists e. pose proof (version_state g). destruct (version g). cbn in *. by subst. Qed.
Lemma stuck_check e g : (version g).1 = Err e -> stuck (check opts) g.
Proof.
  intros He. apply stuck_after; [apply require_clean_state|]. intros _. eapply stuck_bind, stuck_version, He.
Qed.

Definition same_tags (g g' : G) : Prop := forall t, tag_commit t g' = tag_commit t g /\ remote_tag t g' = remote_tag t g.
Lemma same_refl g : same_tags g g.
Proof. done. Qed.
Lemma set_version_same v g : same_tags g (set_version opts v g).2.
Proof using HGL.
  unfold set_version, mbind, rel_bind, fail_if. destruct (negb (semver_match v)); [done|]. cbn [mret rel_ret].
  pose proof (require_missing_state v g) as Hs. destruct (require_tag_missing opts v g) as [[u'|e] g1]; cbn in Hs; subst g1; [|done].
  unfold looking. destruct (g_pyproject g) as [text|]; [|done]. destruct (search_field _ _ _) as [[[pre w] rest]|]; [|done].
  unfold acting. cbn. intros t. destruct (set_files_promise (v +:+ of_chars [ascii_of_nat 10]) g t) as (H1 & H2 & _).
  match goal with |- context [g_set_pyproject ?x ?h] => destruct (set_files_promise x h t) as (_ & _ & H3 & H4) end.
  split; [by rewrite H3 H1|by rewrite H4 H2].
Qed.
Lemma bump_same part g : same_tags g (bump opts part g).2.
Proof using HGL.
  unfold bump, mbind, rel_bind. pose proof (version_state g) as Hv. destruct (version g) as [[w|e] g1]; cbn in Hv; subst g1; [|done].
  destruct (bump_version w part) as [new|e]; [|done]. destruct (String.eqb new w); [done|]. apply set_version_same.
Qed.
Lemma same_kept g g' : same_tags g g' -> kept_tags g g'.
Proof. intros Hs. split; intros t c; destruct (Hs t) as [H1 H2]; congruence. Qed.

(** A release that happens by itself is of a newer version. *)
Definition newer (v l : string) : Prop :=
  exists a b, semver_tuple l = Ok a /\ semver_tuple v = Ok b /\ tuple_lt a b = true.
Lemma ready_newer v l message pushing g : (version g).1 = Ok v -> (latest_tag_version g).1 = Ok (Some l) ->
  (release_if_ready opts name message pushing g).2 = g \/ newer v l.
Proof.
  intros Hv Hl. unfold release_if_ready, mbind, rel_bind. pose proof (version_state g) as Hs.
  destruct (version g) as [r g1]. cbn in Hv, Hs. subst r g1.
  assert ((latest_tag_version g).2 = g) as Hs.
  { unfold latest_tag_version, tags, mbind, rel_bind, reading. by destruct (g_tags "v*" g). }
  destruct (latest_tag_version g) as [r g1]. cbn in Hl, Hs. subst r g1. cbn [looking].
  destruct (g_tag_exists _ g); [by left|]. unfold raising.
  destruct (semver_tuple v) as [c|] eqn:Hc; [|by left]. destruct (semver_tuple l) as [d|] eqn:Hd; [|by left].
  cbn. destruct (bool_decide_reflect (c = d)) as [|Hne]; [by left|]. destruct (tuple_lt c d) eqn:Hlt; [by left|].
  right. exists d, c. split; [done|]. split; [done|]. exact (tuple_lt_total _ _ Hne Hlt).
Qed.
End Tags.

Section Commands.
Context {G : Type} `{HG : Git G} `{HGL : !GitLaws G} (name : string).

Lemma settling_status v : settling v (repo_status (G := G)).
Proof.
  unfold repo_status. apply settling_version. intros w. apply settling_bind.
  { apply settling_pure. intros g. unfold tags, mbind, rel_bind, reading. by destruct (g_tags "v*" g). }
  intros _. apply settling_reading. intros _. apply settling_reading. intros _. apply settling_reading. intros _. by apply settling_pure.
Qed.
Lemma settling_test v : settling v (test (G := G)).
Proof using HGL. apply settling_bind; [apply settling_uv|intros _; apply settling_uv]. Qed.

(** The commands that settle the version the files agree on: all but [bump]. *)
Lemma settling_command flags cmd v : force (f_opts flags) = false -> (forall part, cmd <> CmdBump part) ->
  settling v (run_command name flags cmd).
Proof using HGL.
  intros Hf Hb. destruct cmd as [|part| | | | | | |]; cbn [run_command].
  - apply settling_status.
  - by destruct (Hb part).
  - apply settling_bind; [apply settling_check|intros _; apply settling_version; intros w; by apply settling_pure].
  - apply settling_test.
  - apply settling_uv.
  - apply settling_bind; [apply settling_pure, require_clean_state|]. intros _.
    apply settling_bind; [by apply settling_make_tag|intros t; by apply settling_pure].
  - apply settling_bind; [by apply settling_push_all|intros _; apply settling_version; intros w; by apply settling_pure].
  - apply settling_bind; [by apply settling_release|intros t; by apply settling_pure].
  - apply settling_bind; [by apply settling_release_if_ready|intros t; by apply settling_pure].
Qed.
Lemma uv_same args g : same_tags g (running (uv args) g).2.
Proof using HGL.
  unfold running. destruct (uv args g) as [g'|] eqn:Hu; [|done]. apply uv_promise in Hu as (Ht & Hr & _). cbn. intros t. auto.
Qed.
Lemma test_same g : same_tags g (test g).2.
Proof using HGL.
  unfold test, mbind, rel_bind. pose proof (uv_same ["sync"] g) as H1. destruct (running (uv ["sync"]) g) as [[u|] g1]; [|done].
  intros t. destruct (H1 t) as [Ha Hb]. destruct (uv_same ["run"; "pytest"; "tests/"; "-q"] g1 t) as [Hc Hd]. cbn in *.
  split; congruence.
Qed.
(** When the files do not agree on a version, nothing is done. *)
Lemma no_version_stuck flags cmd g e : (version g).1 = Err e -> cmd <> CmdTest -> cmd <> CmdBuild ->
  stuck (run_command name flags cmd) g.
Proof.
  intros He Ht Hb. destruct cmd as [|part| | | | | | |]; cbn [run_command]; try done.
  - eapply stuck_bind, stuck_version, He.
  - eapply stuck_bind, stuck_version, He.
  - eapply stuck_bind, stuck_check, He.
  - apply stuck_after; [apply require_clean_state|]. intros _. eapply stuck_bind, stuck_bind, stuck_version, He.
  - eapply stuck_bind, stuck_bind, stuck_version, He.
  - eapply stuck_bind, stuck_bind, stuck_check, He.
  - eapply stuck_bind, stuck_bind, stuck_version, He.
Qed.

(** C40: Tags are permanent. Whatever command the release helper is given, unless it
    is forced, and however it ends, no tag moves or goes, here or at the remote.
    A new tag is the one of the version both files agree on, and when a release
    happens by itself that version is above the latest tag. *)
Theorem tags_are_permanent flags cmd g r g' : force (f_opts flags) = false ->
  release_main name flags cmd g = (r, g') ->
  kept_tags g g'
  /\ forall t, tag_commit t g = None -> tag_commit t g' <> None ->
       exists v, (version g).1 = Ok v /\ t = tag_name v
         /\ (cmd = CmdReleaseIfReady -> forall l, (latest_tag_version g).1 = Ok (Some l) -> newer v l).
Proof using HGL.
  intros Hf Hm. assert (g' = (run_command name flags cmd g).2) as ->.
  { unfold release_main in Hm. by destruct (run_command name flags cmd g) as [[u|[| |]] g1]; injection Hm as _ <-. }
  clear Hm r. destruct (version g).1 as [v|e] eqn:Hv.
  - assert ((exists part, cmd = CmdBump part) \/ forall part, cmd <> CmdBump part) as [[part ->]|Hnp]
      by (destruct cmd; naive_solver).
    + pose proof (bump_same (f_opts flags) part g) as Hs. split; [exact (same_kept _ _ Hs)|].
      intros t Hn Hnew. destruct (Hs t) as [H1 _]. cbn [run_command] in Hnew. congruence.
    + destruct (settling_command flags cmd v Hf Hnp g Hv) as (Hk & Hn & _). split; [done|].
      intros t H1 H2. exists v. split; [done|]. split; [by apply Hn|]. intros -> l Hl.
      destruct (ready_newer (f_opts flags) name v l (f_message flags) (f_push flags) g Hv Hl) as [Hs|]; [|done].
      cbn [run_command] in H2. unfold mbind, rel_bind in H2.
      destruct (release_if_ready _ _ _ _ g) as [[x|x] g1]; cbn in Hs, H2; congruence.
  - assert (same_tags g (run_command name flags cmd g).2) as Hs.
    { destruct (decide (cmd = CmdTest)) as [->|Ht]; [exact (test_same g)|].
      destruct (decide (cmd = CmdBuild)) as [->|Hb]; [exact (uv_same ["build"] g)|].
      destruct (no_version_stuck flags cmd g e Hv Ht Hb) as [x Hx]. by rewrite Hx. }
    split; [exact (same_kept _ _ Hs)|]. intros t Hn Hnew. destruct (Hs t) as [H1 _]. congruence.
Qed.
End Commands.

(** ** Witnesses *)

Example headers :
  map parse_header ["feat(api)!: drop v0"; "fix: off by one"; "fix(): empty scope"; "feature: no"; "docs:no space"]
  = [Some ("feat", true); Some ("fix", false); None; None; None]
  /\ map validate_subject ["Merge branch main"; "Merge nothing"; "Revert fix"] = [true; false; true].
Proof. split; vm_compute; reflexivity. Qed.
Example bumps :
  bump_level [{| sha := "1"; subject := "fix: a"; body := "" |}; {| sha := "2"; subject := "feat: b"; body := "" |};
              {| sha := "3"; subject := "perf: c"; body := "" |}] = Some "minor"
  /\ bump_version "1.9.0" "minor" = Ok "1.10.0" /\ tuple_lt [1; 9; 0]%Z [1; 10; 0]%Z = true.
Proof. split_and!; vm_compute; reflexivity. Qed.

(** A repository with one commit to tag and one remote. *)
Record toy_repo := {
  toy_version : string; toy_pyproject : string; toy_tag_list : string;
  toy_tags : gmap string string; toy_remote : gmap string string
}.
Definition toy_with_tags (g : toy_repo) (here there : gmap string string) : toy_repo :=
  {| toy_version := toy_version g; toy_pyproject := toy_pyproject g; toy_tag_list := toy_tag_list g;
     toy_tags := here; toy_remote := there |}.
(** A tag is pushed if the remote has none of its name, or with force. *)
Definition toy_push (forced : bool) (ref : string) (g : toy_repo) : result Z toy_repo :=
  match toy_tags g !! ref with
  | None => Ok g
  | Some c => if forced || bool_decide (toy_remote g !! ref = None)
              then Ok (toy_with_tags g (toy_tags g) (<[ref := c]> (toy_remote g))) else Err 1%Z
  end.
#[local] Instance toy_git : Git toy_repo := {|
  g_status := fun _ => Ok ""; g_branch := fun _ => Ok "main"; g_head := fun _ => Ok "c2";
  g_tags := fun _ g => Ok (toy_tag_list g);
  g_tag_exists := fun t g => bool_decide (is_Some (toy_tags g !! t));
  g_delete_tag := fun t g => Ok (toy_with_tags g (delete t (toy_tags g)) (toy_remote g));
  g_create_tag := fun t _ g => if bool_decide (is_Some (toy_tags g !! t)) then Err 128%Z
                               else Ok (toy_with_tags g (<[t := "c2"]> (toy_tags g)) (toy_remote g));
  g_push := toy_push;
  g_version := fun g => Some (toy_version g); g_pyproject := fun g => Some (toy_pyproject g);
  g_set_version := fun v g => {| toy_version := v; toy_pyproject := toy_pyproject g; toy_tag_list := toy_tag_list g;
                                 toy_tags := toy_tags g; toy_remote := toy_remote g |};
  g_set_pyproject := fun p g => {| toy_version := toy_version g; toy_pyproject := p; toy_tag_list := toy_tag_list g;
                                   toy_tags := toy_tags g; toy_remote := toy_remote g |};
  uv := fun _ g => Ok g |}.
#[local] Instance toy_git_laws : GitLaws toy_repo.
Proof.
  refine {| tag_commit := fun t g => toy_tags g !! t; remote_tag := fun t g => toy_remote g !! t |}.
  - done.
  - intros t m g g'. cbn. case_bool_decide as Hn; [done|]. intros [= <-]. cbn. split_and!; try done.
    + by apply eq_None_not_Some.
    + intros t' Ht. rewrite lookup_insert_ne; [congruence|done].
  - intros ref g g'. cbn. unfold toy_push. destruct (toy_tags g !! ref) as [c|]; [|by intros [= <-]]. cbn [orb].
    case_bool_decide as Hn; [|done]. intros [= <-]. cbn. split_and!; try done. intros t c' Ht.
    rewrite lookup_insert_ne; [congruence|done].
  - by intros args g g' [= <-].
  - done.
Defined.

Definition toy_project : string := of_chars (chars "[project]" ++ [ascii_of_nat 10] ++ version_field ++ chars "1.1.0" ++ [quote]).
Definition toy : toy_repo := {| toy_version := "1.1.0"; toy_pyproject := toy_project; toy_tag_list := "v1.0.0";
  toy_tags := {["v1.0.0" := "c1"]}; toy_remote := {["v1.0.0" := "c1"]} |}.
Definition toy_flags : Flags :=
  {| f_message := None; f_skip_test := false; f_push := true; f_opts := {| force := false; allow_dirty := false |} |}.
Definition toy_released : toy_repo := Eval vm_compute in (release_main "ledger" toy_flags CmdReleaseIfReady toy).2.
Lemma toy_release : release_main "ledger" toy_flags CmdReleaseIfReady toy = (Ok 0%Z, toy_released).
Proof. vm_compute. reflexivity. Qed.
Lemma tags_are_permanent_witness : kept_tags toy toy_released /\ exists v, "v1.1.0" = tag_name v /\ newer v "1.0.0".
Proof.
  destruct (tags_are_permanent "ledger" toy_flags CmdReleaseIfReady toy (Ok 0%Z) toy_released eq_refl toy_release)
    as [Hk Hnew].
  split; [exact Hk|]. destruct (Hnew "v1.1.0") as (v & _ & Ht & Hn); [reflexivity|discriminate|].
  exists v. split; [exact Ht|]. exact (Hn eq_refl "1.0.0" eq_refl).
Defined.
