(* ===== verification/Estate.v ===== *)
(** * The estate-data guard

    [ci/check_estate_data.py]: the scanner that keeps one deployment's figures
    out of the repository.  Its patterns are terms of a small regular-expression
    language with Python's leftmost, greedy, backtracking search; git and the
    forge are parameters.  Texts end at U+00FF, so the signs beyond it that two
    patterns also admit do not occur. *)

From S2P Require Import Prelude PyStr Json Errors Identity.
From stdpp Require Import options.

(** ** Patterns *)

Inductive regex :=
| RChar (p : ascii -> bool)
| RSeq (a b : regex)
| RAlt (a b : regex)
| ROpt (a : regex)
| RStar (a : regex)
| RBoundary
| RNotAfter (p : ascii -> bool)
| RNotBefore (p : ascii -> bool).

(** [\w] on the Latin-1 range. *)
Definition is_word (c : ascii) : bool :=
  is_digit c || is_lower_az c || is_upper_az c || (code c =? 95)%Z
  || bool_decide (code c ∈ [170; 178; 179; 181; 185; 186; 188; 189; 190]%Z)
  || (in_range 192 255 c && negb (code c =? 215)%Z && negb (code c =? 247)%Z).
Definition holds_of (p : ascii -> bool) (o : option ascii) : bool := from_option p false o.

(** Matching in front of the rest [k], given the character before: the text
    left over, if there is a match.  A star repeats while its body consumes. *)
Fixpoint match_k (r : regex) (prev : option ascii) (l : list ascii)
    (k : option ascii -> list ascii -> option (list ascii)) : option (list ascii) :=
  match r with
  | RChar p => match l with c :: l' => if p c then k (Some c) l' else None | [] => None end
  | RSeq a b => match_k a prev l (fun prev' l' => match_k b prev' l' k)
  | RAlt a b => match match_k a prev l k with Some x => Some x | None => match_k b prev l k end
  | ROpt a => match match_k a prev l k with Some x => Some x | None => k prev l end
  | RStar a =>
      (fix star (n : nat) (prev : option ascii) (l : list ascii) : option (list ascii) :=
         match n with
         | O => k prev l
         | S n' =>
             match match_k a prev l (fun prev' l' => if length l' <? length l then star n' prev' l' else None)%nat with
             | Some x => Some x
             | None => k prev l
             end
         end) (length l) prev l
  | RBoundary =>
      if Bool.eqb (holds_of is_word prev) (holds_of is_word (head l)) then None else k prev l
  | RNotAfter p => if holds_of p prev then None else k prev l
  | RNotBefore p => if holds_of p (head l) then None else k prev l
  end.
Definition match_at (r : regex) (prev : option ascii) (l : list ascii) : option (list ascii) :=
  match_k r prev l (fun _ rest => Some rest).

(** [search]: whether there is a match anywhere. *)
Fixpoint search_from (r : regex) (prev : option ascii) (l : list ascii) : bool :=
  match match_at r prev l with
  | Some _ => true
  | None => match l with [] => false | c :: l' => search_from r (Some c) l' end
  end.
Definition search (r : regex) (s : string) : bool := search_from r None (chars s).

(** One pass over the text: what is between the matches, and the matches.  [n]
    counts the characters of the current match still to be passed. *)
Fixpoint pass (r : regex) (prev : option ascii) (n : nat) (l : list ascii) : list ascii * list (list ascii) :=
  match l with
  | [] => ([], [])
  | c :: l' =>
      match n with
      | S n' => pass r (Some c) n' l'
      | O =>
          match match_at r prev l with
          | Some rest =>
              let len := length l - length rest in
              match len with
              | O => let '(kept, hits) := pass r (Some c) 0 l' in (c :: kept, hits)
              | S m => let '(kept, hits) := pass r (Some c) m l' in (kept, take len l :: hits)
              end
          | None => let '(kept, hits) := pass r (Some c) 0 l' in (c :: kept, hits)
          end
      end
  end.
(** [pattern.sub("", s)] and [pattern.findall(s)]; no pattern matches the empty
    text. *)
Definition remove (r : regex) (s : string) : string := of_chars (pass r None 0 (chars s)).1.
Definition findall (r : regex) (s : string) : list string := map of_chars (pass r None 0 (chars s)).2.

Definition RLit (c : ascii) : regex := RChar (Ascii.eqb c).
Fixpoint RText (l : list ascii) (r : regex) : regex := match l with [] => r | c :: l' => RSeq (RLit c) (RText l' r) end.
Definition RPlus (a : regex) : regex := RSeq a (RStar a).
Definition RDigit : regex := RChar is_digit.
Definition one_of (s : string) (c : ascii) : bool := existsb (Ascii.eqb c) (chars s).
(** [\d{1,3}(?:,\d{3})+]. *)
Definition RGroups : regex :=
  RSeq (RSeq RDigit (ROpt (RSeq RDigit (ROpt RDigit))))
       (RPlus (RSeq (RLit ",") (RSeq RDigit (RSeq RDigit RDigit)))).

Definition COUNT_RE : regex :=
  RSeq (RNotAfter (fun c => one_of "{," c || is_digit c)) (RSeq RBoundary (RSeq RGroups
    (RSeq RBoundary (RNotBefore (fun c => one_of ",}" c || is_digit c))))).
Definition QUANTIFIER_RE : regex :=
  RSeq (RLit "{") (RSeq (RPlus RDigit) (RSeq (RLit ",") (RSeq (RPlus RDigit) (RLit "}")))).
Definition SOURCE_LINE_REF_RE : regex :=
  RSeq (RLit ".") (RSeq (RPlus (RChar is_word)) (RSeq (RLit ":") (RSeq (RPlus RDigit)
    (RPlus (RSeq (RLit ",") (RPlus RDigit)))))).
Definition RSpaces : regex := RStar (RChar is_space).
Definition THRESHOLD_RE : regex :=
  RSeq RBoundary (RSeq (RChar is_upper_az) (RSeq RSpaces
    (RSeq (RAlt (RSeq (RLit ">") (RLit "=")) (RAlt (RSeq (RLit "<") (RLit "=")) (RChar (one_of "><"))))
      (RSeq RSpaces RGroups)))).
Definition RSign : regex := RSeq (RChar (fun c => Ascii.eqb c "$" || (code c =? 163)%Z)) (ROpt (RChar is_space)).
Definition MONEY_RE : regex :=
  RAlt (RSeq RSign (RSeq RGroups (ROpt (RSeq (RLit ".") (RPlus RDigit)))))
       (RSeq RSign (RSeq (RPlus RDigit) (RSeq (RLit ".") (RSeq RDigit (RSeq RDigit RBoundary))))).
Definition WAIVER_RE : regex :=
  RText (chars "estate-data-ok:") (RSeq RSpaces (RChar (fun c => negb (is_space c)))).
Definition ALLOWED : list string := ["CHANGELOG.md"].
Definition SKIP_SUFFIXES : list string := [".lock"; ".svg"; ".png"; ".jpg"; ".gz"; ".db"; ".ipynb"].

(** ** Scanning *)

Record finding := { fi_file : string; fi_line : Z; fi_match : string }.
Definition numbered_lines := list (Z * string).

(** The figures of one line. *)
Definition figures (line : string) : list string :=
  if search WAIVER_RE line then []
  else
    let probe := remove THRESHOLD_RE (remove SOURCE_LINE_REF_RE (remove QUANTIFIER_RE line)) in
    findall COUNT_RE probe ++ findall MONEY_RE probe.
Definition is_skipped (rel : string) : bool :=
  bool_decide (rel ∈ ALLOWED) || existsb (endswith rel) SKIP_SUFFIXES.
Definition scan (files : list (string * numbered_lines)) : list finding :=
  f ← files;
  if is_skipped f.1 then []
  else nl ← f.2; hit ← figures nl.2; [{| fi_file := f.1; fi_line := nl.1; fi_match := hit |}].

Example figures_of_lines :
  map figures ["we saw 12,345 of them"; "a{36,255}"; "x.go:525,685"; "C >= 8,000"; "X = 1,234"; "cost $1,000.50 or $5.25";
               "1,234 estate-data-ok: public"; "1,234 estate-data-ok: "; "12,34"; "1,234,5"]
  = [["12,345"]; []; []; []; ["1,234"]; ["1,000"; "$1,000.50"; "$5.25"]; []; ["1,234"]; []; []].
Proof. vm_compute. reflexivity. Qed.

(** ** The staged diff *)

(** [str.splitlines]. *)
Definition line_break (c : ascii) : bool := in_range 10 13 c || in_range 28 30 c || (code c =? 133)%Z.
Fixpoint splitlines_go (cur l : list ascii) : list (list ascii) :=
  match l with
  | [] => match cur with [] => [] | _ => [rev cur] end
  | c :: l' =>
      if line_break c then
        rev cur :: match l' with
                   | d :: l'' => if (code c =? 13)%Z && (code d =? 10)%Z then splitlines_go [] l'' else splitlines_go [] l'
                   | [] => splitlines_go [] l'
                   end
      else splitlines_go (c :: cur) l'
  end.
Definition splitlines (s : string) : list string := map of_chars (splitlines_go [] (chars s)).

(** [HUNK_RE.match]: the first line of the new side. *)
Definition after_text (p l : list ascii) : option (list ascii) :=
  if bool_decide (take (length p) l = p) then Some (drop (length p) l) else None.
Definition digits1 (l : list ascii) : option (list ascii * list ascii) :=
  match span_digits l with ([], _) => None | (ds, r) => Some (ds, r) end.
Definition after_count (l : list ascii) : list ascii :=
  match l with
  | c :: r => if Ascii.eqb c "," then match digits1 r with Some (_, r') => r' | None => l end else l
  | [] => l
  end.
Definition parse_hunk (line : string) : option Z :=
  l ← after_text (chars "@@ -") (chars line);
  '(_, l) ← digits1 l;
  l ← after_text (chars " +") (after_count l);
  '(ds, l) ← digits1 l;
  _ ← after_text (chars " @@") (after_count l);
  Some (digits_value ds).

Record diff_state := {
  ds_rel : option string; ds_number : Z; ds_header : bool; ds_added : list (string * numbered_lines)
}.
(** [added.setdefault(rel, []).append(entry)]. *)
Fixpoint add_entry (rel : string) (entry : Z * string) (added : list (string * numbered_lines)) : list (string * numbered_lines) :=
  match added with
  | [] => [(rel, [entry])]
  | (r, ls) :: rest => if String.eqb r rel then (r, ls ++ [entry]) :: rest else (r, ls) :: add_entry rel entry rest
  end.
Definition diff_step (st : diff_state) (line : string) : diff_state :=
  if startswith line "diff --git " then
    {| ds_rel := None; ds_number := ds_number st; ds_header := true; ds_added := ds_added st |}
  else if ds_header st then
    match drop_prefix "+++ b/" line with
    | Some rel => {| ds_rel := Some rel; ds_number := ds_number st; ds_header := true; ds_added := ds_added st |}
    | None =>
        match parse_hunk line with
        | Some n => {| ds_rel := ds_rel st; ds_number := n; ds_header := false; ds_added := ds_added st |}
        | None => st
        end
    end
  else match parse_hunk line with
       | Some n => {| ds_rel := ds_rel st; ds_number := n; ds_header := false; ds_added := ds_added st |}
       | None =>
           match ds_rel st, drop_prefix "+" line with
           | Some rel, Some text =>
               if str_truthy rel then
                 {| ds_rel := ds_rel st; ds_number := ds_number st + 1; ds_header := false;
                    ds_added := add_entry rel (ds_number st, text) (ds_added st) |}
               else st
           | _, _ => st
           end
       end.
Definition diff_start : diff_state := {| ds_rel := None; ds_number := 0; ds_header := false; ds_added := [] |}.
Definition parse_diff (lines : list string) : list (string * numbered_lines) :=
  ds_added (fold_left diff_step lines diff_start).

(** git, the forge and the tree.  [git_merge_lines]: the lines of a file on the
    other side of a merge, if there is a merge and the file is in it;
    [origin_lines]: the output of [git remote get-url origin]; [gh_view]: the
    return code and the output of [gh repo view], if it ran. *)
Class GuardTools := {
  git_staged_diff : string;
  git_merge_lines : string -> option (list string);
  tracked_text : list (string * option string);
  origin_lines : option (list string);
  gh_view : string -> option (Z * string)
}.

(** [re.sub(r"^.*github\.com[:/]", "", url)]: what follows the last host. *)
Fixpoint after_host (l : list ascii) : option (list ascii) :=
  match l with
  | [] => None
  | _ :: l' =>
      match after_host l' with
      | Some r => Some r
      | None =>
          match after_text (chars "github.com") l with
          | Some (c :: r) => if one_of ":/" c then Some r else None
          | _ => None
          end
      end
  end.
Definition slug_of (url : string) : string :=
  let rest := of_chars (default (chars url) (after_host (chars url))) in
  default rest (drop_suffix ".git" rest).

Section Guard.
Context `{GuardTools}.
Definition merge_side_lines (rel : string) : list string := default [] (git_merge_lines rel).
Definition added_lines : list (string * numbered_lines) :=
  map (fun f => let theirs := merge_side_lines f.1 in
                (f.1, match theirs with
                      | [] => f.2
                      | _ => List.filter (fun nl => negb (bool_decide (nl.2 ∈ theirs))) f.2
                      end)) (parse_diff (splitlines git_staged_diff)).
(** [enumerate(lines, 1)]. *)
Fixpoint number_from (n : Z) (lines : list string) : numbered_lines :=
  match lines with [] => [] | t :: rest => (n, t) :: number_from (n + 1) rest end.
Definition whole_files : list (string * numbered_lines) :=
  omap (fun f => text ← f.2; Some (f.1, number_from 1 (splitlines text))) tracked_text.
(** [is_public]; a reply that is no object is not caught. *)
Definition is_public : res (option bool) :=
  match origin_lines with
  | Some (url :: _) =>
      match gh_view (slug_of url) with
      | Some (returncode, out) =>
          if negb (returncode =? 0)%Z then Ok None
          else match loads out with
               | None => Ok None
               | Some (JObj m) => Ok ((fun v => py_eqb v (JStr "PUBLIC")) <$> m !! "visibility")
               | Some _ => Err TypeError
               end
      | None => Ok None
      end
  | _ => Ok None
  end.
(** [main]: the exit code; an unknown visibility counts as public. *)
Definition guard_main (staged assume_public : bool) : res Z :=
  public ← (if assume_public then Ok (Some true) else is_public);
  if bool_decide (public = Some false) then Ok 0%Z
  else Ok (match scan (if staged then added_lines else whole_files) with [] => 0%Z | _ => 1%Z end).
End Guard.

(** ** Every added line is scanned *)

(** A unified diff without context, as git prints one. *)
Record hunk := { hk_old : Z; hk_new : Z; hk_context : string; hk_removed : list string; hk_added : list string }.
Record file_diff := { fd_path : string; fd_meta : list string; fd_hunks : list hunk }.
Definition count_text (n : nat) : list ascii := if Nat.eqb n 1 then [] else ","%char :: dec (Z.of_nat n).
Definition hunk_line (h : hunk) : string :=
  of_chars (chars "@@ -" ++ dec (hk_old h) ++ count_text (length (hk_removed h)) ++ chars " +" ++ dec (hk_new h)
            ++ count_text (length (hk_added h)) ++ chars " @@" ++ chars (hk_context h)).
Definition render_hunk (h : hunk) : list string :=
  hunk_line h :: map (fun t => "-" +:+ t) (hk_removed h) ++ map (fun t => "+" +:+ t) (hk_added h).
Definition render_file (f : file_diff) : list string :=
  ("diff --git a/" +:+ fd_path f +:+ " b/" +:+ fd_path f) :: fd_meta f ++ ("+++ b/" +:+ fd_path f)
    :: concat (map render_hunk (fd_hunks f)).
(** The lines between the first and the name of the new file: modes, the index,
    the name of the old file. *)
Definition meta_ok (line : string) : bool :=
  negb (startswith line "diff --git ") && negb (startswith line "+++ b/") && bool_decide (parse_hunk line = None).
Definition diff_ok (f : file_diff) : Prop :=
  str_truthy (fd_path f) = true /\ Forall (fun l => meta_ok l = true) (fd_meta f)
  /\ Forall (fun h => 0 <= hk_old h /\ 0 <= hk_new h)%Z (fd_hunks f).
Definition new_lines (f : file_diff) : numbered_lines := concat (map (fun h => number_from (hk_new h) (hk_added h)) (fd_hunks f)).

Lemma after_text_app p l : after_text p (p ++ l) = Some l.
Proof. unfold after_text. by rewrite take_app_length bool_decide_true // drop_app_length. Qed.
Lemma span_digits_stop ds rest : Forall (fun c => is_digit c = true) ds ->
  match rest with c :: _ => is_digit c = false | [] => True end -> span_digits (ds ++ rest) = (ds, rest).
Proof.
  intros Hds Hr. induction Hds as [|c ds Hc _ IH]; cbn [app span_digits]; [|by rewrite Hc IH].
  destruct rest as [|c rest]; [done|]. cbn [span_digits]. by rewrite Hr.
Qed.
Lemma digits1_dec n rest : (0 <= n)%Z -> match rest with c :: _ => is_digit c = false | [] => True end ->
  digits1 (dec n ++ rest) = Some (dec n, rest) /\ digits_value (dec n) = n.
Proof.
  intros Hn Hr. destruct (dec_spec n Hn) as (d & ds & -> & Hall & Hval & _). split; [|done].
  unfold digits1. by rewrite (span_digits_stop (d :: ds)).
Qed.
Lemma after_count_text n rest : match rest with c :: _ => is_digit c = false /\ Ascii.eqb c "," = false | [] => False end ->
  after_count (count_text n ++ rest) = rest.
Proof.
  intros Hr. unfold count_text. destruct (Nat.eqb n 1).
  - destruct rest as [|c rest]; [done|]. cbn. destruct Hr as [_ ->]. done.
  - cbn [app after_count]. rewrite Ascii.eqb_refl.
    destruct (digits1_dec (Z.of_nat n) rest) as [-> _]; [lia|by destruct rest; naive_solver|done].
Qed.
Lemma count_text_head n rest : match rest with c :: _ => is_digit c = false | [] => False end ->
  match count_text n ++ rest with c :: _ => is_digit c = false | [] => True end.
Proof. unfold count_text. destruct (Nat.eqb n 1); cbn [app]; [by destruct rest|done]. Qed.
Lemma parse_hunk_line h : (0 <= hk_old h)%Z -> (0 <= hk_new h)%Z -> parse_hunk (hunk_line h) = Some (hk_new h).
Proof.
  intros Ho Hn. unfold parse_hunk, hunk_line. rewrite chars_of_chars after_text_app. cbn [mbind option_bind].
  destruct (digits1_dec (hk_old h) (count_text (length (hk_removed h)) ++ chars " +" ++ dec (hk_new h)
    ++ count_text (length (hk_added h)) ++ chars " @@" ++ chars (hk_context h)) Ho) as [-> _].
  { by apply count_text_head. }
  cbn [mbind option_bind]. rewrite after_count_text; [done|]. rewrite after_text_app. cbn [mbind option_bind].
  destruct (digits1_dec (hk_new h) (count_text (length (hk_added h)) ++ chars " @@" ++ chars (hk_context h)) Hn) as [-> Hv].
  { by apply count_text_head. }
  cbn [mbind option_bind]. rewrite after_count_text; [done|]. rewrite after_text_app. cbn [mbind option_bind]. by rewrite Hv.
Qed.

Lemma parse_hunk_other c t : Ascii.eqb c "@" = false -> parse_hunk (String c t) = None.
Proof.
  intros Hc. unfold parse_hunk, after_text. cbn. rewrite bool_decide_false; [|done].
  intros [= ->]. by rewrite Ascii.eqb_refl in Hc.
Qed.
Lemma prefix_self p s : String.prefix p (p +:+ s) = true.
Proof.
  induction p as [|c p IH]; [by destruct s|].
  change (match ascii_dec c c with left _ => String.prefix p (p +:+ s) | right _ => false end = true). by destruct (ascii_dec c c).
Qed.
Lemma drop_prefix_app p s : drop_prefix p (p +:+ s) = Some s.
Proof.
  unfold drop_prefix, startswith. rewrite prefix_self. f_equal. rewrite chars_app.
  assert (String.length p = length (chars p)) as -> by (clear; induction p; cbn; congruence).
  by rewrite drop_app_length of_chars_chars.
Qed.

(** The reader inside a hunk of a file. *)
Definition in_hunk (rel : string) (n : Z) (added : list (string * numbered_lines)) : diff_state :=
  {| ds_rel := Some rel; ds_number := n; ds_header := false; ds_added := added |}.
Lemma removed_lines rel n added ts :
  fold_left diff_step (map (fun t => "-" +:+ t) ts) (in_hunk rel n added) = in_hunk rel n added.
Proof. induction ts as [|t ts IH]; [done|]. cbn [map fold_left]. rewrite -{2}IH. f_equal. Qed.
Lemma added_line rel n added t : str_truthy rel = true ->
  diff_step (in_hunk rel n added) ("+" +:+ t) = in_hunk rel (n + 1) (add_entry rel (n, t) added).
Proof.
  intros Ht. unfold diff_step. cbn [ds_header in_hunk ds_rel ds_number ds_added].
  replace (startswith ("+" +:+ t) "diff --git ") with false by reflexivity.
  change ("+" +:+ t) with (String "+"%char t). rewrite (parse_hunk_other "+"%char t eq_refl).
  change (String "+"%char t) with ("+" +:+ t). by rewrite drop_prefix_app Ht.
Qed.
Definition add_all (rel : string) (ls : numbered_lines) (added : list (string * numbered_lines)) :=
  fold_left (fun acc e => add_entry rel e acc) ls added.
Lemma added_lines_numbered rel ts : str_truthy rel = true -> forall n added, exists m,
  fold_left diff_step (map (fun t => "+" +:+ t) ts) (in_hunk rel n added)
  = in_hunk rel m (add_all rel (number_from n ts) added).
Proof.
  intros Ht. induction ts as [|t ts IH]; intros n added; [by exists n|]. cbn [map fold_left].
  rewrite (added_line _ _ _ _ Ht). destruct (IH (n + 1)%Z (add_entry rel (n, t) added)) as [m Hm]. by exists m.
Qed.
(** A hunk, in its file: after the header, or after another hunk. *)
Lemma hunk_lines rel h st : str_truthy rel = true -> (0 <= hk_old h)%Z -> (0 <= hk_new h)%Z -> ds_rel st = Some rel ->
  exists m, fold_left diff_step (render_hunk h) st = in_hunk rel m (add_all rel (number_from (hk_new h) (hk_added h)) (ds_added st)).
Proof.
  intros Ht Ho Hn Hrel. unfold render_hunk. cbn [fold_left]. rewrite fold_left_app.
  assert (diff_step st (hunk_line h) = in_hunk rel (hk_new h) (ds_added st)) as ->.
  { unfold diff_step. rewrite (parse_hunk_line h Ho Hn) Hrel.
    replace (startswith (hunk_line h) "diff --git ") with false by reflexivity.
    replace (drop_prefix "+++ b/" (hunk_line h)) with (@None string) by reflexivity. by destruct (ds_header st). }
  rewrite removed_lines. exact (added_lines_numbered rel (hk_added h) Ht _ _).
Qed.
Lemma add_all_app rel l1 l2 added : add_all rel (l1 ++ l2) added = add_all rel l2 (add_all rel l1 added).
Proof. apply fold_left_app. Qed.
Lemma hunks_lines rel hs : str_truthy rel = true -> Forall (fun h => 0 <= hk_old h /\ 0 <= hk_new h)%Z hs ->
  forall st, ds_rel st = Some rel -> exists st', fold_left diff_step (concat (map render_hunk hs)) st = st'
    /\ ds_added st' = add_all rel (concat (map (fun h => number_from (hk_new h) (hk_added h)) hs)) (ds_added st).
Proof.
  intros Ht Hall. induction Hall as [|h hs [Ho Hn] _ IH]; intros st Hrel; [by exists st|].
  cbn [map concat]. rewrite fold_left_app. destruct (hunk_lines rel h st Ht Ho Hn Hrel) as [m ->].
  destruct (IH (in_hunk rel m (add_all rel (number_from (hk_new h) (hk_added h)) (ds_added st))) eq_refl) as (st' & -> & Ha).
  exists st'. split; [done|]. by rewrite Ha add_all_app.
Qed.

Lemma meta_lines ls : Forall (fun l => meta_ok l = true) ls -> forall n added,
  fold_left diff_step ls {| ds_rel := None; ds_number := n; ds_header := true; ds_added := added |}
  = {| ds_rel := None; ds_number := n; ds_header := true; ds_added := added |}.
Proof.
  induction 1 as [|l ls Hl _ IH]; intros n added; [done|]. cbn [fold_left]. rewrite -{2}IH. f_equal.
  unfold meta_ok in Hl. apply andb_true_iff in Hl as [[Hd%negb_true_iff Hp%negb_true_iff]%andb_true_iff Hh%bool_decide_eq_true].
  unfold diff_step, drop_prefix. by rewrite Hd Hp Hh.
Qed.
Lemma file_lines f st : diff_ok f -> ds_added (fold_left diff_step (render_file f) st) = add_all (fd_path f) (new_lines f) (ds_added st).
Proof.
  intros (Ht & Hm & Hh). unfold render_file. cbn [fold_left]. rewrite fold_left_app.
  assert (diff_step st ("diff --git a/" +:+ fd_path f +:+ " b/" +:+ fd_path f)
    = {| ds_rel := None; ds_number := ds_number st; ds_header := true; ds_added := ds_added st |}) as -> by reflexivity.
  rewrite (meta_lines _ Hm). cbn [fold_left].
  assert (diff_step {| ds_rel := None; ds_number := ds_number st; ds_header := true; ds_added := ds_added st |} ("+++ b/" +:+ fd_path f)
    = {| ds_rel := Some (fd_path f); ds_number := ds_number st; ds_header := true; ds_added := ds_added st |}) as ->.
  { unfold diff_step. replace (startswith ("+++ b/" +:+ fd_path f) "diff --git ") with false by reflexivity.
    cbn [ds_header]. by rewrite drop_prefix_app. }
  match goal with |- context [fold_left diff_step _ ?s] => destruct (hunks_lines (fd_path f) (fd_hunks f) Ht Hh s eq_refl) as (st' & -> & ->) end.
  done.
Qed.

(** A file's entries, where it has any. *)
Definition entries_of (f : file_diff) : list (string * numbered_lines) :=
  match new_lines f with [] => [] | _ => [(fd_path f, new_lines f)] end.
Lemma add_entry_new rel e added : rel ∉ added.*1 -> add_entry rel e added = added ++ [(rel, [e])].
Proof.
  induction added as [|[r ls] added IH]; [done|]. cbn [add_entry fmap list_fmap fst]. intros [Hne Hn]%not_elem_of_cons.
  destruct (String.eqb_spec r rel) as [->|_]; [done|]. cbn. by rewrite IH.
Qed.
Lemma add_entry_last rel e ls added : rel ∉ added.*1 -> add_entry rel e (added ++ [(rel, ls)]) = added ++ [(rel, ls ++ [e])].
Proof.
  induction added as [|[r l] added IH]; cbn [add_entry app fmap list_fmap fst]; [by rewrite String.eqb_refl|].
  intros [Hne Hn]%not_elem_of_cons. destruct (String.eqb_spec r rel) as [->|_]; [done|]. by rewrite IH.
Qed.
Lemma add_all_new rel ls added : rel ∉ added.*1 ->
  add_all rel ls added = added ++ match ls with [] => [] | _ => [(rel, ls)] end.
Proof.
  intros Hn. destruct ls as [|e ls]; [by rewrite app_nil_r|]. cbn [add_all fold_left]. rewrite (add_entry_new _ _ _ Hn).
  change (e :: ls) with ([e] ++ ls). generalize [e] as done_. induction ls as [|x ls IH]; intros done_; [by rewrite app_nil_r|].
  cbn [fold_left]. rewrite (add_entry_last _ _ _ _ Hn) IH. by rewrite -app_assoc.
Qed.

(** What a commit adds is what is scanned. Of the diff git prints for a set of
    files, the guard reads exactly the added lines of each, in order and with
    their numbers in the new file, whatever the lines say. *)
Theorem added_lines_are_read files : Forall diff_ok files -> NoDup (map fd_path files) ->
  parse_diff (concat (map render_file files)) = concat (map entries_of files).
Proof.
  intros Hok Hnd. unfold parse_diff.
  enough (forall st, Forall (fun f => fd_path f ∉ (ds_added st).*1) files ->
    ds_added (fold_left diff_step (concat (map render_file files)) st) = ds_added st ++ concat (map entries_of files)) as Hgen.
  { rewrite Hgen; [|done]. apply Forall_forall. intros f _. apply not_elem_of_nil. }
  induction Hok as [|f files Hf _ IH]; intros st Hfresh; [by rewrite app_nil_r|]. cbn [map concat] in *.
  apply NoDup_cons in Hnd as [Hnf Hnd]. apply Forall_cons in Hfresh as [Hff Hfresh]. rewrite fold_left_app.
  pose proof (file_lines f st Hf) as Hst. rewrite (add_all_new _ _ _ Hff) in Hst. fold (entries_of f) in Hst.
  rewrite (IH Hnd); [|by rewrite Hst -app_assoc]. rewrite Hst. apply Forall_forall. intros g Hg.
  rewrite fmap_app not_elem_of_app. rewrite ->Forall_forall in Hfresh. split; [by apply Hfresh|].
  unfold entries_of. destruct (new_lines f); [apply not_elem_of_nil|]. rewrite list_elem_of_singleton. cbn. intros He.
  apply Hnf. rewrite -He. by apply list_elem_of_fmap_2.
Qed.

(** The exit code is 0 only for a repository known to be private, or when no
    line that is read shows a figure; what is not known counts as public. *)
Lemma guard_fails_closed `{GuardTools} staged assume_public : guard_main staged assume_public = Ok 0%Z ->
  (assume_public = false /\ is_public = Ok (Some false))
  \/ forall f nl, f ∈ (if staged then added_lines else whole_files) -> nl ∈ f.2 -> is_skipped f.1 = false -> figures nl.2 = [].
Proof.
  unfold guard_main. intros Hg. inv_bind Hg as [public|] Hpub. case_bool_decide as Hp.
  { subst public. left. by destruct assume_public. }
  destruct (scan _) as [|x xs] eqn:Hs; [|done]. right. intros f nl Hf Hnl Hskip.
  destruct (figures nl.2) as [|hit hits] eqn:Hfig; [done|].
  assert ({| fi_file := f.1; fi_line := nl.1; fi_match := hit |} ∈ scan (if staged then added_lines else whole_files)) as Hin;
    [|rewrite Hs in Hin; by apply not_elem_of_nil in Hin].
  unfold scan. apply list_elem_of_bind. exists f. split; [|done]. rewrite Hskip. apply list_elem_of_bind. exists nl.
  split; [|done]. apply list_elem_of_bind. exists hit. split; [by left|]. rewrite Hfig. by left.
Qed.
Example slugs : map slug_of ["git@github.com:org/repo.git"; "https://github.com/org/repo"; "https://x/github.com/a/github.com/b"]
  = ["org/repo"; "org/repo"; "b"].
Proof. vm_compute. reflexivity. Qed.

(** A line break of [splitlines] that is none of git's cuts an added line: what
    follows a form feed on it is not read. *)
Definition paged_diff : string := join (of_chars [ascii_of_nat 10])
  ["diff --git a/f b/f"; "--- a/f"; "+++ b/f"; "@@ -1 +1 @@"; "-x"; "+y" +:+ of_chars [ascii_of_nat 12] +:+ "we saw 12,345 of them"].
Lemma form_feed_hides_figure :
  parse_diff (splitlines paged_diff) = [("f", [(1%Z, "y")])]
  /\ scan (parse_diff (splitlines paged_diff)) = []
  /\ figures ("y" +:+ of_chars [ascii_of_nat 12] +:+ "we saw 12,345 of them") = ["12,345"].
Proof. split_and!; vm_compute; reflexivity. Qed.
