(* ===== verification/Vectors.v ===== *)
(** * The golden vectors of the fingerprint

    [scripts/gen_identity_recipe_vectors.py]: the fixture that pins the fingerprint
    for other implementations, its digest, and the guard that refuses to redefine
    it under an unchanged version.  The fixture is a file of the disk; indentation
    and order of members are not modelled, as for every file. *)

From stdpp Require Import options sorting.
From S2P Require Import Prelude PyStr Json Sha256 Errors Signing Identity Auth.

(** The [ALGO_VERSION] of the script; [Identity.ALGO_VERSION] is the recipe's. *)
Definition SUITE_VERSION : string := "v1".

(** The texts of [why] are kept, with a hyphen for the one em dash in them. *)
Record vector_case := { vc_name : string; vc_why : string; vc_repo_url : string; vc_finding : dict }.

Definition located (paths cwes : list string) : dict :=
  {["locations" := JArr (map (fun p => JObj {["path" := JStr p]}) paths); "cwes" := JArr (map JStr cwes)]}.
Definition org_repo : string := "https://github.com/org/repo".

Definition CASES : list vector_case :=
  [ {| vc_name := "single_path_with_cwe"; vc_why := "baseline: one clean path, upper-case CWE present";
       vc_repo_url := org_repo; vc_finding := located ["src/app.go"] ["CWE-79"] |};
    {| vc_name := "multi_location_sorted_semicolon_join";
       vc_why := "SCI divergence: paths joined with ';' (not '|') and sorted as a set";
       vc_repo_url := org_repo; vc_finding := located ["src/b.go"; "src/a.go"] ["CWE-89"] |};
    {| vc_name := "no_cwe_defaults_cwe0"; vc_why := "SCI divergence: absent CWE must default to 'CWE-0', not ''";
       vc_repo_url := org_repo; vc_finding := located ["config/values.yaml"] [] |};
    {| vc_name := "multiple_cwes_primary_first_upper_trim";
       vc_why := "primary CWE = first element, upper-cased and trimmed";
       vc_repo_url := org_repo; vc_finding := located ["src/x.go"] ["cwe-798 "; "CWE-259"] |};
    {| vc_name := "path_canonicalization";
       vc_why := "canon_path: backslash->slash, collapse //, strip leading ./ and /, trailing /";
       vc_repo_url := org_repo;
       vc_finding := located ["./src/x.go"; "/etc/conf/"; "a\b\c.go"; "d//e.go"] ["CWE-22"] |};
    {| vc_name := "leading_dot_lstrip_quirk";
       vc_why := "canon_path uses lstrip('./') - strips a leading dot char too (quirk to reproduce)";
       vc_repo_url := org_repo; vc_finding := located ["./.hidden/f.go"] ["CWE-200"] |};
    {| vc_name := "duplicate_paths_deduped"; vc_why := "locations are a set: repeated path collapses to one";
       vc_repo_url := org_repo; vc_finding := located ["src/a.go"; "src/a.go"] ["CWE-89"] |};
    {| vc_name := "repo_git_suffix_stripped";
       vc_why := "canon_repo strips trailing .git; equals single_path_with_cwe";
       vc_repo_url := "https://github.com/org/repo.git"; vc_finding := located ["src/app.go"] ["CWE-79"] |};
    {| vc_name := "repo_scp_form_rewritten";
       vc_why := "canon_repo rewrites git@host:path -> https://host/path; equals single_path_with_cwe";
       vc_repo_url := "git@github.com:org/repo.git"; vc_finding := located ["src/app.go"] ["CWE-79"] |};
    {| vc_name := "repo_uppercase_lowercased";
       vc_why := "canon_repo lowercases host and path; equals single_path_with_cwe";
       vc_repo_url := "https://GitHub.com/Org/Repo"; vc_finding := located ["src/app.go"] ["CWE-79"] |};
    {| vc_name := "repo_ssh_scheme_forced_https_keeps_userinfo";
       vc_why := "canon_repo forces ssh:// -> https:// but leaves 'git@' userinfo (known quirk to reproduce byte-for-byte)";
       vc_repo_url := "ssh://git@github.com/org/repo.git"; vc_finding := located ["src/app.go"] ["CWE-79"] |};
    {| vc_name := "no_locations_empty_pathset";
       vc_why := "finding with no locations: middle payload field is empty";
       vc_repo_url := org_repo; vc_finding := located [] ["CWE-1004"] |} ].

Section Generator.
Context `{HashFn} `{SigningTools} `{AuthTools}.

(** [sorted({canon_path(loc.get("path")) for loc in .. if loc.get("path")})]. *)
Definition vector_paths (finding : dict) : res (list string) :=
  locs ← get_list "locations" finding;
  given ← mapR (location_field "path") locs;
  paths ← mapR canon_path (List.filter truthy given);
  Ok (sorted_set paths).

(** One turn of [build]: the vector, or the failed assertion. *)
Definition build_vector (c : vector_case) : res json :=
  paths ← vector_paths (vc_finding c);
  cwe ← primary_cwe (vc_finding c);
  let repo := canon_repo (Some (vc_repo_url c)) in
  let payload := join "|" [repo; join ";" paths; cwe] in
  expected ← fingerprint (vc_finding c) (Some (vc_repo_url c)) false;
  _ ← raise_if (negb (String.eqb expected (sha256_hex payload))) AssertionError;
  Ok (JObj {["name" := JStr (vc_name c); "why" := JStr (vc_why c);
             "input" := JObj {["repo_url" := JStr (vc_repo_url c); "finding" := JObj (vc_finding c)]};
             "normalized" := JObj {["canon_repo" := JStr repo; "canon_paths_sorted_set" := JArr (map JStr paths);
                                    "primary_cwe" := JStr cwe]};
             "payload" := JStr payload; "expected_fingerprint" := JStr expected]}).

Definition build_suite (cases : list vector_case) : res dict :=
  vectors ← mapR build_vector cases;
  Ok {["algo_version" := JStr SUITE_VERSION; "hash" := JStr "sha256";
       "recipe" := JStr "sha256( canon_repo(url) | ';'.join(sorted set of canon_path(locations[].path)) | primary_cwe )";
       "field_separator" := JStr "|"; "path_separator" := JStr ";";
       "rules" := JObj {[
         "canon_repo" := JStr "strip/lower; git@host: -> https://host/ ; ^(https?|ssh|git):// -> https:// ; strip trailing .git ; strip trailing /";
         "canon_path" := JStr "strip; backslash->slash; collapse //; lstrip(chars './'); rstrip('/')  [line numbers live in `lines`, never here]";
         "primary_cwe" := JStr "first of finding.cwes upper()+strip(); 'CWE-0' when absent/empty";
         "locations" := JStr "deduped set of canon paths, sorted, ';'-joined"]};
       "source" := JStr "traust_ledger.identity";
       "note" := JStr "Cross-language conformance oracle for the finding fingerprint Any port must reproduce every expected_fingerprint byte-for-byte. A legitimate hash change is a recipe change and requires an algo_version bump.";
       "vectors" := JArr vectors]}.

(** [v[key]] of a parsed document. *)
Definition vector_item (key : string) (v : json) : res json :=
  match v with JObj m => of_option (m !! key) KeyError | _ => Err TypeError end.

Definition vector_line (v : json) : res string :=
  name ← vector_item "name" v;
  expected ← vector_item "expected_fingerprint" v;
  Ok (claim_text name +:+ "=" +:+ claim_text expected).
(** The text under [suite_digest]: one line per vector, sorted. *)
Definition suite_text (suite : json) : res string :=
  vectors ← vector_item "vectors" suite;
  vectors ← json_iter vectors;
  lines ← mapR vector_line vectors;
  Ok (join (of_chars [ascii_of_nat 10]) (merge_sort String.le lines)).
Definition suite_digest (suite : json) : res string := text ← suite_text suite; Ok (sha256_hex text).

(** [old.get("algo_version")]. *)
Definition fixture_version (old : json) : res json :=
  match old with JObj m => Ok (get "algo_version" m) | _ => Err AttributeError end.
(** The guard, over the text of an existing fixture. *)
Definition refuses (old_text new_digest : string) (allow_recipe_change : bool) : res bool :=
  old ← of_option (loads old_text) ValueError;
  old_digest ← suite_digest old;
  version ← fixture_version old;
  Ok (py_eqb version (JStr SUITE_VERSION) && negb (String.eqb old_digest new_digest) && negb allow_recipe_change).

(** [main], after the arguments: the exit code, [sys.exit(text)] being 1. *)
Definition generate (cases : list vector_case) (out : string) (allow_recipe_change : bool) : io Z :=
  suite ← lift (build_suite cases);
  new_digest ← lift (suite_digest (JObj suite));
  refused ← (fun d => if is_file out d then (text ← read_text out; lift (refuses text new_digest allow_recipe_change)) d
                      else (Ok false, d));
  if (refused : bool) then mret 1%Z
  else _ ← write_text out (dumps true (JObj suite)); mret 0%Z.
End Generator.

(** ** What the fixture pins *)

Section Properties.
Context `{HF : HashFn} `{HT : SigningTools} `{HA : AuthTools}.
Set Default Proof Using "Type".

(** A vector holds its case, and the fingerprint the ledger computes for it is the
    hash of the payload it shows. *)
Definition pins (c : vector_case) (v : json) : Prop :=
  exists payload expected,
    vector_item "name" v = Ok (JStr (vc_name c))
    /\ vector_item "input" v = Ok (JObj {["repo_url" := JStr (vc_repo_url c); "finding" := JObj (vc_finding c)]})
    /\ vector_item "payload" v = Ok (JStr payload) /\ vector_item "expected_fingerprint" v = Ok (JStr expected)
    /\ expected = sha256_hex payload /\ fingerprint (vc_finding c) (Some (vc_repo_url c)) false = Ok expected.

(** The assertion holds for a finding without a check whose locations are its paths. *)
Definition plain_case (c : vector_case) : bool :=
  match vector_paths (vc_finding c), paths_v3 (vc_finding c), primary_cwe (vc_finding c) with
  | Ok paths, Ok paths', Ok _ => bool_decide (paths = paths') && String.eqb (policy_check (vc_finding c)) ""
  | _, _, _ => false
  end.
Lemma build_vector_plain c : plain_case c = true -> exists v, build_vector c = Ok v /\ pins c v.
Proof.
  unfold plain_case, build_vector, fingerprint.
  destruct (vector_paths _) as [paths|] eqn:Hv; [|done]. destruct (paths_v3 _) as [paths'|] eqn:Hp; [|done].
  destruct (primary_cwe _) as [cwe|] eqn:Hc; [|done]. intros [Heq Hcheck]%andb_prop.
  apply bool_decide_eq_true in Heq as <-. apply String.eqb_eq in Hcheck.
  cbn [mbind result_bind andb raise_if]. unfold fingerprint_payload. rewrite Hcheck. cbn [str_truthy String.eqb negb app].
  rewrite String.eqb_refl. cbn [negb raise_if]. eexists. split; [reflexivity|].
  eexists _, _. do 4 (split; [reflexivity|]). split; [reflexivity|].
  unfold fingerprint. rewrite Hp Hc. cbn [mbind result_bind andb raise_if]. unfold fingerprint_payload. by rewrite Hcheck.
Qed.
Lemma cases_plain : forallb plain_case CASES = true.
Proof. vm_compute. reflexivity. Qed.

Lemma build_plain cases : forallb plain_case cases = true ->
  exists suite vectors, build_suite cases = Ok suite /\ vector_item "vectors" (JObj suite) = Ok (JArr vectors)
    /\ fixture_version (JObj suite) = Ok (JStr SUITE_VERSION) /\ Forall2 pins cases vectors.
Proof.
  intros Hall. assert (exists vectors, mapR build_vector cases = Ok vectors /\ Forall2 pins cases vectors) as (vs & Hvs & Hpins).
  { induction cases as [|c cases IH]; [by exists []|]. cbn [forallb] in Hall. apply andb_prop in Hall as [Hc Hcs].
    destruct (build_vector_plain c Hc) as (v & Hv & Hpin). destruct (IH Hcs) as (vs & Hvs & Hf).
    exists (v :: vs). cbn [mapR]. rewrite Hv Hvs. by split; [|constructor]. }
  unfold build_suite. rewrite Hvs. cbn [mbind result_bind]. eexists _, vs. split; [reflexivity|]. by split.
Qed.

(** [generate] by its guard. *)
Definition guard (out digest : string) (allow : bool) (d : disk) : res bool :=
  if is_file out d then
    text ← (if readable out then of_option (d !! out) OSError else Err OSError); refuses text digest allow
  else Ok false.
Lemma generate_guard cases suite digest out allow d : build_suite cases = Ok suite -> suite_digest (JObj suite) = Ok digest ->
  generate cases out allow d =
    match guard out digest allow d with
    | Ok true => (Ok 1%Z, d)
    | Ok false => if writable out then (Ok 0%Z, <[out := dumps true (JObj suite)]> d) else (Err OSError, d)
    | Err e => (Err e, d)
    end.
Proof.
  intros Hb Hd. unfold generate, guard, lift, mbind, io_bind. rewrite Hb Hd. unfold read_text, write_text, mret, io_ret.
  destruct (is_file out d); [|by destruct (writable out)].
  destruct (if readable out then _ else _) as [text|e]; [|done]. cbn [mbind result_bind].
  destruct (refuses text digest allow) as [[]|e]; [done| |done]. by destruct (writable out).
Qed.

(** *** Names and hashes of a fixture *)

Definition newline : string := of_chars [ascii_of_nat 10].
(** The name and the hash of a vector. *)
Definition names_hash (v : json) (p : string * string) : Prop :=
  exists m, v = JObj m /\ m !! "name" = Some (JStr p.1) /\ m !! "expected_fingerprint" = Some (JStr p.2).
(** The text of a list of names and hashes: sorted lines [name=hash]. *)
Definition names_text (pairs : list (string * string)) : string :=
  join newline (merge_sort String.le (map (fun p => p.1 +:+ "=" +:+ p.2) pairs)).
(** Names and hashes without line breaks, names without an equals sign. *)
Definition plain_name (p : string * string) : bool :=
  forallb (fun c => negb (Ascii.eqb c "010") && negb (Ascii.eqb c "=")) (chars p.1)
  && forallb (fun c => negb (Ascii.eqb c "010")) (chars p.2).

Lemma suite_text_names m vectors pairs : m !! "vectors" = Some (JArr vectors) -> Forall2 names_hash vectors pairs ->
  suite_text (JObj m) = Ok (names_text pairs).
Proof.
  intros Hm Hf. unfold suite_text, vector_item. rewrite Hm. cbn [of_option mbind result_bind json_iter].
  assert (mapR vector_line vectors = Ok (map (fun p => p.1 +:+ "=" +:+ p.2) pairs)) as ->; [|done].
  apply mapR_ok_Forall2. clear Hm.
  induction Hf as [|v [name hash] vs ps (mv & -> & Hn & He) _ IH]; cbn [map]; constructor; [|done].
  unfold vector_line, vector_item. cbn in Hn, He. by rewrite Hn He.
Qed.
Lemma suite_digest_names m vectors pairs : m !! "vectors" = Some (JArr vectors) -> Forall2 names_hash vectors pairs ->
  suite_digest (JObj m) = Ok (sha256_hex (names_text pairs)).
Proof. intros Hm Hf. unfold suite_digest. by rewrite (suite_text_names _ _ _ Hm Hf). Qed.

(** Two lists are cut at the first occurrence of a mark. *)
Lemma cut_at {A} (c : A) x y r r' : c ∉ x -> c ∉ y -> x ++ c :: r = y ++ c :: r' -> x = y /\ r = r'.
Proof.
  revert y. induction x as [|a x IH]; intros [|b y] Hx Hy Heq; simplify_eq/=; try set_solver.
  destruct (IH y) as [-> ->]; [set_solver..|done|done].
Qed.
Lemma join_lines l l' : Forall (fun s => s <> "" /\ ascii_of_nat 10 ∉ chars s) l ->
  Forall (fun s => s <> "" /\ ascii_of_nat 10 ∉ chars s) l' -> join newline l = join newline l' -> l = l'.
Proof.
  assert (forall x (ys : list string), x <> "" -> join newline (x :: ys) <> "") as Hne.
  { intros x [|y ys] Hx; [done|]. cbn. by destruct x. }
  assert (forall x y ys, chars (join newline (x :: y :: ys)) = chars x ++ ascii_of_nat 10 :: chars (join newline (y :: ys))) as Hjoin.
  { intros x y ys. change (join newline (x :: y :: ys)) with (x +:+ (newline +:+ join newline (y :: ys))).
    by rewrite !chars_app. }
  intros Hl. revert l'. induction Hl as [|x l [Hx Hxn] Hl IH]; intros l' Hl' Heq.
  - destruct Hl' as [|y l' [Hy _] _]; [done|]. by destruct (Hne y l' Hy).
  - destruct Hl' as [|y l' [Hy Hyn] Hl']; [by destruct (Hne x l Hx)|].
    destruct l as [|x' l], l' as [|y' l'].
    + cbn in Heq. congruence.
    + apply (f_equal chars) in Heq. rewrite Hjoin in Heq. cbn in Heq. destruct Hxn. rewrite Heq. set_solver.
    + apply (f_equal chars) in Heq. rewrite Hjoin in Heq. cbn in Heq. destruct Hyn. rewrite -Heq. set_solver.
    + pose proof (f_equal chars Heq) as Hc. rewrite !Hjoin in Hc. apply cut_at in Hc as [Hc1 Hc2]; [|done..].
      apply (f_equal of_chars) in Hc1, Hc2. rewrite !of_chars_chars in Hc1, Hc2. subst y. f_equal. by apply IH.
Qed.
Lemma plain_name_spec p : plain_name p = true ->
  "="%char ∉ chars p.1 /\ ascii_of_nat 10 ∉ chars (p.1 +:+ "=" +:+ p.2).
Proof.
  unfold plain_name. rewrite andb_true_iff !forallb_forall. intros [H1 H2]. rewrite !chars_app.
  assert (forall c, c ∈ chars p.1 -> c <> "010"%char /\ c <> "="%char) as H1'.
  { intros c Hc%list_elem_of_In%H1%andb_true_iff. rewrite !negb_true_iff !Ascii.eqb_neq in Hc. done. }
  assert (forall c, c ∈ chars p.2 -> c <> "010"%char) as H2'.
  { intros c Hc%list_elem_of_In%H2. by rewrite negb_true_iff Ascii.eqb_neq in Hc. }
  split; [by intros [_ Hc]%H1'|]. rewrite !elem_of_app. change (chars "=") with ["="%char]. rewrite list_elem_of_singleton.
  intros [[Hc _]%H1'|[Hc|Hc%H2']]; [by destruct Hc|done|by destruct Hc].
Qed.
(** The text tells the names and hashes, but for their order. *)
Lemma names_text_inj ps qs : Forall (fun p => plain_name p = true) ps -> Forall (fun p => plain_name p = true) qs ->
  names_text ps = names_text qs -> ps ≡ₚ qs.
Proof.
  intros Hps Hqs. set (line := fun p : string * string => p.1 +:+ "=" +:+ p.2).
  assert (forall ps, Forall (fun p => plain_name p = true) ps ->
    Forall (fun s => s <> "" /\ ascii_of_nat 10 ∉ chars s) (merge_sort String.le (map line ps))) as Hok.
  { intros l Hl. rewrite (merge_sort_Permutation String.le). apply Forall_map. eapply Forall_impl; [exact Hl|].
    intros p [_ Hp]%plain_name_spec. split; [by destruct p as [[] ?]|exact Hp]. }
  intros Heq%join_lines; [|by apply Hok..].
  assert (map line ps ≡ₚ map line qs) as Hperm.
  { rewrite -(merge_sort_Permutation String.le (map line ps)) Heq. apply merge_sort_Permutation. }
  clear Heq Hok. revert qs Hqs Hperm. induction Hps as [|p ps Hp Hps IH]; intros qs Hqs Hperm.
  - apply Permutation_nil in Hperm. by destruct qs.
  - assert (line p ∈ map line qs) as Hin by (rewrite -Hperm; constructor).
    apply list_elem_of_In, in_map_iff in Hin as (q & Hq & Hin%list_elem_of_In).
    assert (q = p) as ->.
    { rewrite Forall_forall in Hqs. specialize (Hqs q Hin). apply plain_name_spec in Hp as [Hp _], Hqs as [Hqn _].
      subst line. cbn in Hq. apply (f_equal chars) in Hq. rewrite !chars_app in Hq.
      change (chars "=") with ["="%char] in Hq. cbn [app] in Hq. apply cut_at in Hq as [H1 H2]; [|done..].
      apply (f_equal of_chars) in H1, H2. rewrite !of_chars_chars in H1, H2. destruct p, q; cbn in *; congruence. }
    apply elem_of_Permutation in Hin as [qs' Hqs']. rewrite Hqs'. constructor. rewrite Hqs' in Hqs, Hperm.
    apply Forall_cons in Hqs as [_ Hqs]. apply IH; [done|]. cbn [map] in Hperm. by apply Permutation_cons_inv in Hperm.
Qed.

(** A guard that lets a fixture of the suite's version through found its digest. *)
Lemma guard_same_names out pairs d old_text m vectors old : guard out (sha256_hex (names_text pairs)) false d = Ok false ->
  d !! out = Some old_text -> loads old_text = Some (JObj m) -> m !! "algo_version" = Some (JStr SUITE_VERSION) ->
  m !! "vectors" = Some (JArr vectors) -> Forall2 names_hash vectors old ->
  names_text old = names_text pairs \/ has_collision [utf8 (names_text old); utf8 (names_text pairs)].
Proof.
  unfold guard, is_file. intros Hg Hl Hold Hver Hvec Hf. rewrite Hl in Hg. rewrite bool_decide_true in Hg; [by eexists|].
  destruct (readable out); [|done]. cbn [of_option mbind result_bind] in Hg. unfold refuses in Hg.
  rewrite Hold in Hg. cbn [of_option mbind result_bind] in Hg. rewrite (suite_digest_names _ _ _ Hvec Hf) in Hg.
  cbn [mbind result_bind fixture_version] in Hg. unfold get in Hg. rewrite Hver in Hg.
  cbn [default from_option id] in Hg. rewrite py_eqb_refl in Hg. cbn [andb negb] in Hg. rewrite andb_true_r in Hg.
  injection Hg as Heq. apply negb_false_iff, String.eqb_eq in Heq. unfold sha256_hex in Heq.
  destruct (hexdigest_eq_or [utf8 (names_text old); utf8 (names_text pairs)] (utf8 (names_text old)) (utf8 (names_text pairs)))
    as [Hx|]; [by left|by right; left|done| |by right].
  left. by apply (inj utf8) in Hx.
Qed.

(** A fixture just written passes the guard. *)
Lemma guard_own out suite text d : suite_text (JObj suite) = Ok text ->
  fixture_version (JObj suite) = Ok (JStr SUITE_VERSION) -> readable out = true ->
  guard out (sha256_hex text) false (<[out := dumps true (JObj suite)]> d) = Ok false.
Proof.
  intros Ht Hver Hr. unfold guard, is_file. rewrite lookup_insert_eq bool_decide_true; [by eexists|]. rewrite Hr.
  cbn [of_option mbind result_bind]. unfold refuses. rewrite loads_dumps. cbn [of_option mbind result_bind].
  unfold suite_digest. rewrite Ht Hver. cbn [mbind result_bind]. by rewrite String.eqb_refl andb_false_r.
Qed.

(** The names and hashes a run is to pin: those of the cases, by the ledger's fingerprint. *)
Definition pinned (c : vector_case) (p : string * string) : Prop :=
  p.1 = vc_name c /\ fingerprint (vc_finding c) (Some (vc_repo_url c)) false = Ok p.2.

Lemma hex_plain b : forallb (fun c => negb (Ascii.eqb c "010")) (chars (hexdigest b)) = true.
Proof.
  unfold hexdigest, hex. rewrite chars_of_chars. generalize (sha256 b) as l.
  induction l as [|x l IH]; [done|]. cbn [flat_map]. rewrite forallb_app IH andb_true_r. by destruct x.
Qed.

Lemma pinned_names vectors : Forall2 pins CASES vectors -> exists pairs, Forall2 pinned CASES pairs
  /\ Forall2 names_hash vectors pairs /\ Forall (fun p => plain_name p = true) pairs.
Proof.
  assert (Forall (fun c => plain_name (vc_name c, "") = true) CASES) as Hn by (repeat constructor).
  revert Hn. generalize CASES as cases. intros cases Hn Hp. induction Hp as [|c v cases vs Hc _ IH]; [by exists []|].
  apply Forall_cons in Hn as [Hn Hns]. destruct (IH Hns) as (pairs & H1 & H2 & H3).
  destruct Hc as (payload & expected & Hname & _ & _ & He & Hex & Hf). exists ((vc_name c, expected) :: pairs).
  split; [by constructor|]. split; constructor; [|done| |done].
  - destruct v as [| | | | |m]; try done. exists m. split; [done|]. cbn in Hname, He |- *.
    destruct (m !! "name"), (m !! "expected_fingerprint"); simplify_eq/=. done.
  - unfold plain_name in Hn |- *. apply andb_true_iff in Hn as [Hn _]. apply andb_true_iff. split; [exact Hn|].
    subst expected. apply hex_plain.
Qed.

(** C39: The generator of golden vectors always builds its suite, whose expected
    fingerprints are those the ledger computes.  A run that ends with 1 leaves the
    disk as it was.  A run that ends with 0 writes the suite and nothing else; when
    a fixture of the same version was there, with names and hashes that have no
    line breaks and names without an equals sign, and a recipe change was not
    allowed, its names and hashes were those of the suite, but for their order, or
    the texts of the two collide under SHA-256; and the next run finds nothing to
    change. *)
Theorem fixture_is_guarded out allow d :
  exists suite vectors pairs,
    build_suite CASES = Ok suite /\ suite !! "vectors" = Some (JArr vectors) /\ Forall2 pins CASES vectors
    /\ Forall2 pinned CASES pairs
    /\ (forall d', generate CASES out allow d = (Ok 1%Z, d') -> d' = d)
    /\ (forall d', generate CASES out allow d = (Ok 0%Z, d') ->
          d' = <[out := dumps true (JObj suite)]> d
          /\ (forall old_text m old_vectors old, allow = false -> d !! out = Some old_text ->
                loads old_text = Some (JObj m) -> m !! "algo_version" = Some (JStr "v1") ->
                m !! "vectors" = Some (JArr old_vectors) -> Forall2 names_hash old_vectors old ->
                Forall (fun p => plain_name p = true) old ->
                old ≡ₚ pairs \/ has_collision [utf8 (names_text old); utf8 (names_text pairs)])
          /\ (readable out = true -> generate CASES out false d' = (Ok 0%Z, d'))).
Proof.
  destruct (build_plain CASES cases_plain) as (suite & vectors & Hb & Hi & Hver & Hpins).
  destruct (pinned_names _ Hpins) as (pairs & Hpinned & Hnames & Hplain). exists suite, vectors, pairs.
  assert (suite !! "vectors" = Some (JArr vectors)) as Hsv.
  { cbn in Hi. by destruct (suite !! "vectors"); simplify_eq/=. }
  do 4 (split; [done|]). pose proof (suite_text_names _ _ _ Hsv Hnames) as Ht.
  pose proof (suite_digest_names _ _ _ Hsv Hnames) as Hd. rewrite (generate_guard _ _ _ _ _ _ Hb Hd). split.
  - intros d'. destruct (guard _ _ _ _) as [[]|]; [by intros [= <-]|by destruct (writable out)|done].
  - intros d'. destruct (guard _ _ _ _) as [[]|] eqn:Hg; [done| |done]. destruct (writable out) eqn:Hw; [|done].
    intros [= <-]. split; [done|]. split.
    + intros old_text m old_vectors old -> Hl Hld Hv Hov Hf Hold.
      destruct (guard_same_names _ _ _ _ _ _ _ Hg Hl Hld Hv Hov Hf) as [Heq|]; [left|by right].
      exact (names_text_inj _ _ Hold Hplain Heq).
    + intros Hr. rewrite (generate_guard _ _ _ _ _ _ Hb Hd) (guard_own _ _ _ _ Ht Hver Hr) Hw. by rewrite insert_insert_eq.
Qed.

(** The suite calls itself version 1, but every stamp in it is one of the third
    recipe; the vector said to pin the first CWE pins the lowest one. *)
Theorem golden_vectors_are_v3 :
  (forall c v expected, build_vector c = Ok v -> vector_item "expected_fingerprint" v = Ok (JStr expected) ->
     attribute (vc_finding c) expected [Some (vc_repo_url c)] = Ok (Some "v3"))
  /\ SUITE_VERSION = "v1"
  /\ exists c, c ∈ CASES /\ vc_why c = "primary CWE = first element, upper-cased and trimmed"
       /\ get "cwes" (vc_finding c) = JArr [JStr "cwe-798 "; JStr "CWE-259"] /\ primary_cwe (vc_finding c) = Ok "CWE-259".
Proof.
  split; [|split; [done|]].
  - intros c v expected Hv He. unfold build_vector in Hv. destruct (vector_paths _) as [paths|]; [|done]. cbn [mbind result_bind] in Hv.
    destruct (primary_cwe _) as [cwe|]; [|done]. cbn [mbind result_bind] in Hv.
    destruct (fingerprint (vc_finding c) _ _) as [fp|] eqn:Hf; [|done]. cbn [mbind result_bind] in Hv.
    destruct (raise_if _ _); [|done]. injection Hv as <-. injection He as <-. exact (attribute_current _ _ _ _ _ Hf).
  - eexists. split; [right; right; right; left|]. by split; [|split]; [reflexivity|reflexivity|vm_compute].
Qed.
End Properties.

(** ** Examples *)

(** A hash with the length of a digest, and a world with plain files. *)
#[local] Instance short_hash : HashFn := {| sha256 b := take 32 (b ++ replicate 32 Byte.x00); sha256_length b := ltac:(rewrite length_take length_app length_replicate; lia) |}.
#[local] Instance vectors_env : SigningTools := sample_tools ∅ "".
#[local] Instance vectors_auth : AuthTools := sample_auth (fun _ => RunError).
(** A first run writes the fixture; one whose hashes differ is refused, and
    allowed when asked for; a fixture of another version is replaced. *)
Definition other_fixture (version : string) : disk := Eval vm_compute in
  {["v.json" := dumps true (JObj {["algo_version" := JStr version; "vectors" := JArr [
      JObj {["name" := JStr "single_path_with_cwe"; "expected_fingerprint" := JStr "00"]}]]})]}.
Example fixture_runs :
  (generate CASES "v.json" false ∅).1 = Ok 0%Z
  /\ generate CASES "v.json" false (other_fixture "v1") = (Ok 1%Z, other_fixture "v1")
  /\ (generate CASES "v.json" true (other_fixture "v1")).1 = Ok 0%Z
  /\ (generate CASES "v.json" false (other_fixture "v0")).1 = Ok 0%Z.
Proof. split_and!; vm_compute; reflexivity. Qed.
