(* ===== verification/Argparse.v ===== *)
(** * Command-line parsing

    What the programs use of Python's [argparse], as of the oldest version they run
    on (3.11): options that store a value, a flag or a list, one positional argument
    or the commands of a parser, required options, choices, types, one group of
    exclusive options, abbreviations of long options and [--].  A parse ends with a
    namespace, or with the exit code 0 of the help or 2 of an error; the texts
    printed are not modelled. *)

From stdpp Require Import options.
From S2P Require Import Prelude PyStr Json Errors.

(** ** Parsers *)

Inductive value :=
| VNone
| VBool (b : bool)
| VInt (z : Z)
| VStr (s : string)
| VPath (s : string)
| VFun (name : string)
| VList (l : list value).
Definition namespace := gmap string value.

(** The result of a parse: a value, or the exit code of [SystemExit]. *)
Notation parsed := (result Z).
Definition usage_error {A} : parsed A := Err 2%Z.
Definition shows_help {A} : parsed A := Err 0%Z.

Inductive arg_type := TStr | TInt | TPath.
Inductive action_kind := Store | StoreTrue | Append | ShowHelp.
Record option_spec := {
  o_strings : list string; o_dest : string; o_kind : action_kind; o_type : arg_type;
  o_choices : option (list string); o_required : bool; o_default : value
}.

(** The one positional argument of a parser: an argument, an optional one, or the
    name of a command, whose parser gets what follows it. *)
Definition known_args : Type := namespace * list string.
Inductive positional :=
| One (dest : string) (ty : arg_type)
| Optional (dest : string) (ty : arg_type) (dflt : value)
| Subparsers (dest : string) (required : bool) (choices : list (string * (list string -> parsed known_args))).
Record parser := {
  ps_options : list option_spec;
  ps_positional : option positional;
  ps_one_of : list string;
  ps_defaults : list (string * value)
}.

Definition help_option : option_spec := {|
  o_strings := ["-h"; "--help"]; o_dest := "help"; o_kind := ShowHelp; o_type := TStr; o_choices := None;
  o_required := false; o_default := VNone |}.

(** ** Values *)

(** [_get_value] and [_check_value]. *)
Definition convert (ty : arg_type) (s : string) : parsed value :=
  match ty with
  | TStr => Ok (VStr s)
  | TPath => Ok (VPath s)
  | TInt => match int_of_str s with Some z => Ok (VInt z) | None => usage_error end
  end.
Definition allowed (choices : option (list string)) (s : string) : bool :=
  match choices with Some l => existsb (String.eqb s) l | None => true end.
Definition get_value (ty : arg_type) (choices : option (list string)) (s : string) : parsed value :=
  v ← convert ty s;
  if allowed choices s then Ok v else usage_error.

Fixpoint remove_first (x : string) (l : list string) : list string :=
  match l with
  | [] => []
  | y :: l' => if String.eqb y x then l' else y :: remove_first x l'
  end.
(** [_get_values] for [nargs=None] and [nargs="?"]: the first [--] goes; one
    argument is a value, any other number of them a list. *)
Definition get_values (ty : arg_type) (choices : option (list string)) (args : list string) : parsed value :=
  match remove_first "--" args with
  | [s] => get_value ty choices s
  | l => vs ← mapR (get_value ty choices) l; Ok (VList vs)
  end.

(** ** Options *)

Definition dash : ascii := "-"%char.
Definition is_dash (c : ascii) : bool := Ascii.eqb c dash.
Definition starts_dash (s : string) : bool := startswith s "-".
Definition has_option (o : option_spec) (s : string) : bool := existsb (String.eqb s) (o_strings o).

(** An option found for an argument: its action if there is one, the option string,
    and the value written with it. *)
Record option_match := { om_action : option option_spec; om_string : string; om_explicit : option string }.

Section Parser.
Context (options : list option_spec).

Definition find_option (s : string) : option option_spec := List.find (fun o => has_option o s) options.
(** [_option_string_actions]. *)
Definition option_strings : list (string * option_spec) := flat_map (fun o => map (fun s => (s, o)) (o_strings o)) options.

(** [_get_option_tuples]. *)
Definition get_option_tuples (arg : string) : list option_match :=
  if startswith arg "--" then
    let '(prefix, explicit) := match partition "="%char arg with Some (p, e) => (p, Some e) | None => (arg, None) end in
    omap (fun '(s, o) => if startswith s prefix
                         then Some {| om_action := Some o; om_string := s; om_explicit := explicit |} else None) option_strings
  else
    omap (fun '(s, o) =>
      if String.eqb s (str_take 2 arg)
      then Some {| om_action := Some o; om_string := s; om_explicit := Some (of_chars (drop 2 (chars arg))) |}
      else if startswith s arg then Some {| om_action := Some o; om_string := s; om_explicit := None |} else None) option_strings.

(** [^-\d+$|^-\d*\.\d+$], where [$] also matches before a final newline. *)
Definition chomp (l : list ascii) : list ascii :=
  match last l with Some c => if (code c =? 10)%Z then removelast l else l | None => l end.
Definition negative_number (s : string) : bool :=
  match chomp (chars s) with
  | c :: l =>
      is_dash c &&
      (let '(ds, rest) := span_digits l in
       match rest with
       | [] => negb (bool_decide (ds = []))
       | d :: l' => (code d =? 46)%Z && forallb is_digit l' && negb (bool_decide (l' = []))
       end)
  | [] => false
  end.

(** [_parse_optional]: an option, or none for an argument. *)
Definition parse_optional (arg : string) : parsed (option option_match) :=
  if negb (starts_dash arg) then Ok None
  else match find_option arg with
  | Some o => Ok (Some {| om_action := Some o; om_string := arg; om_explicit := None |})
  | None =>
      if (str_len arg =? 1)%Z then Ok None
      else match (match partition "="%char arg with
                  | Some (s, e) => match find_option s with
                                   | Some o => Some {| om_action := Some o; om_string := s; om_explicit := Some e |}
                                   | None => None
                                   end
                  | None => None
                  end) with
      | Some m => Ok (Some m)
      | None =>
          match get_option_tuples arg with
          | [m] => Ok (Some m)
          | _ :: _ => usage_error
          | [] => if negative_number arg then Ok None
                  else if existsb (fun c => (code c =? 32)%Z) (chars arg) then Ok None
                  else Ok (Some {| om_action := None; om_string := arg; om_explicit := None |})
          end
      end
  end.

(** The pattern of the arguments; everything after [--] is an argument. *)
Inductive tag := TagOption (m : option_match) | TagArg | TagDashes.
Fixpoint classify (args : list string) : parsed (list (string * tag)) :=
  match args with
  | [] => Ok []
  | arg :: rest =>
      if String.eqb arg "--" then Ok ((arg, TagDashes) :: map (fun a => (a, TagArg)) rest)
      else
        m ← parse_optional arg;
        tail ← classify rest;
        Ok ((arg, match m with Some m => TagOption m | None => TagArg end) :: tail)
  end.

Definition is_option (a : string * tag) : bool := match a.2 with TagOption _ => true | _ => false end.
Definition is_dashes (a : string * tag) : bool := match a.2 with TagDashes => true | _ => false end.

(** ** Actions *)

Record parse_state := { st_ns : namespace; st_seen : list string; st_positional : option positional; st_extras : list string }.
Definition with_extras (st : parse_state) (l : list string) : parse_state :=
  {| st_ns := st_ns st; st_seen := st_seen st; st_positional := st_positional st; st_extras := st_extras st ++ l |}.

(** [_AppendAction]: a copy of the list, or a new one. *)
Definition appended (old : option value) (v : value) : value :=
  match old with Some (VList l) => VList (l ++ [v]) | _ => VList [v] end.
(** [take_action] for an option; [one_of] is the group of exclusive options. *)
Definition take_option (one_of : list string) (o : option_spec) (args : list string) (st : parse_state) : parsed parse_state :=
  let set v := {| st_ns := <[o_dest o := v]> (st_ns st); st_seen := o_dest o :: st_seen st;
                  st_positional := st_positional st; st_extras := st_extras st |} in
  match o_kind o with
  | ShowHelp => shows_help
  | StoreTrue => Ok (set (VBool true))
  | Store | Append =>
      v ← get_values (o_type o) (o_choices o) args;
      if bool_decide (o_dest o ∈ one_of)
         && existsb (fun d => negb (String.eqb d (o_dest o)) && bool_decide (d ∈ st_seen st)) one_of
      then usage_error
      else Ok (set (match o_kind o with Append => appended (st_ns st !! o_dest o) v | _ => v end))
  end.

(** Whether the option takes an argument. *)
Definition takes_argument (o : option_spec) : bool := match o_kind o with Store | Append => true | _ => false end.

(** The options of one string: those without an argument and the last one, with
    the value written with it, if any. *)
Fixpoint short_options (o : option_spec) (explicit : list ascii) : parsed (list option_spec * (option_spec * option string)) :=
  match explicit with
  | [] => usage_error
  | c :: rest =>
      match find_option (of_chars [dash; c]) with
      | None => usage_error
      | Some o' =>
          match rest with
          | [] => Ok ([o], (o', None))
          | _ => if takes_argument o' then Ok ([o], (o', Some (of_chars rest)))
                 else '(before, final) ← short_options o' rest; Ok (o :: before, final)
          end
      end
  end.
Definition option_chain (o : option_spec) (s : string) (explicit : option string)
  : parsed (list option_spec * (option_spec * option string)) :=
  match explicit with
  | None => Ok ([], (o, None))
  | Some e =>
      if takes_argument o then Ok ([], (o, Some e))
      else if startswith s "--" then usage_error else short_options o (chars e)
  end.

(** [consume_optional], given what follows the option. *)
Definition consume_optional (one_of : list string) (arg : string) (m : option_match) (rest : list (string * tag)) (st : parse_state)
  : parsed (parse_state * list (string * tag)) :=
  match om_action m with
  | None => Ok (with_extras st [arg], rest)
  | Some o =>
      '(before, (final, explicit)) ← option_chain o (om_string m) (om_explicit m);
      '(args, rest) ← (match explicit with
                       | Some e => Ok ([e], rest)
                       | None =>
                           if takes_argument final
                           then match rest with (a, TagArg) :: rest' => Ok ([a], rest') | _ => usage_error end
                           else Ok ([], rest)
                       end);
      st ← foldM (fun st o => take_option one_of o [] st) before st;
      st ← take_option one_of final args st;
      Ok (st, rest)
  end.

(** ** Positional arguments *)

Fixpoint span_while {A} (f : A -> bool) (l : list A) : list A * list A :=
  match l with
  | x :: l' => if f x then let '(a, b) := span_while f l' in (x :: a, b) else ([], l)
  | [] => ([], [])
  end.

(** The arguments of the positional that is left, by its pattern, and what follows
    them: [-*A-*], [-*A?-*] or [-*A[-AO]*]. *)
Definition match_positional (p : positional) (args : list (string * tag)) : option (list string * list (string * tag)) :=
  let '(dashes, rest) := span_while is_dashes args in
  match p, rest with
  | Subparsers _ _ _, (_, TagArg) :: _ => Some (args.*1, [])
  | Subparsers _ _ _, _ => None
  | _, (a, TagArg) :: rest' =>
      let '(more, rest'') := span_while is_dashes rest' in
      Some (dashes.*1 ++ [a] ++ more.*1, rest'')
  | Optional _ _ _, _ => Some (dashes.*1, rest)
  | One _ _, _ => None
  end.

(** [take_action] for a positional. *)
Definition take_positional (p : positional) (args : list string) (st : parse_state) : parsed parse_state :=
  let set dest v extras := {| st_ns := <[dest := v]> (st_ns st); st_seen := dest :: st_seen st;
                              st_positional := None; st_extras := st_extras st ++ extras |} in
  match p with
  | One dest ty => v ← get_values ty None args; Ok (set dest v [])
  | Optional dest ty dflt =>
      match remove_first "--" args, dflt with
      | [], VStr s => v ← convert ty s; Ok (set dest v [])
      | [], _ => Ok (set dest dflt [])
      | _, _ => v ← get_values ty None args; Ok (set dest v [])
      end
  | Subparsers dest _ choices =>
      match args with
      | name :: rest =>
          match List.find (fun c => String.eqb c.1 name) choices with
          | None => usage_error
          | Some (_, sub) =>
              '(ns, extras) ← sub rest;
              Ok {| st_ns := ns ∪ <[dest := VStr name]> (st_ns st); st_seen := dest :: st_seen st;
                    st_positional := None; st_extras := st_extras st ++ extras |}
          end
      | [] => usage_error
      end
  end.

(** [consume_positionals]. *)
Definition consume_positionals (args : list (string * tag)) (st : parse_state) : parsed (parse_state * list (string * tag)) :=
  match st_positional st with
  | None => Ok (st, args)
  | Some p =>
      match match_positional p args with
      | None => Ok (st, args)
      | Some (taken, rest) => st ← take_positional p taken st; Ok (st, rest)
      end
  end.

(** The loop of [_parse_known_args].  Every turn takes an argument. *)
Fixpoint consume (fuel : nat) (one_of : list string) (args : list (string * tag)) (st : parse_state) : parsed parse_state :=
  match fuel with
  | O => Err (-1)%Z
  | S fuel' =>
      if existsb is_option args then
        match args with
        | (arg, TagOption m) :: rest =>
            '(st, rest) ← consume_optional one_of arg m rest st;
            consume fuel' one_of rest st
        | _ =>
            '(st, rest) ← consume_positionals args st;
            if (length rest <? length args)%nat then consume fuel' one_of rest st
            else let '(skipped, rest) := span_while (fun a => negb (is_option a)) args in
                 consume fuel' one_of rest (with_extras st (skipped.*1))
        end
      else
        '(st, rest) ← consume_positionals args st;
        Ok (with_extras st (rest.*1))
  end.
End Parser.

(** ** Parsing *)

Definition positional_default (p : positional) : string * value :=
  match p with
  | One dest _ => (dest, VNone)
  | Optional dest _ dflt => (dest, dflt)
  | Subparsers dest _ _ => (dest, VNone)
  end.
Definition is_help (o : option_spec) : bool := match o_kind o with ShowHelp => true | _ => false end.
Definition value_options (p : parser) : list option_spec := List.filter (fun o => negb (is_help o)) (ps_options p).
Definition entries (p : parser) : list (string * value) :=
  map (fun o => (o_dest o, o_default o)) (value_options p)
  ++ match ps_positional p with Some q => [positional_default q] | None => [] end ++ ps_defaults p.
(** The namespace before the arguments; an earlier entry is kept. *)
Definition initial_namespace (p : parser) : namespace := list_to_map (entries p).

(** What is missing after the arguments. *)
Definition positional_missing (q : option positional) : bool :=
  match q with Some (One _ _) => true | Some (Subparsers _ required _) => required | _ => false end.
Definition incomplete (p : parser) (st : parse_state) : bool :=
  existsb (fun o => o_required o && negb (bool_decide (o_dest o ∈ st_seen st))) (ps_options p)
  || positional_missing (st_positional st)
  || (negb (bool_decide (ps_one_of p = [])) && negb (existsb (fun d => bool_decide (d ∈ st_seen st)) (ps_one_of p))).

Definition parse_known_args (p : parser) (args : list string) : parsed known_args :=
  tagged ← classify (ps_options p) args;
  st ← consume (ps_options p) (S (length tagged)) (ps_one_of p) tagged
         {| st_ns := initial_namespace p; st_seen := []; st_positional := ps_positional p; st_extras := [] |};
  if incomplete p st then usage_error else Ok (st_ns st, st_extras st).

Definition parse_args (p : parser) (args : list string) : parsed namespace :=
  '(ns, extras) ← parse_known_args p args;
  match extras with [] => Ok ns | _ => usage_error end.

(** ** Every turn takes an argument *)

Lemma span_while_app {A} (f : A -> bool) l : (span_while f l).1 ++ (span_while f l).2 = l.
Proof. induction l as [|x l IH]; [done|]. cbn. destruct (f x); [|done]. destruct (span_while f l). cbn in *. by f_equal. Qed.
Lemma span_while_length {A} (f : A -> bool) l : length (span_while f l).2 <= length l.
Proof. rewrite -{2}(span_while_app f l) length_app. lia. Qed.
Lemma span_while_head {A} (f : A -> bool) x l : f x = true -> length (span_while f (x :: l)).2 <= length l.
Proof. intros Hx. cbn. rewrite Hx. pose proof (span_while_length f l). by destruct (span_while f l). Qed.

(** The exit codes of a parse. *)
Definition exit_code (c : Z) : Prop := c = 0%Z \/ c = 2%Z.
Definition codes_ok {A} (r : parsed A) : Prop := forall c, r = Err c -> exit_code c.
Lemma codes_bind {A B} (f : A -> parsed B) (r : parsed A) : codes_ok r -> (forall a, r = Ok a -> codes_ok (f a)) -> codes_ok (a ← r; f a).
Proof. destruct r as [a|e]; intros Hr Hf; [by apply Hf|]. intros c [= ->]. by apply Hr. Qed.
Lemma codes_usage {A} : codes_ok (usage_error : parsed A).
Proof. intros c [= <-]. by right. Qed.
Lemma codes_help {A} : codes_ok (shows_help : parsed A).
Proof. intros c [= <-]. by left. Qed.
Lemma codes_ret {A} (a : A) : codes_ok (Ok a : parsed A).
Proof. done. Qed.
Create HintDb argparse.
#[export] Hint Resolve codes_usage codes_help codes_ret : argparse.
(** Follow the binds, conditionals and matches of a parsing function. *)
Ltac follow_codes := repeat first
  [ solve [eauto with argparse]
  | match goal with
    | |- codes_ok (mbind _ _) => apply codes_bind; [|intros ? ?]
    | |- codes_ok (match ?x with _ => _ end) => destruct x eqn:?
    | |- codes_ok (if ?x then _ else _) => destruct x eqn:?
    end ].

Lemma codes_get_value ty choices s : codes_ok (get_value ty choices s).
Proof. unfold get_value, convert. follow_codes. Qed.
#[export] Hint Resolve codes_get_value : argparse.
Lemma codes_mapR {A B} (f : A -> parsed B) l : (forall a, codes_ok (f a)) -> codes_ok (mapR f l).
Proof. intros Hf. induction l as [|a l IH]; [done|]. cbn [mapR]. follow_codes. Qed.
Lemma codes_get_values ty choices args : codes_ok (get_values ty choices args).
Proof.
  unfold get_values. destruct (remove_first _ _) as [|s [|? ?]]; [done|apply codes_get_value|].
  apply codes_bind; [|done]. apply codes_mapR, codes_get_value.
Qed.
#[export] Hint Resolve codes_get_values : argparse.

Section Codes.
Context (options : list option_spec).

Lemma codes_parse_optional arg : codes_ok (parse_optional options arg).
Proof. unfold parse_optional. follow_codes. Qed.
Lemma codes_classify args : codes_ok (classify options args).
Proof. induction args as [|arg rest IH]; [done|]. cbn [classify]. pose proof codes_parse_optional. follow_codes. Qed.
Lemma codes_take_option one_of o args st : codes_ok (take_option one_of o args st).
Proof. unfold take_option. follow_codes. Qed.
Lemma codes_short_options o explicit : codes_ok (short_options options o explicit).
Proof. revert o. induction explicit as [|c rest IH]; intros o; cbn [short_options]; follow_codes. Qed.
Lemma codes_foldM {A B} (f : B -> A -> parsed B) l b : (forall b a, codes_ok (f b a)) -> codes_ok (foldM f l b).
Proof. intros Hf. revert b. induction l as [|a l IH]; intros b; [done|]. cbn [foldM]. follow_codes. Qed.
Lemma codes_consume_optional one_of arg m rest st : codes_ok (consume_optional options one_of arg m rest st).
Proof.
  unfold consume_optional, option_chain. pose proof codes_take_option. pose proof codes_short_options.
  follow_codes. by apply codes_foldM.
Qed.

(** An option and its argument leave fewer arguments. *)
Lemma consume_optional_shorter one_of arg m rest st st' rest' :
  consume_optional options one_of arg m rest st = Ok (st', rest') -> length rest' <= length rest.
Proof.
  unfold consume_optional. destruct (om_action m) as [o|]; [|by intros [= _ <-]].
  intros Hc. inv_bind Hc as [[before [final explicit]]|] Hchain. inv_bind Hc as [[args rest1]|] Harg.
  assert (length rest1 <= length rest).
  { destruct explicit; [by injection Harg as _ <-|]. destruct (takes_argument final); [|by injection Harg as _ <-].
    destruct rest as [|[a []] rest2]; [done|done| |done]. injection Harg as _ <-. cbn. lia. }
  inv_bind Hc as [st1|] H1. inv_bind Hc as [st2|] H2. by injection Hc as _ <-.
Qed.

(** The parsers of the commands end with such codes. *)
Definition subs_ok (p : option positional) : Prop :=
  match p with Some (Subparsers _ _ choices) => forall name sub args, (name, sub) ∈ choices -> codes_ok (sub args) | _ => True end.
Lemma codes_take_positional p args st : subs_ok (Some p) -> codes_ok (take_positional p args st).
Proof.
  intros Hs. unfold take_positional. destruct p as [dest ty|dest ty dflt|dest req choices].
  - follow_codes.
  - unfold convert. follow_codes.
  - destruct args as [|name rest]; [auto with argparse|]. destruct (List.find _ _) as [[n sub]|] eqn:Hf; [|auto with argparse].
    apply find_some in Hf as [Hin%list_elem_of_In _]. apply codes_bind; [exact (Hs _ _ _ Hin)|]. intros [ns extras] _. done.
Qed.
Lemma codes_consume_positionals args st : subs_ok (st_positional st) -> codes_ok (consume_positionals args st).
Proof.
  intros Hs. unfold consume_positionals. destruct (st_positional st) as [p|]; [|done].
  destruct (match_positional p args) as [[taken rest]|]; [|done]. apply codes_bind; [by apply codes_take_positional|done].
Qed.

(** The positional that is left is the one of the parser, or none. *)
Lemma take_option_positional one_of o args st st' : take_option one_of o args st = Ok st' -> st_positional st' = st_positional st.
Proof.
  unfold take_option. destruct (o_kind o); intros Ht; [|by injection Ht as <-| |done];
    (inv_bind Ht as [v|] Hv; destruct (_ && _); [done|]; by injection Ht as <-).
Qed.
Lemma consume_optional_positional one_of arg m rest st st' rest' :
  consume_optional options one_of arg m rest st = Ok (st', rest') -> st_positional st' = st_positional st.
Proof.
  unfold consume_optional. destruct (om_action m) as [o|]; [|by intros [= <- _]].
  intros Hc. inv_bind Hc as [[before [final explicit]]|] Hchain. inv_bind Hc as [[args rest1]|] Harg.
  inv_bind Hc as [st1|] H1. inv_bind Hc as [st2|] H2. injection Hc as <- _. rewrite (take_option_positional _ _ _ _ _ H2).
  revert H1. apply (foldM_ind _ (fun s => st_positional s = st_positional st)); [|done]. intros b a b' _ Hb Ht. by rewrite (take_option_positional _ _ _ _ _ Ht).
Qed.
Lemma take_positional_done p args st st' : take_positional p args st = Ok st' -> st_positional st' = None.
Proof.
  unfold take_positional. destruct p as [dest ty|dest ty dflt|dest req choices]; intros Ht.
  - inv_bind Ht as [v|] Hv. by injection Ht as <-.
  - destruct (remove_first _ _), dflt; try (inv_bind Ht as [v|] Hv); by injection Ht as <-.
  - destruct args as [|name rest]; [done|]. destruct (List.find _ _) as [[n sub]|]; [|done].
    inv_bind Ht as [[ns extras]|] Hs. by injection Ht as <-.
Qed.
Lemma consume_positionals_left args st st' rest : consume_positionals args st = Ok (st', rest) ->
  st_positional st' = st_positional st \/ st_positional st' = None.
Proof.
  unfold consume_positionals. destruct (st_positional st) as [p|] eqn:Hp; [|intros [= <- <-]; by left].
  destruct (match_positional p args) as [[taken rest1]|]; [|intros [= <- <-]; by left].
  intros Hc. inv_bind Hc as [st1|] Ht. injection Hc as <- _. right. exact (take_positional_done _ _ _ _ Ht).
Qed.

Lemma codes_consume one_of fuel args st : subs_ok (st_positional st) -> length args < fuel -> codes_ok (consume options fuel one_of args st).
Proof.
  revert args st. induction fuel as [|fuel IH]; intros args st Hs Hlen; [lia|]. cbn [consume].
  destruct (existsb is_option args) eqn:Hopt.
  2: { apply codes_bind; [by apply codes_consume_positionals|]. by intros [st1 rest] _. }
  destruct args as [|[arg t] rest]; [done|]. cbn [length] in Hlen.
  assert (is_option (arg, t) = false -> codes_ok ('(st1, rest1) ← consume_positionals ((arg, t) :: rest) st;
    if (length rest1 <? length ((arg, t) :: rest))%nat then consume options fuel one_of rest1 st1
    else let '(skipped, rest2) := span_while (fun a => negb (is_option a)) ((arg, t) :: rest) in
         consume options fuel one_of rest2 (with_extras st1 skipped.*1))) as Hother.
  { intros Hno. apply codes_bind; [by apply codes_consume_positionals|]. intros [st1 rest1] Hc.
    assert (subs_ok (st_positional st1)) by (by destruct (consume_positionals_left _ _ _ _ Hc) as [->| ->]).
    destruct (length rest1 <? _)%nat eqn:Hl; [apply Nat.ltb_lt in Hl; apply IH; [done|cbn in Hl; lia]|].
    pose proof (span_while_head (fun a => negb (is_option a)) (arg, t) rest (f_equal negb Hno)) as Hsp.
    destruct (span_while _ _) as [skipped rest2]. apply IH; [done|cbn in Hsp; lia]. }
  destruct t as [m| |]; [|by apply Hother..].
  apply codes_bind; [apply codes_consume_optional|]. intros [st1 rest1] Hc. apply IH.
  - by rewrite (consume_optional_positional _ _ _ _ _ _ _ Hc).
  - pose proof (consume_optional_shorter _ _ _ _ _ _ _ Hc). lia.
Qed.
End Codes.

(** A parse ends with a namespace, or with the code of the help or of an error;
    the fuel of the loop is enough. *)
Lemma codes_parse_known p args : subs_ok (ps_positional p) -> codes_ok (parse_known_args p args).
Proof.
  intros Hs. unfold parse_known_args. apply codes_bind; [apply codes_classify|]. intros tagged _.
  apply codes_bind; [apply codes_consume; [done|lia]|]. intros st _. follow_codes.
Qed.
Lemma codes_parse_args p args : subs_ok (ps_positional p) -> codes_ok (parse_args p args).
Proof.
  intros Hs. unfold parse_args. apply codes_bind; [by apply codes_parse_known|]. intros [ns [|? ?]] _; auto with argparse.
Qed.

(** ** Typed namespaces *)

(** A value that a type converts to, of the choices. *)
Definition of_type (ty : arg_type) (choices : option (list string)) (v : value) : bool :=
  match ty, v with
  | TStr, VStr s | TPath, VPath s => allowed choices s
  | TInt, VInt _ => true
  | _, _ => false
  end.
Definition is_text (v : value) : bool := match v with VStr _ => true | _ => false end.
(** What an option may leave when it is given. *)
Definition given (o : option_spec) (v : value) : Prop :=
  match o_kind o with
  | Store => of_type (o_type o) (o_choices o) v = true
  | StoreTrue => v = VBool true
  | Append => exists l, v = VList l /\ l <> [] /\ forallb is_text l = true
  | ShowHelp => False
  end.
(** What it leaves after a parse that succeeds. *)
Definition fits (o : option_spec) (ns : namespace) : Prop :=
  exists v, ns !! o_dest o = Some v /\ (given o v \/ o_required o = false /\ v = o_default o).
Definition fits_positional (p : positional) (ns : namespace) : Prop :=
  match p with
  | One dest ty => exists v, ns !! dest = Some v /\ of_type ty None v = true
  | Optional dest ty dflt => exists v, ns !! dest = Some v
      /\ (of_type ty None v = true \/ v = dflt)
  | Subparsers _ _ _ => True
  end.

(** An argument that does not end in [--]: it is neither that separator nor has it
    as its value, which [argparse] would drop. *)
Definition plain (s : string) : Prop := forall b, s <> b +:+ "--".
Lemma plain_endswith s : endswith s "--" = false -> plain s.
Proof. intros He b ->. unfold endswith in He. rewrite chars_app rev_app_distr in He.
  change (rev (chars "--")) with (chars "--") in He. rewrite of_chars_app of_chars_chars in He. revert He.
  generalize (of_chars (rev (chars b))). intros t. simpl. by destruct t.
Qed.
Lemma plain_suffix s t : plain (s +:+ t) -> plain t.
Proof. intros Hp b ->. apply (Hp (s +:+ b)). apply (inj chars). by rewrite !chars_app app_assoc. Qed.
Lemma plain_chars s l l' : plain s -> chars s = l ++ l' -> plain (of_chars l').
Proof. intros Hp Hs. apply (plain_suffix (of_chars l)). by rewrite -of_chars_app -Hs of_chars_chars. Qed.
Lemma partition_suffix sep s a b : partition sep s = Some (a, b) -> exists l, chars s = l ++ chars b.
Proof.
  unfold partition. assert (forall cur l x y, partition_chars sep cur l = Some (x, y) -> exists z, l = z ++ y) as Hp.
  { intros cur l. revert cur. induction l as [|c l IH]; intros cur x y; cbn; [done|]. destruct (Ascii.eqb c sep).
    - intros [= _ <-]. by exists [c].
    - intros (z & ->)%IH. by exists (c :: z). }
  destruct (partition_chars _ _ _) as [[x y]|] eqn:E; [|done]. intros [= _ <-]. rewrite chars_of_chars. exact (Hp _ _ _ _ E).
Qed.

Section Typed.
Context (options : list option_spec).

Definition good_match (m : option_match) : Prop :=
  (forall o, om_action m = Some o -> o ∈ options) /\ (forall e, om_explicit m = Some e -> plain e).
Definition good_tag (a : string * tag) : Prop := plain a.1 /\ match a.2 with TagOption m => good_match m | TagArg => True | TagDashes => False end.

Lemma find_option_in s o : find_option options s = Some o -> o ∈ options.
Proof. unfold find_option. intros [Hin _]%find_some. by apply list_elem_of_In. Qed.
Lemma option_strings_in s o : (s, o) ∈ option_strings options -> o ∈ options.
Proof.
  unfold option_strings. intros (o' & Ho & Hs)%list_elem_of_In%in_flat_map. apply in_map_iff in Hs as (? & [= _ <-] & _).
  by apply list_elem_of_In.
Qed.
Lemma get_option_tuples_good arg m : plain arg -> m ∈ get_option_tuples options arg -> good_match m.
Proof.
  intros Hp. unfold get_option_tuples. destruct (startswith arg "--").
  - destruct (match partition _ _ with Some _ => _ | None => _ end) as [prefix explicit] eqn:He.
    intros ([s o] & Hin & Hm)%list_elem_of_omap. destruct (startswith s prefix); [|done]. injection Hm as <-.
    split; cbn; [intros o' [= <-]; exact (option_strings_in _ _ Hin)|]. intros e ->.
    destruct (partition _ _) as [[a b]|] eqn:Hpart; [|done]. injection He as _ ->.
    apply partition_suffix in Hpart as (l & Hl). rewrite -(of_chars_chars e). exact (plain_chars _ _ _ Hp Hl).
  - intros ([s o] & Hin & Hm)%list_elem_of_omap. destruct (String.eqb s _); [|destruct (startswith s arg); [|done]]; injection Hm as <-;
      (split; cbn; [intros o' [= <-]; exact (option_strings_in _ _ Hin)|]); [|done].
    intros e [= <-]. exact (plain_chars _ _ _ Hp (eq_sym (take_drop 2 (chars arg)))).
Qed.
Lemma parse_optional_good arg m : plain arg -> parse_optional options arg = Ok (Some m) -> good_match m.
Proof.
  intros Hp. unfold parse_optional. destruct (negb _); [done|].
  destruct (find_option options arg) as [o|] eqn:Hf; [intros [= <-]; split; cbn; [intros ? [= <-]; exact (find_option_in _ _ Hf)|done]|].
  destruct (_ =? 1)%Z; [done|]. destruct (match partition _ _ with Some _ => _ | None => _ end) as [m'|] eqn:Hm.
  - intros [= <-]. destruct (partition _ _) as [[a b]|] eqn:Hpart; [|done].
    destruct (find_option options a) as [o|] eqn:Hfa; [|done]. injection Hm as <-. split; cbn; [intros ? [= <-]; exact (find_option_in _ _ Hfa)|].
    intros e [= <-]. apply partition_suffix in Hpart as (l & Hl). rewrite -(of_chars_chars b). exact (plain_chars _ _ _ Hp Hl).
  - destruct (get_option_tuples options arg) as [|m' [|m'' ms]] eqn:Ht; [|intros [= <-]|done].
    + destruct (negative_number arg); [done|]. destruct (existsb _ _); [done|]. by intros [= <-].
    + apply (get_option_tuples_good arg); [done|]. rewrite Ht. by left.
Qed.
Lemma classify_good args tagged : Forall plain args -> classify options args = Ok tagged -> Forall good_tag tagged.
Proof.
  intros Hp. revert tagged. induction Hp as [|arg rest Harg Hrest IH]; intros tagged; cbn [classify]; [by intros [= <-]|].
  destruct (String.eqb_spec arg "--") as [->|_]; [exfalso; by apply (Harg "")|].
  intros Hc. inv_bind Hc as [m|] Hm. inv_bind Hc as [tail|] Ht. injection Hc as <-. constructor; [|by apply IH].
  split; [done|]. cbn. destruct m as [m|]; [|done]. exact (parse_optional_good _ _ Harg Hm).
Qed.

Lemma convert_of_type ty s v : convert ty s = Ok v -> of_type ty None v = true.
Proof. unfold convert. destruct ty; [by intros [= <-]| |by intros [= <-]]. destruct (int_of_str s); [by intros [= <-]|done]. Qed.
Lemma get_values_one ty choices s v : plain s -> get_values ty choices [s] = Ok v -> of_type ty choices v = true.
Proof.
  intros Hp. unfold get_values. cbn [remove_first]. destruct (String.eqb_spec s "--") as [->|_]; [exfalso; by apply (Hp "")|].
  unfold get_value, convert. intros Hv. inv_bind Hv as [w|] Hw. destruct (allowed choices s) eqn:Ha; [|done]. injection Hv as <-.
  destruct ty; [injection Hw as <-; done| |injection Hw as <-; done]. destruct (int_of_str s); [|done]. by injection Hw as <-.
Qed.

Lemma short_options_good o e before final ex : o ∈ options -> takes_argument o = false -> plain (of_chars e) ->
  short_options options o e = Ok (before, (final, ex)) ->
  Forall (fun o => o ∈ options /\ takes_argument o = false) before /\ final ∈ options
  /\ forall x, ex = Some x -> plain x /\ takes_argument final = true.
Proof.
  revert o before. induction e as [|c rest IH]; intros o before Ho Ht Hp; cbn [short_options]; [done|].
  destruct (find_option options _) as [o'|] eqn:Hf; [|done]. apply find_option_in in Hf.
  assert (plain (of_chars rest)) as Hrest by (apply (plain_suffix (of_chars [c])); by rewrite -of_chars_app).
  destruct rest as [|c' rest']; [intros [= <- <- <-]; split; [by constructor|]; by split|].
  destruct (takes_argument o') eqn:Ht'.
  - intros [= <- <- <-]. split; [by constructor|]. split; [done|]. by intros x [= <-].
  - intros Hs. inv_bind Hs as [[b [f x]]|] Hr. injection Hs as <- <- <-. destruct (IH _ _ Hf Ht' Hrest Hr) as (H1 & H2 & H3).
    split; [by constructor|]. by split.
Qed.
Lemma option_chain_good o s e before final ex : o ∈ options -> (forall x, e = Some x -> plain x) ->
  option_chain options o s e = Ok (before, (final, ex)) ->
  Forall (fun o => o ∈ options /\ takes_argument o = false) before /\ final ∈ options
  /\ forall x, ex = Some x -> plain x /\ takes_argument final = true.
Proof.
  intros Ho Hp. unfold option_chain. destruct e as [x|]; [|intros [= <- <- <-]; by split_and!].
  destruct (takes_argument o) eqn:Ht; [intros [= <- <- <-]; split_and!; [done|done|]; intros y [= <-]; split; [by apply Hp|done]|].
  destruct (startswith s "--"); [done|]. apply short_options_good; [done|done|]. rewrite of_chars_chars. by apply Hp.
Qed.
End Typed.

(** A parser without commands, whose entries are distinct, whose lists are of texts
    and whose exclusive options have an argument. *)
Definition plain_list (o : option_spec) : bool :=
  match o_kind o, o_type o, o_choices o, o_default o with Append, TStr, None, VNone => true | Append, _, _, _ => false | _, _, _, _ => true end.
Definition leaf_ok (p : parser) : bool :=
  bool_decide (NoDup (entries p).*1)
  && forallb (fun o => plain_list o && (takes_argument o || negb (bool_decide (o_dest o ∈ ps_one_of p)))) (ps_options p)
  && match ps_positional p with
     | Some (Subparsers _ _ _) => false
     | Some q => negb (bool_decide ((positional_default q).1 ∈ ps_one_of p))
     | None => true
     end.

Section Leaf.
Context (p : parser) (Hok : leaf_ok p = true).

Lemma leaf_nodup : NoDup (entries p).*1.
Proof using Hok. pose proof Hok as Hb. unfold leaf_ok in Hb. rewrite !andb_true_iff bool_decide_eq_true in Hb. tauto. Qed.
Lemma leaf_lists o : o ∈ ps_options p -> plain_list o = true /\ (takes_argument o = false -> o_dest o ∉ ps_one_of p).
Proof using Hok.
  pose proof Hok as Hb. unfold leaf_ok in Hb. rewrite !andb_true_iff forallb_forall in Hb. intros Hin%list_elem_of_In.
  destruct Hb as [[_ Hb] _]. apply Hb, andb_prop in Hin as [Hl Ht]. split; [done|]. intros Hf. rewrite Hf in Ht. by apply negb_true_iff, bool_decide_eq_false in Ht.
Qed.
Definition is_argument (q : positional) : Prop := match q with Subparsers _ _ _ => False | _ => True end.
Lemma leaf_no_commands q : ps_positional p = Some q -> is_argument q /\ (positional_default q).1 ∉ ps_one_of p.
Proof using Hok.
  pose proof Hok as Hb. unfold leaf_ok in Hb. rewrite !andb_true_iff in Hb. destruct Hb as [_ Hb]. intros Hq. rewrite Hq in Hb.
  destruct q; [| |done]; apply negb_true_iff, bool_decide_eq_false in Hb; by split.
Qed.
Lemma value_option_in o : o ∈ ps_options p -> is_help o = false -> o ∈ value_options p.
Proof. intros Ho Hh. apply list_elem_of_In, filter_In. rewrite Hh. by split; [apply list_elem_of_In|]. Qed.

(** What holds of the state while the arguments are read. *)
Record leaf_inv (st : parse_state) : Prop := {
  li_option : forall o, o ∈ value_options p -> exists v, st_ns st !! o_dest o = Some v
    /\ (o_dest o ∈ st_seen st /\ given o v \/ o_dest o ∉ st_seen st /\ v = o_default o);
  li_default : forall k v, (k, v) ∈ ps_defaults p -> st_ns st !! k = Some v;
  li_keys : forall k, k ∉ (entries p).*1 -> st_ns st !! k = None;
  li_positional : match ps_positional p with
    | None => st_positional st = None
    | Some q => st_positional st = Some q /\ st_ns st !! (positional_default q).1 = Some (positional_default q).2
                \/ st_positional st = None /\ fits_positional q (st_ns st)
    end;
  li_one_of : forall d d', d ∈ ps_one_of p -> d' ∈ ps_one_of p -> d ∈ st_seen st -> d' ∈ st_seen st -> d = d'
}.
Lemma leaf_inv_initial : leaf_inv {| st_ns := initial_namespace p; st_seen := []; st_positional := ps_positional p; st_extras := [] |}.
Proof using Hok.
  pose proof leaf_nodup as Hnd. unfold initial_namespace.
  assert (forall k v, (k, v) ∈ entries p -> (list_to_map (entries p) : namespace) !! k = Some v) as Hl
    by (intros k v Hin; by apply elem_of_list_to_map).
  split; cbn [st_ns st_seen st_positional].
  - intros o Ho. exists (o_default o). split; [|right; split; [apply not_elem_of_nil|done]]. apply Hl. unfold entries.
    apply elem_of_app. left. by apply (list_elem_of_fmap_2 (fun o => (o_dest o, o_default o))).
  - intros k v Hin. apply Hl. unfold entries. rewrite !elem_of_app. by right; right.
  - intros k Hk. by apply not_elem_of_list_to_map_1.
  - destruct (ps_positional p) as [q|] eqn:Hq; [|done]. left. split; [done|]. apply Hl. unfold entries. rewrite Hq !elem_of_app.
    right; left. rewrite -surjective_pairing. by left.
  - by intros d d' _ _ ?%not_elem_of_nil.
Qed.

(** The entries an option does not write. *)
Lemma entry_dests : (entries p).*1 = map o_dest (value_options p)
  ++ match ps_positional p with Some q => [(positional_default q).1] | None => [] end ++ (ps_defaults p).*1.
Proof. unfold entries. rewrite !fmap_app. f_equal; [|by destruct (ps_positional p)]. by rewrite -list_fmap_compose. Qed.
Lemma option_dest_inj o o' : o ∈ value_options p -> o' ∈ value_options p -> o_dest o = o_dest o' -> o = o'.
Proof using Hok.
  pose proof leaf_nodup as Hnd. rewrite entry_dests in Hnd. apply NoDup_app in Hnd as [Hnd _]. by apply NoDup_map_inj.
Qed.
Lemma option_dest_default o k v : o ∈ value_options p -> (k, v) ∈ ps_defaults p -> o_dest o <> k.
Proof using Hok.
  pose proof leaf_nodup as Hnd. rewrite entry_dests in Hnd. apply NoDup_app in Hnd as (_ & Hd & _). intros Ho Hk Heq.
  apply (Hd (o_dest o)); [by apply (list_elem_of_fmap_2 o_dest)|]. apply elem_of_app. right. rewrite Heq.
  by apply (list_elem_of_fmap_2 fst _ (k, v)).
Qed.
Lemma option_dest_positional o q : o ∈ value_options p -> ps_positional p = Some q -> o_dest o <> (positional_default q).1.
Proof using Hok.
  pose proof leaf_nodup as Hnd. rewrite entry_dests in Hnd. apply NoDup_app in Hnd as (_ & Hd & _). intros Ho Hq Heq.
  apply (Hd (o_dest o)); [by apply (list_elem_of_fmap_2 o_dest)|]. rewrite Hq Heq. by left.
Qed.
Lemma positional_dest_default q k v : ps_positional p = Some q -> (k, v) ∈ ps_defaults p -> (positional_default q).1 <> k.
Proof using Hok.
  pose proof leaf_nodup as Hnd. rewrite entry_dests in Hnd. apply NoDup_app in Hnd as (_ & _ & Hnd). intros Hq Hk Heq.
  rewrite Hq in Hnd. apply NoDup_app in Hnd as (_ & Hd & _). apply (Hd (positional_default q).1); [by left|]. rewrite Heq.
  by apply (list_elem_of_fmap_2 fst _ (k, v)).
Qed.
Lemma fits_positional_insert q k v ns : k <> (positional_default q).1 -> fits_positional q ns -> fits_positional q (<[k := v]> ns).
Proof. destruct q; cbn; intros Hk Hf; [| |done]; (rewrite lookup_insert_ne; [done|exact Hf]). Qed.

(** Writing an option that is given. *)
Lemma write_inv o v st : o ∈ value_options p -> given o v -> leaf_inv st ->
  (o_dest o ∈ ps_one_of p -> forall d, d ∈ ps_one_of p -> d ∈ st_seen st -> d = o_dest o) ->
  leaf_inv {| st_ns := <[o_dest o := v]> (st_ns st); st_seen := o_dest o :: st_seen st;
              st_positional := st_positional st; st_extras := st_extras st |}.
Proof using Hok.
  intros Ho Hg [Hopt Hdef Hkeys Hpos Hone] Hex. split; cbn [st_ns st_seen st_positional].
  - intros o' Ho'. destruct (decide (o_dest o' = o_dest o)) as [Heq|Hne].
    + assert (o' = o) as -> by (by apply option_dest_inj). exists v. rewrite lookup_insert_eq. split; [done|]. left. by split; [left|].
    + rewrite lookup_insert_ne; [congruence|]. destruct (Hopt o' Ho') as (w & Hw & Hc). exists w. split; [done|].
      rewrite not_elem_of_cons. set_solver.
  - intros k w Hk. rewrite lookup_insert_ne; [by apply (option_dest_default _ _ w)|]. by apply Hdef.
  - intros k Hk. rewrite lookup_insert_ne; [|by apply Hkeys]. intros <-. apply Hk. rewrite entry_dests. apply elem_of_app. left.
    by apply (list_elem_of_fmap_2 o_dest).
  - destruct (ps_positional p) as [q|] eqn:Hq; [|done]. pose proof (option_dest_positional o q Ho Hq) as Hne.
    rewrite lookup_insert_ne; [done|]. destruct Hpos as [?|[? ?]]; [by left|right]. split; [done|by apply fits_positional_insert].
  - intros d d' Hd Hd' Hs Hs'. rewrite !elem_of_cons in Hs, Hs'.
    destruct Hs as [->|Hs], Hs' as [->|Hs']; [done|symmetry; by apply Hex|by apply Hex|by apply Hone].
Qed.

Lemma appended_given o old s v : o_kind o = Append -> plain_list o = true -> old = o_default o \/ given o old ->
  of_type (o_type o) (o_choices o) v = true -> s = appended (Some old) v -> given o s.
Proof.
  unfold plain_list, given. intros Hk Hl Hold Hv ->. rewrite Hk in Hl, Hold |- *.
  destruct (o_type o); [|done..]. destruct (o_choices o); [done|]. destruct (o_default o); [|done..].
  destruct v; [done|done|done| |done|done|done].
  destruct Hold as [->|(l & -> & Hne & Hl')]; cbn [appended].
  - eexists. by split.
  - eexists. split; [done|]. split; [by destruct l|]. by rewrite forallb_app Hl'.
Qed.

(** No other option of the group was seen. *)
Lemma exclusive o (one_of seen : list string) :
  bool_decide (o_dest o ∈ one_of) && existsb (fun d => negb (String.eqb d (o_dest o)) && bool_decide (d ∈ seen)) one_of = false ->
  o_dest o ∈ one_of -> forall d, d ∈ one_of -> d ∈ seen -> d = o_dest o.
Proof.
  intros Hex Hin d Hd Hs. rewrite bool_decide_true // in Hex. cbn [andb] in Hex. destruct (String.eqb_spec d (o_dest o)) as [->|Hne]; [done|].
  exfalso. apply not_true_iff_false in Hex. apply Hex, existsb_exists. exists d. split; [by apply list_elem_of_In|].
  rewrite bool_decide_true // andb_true_r. by apply negb_true_iff, String.eqb_neq.
Qed.
(** Taking the action of an option, with an argument if it has one. *)
Lemma take_option_inv o args st st' : o ∈ ps_options p ->
  (takes_argument o = true -> exists s, args = [s] /\ plain s) ->
  take_option (ps_one_of p) o args st = Ok st' -> leaf_inv st -> leaf_inv st'.
Proof using Hok.
  intros Ho Hargs Ht Hinv. destruct (leaf_lists o Ho) as [Hlist Hflag]. unfold take_option in Ht.
  destruct (o_kind o) eqn:Hk; [| | |done].
  - destruct Hargs as (s & -> & Hp); [by unfold takes_argument; rewrite Hk|]. inv_bind Ht as [v|] Hv.
    destruct (_ && _) eqn:Hex; [done|]. injection Ht as <-.
    apply write_inv; [|unfold given; rewrite Hk; exact (get_values_one _ _ _ _ Hp Hv)|done|by apply exclusive].
    apply value_option_in; [done|]. unfold is_help. by rewrite Hk.
  - injection Ht as <-. apply write_inv; [|by unfold given; rewrite Hk|done|].
    + apply value_option_in; [done|]. unfold is_help. by rewrite Hk.
    + intros Hin. exfalso. apply Hflag; [|done]. unfold takes_argument. by rewrite Hk.
  - destruct Hargs as (s & -> & Hp); [by unfold takes_argument; rewrite Hk|]. inv_bind Ht as [v|] Hv.
    destruct (_ && _) eqn:Hex; [done|]. injection Ht as <-.
    assert (o ∈ value_options p) as Hvo by (apply value_option_in; [done|]; unfold is_help; by rewrite Hk).
    apply write_inv; [done| |done|by apply exclusive].
    destruct (li_option _ Hinv o Hvo) as (old & Hold & Hc). rewrite Hold.
    apply (appended_given o old _ v Hk Hlist); [|exact (get_values_one _ _ _ _ Hp Hv)|done]. destruct Hc as [[_ ?]|[_ ->]]; [by right|by left].
Qed.

Lemma leaf_inv_extras st l : leaf_inv st -> leaf_inv (with_extras st l).
Proof. intros [? ? ? ? ?]. by split. Qed.
Lemma consume_optional_inv arg m rest st st' rest' : Forall (good_tag (ps_options p)) rest -> good_match (ps_options p) m ->
  consume_optional (ps_options p) (ps_one_of p) arg m rest st = Ok (st', rest') -> leaf_inv st ->
  leaf_inv st' /\ Forall (good_tag (ps_options p)) rest'.
Proof using Hok.
  intros Hrest [Hact Hexp] Hc Hinv. unfold consume_optional in Hc.
  destruct (om_action m) as [o|] eqn:Ho; [|injection Hc as <- <-; split; [by apply leaf_inv_extras|done]].
  inv_bind Hc as [[before [final explicit]]|] Hchain. inv_bind Hc as [[args rest1]|] Harg.
  destruct (option_chain_good _ _ _ _ _ _ _ (Hact _ eq_refl) Hexp Hchain) as (Hbefore & Hfinal & Hex).
  assert ((takes_argument final = true -> exists s, args = [s] /\ plain s) /\ Forall (good_tag (ps_options p)) rest1) as [Hargs Hrest1].
  { destruct explicit as [e|]; [injection Harg as <- <-; split; [|done]; intros _; exists e; split; [done|]; by apply Hex|].
    destruct (takes_argument final); [|by injection Harg as <- <-]. destruct rest as [|[a []] rest2]; [done|done| |done].
    injection Harg as <- <-. apply Forall_cons in Hrest as [[Ha _] Hrest]. split; [|done]. intros _. by exists a. }
  inv_bind Hc as [st1|] H1. inv_bind Hc as [st2|] H2. injection Hc as <- <-. split; [|done].
  apply (take_option_inv _ _ _ _ Hfinal Hargs H2). revert H1. apply (foldM_ind _ leaf_inv); [|done].
  intros b x b' Hx Hb Ht. rewrite Forall_forall in Hbefore. apply list_elem_of_In in Hx. destruct (Hbefore _ Hx) as [Hin Hno].
  apply (take_option_inv _ _ _ _ Hin) in Ht; [done| |done]. by rewrite Hno.
Qed.

Lemma no_dashes l : Forall (good_tag (ps_options p)) l -> span_while is_dashes l = ([], l).
Proof. destruct 1 as [|[a t] l [_ Ht] _]; [done|]. cbn. by destruct t. Qed.
Lemma match_positional_good q args taken rest : is_argument q ->
  Forall (good_tag (ps_options p)) args -> match_positional q args = Some (taken, rest) ->
  Forall (good_tag (ps_options p)) rest
  /\ ((exists s, taken = [s] /\ plain s) \/ taken = [] /\ match q with Optional _ _ _ => True | _ => False end).
Proof.
  intros Hq Hall. unfold match_positional. rewrite (no_dashes _ Hall).
  assert (forall a args', args = (a, TagArg) :: args' ->
    (let '(more, rest'') := span_while is_dashes args' in Some ([] ++ [a] ++ more.*1, rest'')) = Some (taken, rest) ->
    Forall (good_tag (ps_options p)) rest /\ exists s, taken = [s] /\ plain s) as Harg.
  { intros a args' -> Hm. apply Forall_cons in Hall as [[Ha _] Hall]. rewrite (no_dashes _ Hall) in Hm. injection Hm as <- <-.
    split; [done|]. by exists a. }
  destruct q as [d ty|d ty v|]; [| |done].
  - destruct args as [|[a []] args']; [done|done| |done]. intros Hm. destruct (Harg _ _ eq_refl Hm) as [? ?]. split; [done|by left].
  - destruct args as [|[a []] args'].
    + intros [= <- <-]. split; [done|by right].
    + intros [= <- <-]. split; [done|by right].
    + intros Hm. destruct (Harg _ _ eq_refl Hm) as [? ?]. split; [done|by left].
    + intros [= <- <-]. split; [done|by right].
Qed.
(** Writing the positional argument. *)
Lemma write_positional_inv q v st : ps_positional p = Some q ->
  fits_positional q (<[(positional_default q).1 := v]> (st_ns st)) -> leaf_inv st ->
  leaf_inv {| st_ns := <[(positional_default q).1 := v]> (st_ns st); st_seen := (positional_default q).1 :: st_seen st;
              st_positional := None; st_extras := st_extras st ++ [] |}.
Proof using Hok.
  intros Hq Hf [Hopt Hdef Hkeys Hpos Hone]. destruct (leaf_no_commands q Hq) as [_ Hno]. split; cbn [st_ns st_seen st_positional].
  - intros o Ho. pose proof (option_dest_positional o q Ho Hq) as Hne. rewrite lookup_insert_ne; [congruence|].
    destruct (Hopt o Ho) as (w & Hw & Hc). exists w. split; [done|]. set_solver.
  - intros k w Hk. rewrite lookup_insert_ne; [by apply (positional_dest_default q k w)|]. by apply Hdef.
  - intros k Hk. rewrite lookup_insert_ne; [|by apply Hkeys]. intros <-. apply Hk. rewrite entry_dests Hq !elem_of_app. right. left. by left.
  - rewrite Hq. by right.
  - intros d d' Hd Hd' Hs Hs'. apply elem_of_cons in Hs as [->|Hs], Hs' as [->|Hs']; [done|done|done|by apply Hone].
Qed.
Lemma take_positional_inv q args st st' : ps_positional p = Some q ->
  (exists s, args = [s] /\ plain s) \/ args = [] /\ match q with Optional _ _ _ => True | _ => False end ->
  take_positional q args st = Ok st' -> leaf_inv st -> leaf_inv st'.
Proof using Hok.
  intros Hq Hargs Ht Hinv. destruct (leaf_no_commands q Hq) as [Hleaf _]. destruct q as [d ty|d ty dflt|]; [| |done]; cbn [take_positional] in Ht.
  - destruct Hargs as [(s & -> & Hp)|[_ []]]. inv_bind Ht as [v|] Hv. injection Ht as <-.
    apply (write_positional_inv (One d ty)); [done| |done]. exists v. rewrite lookup_insert_eq. split; [done|]. exact (get_values_one _ _ _ _ Hp Hv).
  - assert (forall v, of_type ty None v = true \/ v = dflt -> leaf_inv {| st_ns := <[d := v]> (st_ns st); st_seen := d :: st_seen st;
        st_positional := None; st_extras := st_extras st ++ [] |}) as Hwrite.
    { intros v Hv. apply (write_positional_inv (Optional d ty dflt)); [done| |done]. exists v. by rewrite lookup_insert_eq. }
    destruct Hargs as [(s & -> & Hp)|[-> _]]; cbn [remove_first] in Ht.
    + destruct (String.eqb_spec s "--") as [->|_]; [exfalso; by apply (Hp "")|]. inv_bind Ht as [v|] Hv. injection Ht as <-.
      apply Hwrite. left. exact (get_values_one _ _ _ _ Hp Hv).
    + destruct dflt as [| | |s| | |]; try (injection Ht as <-; apply Hwrite; by right).
      inv_bind Ht as [v|] Hv. injection Ht as <-. apply Hwrite. left. exact (convert_of_type _ _ _ Hv).
Qed.
Lemma consume_positionals_inv args st st' rest : Forall (good_tag (ps_options p)) args ->
  consume_positionals args st = Ok (st', rest) -> leaf_inv st -> leaf_inv st' /\ Forall (good_tag (ps_options p)) rest.
Proof using Hok.
  intros Hall Hc Hinv. unfold consume_positionals in Hc.
  destruct (st_positional st) as [q|] eqn:Hq; [|by injection Hc as <- <-].
  destruct (match_positional q args) as [[taken rest1]|] eqn:Hm; [|by injection Hc as <- <-].
  inv_bind Hc as [st1|] Ht. injection Hc as <- <-.
  pose proof (li_positional _ Hinv) as Hpos. destruct (ps_positional p) as [q'|] eqn:Hp; [|congruence].
  destruct Hpos as [[Heq _]|[Heq _]]; [|congruence]. rewrite Hq in Heq. injection Heq as <-.
  destruct (match_positional_good q args taken rest1 (proj1 (leaf_no_commands q Hp)) Hall Hm) as [Hrest Htaken]. split; [|done].
  exact (take_positional_inv q taken st st1 Hp Htaken Ht Hinv).
Qed.
Lemma span_good (f : string * tag -> bool) l : Forall (good_tag (ps_options p)) l -> Forall (good_tag (ps_options p)) (span_while f l).2.
Proof. intros Hl. rewrite -(span_while_app f l) in Hl. by apply Forall_app in Hl as [_ ?]. Qed.
Lemma consume_inv fuel args st st' : Forall (good_tag (ps_options p)) args ->
  consume (ps_options p) fuel (ps_one_of p) args st = Ok st' -> leaf_inv st -> leaf_inv st'.
Proof using Hok.
  revert args st st'. induction fuel as [|fuel IH]; intros args st st' Hall Hc Hinv; [done|]. cbn [consume] in Hc.
  destruct (existsb is_option args).
  2: { inv_bind Hc as [[st1 rest]|] H1. injection Hc as <-. apply leaf_inv_extras. exact (proj1 (consume_positionals_inv _ _ _ _ Hall H1 Hinv)). }
  assert (forall r, ('(st1, rest) ← consume_positionals args st;
            if (length rest <? length args)%nat then consume (ps_options p) fuel (ps_one_of p) rest st1
            else let '(skipped, rest) := span_while (fun a => negb (is_option a)) args in
                 consume (ps_options p) fuel (ps_one_of p) rest (with_extras st1 (skipped.*1))) = Ok r -> leaf_inv r) as Hother.
  { intros r Hr. inv_bind Hr as [[st1 rest]|] H1. destruct (consume_positionals_inv _ _ _ _ Hall H1 Hinv) as [Hinv1 Hrest].
    destruct (length rest <? length args)%nat; [exact (IH _ _ _ Hrest Hr Hinv1)|].
    pose proof (span_good (fun a => negb (is_option a)) _ Hall) as Hsp. destruct (span_while _ args) as [skipped rest2].
    exact (IH _ _ _ Hsp Hr (leaf_inv_extras _ _ Hinv1)). }
  destruct args as [|[arg [m| |]] rest]; [by apply Hother| |by apply Hother..].
  inv_bind Hc as [[st1 rest1]|] H1. apply Forall_cons in Hall as [[_ Hm] Hrest].
  destruct (consume_optional_inv _ _ _ _ _ _ Hrest Hm H1 Hinv) as [Hinv1 Hrest1]. exact (IH _ _ _ Hrest1 Hc Hinv1).
Qed.

(** It leaves no other entries. *)
Lemma leaf_keys args ns extras k : Forall plain args -> parse_known_args p args = Ok (ns, extras) -> k ∉ (entries p).*1 -> ns !! k = None.
Proof using Hok.
  intros Hplain Hparse. unfold parse_known_args in Hparse. inv_bind Hparse as [tagged|] Ht. inv_bind Hparse as [st|] Hc.
  destruct (incomplete p st); [done|]. injection Hparse as <- <-.
  exact (li_keys _ (consume_inv _ _ _ _ (classify_good _ _ _ Hplain Ht) Hc leaf_inv_initial) k).
Qed.
(** What a parse of plain arguments leaves: every option and the positional argument
    with a value of its type and choices or its default, the required ones given,
    the defaults of the parser, and exactly one option of its exclusive group. *)
Lemma leaf_typed args ns extras : Forall plain args -> parse_known_args p args = Ok (ns, extras) ->
  (forall o, o ∈ value_options p -> fits o ns)
  /\ (forall q, ps_positional p = Some q -> fits_positional q ns)
  /\ (forall k v, (k, v) ∈ ps_defaults p -> ns !! k = Some v)
  /\ (ps_one_of p <> [] -> exists d, d ∈ ps_one_of p /\ forall o, o ∈ value_options p -> o_dest o ∈ ps_one_of p ->
        exists v, ns !! o_dest o = Some v /\ (o_dest o = d /\ given o v \/ o_dest o <> d /\ v = o_default o)).
Proof using Hok.
  intros Hplain Hparse. unfold parse_known_args in Hparse. inv_bind Hparse as [tagged|] Ht. inv_bind Hparse as [st|] Hc.
  destruct (incomplete p st) eqn:Hi; [done|]. injection Hparse as <- <-.
  destruct (consume_inv _ _ _ _ (classify_good _ _ _ Hplain Ht) Hc leaf_inv_initial) as [Hopt Hdef Hkeys Hpos Hone].
  unfold incomplete in Hi. rewrite !orb_false_iff in Hi. destruct Hi as [[Hreq Hmiss] Hgroup]. split; [|split; [|split; [exact Hdef|]]].
  - intros o Ho. destruct (Hopt o Ho) as (v & Hv & Hcase). exists v. split; [done|]. destruct Hcase as [[_ ?]|[Hno ->]]; [by left|right].
    split; [|done]. destruct (o_required o) eqn:Hr; [|done]. exfalso. apply not_true_iff_false in Hreq. apply Hreq, existsb_exists.
    exists o. split; [by apply list_elem_of_In, filter_In in Ho as [? _]|]. by rewrite Hr bool_decide_false.
  - intros q Hq. rewrite Hq in Hpos. destruct Hpos as [[Hp Hd]|[_ ?]]; [|done]. rewrite Hp in Hmiss.
    destruct q as [d ty|d ty dflt|]; [done| |done]. exists dflt. split; [exact Hd|by right].
  - intros Hne. rewrite bool_decide_false // in Hgroup. cbn [negb andb] in Hgroup. apply negb_false_iff, existsb_exists in Hgroup as (d & Hd & Hs).
    apply list_elem_of_In in Hd. apply bool_decide_eq_true in Hs. exists d. split; [done|]. intros o Ho Hin.
    destruct (Hopt o Ho) as (v & Hv & Hcase). exists v. split; [done|]. destruct (decide (o_dest o = d)) as [Heq|Hned].
    + left. split; [done|]. destruct Hcase as [[_ ?]|[Hno _]]; [done|]. by rewrite Heq in Hno.
    + right. split; [done|]. destruct Hcase as [[Hseen _]|[_ ?]]; [|done]. by destruct (Hned (Hone _ _ Hin Hd Hseen Hs)).
Qed.
End Leaf.

(** ** Parsers with commands *)

Section Group.
Context (p : parser) (dest : string) (req : bool) (choices : list (string * (list string -> parsed known_args))).
Context (Hp : ps_positional p = Some (Subparsers dest req choices)) (Hdest : dest ∉ map o_dest (value_options p)).
Context (args0 : list string).

(** The command is still to come, or its parser has read the rest. *)
Definition pending (st : parse_state) : Prop :=
  st_positional st = ps_positional p /\ st_ns st !! dest = Some VNone /\ forall k, k ∉ (entries p).*1 -> st_ns st !! k = None.
Definition commanded (ns : namespace) : Prop :=
  exists pre name rest sub subns extras, args0 = pre ++ name :: rest /\ (name, sub) ∈ choices /\ sub rest = Ok (subns, extras)
    /\ subns ⊆ ns /\ (subns !! dest = None -> ns !! dest = Some (VStr name))
    /\ forall k, k ∉ (entries p).*1 -> ns !! k = subns !! k.
Definition group_state (tagged : list (string * tag)) (st : parse_state) : Prop :=
  Forall (good_tag (ps_options p)) tagged /\ (exists pre, args0 = pre ++ tagged.*1)
  /\ (pending st \/ tagged = [] /\ st_positional st = None /\ commanded (st_ns st)).

Lemma take_option_pending o args st st' : o ∈ ps_options p -> take_option (ps_one_of p) o args st = Ok st' -> pending st -> pending st'.
Proof using Type*.
  intros Ho Ht (H1 & H2 & H3). assert (is_help o = false -> o_dest o ∈ map o_dest (value_options p)) as Hin.
  { intros Hh. apply (list_elem_of_fmap_2 o_dest). by apply value_option_in. }
  assert (forall v, is_help o = false -> pending {| st_ns := <[o_dest o := v]> (st_ns st); st_seen := o_dest o :: st_seen st;
    st_positional := st_positional st; st_extras := st_extras st |}) as Hw.
  { intros v Hh. specialize (Hin Hh). split; [done|]. cbn [st_ns]. split; [rewrite lookup_insert_ne; [by intros <-|done]|].
    intros k Hk. rewrite lookup_insert_ne; [|by apply H3]. intros <-. apply Hk. rewrite entry_dests. apply elem_of_app. by left. }
  unfold take_option in Ht. unfold is_help in Hw. destruct (o_kind o); [| | |done].
  - inv_bind Ht as [v|] Hv. destruct (_ && _); [done|]. injection Ht as <-. by apply Hw.
  - injection Ht as <-. by apply Hw.
  - inv_bind Ht as [v|] Hv. destruct (_ && _); [done|]. injection Ht as <-. by apply Hw.
Qed.
Lemma consume_optional_group arg m rest st st' rest' : group_state ((arg, TagOption m) :: rest) st ->
  consume_optional (ps_options p) (ps_one_of p) arg m rest st = Ok (st', rest') -> group_state rest' st'.
Proof using Type*.
  intros (Hall & (pre & Hpre) & [Hpend|[? _]]) Hc; [|done]. apply Forall_cons in Hall as [[_ [Hact Hexp]] Hrest]. unfold consume_optional in Hc.
  destruct (om_action m) as [o|] eqn:Ho.
  2: { injection Hc as <- <-. split; [done|]. split; [exists (pre ++ [arg]); by rewrite -app_assoc|]. by left. }
  inv_bind Hc as [[before [final explicit]]|] Hchain. inv_bind Hc as [[args rest1]|] Harg.
  destruct (option_chain_good _ _ _ _ _ _ _ (Hact _ eq_refl) Hexp Hchain) as (Hbefore & Hfinal & _).
  assert (exists l, rest = l ++ rest1) as [l Hl].
  { destruct explicit as [e|]; [injection Harg as _ <-; by exists []|]. destruct (takes_argument final); [|injection Harg as _ <-; by exists []].
    destruct rest as [|[a []] rest2]; [done|done| |done]. injection Harg as _ <-. by exists [(a, TagArg)]. }
  inv_bind Hc as [st1|] H1. inv_bind Hc as [st2|] H2. injection Hc as <- <-. subst rest. split; [by apply Forall_app in Hrest as [_ ?]|].
  split; [exists (pre ++ arg :: l.*1); rewrite Hpre fmap_cons fmap_app; by rewrite -app_assoc|]. left.
  apply (take_option_pending _ _ _ _ Hfinal H2). revert H1. apply (foldM_ind _ pending); [|done].
  intros b x b' Hx Hb Ht. rewrite Forall_forall in Hbefore. apply list_elem_of_In in Hx. exact (take_option_pending _ _ _ _ (proj1 (Hbefore _ Hx)) Ht Hb).
Qed.
Lemma consume_positionals_group tagged st st' rest : group_state tagged st -> consume_positionals tagged st = Ok (st', rest) ->
  group_state rest st' /\ (rest = tagged /\ st' = st \/ rest = []).
Proof using Type*.
  intros Hg Hc. pose proof Hg as (Hall & (pre & Hpre) & Hcase). unfold consume_positionals in Hc.
  destruct Hcase as [(Hst & Hd & Hkeys)|(-> & Hnone & _)]; [|rewrite Hnone in Hc; injection Hc as <- <-; split; [done|by left]].
  rewrite Hst Hp in Hc. unfold match_positional in Hc. rewrite (no_dashes p _ Hall) in Hc.
  destruct tagged as [|[a []] tagged']; [injection Hc as <- <-; split; [done|by left]|injection Hc as <- <-; split; [done|by left]| |
    injection Hc as <- <-; split; [done|by left]].
  inv_bind Hc as [st1|] Ht. injection Hc as <- <-. split; [|by right]. split; [done|]. split; [exists args0; by rewrite app_nil_r|]. right. split; [done|].
  cbn [take_positional fmap list_fmap fst] in Ht. destruct (List.find _ _) as [[name sub]|] eqn:Hf; [|done].
  apply find_some in Hf as [Hin Heq%String.eqb_eq]. cbn in Heq. subst name. apply list_elem_of_In in Hin.
  inv_bind Ht as [[subns extras]|] Hs. injection Ht as <-. split; [done|]. exists pre, a, (tagged'.*1), sub, subns, extras.
  split; [done|]. split; [done|]. split; [done|]. cbn [st_ns]. split; [apply map_union_subseteq_l|].
  split; [intros Hno; rewrite lookup_union_r; [done|by rewrite lookup_insert_eq]|].
  intros k Hk. destruct (subns !! k) as [v|] eqn:Hsub; [exact (lookup_union_Some_l _ _ _ _ Hsub)|]. rewrite lookup_union_r; [done|].
  rewrite lookup_insert_ne; [|by apply Hkeys]. intros <-. apply Hk. rewrite entry_dests Hp !elem_of_app. right. left. by left.
Qed.
Lemma group_span (f : string * tag -> bool) tagged st : group_state tagged st -> group_state (span_while f tagged).2 st.
Proof using Type*.
  intros (Hall & (pre & Hpre) & Hcase). pose proof (span_while_app f tagged) as Happ. split; [by apply span_good|].
  split; [exists (pre ++ (span_while f tagged).1.*1); rewrite Hpre -{1}Happ fmap_app; by rewrite app_assoc|].
  destruct Hcase as [?|(-> & ? & ?)]; [by left|by right].
Qed.
Lemma classify_strings options args tagged : classify options args = Ok tagged -> tagged.*1 = args.
Proof.
  revert tagged. induction args as [|arg rest IH]; intros tagged; cbn [classify]; [by intros [= <-]|].
  destruct (String.eqb arg "--"); [intros [= <-]; cbn; f_equal; rewrite -list_fmap_compose; by apply list_fmap_id|].
  intros Hc. inv_bind Hc as [m|] Hm. inv_bind Hc as [tail|] Ht. injection Hc as <-. cbn. f_equal. by apply IH.
Qed.
Lemma group_initial tagged : Forall plain args0 -> NoDup (entries p).*1 -> classify (ps_options p) args0 = Ok tagged ->
  group_state tagged {| st_ns := initial_namespace p; st_seen := []; st_positional := ps_positional p; st_extras := [] |}.
Proof using Type*.
  intros Hplain Hnd Ht. split; [exact (classify_good _ _ _ Hplain Ht)|]. split; [exists []; by rewrite (classify_strings _ _ _ Ht)|].
  left. split; [done|]. cbn [st_ns]. unfold initial_namespace. split; [|intros k Hk; by apply not_elem_of_list_to_map_1].
  apply elem_of_list_to_map; [done|]. unfold entries. rewrite Hp !elem_of_app. right. left. by left.
Qed.
Lemma group_extras tagged st l : group_state tagged st -> group_state tagged (with_extras st l).
Proof. done. Qed.
Lemma consume_group fuel tagged st st' : group_state tagged st ->
  consume (ps_options p) fuel (ps_one_of p) tagged st = Ok st' -> pending st' \/ commanded (st_ns st').
Proof using Type*.
  revert tagged st. induction fuel as [|fuel IH]; intros tagged st Hg Hc; [done|]. cbn [consume] in Hc.
  destruct (existsb is_option tagged).
  2: { inv_bind Hc as [[st1 rest]|] H1. injection Hc as <-. destruct (consume_positionals_group _ _ _ _ Hg H1) as [(_ & _ & Hcase) _].
       destruct Hcase as [?|(_ & _ & ?)]; [by left|by right]. }
  assert (('(st1, rest) ← consume_positionals tagged st;
            if (length rest <? length tagged)%nat then consume (ps_options p) fuel (ps_one_of p) rest st1
            else let '(skipped, rest) := span_while (fun a => negb (is_option a)) tagged in
                 consume (ps_options p) fuel (ps_one_of p) rest (with_extras st1 (skipped.*1))) = Ok st' -> pending st' \/ commanded (st_ns st')) as Hother.
  { intros Hr. inv_bind Hr as [[st1 rest]|] H1. destruct (consume_positionals_group _ _ _ _ Hg H1) as [Hg1 Hrest].
    destruct (length rest <? length tagged)%nat eqn:Hlt; [exact (IH _ _ Hg1 Hr)|]. apply Nat.ltb_ge in Hlt.
    destruct (span_while _ tagged) as [skipped rest2] eqn:Hsp. apply (IH rest2 (with_extras st1 skipped.*1)); [|done]. apply group_extras.
    assert (group_state tagged st1) as Hg2.
    { destruct Hrest as [[-> ->]| ->]; [done|]. destruct tagged; [done|cbn in Hlt; lia]. }
    pose proof (group_span (fun a => negb (is_option a)) _ _ Hg2) as Hg3. by rewrite Hsp in Hg3. }
  destruct tagged as [|[arg [m| |]] rest]; [by apply Hother| |by apply Hother..].
  inv_bind Hc as [[st1 rest1]|] H1. exact (IH _ _ (consume_optional_group _ _ _ _ _ _ Hg H1) Hc).
Qed.

(** The end of a parse with commands: no command was given, where none is required,
    or the parser of a command read what follows its name, and all it left is there. *)
Lemma group_parsed ns extras : Forall plain args0 -> NoDup (entries p).*1 -> parse_known_args p args0 = Ok (ns, extras) ->
  (req = false /\ ns !! dest = Some VNone /\ forall k, k ∉ (entries p).*1 -> ns !! k = None) \/ commanded ns.
Proof using Type*.
  intros Hplain Hnd Hparse. unfold parse_known_args in Hparse. inv_bind Hparse as [tagged|] Ht. inv_bind Hparse as [st|] Hc.
  destruct (incomplete p st) eqn:Hi; [done|]. injection Hparse as <- <-.
  destruct (consume_group _ _ _ _ (group_initial tagged Hplain Hnd Ht) Hc) as [(Hst & Hd & Hk)|Hcom]; [left|by right].
  split; [|done]. unfold incomplete in Hi. rewrite !orb_false_iff in Hi. destruct Hi as [[_ Hmiss] _]. by rewrite Hst Hp in Hmiss.
Qed.
End Group.
