(* ===== verification/Arguments.v ===== *)
(** * The command lines of the programs

    [cli/main.py] with the parsers of [cli/commands/] and [cli/identity/commands.py],
    and the parsers of [release.py], [ci/check_estate_data.py] and
    [scripts/gen_identity_recipe_vectors.py], over the parsing of [Argparse.v]: the
    command a line stands for, with the arguments its handler reads. *)

From stdpp Require Import options.
From S2P Require Import Prelude PyStr Json Errors Migrating Materializing Cli Argparse.

(** ** Parsers *)

(** [add_argument] with one long option. *)
Definition text (s dest : string) : option_spec := {|
  o_strings := [s]; o_dest := dest; o_kind := Store; o_type := TStr; o_choices := None; o_required := false; o_default := VNone |}.
Definition flag (s dest : string) : option_spec := {|
  o_strings := [s]; o_dest := dest; o_kind := StoreTrue; o_type := TStr; o_choices := None; o_required := false; o_default := VBool false |}.
Definition many (s dest : string) : option_spec := {|
  o_strings := [s]; o_dest := dest; o_kind := Append; o_type := TStr; o_choices := None; o_required := false; o_default := VNone |}.
Definition path_option (s dest : string) : option_spec := {|
  o_strings := [s]; o_dest := dest; o_kind := Store; o_type := TPath; o_choices := None; o_required := false; o_default := VNone |}.
Definition number (s dest : string) (dflt : value) : option_spec := {|
  o_strings := [s]; o_dest := dest; o_kind := Store; o_type := TInt; o_choices := None; o_required := false; o_default := dflt |}.
Definition required (o : option_spec) : option_spec := {|
  o_strings := o_strings o; o_dest := o_dest o; o_kind := o_kind o; o_type := o_type o; o_choices := o_choices o;
  o_required := true; o_default := o_default o |}.
Definition choosing (l : list string) (o : option_spec) : option_spec := {|
  o_strings := o_strings o; o_dest := o_dest o; o_kind := o_kind o; o_type := o_type o; o_choices := Some l;
  o_required := o_required o; o_default := o_default o |}.
Definition defaulting (s : string) (o : option_spec) : option_spec := {|
  o_strings := o_strings o; o_dest := o_dest o; o_kind := o_kind o; o_type := o_type o; o_choices := o_choices o;
  o_required := o_required o; o_default := VStr s |}.

(** A parser with a handler, and one with commands. *)
Definition leaf (handler : string) (positional : option positional) (options : list option_spec) : parser := {|
  ps_options := help_option :: options; ps_positional := positional; ps_one_of := []; ps_defaults := [("handler", VFun handler)] |}.
Definition group (dest : string) (required : bool) (options : list option_spec) (commands : list (string * parser)) : parser := {|
  ps_options := help_option :: options;
  ps_positional := Some (Subparsers dest required (map (fun c => (c.1, parse_known_args c.2)) commands));
  ps_one_of := []; ps_defaults := [] |}.

(** [register_auth_parser]. *)
Definition auth_commands : list (string * parser) := [
  ("local", leaf "cmd_auth_local" None [text "--identity" "identity"; flag "--machine" "machine"; flag "--human" "human"]);
  ("login", leaf "cmd_auth_login" None [text "--token-file" "token_file"; defaulting "openid" (text "--scope" "scope")]);
  ("service-account", leaf "cmd_auth_service_account" None
     [text "--client-id" "client_id"; text "--client-secret-file" "client_secret_file"; defaulting "openid" (text "--scope" "scope")]);
  ("status", leaf "cmd_auth_status" None []);
  ("logout", leaf "cmd_auth_logout" None [flag "--all" "all"]);
  ("refresh", leaf "cmd_auth_refresh" None []);
  ("token", leaf "cmd_auth_token" None []);
  ("switch", leaf "cmd_auth_switch" (Some (Optional "host" TStr VNone)) [])].
Definition config_commands : list (string * parser) := [
  ("set", leaf "cmd_config_set" None [text "--server" "server"; text "--issuer" "issuer"; text "--client-id" "client_id"])].

(** [register_write_parsers]. *)
Definition write_commands : list (string * parser) := [
  ("fingerprint", leaf "cmd_fingerprint" (Some (One "report_path" TStr)) []);
  ("countersign", leaf "cmd_countersign" (Some (One "finding_ref" TStr))
     [required (choosing ["false_positive"; "keep_open"; "confirmed"; "severity"] (text "--verdict" "verdict"));
      required (text "--rationale" "rationale"); text "--layer" "layer"; text "--severity" "severity"]);
  ("event", leaf "cmd_event" (Some (One "file_path" TStr)) [required (text "--kind" "kind")]);
  ("initialize", leaf "cmd_initialize" (Some (One "layer_file" TStr))
     [required (text "--layer" "layer"); text "--product-repo-id" "product_repo_id"]);
  ("submit", leaf "cmd_submit" (Some (One "events_file" TStr))
     [required (text "--layer" "layer"); text "--queue" "queue_file"; defaulting "" (text "--source-ref" "source_ref")])].

(** [register_restate_parser]. *)
Definition TARGETS : list string := ["claim_hashes"; "audit_report_sha256"; "artifact_digests"].
Definition REASONS : list string := ["data_error"; "schema_migration"; "baseline_rewrite"; "operator_error"].
Definition restate_parser : parser := leaf "cmd_restate" None
  [text "--layer" "layer"; choosing TARGETS (text "--target" "target"); choosing REASONS (text "--reason" "reason");
   text "--after" "after"; text "--before" "before"; text "--ticket" "ticket"; text "--approved-by" "approved_by";
   text "--rationale" "rationale"; text "--finding-ref" "finding_ref"; text "--schema-from" "schema_from";
   text "--schema-to" "schema_to"; text "--from" "batch"].

(** [register_query_parser]. *)
Definition query_commands : list (string * parser) := [
  ("layers", leaf "cmd_query_layers" None [flag "--json" "as_json"]);
  ("layer", leaf "cmd_query_layer" (Some (One "layer_id" TStr)) []);
  ("findings", leaf "cmd_query_findings" (Some (Optional "layer_id" TStr VNone))
     [flag "--all" "bulk"; text "--cursor" "cursor"; number "--limit" "limit" (VInt 100); number "--since-epoch" "since_epoch" VNone]);
  ("events", leaf "cmd_query_events" (Some (One "layer_id" TStr))
     [text "--finding-ref" "finding_ref"; text "--source-type" "source_type"; number "--limit" "limit" (VInt 100);
      number "--offset" "offset" (VInt 0)])].

(** [register_migrate_parser]: exactly one of the two sources is given. *)
Definition migrate_parser : parser := {|
  ps_options := help_option ::
    [path_option "--source-dir" "source_dir"; path_option "--selection-manifest" "selection_manifest";
     text "--source-ledger-database-url" "source_ledger_database_url"; text "--target-database-url" "target_database_url";
     text "--writer-role" "writer_role"; text "--projector-role" "projector_role"; text "--reader-role" "reader_role";
     text "--signature-key" "signature_key"; many "--layer" "layers"; flag "--dry-run" "dry_run"; flag "--json" "json"];
  ps_positional := None; ps_one_of := ["source_dir"; "source_ledger_database_url"];
  ps_defaults := [("handler", VFun "cmd_migrate")] |}.

(** [register_materialize_parser]. *)
Definition materialize_parser : parser := leaf "cmd_materialize" None
  [text "--to" "to"; flag "--prune-empty" "prune_empty"; flag "--json" "json"; flag "--ddl" "ddl"; many "--layer" "layers"].
(** [register_verify_parser]. *)
Definition verify_parser : parser := leaf "cmd_verify" (Some (Optional "layer_id" TStr VNone))
  [flag "--all" "all"; text "--path" "path"; flag "--check-signatures" "check_signatures"].
(** [register_resolve_parser]. *)
Definition resolve_parser : parser := leaf "cmd_resolve" (Some (One "layer_id" TStr))
  [required (text "--key" "key"); required (choosing ["confirmed"; "rejected"] (text "--decision" "decision")); text "--note" "note"].
(** [register_sign_parser]. *)
Definition sign_commands : list (string * parser) := [
  ("sign", leaf "cmd_sign" (Some (One "layer_path" TStr))
     [text "--key" "key"; defaulting "keypair" (choosing ["keypair"; "identity"] (text "--method" "method")); flag "--rekor" "rekor";
      text "--oidc-issuer" "oidc_issuer"; text "--oidc-client-id" "oidc_client_id"; text "--expected-identity" "expected_identity"]);
  ("verify-signature", leaf "cmd_verify_signature" (Some (One "layer_path" TStr)) [text "--key" "key"])].

(** [_build_parser], in the order of registration. *)
Definition query_parser : parser := group "query_command" true [flag "--json" "as_json"] query_commands.
Definition ledger_commands : list (string * parser) :=
  [("auth", group "auth_command" true [] auth_commands); ("config", group "config_command" true [] config_commands)]
  ++ write_commands
  ++ [("restate", restate_parser); ("query", query_parser); ("migrate", migrate_parser); ("materialize", materialize_parser);
      ("verify", verify_parser); ("resolve", resolve_parser)]
  ++ sign_commands ++ [("status", leaf "cmd_status" None [])].
Definition ledger_parser : parser := group "command" false [] ledger_commands.

(** [release.py]: the flags are options of the program and of every command. *)
Definition release_flags : list option_spec := [
  {| o_strings := ["-m"; "--message"]; o_dest := "message"; o_kind := Store; o_type := TStr; o_choices := None;
     o_required := false; o_default := VNone |};
  flag "--skip-test" "skip_test"; flag "--allow-dirty" "allow_dirty"; flag "--push" "push"; flag "--force" "force"].
Definition release_command (positional : option positional) : parser := {|
  ps_options := help_option :: release_flags; ps_positional := positional; ps_one_of := []; ps_defaults := [] |}.
Definition release_commands : list (string * parser) :=
  [("status", release_command None); ("bump", release_command (Some (One "part" TStr))); ("check", release_command None);
   ("test", release_command None); ("build", release_command None); ("tag", release_command None); ("push", release_command None);
   ("release", release_command None); ("release-if-ready", release_command None)].
Definition release_parser : parser := group "cmd" true release_flags release_commands.

(** [ci/check_estate_data.py] and the generator of golden vectors. *)
Definition guard_parser : parser := {|
  ps_options := [help_option; flag "--staged" "staged"; flag "--quiet" "quiet"; flag "--assume-public" "assume_public"];
  ps_positional := Some (Optional "repo" TPath (VStr ".")); ps_one_of := []; ps_defaults := [] |}.
Definition vectors_parser (fixture : string) : parser := {|
  ps_options := [help_option; {| o_strings := ["--output"]; o_dest := "output"; o_kind := Store; o_type := TPath; o_choices := None;
                                 o_required := false; o_default := VPath fixture |}; flag "--allow-recipe-change" "allow_recipe_change"];
  ps_positional := None; ps_one_of := []; ps_defaults := [] |}.

(** ** Commands *)

Record restate_line := {
  rl_layer : option string; rl_target : option string; rl_reason : option string; rl_after : option string;
  rl_before : option string; rl_ticket : option string; rl_approved_by : option string; rl_rationale : option string;
  rl_finding_ref : option string; rl_schema_from : option string; rl_schema_to : option string; rl_batch : option string
}.
(** A command with the arguments its handler reads. *)
Inductive command :=
| AuthLocal (identity : option string) (machine human : bool)
| AuthLogin (token_file : option string) (scope : string)
| AuthServiceAccount (client_id client_secret_file : option string) (scope : string)
| AuthStatus
| AuthLogout (all : bool)
| AuthRefresh
| AuthToken
| AuthSwitch (host : option string)
| ConfigSet (server issuer client_id : option string)
| Fingerprint (report_path : string)
| Countersign (finding_ref verdict rationale : string) (layer severity : option string)
| Event (file_path kind : string)
| Initialize (layer_file layer : string) (product_repo_id : option string)
| Submit (events_file layer : string) (queue_file : option string) (source_ref : string)
| Restate (a : restate_line)
| QueryLayers (as_json : bool)
| QueryLayer (layer_id : string)
| QueryFindings (layer_id : option string) (bulk : bool) (cursor : option string) (limit : Z) (since_epoch : option Z)
| QueryEvents (layer_id : string) (finding_ref source_type : option string) (limit offset : Z)
| Migrate (a : migrate_args) (as_json : bool)
| Materialize (a : materialize_args)
| Verify (layer_id : option string) (all : bool) (path : option string) (check_signatures : bool)
| Resolve (layer_id key decision : string) (note : option string)
| Sign (layer_path : string) (a : sign_args)
| VerifySignature (layer_path : string) (key : option string)
| Status.

(** [args.name], by what its reader takes it for. *)
Definition get_text (ns : namespace) (k : string) : option string := match ns !! k with Some (VStr s) => Some s | _ => None end.
Definition get_opt (ns : namespace) (k : string) : option (option string) :=
  match ns !! k with Some (VStr s) => Some (Some s) | Some VNone => Some None | _ => None end.
Definition get_path (ns : namespace) (k : string) : option (option string) :=
  match ns !! k with Some (VPath s) => Some (Some s) | Some VNone => Some None | _ => None end.
Definition get_flag (ns : namespace) (k : string) : option bool := match ns !! k with Some (VBool b) => Some b | _ => None end.
Definition get_int (ns : namespace) (k : string) : option Z := match ns !! k with Some (VInt z) => Some z | _ => None end.
Definition get_opt_int (ns : namespace) (k : string) : option (option Z) :=
  match ns !! k with Some (VInt z) => Some (Some z) | Some VNone => Some None | _ => None end.
Definition text_of (v : value) : option string := match v with VStr s => Some s | _ => None end.
Definition get_texts (ns : namespace) (k : string) : option (option (list string)) :=
  match ns !! k with
  | Some (VList l) => if forallb is_text l then Some (Some (omap text_of l)) else None
  | Some VNone => Some None
  | _ => None
  end.

Section Readers.
Context (ns : namespace).
#[local] Notation "'text!' k" := (get_text ns k) (at level 10).
#[local] Notation "'opt!' k" := (get_opt ns k) (at level 10).
#[local] Notation "'flag!' k" := (get_flag ns k) (at level 10).

Definition read_restate : option command :=
  layer ← opt! "layer"; target ← opt! "target"; reason ← opt! "reason"; after ← opt! "after"; before ← opt! "before";
  ticket ← opt! "ticket"; approved_by ← opt! "approved_by"; rationale ← opt! "rationale"; finding_ref ← opt! "finding_ref";
  schema_from ← opt! "schema_from"; schema_to ← opt! "schema_to"; batch ← opt! "batch";
  Some (Restate {| rl_layer := layer; rl_target := target; rl_reason := reason; rl_after := after; rl_before := before;
    rl_ticket := ticket; rl_approved_by := approved_by; rl_rationale := rationale; rl_finding_ref := finding_ref;
    rl_schema_from := schema_from; rl_schema_to := schema_to; rl_batch := batch |}).
Definition read_migrate : option command :=
  source_dir ← get_path ns "source_dir"; manifest ← get_path ns "selection_manifest"; source ← opt! "source_ledger_database_url";
  target ← opt! "target_database_url"; writer ← opt! "writer_role"; projector ← opt! "projector_role"; reader ← opt! "reader_role";
  key ← opt! "signature_key"; layers ← get_texts ns "layers"; dry_run ← flag! "dry_run"; as_json ← flag! "json";
  Some (Migrate {| a_source_dir := source_dir; a_selection_manifest := manifest; a_source_url := source; a_target_url := target;
    a_writer_role := writer; a_projector_role := projector; a_reader_role := reader; a_signature_key := key;
    a_layers := default [] layers; a_dry_run := dry_run |} as_json).

(** The command of a handler's name. *)
Definition readers : list (string * option command) := [
  ("cmd_auth_local", identity ← opt! "identity"; machine ← flag! "machine"; human ← flag! "human"; Some (AuthLocal identity machine human));
  ("cmd_auth_login", token_file ← opt! "token_file"; scope ← text! "scope"; Some (AuthLogin token_file scope));
  ("cmd_auth_service_account", client_id ← opt! "client_id"; file ← opt! "client_secret_file"; scope ← text! "scope";
     Some (AuthServiceAccount client_id file scope));
  ("cmd_auth_status", Some AuthStatus);
  ("cmd_auth_logout", all ← flag! "all"; Some (AuthLogout all));
  ("cmd_auth_refresh", Some AuthRefresh);
  ("cmd_auth_token", Some AuthToken);
  ("cmd_auth_switch", host ← opt! "host"; Some (AuthSwitch host));
  ("cmd_config_set", server ← opt! "server"; issuer ← opt! "issuer"; client_id ← opt! "client_id"; Some (ConfigSet server issuer client_id));
  ("cmd_fingerprint", path ← text! "report_path"; Some (Fingerprint path));
  ("cmd_countersign", ref ← text! "finding_ref"; verdict ← text! "verdict"; rationale ← text! "rationale"; layer ← opt! "layer";
     severity ← opt! "severity"; Some (Countersign ref verdict rationale layer severity));
  ("cmd_event", path ← text! "file_path"; kind ← text! "kind"; Some (Event path kind));
  ("cmd_initialize", file ← text! "layer_file"; layer ← text! "layer"; owner ← opt! "product_repo_id"; Some (Initialize file layer owner));
  ("cmd_submit", file ← text! "events_file"; layer ← text! "layer"; queue ← opt! "queue_file"; ref ← text! "source_ref";
     Some (Submit file layer queue ref));
  ("cmd_restate", read_restate);
  ("cmd_query_layers", as_json ← flag! "as_json"; Some (QueryLayers as_json));
  ("cmd_query_layer", layer_id ← text! "layer_id"; Some (QueryLayer layer_id));
  ("cmd_query_findings", layer_id ← opt! "layer_id"; bulk ← flag! "bulk"; cursor ← opt! "cursor"; limit ← get_int ns "limit";
     since ← get_opt_int ns "since_epoch"; Some (QueryFindings layer_id bulk cursor limit since));
  ("cmd_query_events", layer_id ← text! "layer_id"; ref ← opt! "finding_ref"; type ← opt! "source_type"; limit ← get_int ns "limit";
     offset ← get_int ns "offset"; Some (QueryEvents layer_id ref type limit offset));
  ("cmd_migrate", read_migrate);
  ("cmd_materialize", to ← opt! "to"; prune ← flag! "prune_empty"; as_json ← flag! "json"; ddl ← flag! "ddl"; layers ← get_texts ns "layers";
     Some (Materialize {| ma_to := to; ma_prune_empty := prune; ma_json := as_json; ma_ddl := ddl; ma_layers := layers |}));
  ("cmd_verify", layer_id ← opt! "layer_id"; all ← flag! "all"; path ← opt! "path"; check ← flag! "check_signatures";
     Some (Verify layer_id all path check));
  ("cmd_resolve", layer_id ← text! "layer_id"; key ← text! "key"; decision ← text! "decision"; note ← opt! "note";
     Some (Resolve layer_id key decision note));
  ("cmd_sign", path ← text! "layer_path"; key ← opt! "key"; method ← text! "method"; rekor ← flag! "rekor"; issuer ← opt! "oidc_issuer";
     client_id ← opt! "oidc_client_id"; expected ← opt! "expected_identity";
     Some (Sign path {| sa_method := method; sa_key := key; sa_oidc_issuer := issuer; sa_oidc_client_id := client_id;
                        sa_expected_identity := expected; sa_rekor := rekor |}));
  ("cmd_verify_signature", path ← text! "layer_path"; key ← opt! "key"; Some (VerifySignature path key));
  ("cmd_status", Some Status)].
(** [getattr(args, "handler", None)], called with the arguments. *)
Definition command_of : option command :=
  match ns !! "handler" with
  | Some (VFun h) => match List.find (fun r => String.eqb r.1 h) readers with Some (_, c) => c | None => None end
  | _ => None
  end.
End Readers.

(** [main]: [handle] is the handler of the arguments. *)
Definition main (handle : namespace -> res Z) (argv : list string) : res Z :=
  match parse_args ledger_parser argv with
  | Err code => Ok code
  | Ok ns =>
      if match ns !! "command" with Some (VStr s) => str_truthy s | _ => false end then
        match ns !! "handler" with
        | Some _ => match handle ns with Err (Storage _) => Ok 1%Z | r => r end
        | None => Ok 1%Z
        end
      else Ok 1%Z
  end.

(** The command of [Cli.v] behind a command that writes a layer; [restate] takes its
    file first. *)
Definition ledger_command (c : command) : option cli_command :=
  match c with
  | Countersign ref verdict rationale layer severity => Some (LedgerCountersign ref verdict rationale layer severity)
  | Event path kind => Some (LedgerEvent path kind)
  | Initialize file layer owner => Some (LedgerInitialize file layer owner)
  | Resolve layer_id key decision note => Some (LedgerResolve layer_id key decision note)
  | Submit file layer queue ref => Some (LedgerSubmit file layer queue ref)
  | Sign path a => Some (LedgerSign path a)
  | Restate a =>
      Some (if opt_truthy (rl_batch a) then LedgerRestateBatch (default "" (rl_batch a))
            else LedgerRestate {|
              ra_layer := rl_layer a; ra_target := rl_target a; ra_reason := rl_reason a; ra_before := rl_before a; ra_after := rl_after a;
              ra_ticket := rl_ticket a; ra_approved_by := rl_approved_by a; ra_rationale := rl_rationale a;
              ra_finding_ref := rl_finding_ref a; ra_schema_from := rl_schema_from a; ra_schema_to := rl_schema_to a |})
  | _ => None
  end.

(** ** Command lines are typed *)

Definition valid (c : command) : Prop :=
  match c with
  | Countersign _ verdict _ _ _ => verdict ∈ ["false_positive"; "keep_open"; "confirmed"; "severity"]
  | Resolve _ _ decision _ => decision ∈ ["confirmed"; "rejected"]
  | Sign _ a => sa_method a ∈ ["keypair"; "identity"]
  | Restate a => (forall t, rl_target a = Some t -> t ∈ TARGETS) /\ (forall r, rl_reason a = Some r -> r ∈ REASONS)
  | Migrate a _ => is_Some (a_source_dir a) <-> a_source_url a = None
  | _ => True
  end.

Lemma fits_weaken o ns ns' : ns ⊆ ns' -> fits o ns -> fits o ns'.
Proof. intros Hs (v & Hv & Hc). exists v. split; [|done]. exact (lookup_weaken _ _ _ _ Hv Hs). Qed.
Lemma fits_positional_weaken q ns ns' : ns ⊆ ns' -> fits_positional q ns -> fits_positional q ns'.
Proof.
  intros Hs. destruct q as [d ty|d ty dflt|]; cbn; [| |done]; intros (v & Hv & Hc); exists v; (split; [|done]); exact (lookup_weaken _ _ _ _ Hv Hs).
Qed.
Lemma allowed_in l s : allowed (Some l) s = true -> s ∈ l.
Proof. cbn. intros (t & Ht & Heq%String.eqb_eq)%existsb_exists. subst t. by apply list_elem_of_In. Qed.

Section Reading.
Context (ns : namespace).

Lemma fits_text s d : fits (text s d) ns -> exists o, get_opt ns d = Some o.
Proof. intros (v & Hv & [Hg|[_ ->]]); unfold get_opt; cbn in *; rewrite Hv; [destruct v; try done|]; by eexists. Qed.
Lemma fits_required s d : fits (required (text s d)) ns -> exists t, get_text ns d = Some t.
Proof. intros (v & Hv & [Hg|[? _]]); [|done]. unfold get_text. cbn in *. rewrite Hv. destruct v; try done. by eexists. Qed.
Lemma fits_choosing l s d : fits (choosing l (text s d)) ns -> exists o, get_opt ns d = Some o /\ forall t, o = Some t -> t ∈ l.
Proof.
  intros (v & Hv & [Hg|[_ ->]]); unfold get_opt; cbn in *; rewrite Hv; [|by exists None].
  destruct v; try done. eexists. split; [done|]. intros t [= <-]. by apply allowed_in.
Qed.
Lemma fits_required_choosing l s d : fits (required (choosing l (text s d))) ns -> exists t, get_text ns d = Some t /\ t ∈ l.
Proof.
  intros (v & Hv & [Hg|[? _]]); [|done]. unfold get_text. cbn in *. rewrite Hv. destruct v; try done. eexists. split; [done|by apply allowed_in].
Qed.
Lemma fits_defaulting x s d : fits (defaulting x (text s d)) ns -> exists t, get_text ns d = Some t.
Proof. intros (v & Hv & [Hg|[_ ->]]); unfold get_text; cbn in *; rewrite Hv; [destruct v; try done|]; by eexists. Qed.
Lemma fits_defaulting_choosing x l s d : x ∈ l -> fits (defaulting x (choosing l (text s d))) ns -> exists t, get_text ns d = Some t /\ t ∈ l.
Proof.
  intros Hx (v & Hv & [Hg|[_ ->]]); unfold get_text; cbn in *; rewrite Hv; [|by exists x].
  destruct v; try done. eexists. split; [done|by apply allowed_in].
Qed.
Lemma fits_flag s d : fits (flag s d) ns -> exists b, get_flag ns d = Some b.
Proof. intros (v & Hv & [Hg|[_ ->]]); unfold get_flag; cbn in *; rewrite Hv; [rewrite Hg|]; by eexists. Qed.
Lemma fits_many s d : fits (many s d) ns -> exists o, get_texts ns d = Some o.
Proof.
  intros (v & Hv & [Hg|[_ ->]]); unfold get_texts; cbn in *; rewrite Hv; [|by eexists].
  destruct Hg as (l & -> & _ & ->). by eexists.
Qed.
Lemma fits_path s d : fits (path_option s d) ns -> exists o, get_path ns d = Some o.
Proof. intros (v & Hv & [Hg|[_ ->]]); unfold get_path; cbn in *; rewrite Hv; [destruct v; try done|]; by eexists. Qed.
Lemma fits_number s d z : fits (number s d (VInt z)) ns -> exists t, get_int ns d = Some t.
Proof. intros (v & Hv & [Hg|[_ ->]]); unfold get_int; cbn in *; rewrite Hv; [destruct v; try done|]; by eexists. Qed.
Lemma fits_opt_number s d : fits (number s d VNone) ns -> exists o, get_opt_int ns d = Some o.
Proof. intros (v & Hv & [Hg|[_ ->]]); unfold get_opt_int; cbn in *; rewrite Hv; [destruct v; try done|]; by eexists. Qed.
Lemma fits_one d : fits_positional (One d TStr) ns -> exists t, get_text ns d = Some t.
Proof. intros (v & Hv & Hg). unfold get_text. rewrite Hv. destruct v; try done. by eexists. Qed.
Lemma fits_optional d : fits_positional (Optional d TStr VNone) ns -> exists o, get_opt ns d = Some o.
Proof. intros (v & Hv & [Hg|Hg]); unfold get_opt; rewrite Hv; [destruct v; try done|rewrite Hg]; by eexists. Qed.
End Reading.

(** The namespaces a parser leaves stand for a command. *)
Definition reads (p : parser) : Prop := forall args sub extras ns, Forall plain args -> parse_known_args p args = Ok (sub, extras) ->
  sub ⊆ ns -> exists c, command_of ns = Some c /\ valid c.
(** The facts about a parser that the commands are read from. *)
Lemma leaf_facts p os : ps_options p = help_option :: os -> forallb (fun o => negb (is_help o)) os = true -> leaf_ok p = true ->
  forall args sub extras ns, Forall plain args -> parse_known_args p args = Ok (sub, extras) -> sub ⊆ ns ->
  Forall (fun o => fits o ns) os /\ match ps_positional p with Some q => fits_positional q ns | None => True end
  /\ Forall (fun kv => ns !! kv.1 = Some kv.2) (ps_defaults p).
Proof.
  intros Hos Hvalue Hok args sub extras ns Hplain Hparse Hs.
  assert (value_options p = os) as Hv by (unfold value_options; rewrite Hos; cbn [List.filter is_help help_option o_kind negb];
    apply filter_all; exact (proj1 (forallb_forall _ _) Hvalue)).
  destruct (leaf_typed p Hok _ _ _ Hplain Hparse) as (Hopt & Hpos & Hdef & _). rewrite Hv in Hopt. split; [|split].
  - apply Forall_forall. intros o Ho. exact (fits_weaken _ _ _ Hs (Hopt o Ho)).
  - destruct (ps_positional p) as [q|]; [|done]. exact (fits_positional_weaken _ _ _ Hs (Hpos q eq_refl)).
  - apply Forall_forall. intros [k v] Hk. exact (lookup_weaken _ _ _ _ (Hdef _ _ Hk) Hs).
Qed.

(** Turn the facts into the fields the reader of the handler asks for. *)
Ltac read_field H := first
  [ apply fits_required_choosing in H as (? & ? & ?) | apply fits_required in H as [? ?] | apply fits_choosing in H as (? & ? & ?)
  | apply fits_defaulting_choosing in H as (? & ? & ?); [|by set_solver] | apply fits_defaulting in H as [? ?] | apply fits_text in H as [? ?]
  | apply fits_flag in H as [? ?] | apply fits_many in H as [? ?] | apply fits_path in H as [? ?] | apply fits_number in H as [? ?]
  | apply fits_opt_number in H as [? ?] | apply fits_one in H as [? ?] | apply fits_optional in H as [? ?] ].
Ltac read_fields := repeat match goal with
  | H : Forall _ (_ :: _) |- _ => apply Forall_cons in H as [? H]
  | H : Forall _ [] |- _ => clear H
  | H : fits _ _ |- _ => read_field H
  | H : fits_positional _ _ |- _ => read_field H
  end.
Ltac read_command := 
  unfold command_of; repeat match goal with H : _ !! "handler" = Some _ |- _ => rewrite H end;
  cbn [List.find readers fst String.eqb Ascii.eqb Bool.eqb];
  unfold read_restate, read_migrate; repeat match goal with H : _ = Some _ |- _ => rewrite H end; cbn [mbind option_bind];
  eexists; split; [reflexivity|].
Ltac leaf_fields F :=
  lazymatch goal with |- reads ?p =>
    pose proof (leaf_facts p _ eq_refl) as F; specialize (F ltac:(vm_compute; reflexivity) ltac:(vm_compute; reflexivity)) end;
  intros args sub extras ns Hplain Hparse Hsub; destruct (F _ _ _ ns Hplain Hparse Hsub) as (Hopt & Hpos & Hdef); clear F;
  cbn [leaf migrate_parser ps_positional ps_defaults] in Hpos, Hdef; read_fields.
Ltac solve_leaf := let F := fresh in leaf_fields F; cbn [fst snd] in *; read_command; cbn [valid]; auto.

Lemma auth_reads : Forall (fun c => reads c.2) auth_commands.
Proof. repeat constructor; cbn [snd]; solve_leaf. Qed.
Lemma config_reads : Forall (fun c => reads c.2) config_commands.
Proof. repeat constructor; cbn [snd]; solve_leaf. Qed.
Lemma write_reads : Forall (fun c => reads c.2) write_commands.
Proof. repeat constructor; cbn [snd]; solve_leaf. Qed.
Lemma query_reads : Forall (fun c => reads c.2) query_commands.
Proof. repeat constructor; cbn [snd]; solve_leaf. Qed.
Lemma sign_reads : Forall (fun c => reads c.2) sign_commands.
Proof. repeat constructor; cbn [snd]; solve_leaf. Qed.
Lemma restate_reads : reads restate_parser.
Proof. unfold restate_parser. solve_leaf. Qed.
Lemma materialize_reads : reads materialize_parser.
Proof. unfold materialize_parser. solve_leaf. Qed.
Lemma verify_reads : reads verify_parser.
Proof. unfold verify_parser. solve_leaf. Qed.
Lemma resolve_reads : reads resolve_parser.
Proof. unfold resolve_parser. solve_leaf. Qed.
Lemma status_reads : reads (leaf "cmd_status" None []).
Proof. solve_leaf. Qed.

(** Exactly one of the sources of a migration is there. *)
Lemma one_source args sub extras ns : Forall plain args -> parse_known_args migrate_parser args = Ok (sub, extras) -> sub ⊆ ns ->
  exists dir url, get_path ns "source_dir" = Some dir /\ get_opt ns "source_ledger_database_url" = Some url /\ (is_Some dir <-> url = None).
Proof.
  intros Hplain Hparse Hsub. destruct (leaf_typed migrate_parser ltac:(vm_compute; reflexivity) _ _ _ Hplain Hparse) as (_ & _ & _ & Hone).
  destruct Hone as (d & Hd & Hone); [done|].
  destruct (Hone (path_option "--source-dir" "source_dir")) as (v & Hv & Hcv); [by left|by left|].
  destruct (Hone (text "--source-ledger-database-url" "source_ledger_database_url")) as (w & Hw & Hcw); [by right; right; left|by right; left|].
  cbn in Hv, Hw, Hcv, Hcw. unfold get_path, get_opt. rewrite (lookup_weaken _ _ _ _ Hv Hsub) (lookup_weaken _ _ _ _ Hw Hsub).
  apply elem_of_cons in Hd as [->|Hd%list_elem_of_singleton]; [|subst d].
  - destruct Hcv as [[_ Hg]|[? _]]; [|done]. destruct Hcw as [[? _]|[_ ->]]; [done|]. destruct v; try done. eexists _, _. by split_and!.
  - destruct Hcv as [[? _]|[_ ->]]; [done|]. destruct Hcw as [[_ Hg]|[? _]]; [|done]. destruct w; try done.
    eexists _, _. split_and!; [done|done|]. split; [by intros []|done].
Qed.
Lemma migrate_reads : reads migrate_parser.
Proof.
  let F := fresh in leaf_fields F. cbn [fst snd] in *. destruct (one_source _ _ _ ns Hplain Hparse Hsub) as (dir & url & Hdir & Hurl & Hiff).
  simplify_eq. read_command. exact Hiff.
Qed.

(** A parser with commands reads what the parser of its command reads. *)
Lemma group_reads dest req os commands args sub extras ns :
  Forall (fun c => reads c.2) commands -> bool_decide (NoDup ((entries (group dest req os commands)).*1)) = true ->
  bool_decide (dest ∈ map o_dest os) = false -> bool_decide ("handler" ∈ (entries (group dest req os commands)).*1) = false ->
  forallb (fun o => negb (is_help o)) os = true ->
  Forall plain args -> parse_known_args (group dest req os commands) args = Ok (sub, extras) -> sub ⊆ ns ->
  (req = false /\ sub !! dest = Some VNone /\ sub !! "handler" = None) \/ exists c, command_of ns = Some c /\ valid c.
Proof.
  rewrite bool_decide_eq_true !bool_decide_eq_false. intros Hall Hnd Hdest Hhandler Hvalue Hplain Hparse Hs.
  assert (value_options (group dest req os commands) = os) as Hv
    by (cbn; apply filter_all; exact (proj1 (forallb_forall _ _) Hvalue)).
  destruct (group_parsed (group dest req os commands) dest req _ eq_refl ltac:(by rewrite Hv) args sub extras Hplain Hnd Hparse)
    as [(Hr & Hd & Hk)|(pre & name & rest & f & sub' & ex & Hargs & Hin & Hf & Hsub & _ & _)].
  - left. split; [done|]. split; [done|]. by apply Hk.
  - right. apply list_elem_of_fmap in Hin as ([n p] & [= -> ->] & Hin). rewrite Forall_forall in Hall.
    apply (Hall _ Hin rest sub' ex); [|done|by transitivity sub]. rewrite Hargs in Hplain. apply Forall_app in Hplain as [_ Hplain].
    by apply Forall_cons in Hplain as [_ ?].
Qed.
Lemma group_command_reads dest os commands :
  Forall (fun c => reads c.2) commands -> bool_decide (NoDup ((entries (group dest true os commands)).*1)) = true ->
  bool_decide (dest ∈ map o_dest os) = false -> bool_decide ("handler" ∈ (entries (group dest true os commands)).*1) = false ->
  forallb (fun o => negb (is_help o)) os = true -> reads (group dest true os commands).
Proof.
  intros Hall Hnd Hdest Hhandler Hvalue args sub extras ns Hplain Hparse Hs.
  by destruct (group_reads _ _ _ _ _ _ _ _ Hall Hnd Hdest Hhandler Hvalue Hplain Hparse Hs) as [[? _]|?].
Qed.

Lemma ledger_reads : Forall (fun c => reads c.2) ledger_commands.
Proof.
  assert (forall dest os commands, Forall (fun c => reads c.2) commands ->
    bool_decide (NoDup ((entries (group dest true os [])).*1)) && negb (bool_decide (dest ∈ map o_dest os))
    && negb (bool_decide ("handler" ∈ (entries (group dest true os [])).*1)) && forallb (fun o => negb (is_help o)) os = true ->
    reads (group dest true os commands)) as Hgroup.
  { intros dest os commands Hall Hb. rewrite !andb_true_iff !negb_true_iff in Hb. destruct Hb as [[[? ?] ?] ?]. by apply group_command_reads. }
  unfold ledger_commands. apply Forall_app. split; [|apply Forall_app; split; [exact write_reads|apply Forall_app; split; [|apply Forall_app; split]]].
  - constructor; [apply Hgroup; [exact auth_reads|vm_compute; reflexivity]|].
    constructor; [apply Hgroup; [exact config_reads|vm_compute; reflexivity]|constructor].
  - constructor; [exact restate_reads|]. constructor; [apply Hgroup; [exact query_reads|vm_compute; reflexivity]|].
    constructor; [exact migrate_reads|]. constructor; [exact materialize_reads|]. constructor; [exact verify_reads|].
    constructor; [exact resolve_reads|constructor].
  - exact sign_reads.
  - constructor; [exact status_reads|constructor].
Qed.

(** Every parser of the tree ends with a namespace or a code of its own. *)
Lemma leaf_codes p args : match ps_positional p with Some (Subparsers _ _ _) => false | _ => true end = true -> codes_ok (parse_known_args p args).
Proof. intros Hp. apply codes_parse_known. unfold subs_ok. by destruct (ps_positional p) as [[| |]|]. Qed.
Lemma group_codes dest req os commands : (forall c args, c ∈ commands -> codes_ok (parse_known_args c.2 args)) ->
  subs_ok (ps_positional (group dest req os commands)).
Proof. intros Hall name sub args Hin. apply list_elem_of_fmap in Hin as ([n p] & [= -> ->] & Hin). exact (Hall _ _ Hin). Qed.
Lemma ledger_codes argv : codes_ok (parse_args ledger_parser argv).
Proof.
  apply codes_parse_args, group_codes. intros c args Hin.
  assert (forall l : list (string * parser), forallb (fun c => match ps_positional c.2 with Some (Subparsers _ _ _) => false | _ => true end) l = true ->
    forall c args, c ∈ l -> codes_ok (parse_known_args c.2 args)) as Hleaf.
  { intros l Hl c' args' Hin'%list_elem_of_In. apply leaf_codes. exact (proj1 (forallb_forall _ _) Hl _ Hin'). }
  repeat (apply elem_of_cons in Hin as [->|Hin]; [
    first [by apply leaf_codes | apply codes_parse_known, group_codes; apply Hleaf; vm_compute; reflexivity]|]).
  by apply not_elem_of_nil in Hin.
Qed.

(** No parser of a command writes the name of the command. *)
Definition lacks (k : string) (p : parser) : Prop := forall args sub extras, Forall plain args -> parse_known_args p args = Ok (sub, extras) -> sub !! k = None.
Lemma leaf_lacks k p : leaf_ok p && negb (bool_decide (k ∈ (entries p).*1)) = true -> lacks k p.
Proof.
  intros [Hok Hk%negb_true_iff%bool_decide_eq_false]%andb_prop args sub extras Hplain Hparse. exact (leaf_keys p Hok _ _ _ _ Hplain Hparse Hk).
Qed.
Lemma leaves_lack k (l : list (string * parser)) : forallb (fun c => leaf_ok c.2 && negb (bool_decide (k ∈ (entries c.2).*1))) l = true ->
  Forall (fun c => lacks k c.2) l.
Proof. intros Hl. apply Forall_forall. intros c Hc%list_elem_of_In. apply leaf_lacks. exact (proj1 (forallb_forall _ _) Hl _ Hc). Qed.
Lemma group_lacks k dest req os commands : Forall (fun c => lacks k c.2) commands ->
  bool_decide (NoDup ((entries (group dest req os commands)).*1)) = true -> bool_decide (dest ∈ map o_dest os) = false ->
  bool_decide (k ∈ (entries (group dest req os commands)).*1) = false -> forallb (fun o => negb (is_help o)) os = true ->
  lacks k (group dest req os commands).
Proof.
  rewrite bool_decide_eq_true !bool_decide_eq_false. intros Hall Hnd Hdest Hk Hvalue args sub extras Hplain Hparse.
  assert (value_options (group dest req os commands) = os) as Hv
    by (cbn; apply filter_all; exact (proj1 (forallb_forall _ _) Hvalue)).
  destruct (group_parsed (group dest req os commands) dest req _ eq_refl ltac:(by rewrite Hv) args sub extras Hplain Hnd Hparse)
    as [(_ & _ & Hkeys)|(pre & name & rest & f & sub' & ex & Hargs & Hin & Hf & _ & _ & Hkeys)]; [by apply Hkeys|].
  rewrite (Hkeys k Hk). apply list_elem_of_fmap in Hin as ([n p] & [= -> ->] & Hin). rewrite Forall_forall in Hall.
  apply (Hall _ Hin rest sub' ex); [|done]. rewrite Hargs in Hplain. apply Forall_app in Hplain as [_ Hplain].
  by apply Forall_cons in Hplain as [_ ?].
Qed.
Lemma ledger_lacks : Forall (fun c => lacks "command" c.2) ledger_commands.
Proof.
  repeat constructor; cbn [snd];
    first [ by apply leaf_lacks; vm_compute | apply group_lacks; [apply leaves_lack|..]; vm_compute; reflexivity ].
Qed.

(** The command that was given has a name. *)
Lemma ledger_named args ns extras : Forall plain args -> parse_known_args ledger_parser args = Ok (ns, extras) ->
  ns !! "command" = Some VNone \/ exists name, ns !! "command" = Some (VStr name) /\ str_truthy name = true.
Proof.
  intros Hplain Hparse. destruct (group_parsed ledger_parser "command" false _ eq_refl ltac:(by apply not_elem_of_nil) args ns extras Hplain
    ltac:(apply (bool_decide_unpack _); vm_compute; exact I) Hparse)
    as [(_ & Hd & _)|(pre & name & rest & f & sub & ex & Hargs & Hin & Hf & _ & Hname & _)]; [by left|right]. exists name.
  apply list_elem_of_fmap in Hin as ([n p] & [= -> ->] & Hin). split.
  - apply Hname. pose proof ledger_lacks as Hall. rewrite Forall_forall in Hall. apply (Hall _ Hin rest sub ex); [|done].
    rewrite Hargs in Hplain. apply Forall_app in Hplain as [_ Hplain]. by apply Forall_cons in Hplain as [_ ?].
  - assert (forallb (fun c => str_truthy c.1) ledger_commands = true) as Hall by (vm_compute; reflexivity).
    apply list_elem_of_In in Hin. exact (proj1 (forallb_forall _ _) Hall _ Hin).
Qed.


(** ** Options before a command *)

(** The release helper takes its flags before and after the command, but only those
    after it count: the parser of the command writes its own defaults over what was
    given before. *)
Theorem flags_before_command_are_lost argv ns : Forall plain argv -> parse_args release_parser argv = Ok ns ->
  exists pre name rest p sub extras, argv = pre ++ name :: rest /\ (name, p) ∈ release_commands
    /\ parse_known_args p rest = Ok (sub, extras) /\ forall o, o ∈ release_flags -> is_Some (sub !! o_dest o) /\ ns !! o_dest o = sub !! o_dest o.
Proof.
  intros Hplain Hp. unfold parse_args in Hp. inv_bind Hp as [[sub extras]|] Hk. destruct extras; [|done]. injection Hp as <-.
  destruct (group_parsed release_parser "cmd" true _ eq_refl ltac:(apply (bool_decide_unpack _); vm_compute; exact I) argv sub [] Hplain
    ltac:(apply (bool_decide_unpack _); vm_compute; exact I) Hk)
    as [[? _]|(pre & name & rest & f & sub' & ex & Hargs & Hin & Hf & Hsub & _ & _)]; [done|].
  apply list_elem_of_fmap in Hin as ([n p] & [= -> ->] & Hin). exists pre, n, rest, p, sub', ex. do 3 (split; [done|]).
  assert (forallb (fun c => leaf_ok c.2 && forallb (fun o => bool_decide (o_dest o ∈ map o_dest (value_options c.2))) release_flags) release_commands
    = true) as Hall by (vm_compute; reflexivity).
  pose proof (proj1 (forallb_forall _ _) Hall _ (proj1 (list_elem_of_In _ _) Hin)) as [Hok Hflags]%andb_prop. intros o Ho.
  pose proof (proj1 (forallb_forall _ _) Hflags _ (proj1 (list_elem_of_In _ _) Ho)) as Hd. apply bool_decide_eq_true in Hd.
  apply list_elem_of_fmap in Hd as (o' & Heq & Ho'). rewrite Hargs in Hplain. apply Forall_app in Hplain as [_ [_ Hrest]%Forall_cons].
  destruct (leaf_typed p Hok _ _ _ Hrest Hf) as (Hfits & _). destruct (Hfits o' Ho') as (v & Hv & _). rewrite Heq Hv.
  split; [by eexists|]. exact (lookup_weaken _ _ _ _ Hv Hsub).
Qed.
Example push_is_lost :
  (fun ns : namespace => (ns !! "push", ns !! "force", ns !! "message")) <$> parse_args release_parser ["--push"; "--force"; "-m"; "x"; "release"]
  = Ok (Some (VBool false), Some (VBool false), Some VNone).
Proof. vm_compute. reflexivity. Qed.
(** The same for the listing of layers. *)
Lemma json_before_layers_is_lost :
  (fun ns : namespace => command_of ns) <$> parse_args ledger_parser ["query"; "--json"; "layers"] = Ok (Some (QueryLayers false))
  /\ (fun ns : namespace => command_of ns) <$> parse_args ledger_parser ["query"; "layers"; "--json"] = Ok (Some (QueryLayers true)).
Proof. split; vm_compute; reflexivity. Qed.

(** ** Witness *)

Definition countersign_line : list string := ["countersign"; "F1"; "--verd=keep_open"; "--rationale"; "seen in test"; "--layer=L"].
Definition countersign_ns : namespace := match parse_args ledger_parser countersign_line with Ok ns => ns | Err _ => ∅ end.
Lemma countersign_parsed : parse_args ledger_parser countersign_line = Ok countersign_ns.
Proof.
  unfold countersign_ns. assert (is_ok (parse_args ledger_parser countersign_line) = true) by (vm_compute; reflexivity).
  by destruct (parse_args ledger_parser countersign_line).
Qed.
Lemma countersign_plain : Forall plain countersign_line.
Proof. repeat constructor; apply plain_endswith; vm_compute; reflexivity. Qed.
(** A line that is refused, and one that asks for help. *)
Example other_lines :
  map (fun line => main (fun _ => Ok 0%Z) line) [["countersign"; "F1"; "--verdict"; "fixed"; "--rationale"; "x"]; ["migrate"]; ["sign"; "-h"]; []; ["status"]]
  = [Ok 2; Ok 2; Ok 0; Ok 1; Ok 0]%Z.
Proof. vm_compute. reflexivity. Qed.
